(* ===== verification/_CoqProject ===== *)
-Q . S2P
Prelude.v
Log.v
Types.v
Isa.v
BusSpec.v
Bus.v
State.v
Interfaces.v
Mmu.v
Instruction.v
Emulation.v
Disasm.v
Debug.v
Exec.v
Console.v
Assembler.v
IsaSpec.v
Invariant.v
MmuSpec.v
Api.v
Runs.v
IsaArith.v
Routines.v
Refine.v
RunRefine.v
Fuel.v
HostControl.v
FetchFault.v
CallSpec.v
Frames.v
Faults.v
Decimal.v
TableSpec.v
AssemblerSpec.v
TextSpec.v
JitCache.v
JitEmit.v
Jit.v
Remap.v
JitNative.v
JitSpec.v
JitStores.v
JitAlias.v
JitInvariant.v
JitExact.v
JitShape.v
JitLoop.v
JitApi.v
JitErase.v
JitCoherent.v
JitRefine.v
JitBlock.v
JitInterrupt.v
JitRun.v
JitControl.v
Machine.v
FaultCases.v
JitMachine.v
Witnesses.v
JitWitnesses.v
ExHost.v
ExPae.v
ExMpu.v
ExCart.v
ExTasks.v
ExTinyos.v
ExHosts.v
ExBench.v
ExDevices.v
ExBasic.v
