(* ===== verification/Prelude.v ===== *)
(** * A verification of the rk65c02 emulator core

    rk65c02 ([src/src/]) emulates the WDC 65C02 processor inside a host
    program.  A host builds a bus, attaches devices, creates an instance of
    the emulator, installs callbacks and runs it; a guest program then executes
    by interpretation, or through native code generated by GNU lightning, with
    an optional MMU whose page tables the host implements as a callback.  This
    library models that program and proves what it does.

    ** The parts of the program and the files that model them

    The emulator instance, [struct rk65c02emu], is the record
    [State.rk65c02emu], field by field.  C functions that work on it are
    terms of the state monad [State.M]: a result is [Ret v], a [longjmp] out of
    native code, a failed [assert] or, for the unbounded loops, [NoFuel].
    Machine integers are elements of [Z], and every assignment to a variable
    of a narrower type applies the wrap function of its width ([Prelude.u8],
    [u16], [u32], [u64], [s8], [s16]).  Definitions keep the names of the C
    functions.

    - [Prelude]: machine integers, bit operators, hint databases and tactics.
      [Types]: the enums, structs and constants of [rk65c02.h] and
      [instruction.h].  [Isa]: the instruction table generated from
      [65c02isa.csv].
    - The bus ([bus.c], [bus.h], [device.h], [device_ram.c]) is [Bus].
      Devices are objects in a store, so that one mapped twice is shared.
      Devices of the host are the class [Bus.DeviceHost].  The core does not
      see this file: it is written against [BusSpec.BusOps], and its theorems
      against the contract [BusSpec.BusLaws], which [Bus] implements.
    - The core's surroundings are classes in [Interfaces]: [HostOps], what the
      host's callbacks do (any term of the monad, so callbacks may change the
      instance that called them; a device of the host may call back into the
      emulator from an access, [host_device_read] and [host_device_write]),
      and [JitOps], the entry points of the JIT
      backend; [Interfaces.jit_stub] is [jit_stub.c], [Jit.lightning_jit] is
      [jit.c].
    - Memory access, MMU, TLB and the MMU update protocol ([rk65c02.c]) are
      [Mmu]; fetching, operands, stack and program counter ([instruction.c])
      are [Instruction]; the emulation routines ([emulation.c]) are
      [Emulation]; breakpoints and traces ([debug.c]) are [Debug]; the text of
      instructions and registers is [Disasm], what is printed of stack and
      devices, and [rk65c02_load_rom], is [Console]; the assembler
      ([assembler.c]) is [Assembler].
    - Execution ([rk65c02_init], [rk65c02_exec], host polling,
      [rk65c02_start], [rk65c02_step], the callback setters) is [Exec].
    - The JIT backend ([jit.c]) is [JitCache] (blocks, reference counts,
      invalidation), [JitEmit] (the emission of native code: [jit_emit_insn]
      and its helpers, as lists of lightning's instructions) and [Jit] (block
      building and compilation, the store tracking, the dispatcher
      [rk65c02_run_jit]).  GNU lightning, which turns the emitted list into
      machine code, is the class [Jit.Lightning]; [JitNative] evaluates such
      lists, and [JitNative.LightningLaws] says that machine code does what its
      list evaluates to.
    - Logging ([log.c]) is [Log].
    - The host programs of [src/examples] are modelled with each [main] as a
      computation that returns the exit status, on the core above and linked
      with either backend.  [ExHost] holds what they share, [Remap] the
      sequence of calls by which they change their mapping.  [ExPae]
      ([mmu_pae.c]): a page table in guest memory and demand paging.  [ExMpu]
      ([mmu_mpu.c]): a protection unit, a device that updates the MMU and the
      interrupt line from its write function.  [ExCart] ([mmu_cart.c]): a
      bank-switched cartridge.  [ExTasks] ([mmu_multitasking.c]) and
      [ExTinyos] ([tinyos.c]): tasks with private memory.  [ExDevices]
      ([hello_serial.c], [interrupts.c]): devices of a host.  [ExBasic]
      ([msbasic_host.c]): a terminal, a break key and the label file.
      [ExHosts]: the hosts without MMU and devices.  [ExBench]
      ([jit_bench.c]): the benchmark, with its arithmetic in double precision.

    ** Specifications and theorems

    - Instruction set.  [IsaSpec] is an independent description of the
      processor: flags as booleans, memory as a function, one equation per
      operation.  [Refine.exec_refines_isa] (C1) proves that [rk65c02_exec]
      implements it for all 256 opcodes and for interrupts;
      [RunRefine.start_refines_isa] (C4) and [step_refines_isa] (C5) lift it to
      runs.  They are about flat RAM and an instance on its own: no MMU or the
      identity, no breakpoints, tracing or disassembly, no callbacks.
      [IsaArith], [Routines] and [Runs] hold the lemmas below them.
    - Typing.  [Invariant] states what a well-typed instance is;
      [Api.reachable_ok] (C6) proves it for every state that a sequence of API
      calls can produce, callbacks included.  The functions a backend provides
      are the record [Api.backend]; [JitApi.jit_reachable_exact]
      (C12) is the same for [jit.c], with its cache exact in
      every such state.
    - MMU.  [MmuSpec] specifies translation as a function of the host's page
      table and proves the TLB transparent (C10), the update protocol coherent
      (C11), and what faulting and succeeding stores and the identity fast path
      do (C15 to C17).  [Faults] and [Frames] prove when a faulting instruction
      can be executed again (C14); [FetchFault] proves that one that cannot be
      fetched is not (C37), and [FaultCases] has the concrete
      executions in which a fault changes the result of an instruction, loses
      the program counter or notifies the host three times.
    - JIT.  [JitSpec], [JitStores], [JitInvariant]: self-modifying code always
      invalidates the blocks it writes to, at its virtual address and at its
      physical address below 64K (C7), and the reference counts that
      the tracking relies on are exact throughout a run ([run_jit_cache_exact]).
      [JitExact]: the code emitted for any of the 256 opcodes does exactly what
      the interpreter's routine does, faults included, or calls the interpreter
      (C8); BIT reads its operand once, not twice.
      [JitShape], [JitLoop]: the emitter's arrays do not overflow
      (C36), and a block returns to the dispatcher within a
      fixed number of instructions (C9), leaving the
      emulator well-formed.
      [JitControl]: what the dispatcher does when the host requests a stop or
      turns debugging on (C25, C38).
      [JitAlias]: which physical addresses the tags of a block cover, and the
      two kinds of blocks that a store through an alias leaves stale, code in
      extended memory (C26) and code at the top of the 64K
      (C39), which C7 excludes.
    - The JIT against the instruction set.  [JitErase]: on plain memory the
      core does the same with a backend and without one, the backend aside.
      [JitCoherent]: every live block is the code in memory, or a store into
      it is pending and native code has been told to return; every instruction
      keeps that.  [JitRefine], [JitBlock]: one instruction of a block, and a
      block, take steps of [IsaSpec].  [JitRun]: compiling, calling,
      invalidating and going round do too, so [rk65c02_start] with the JIT
      implements the instruction set (C2), self-modifying programs included,
      run after run, and ends where the interpreter ends (C3).  The
      instance is on its own in these theorems and the interrupt line is down: [JitInterrupt] shows what
      a block does when an interrupt is taken inside it (C40), and
      [JitMachine.block_ignores_interrupt] is a program for which the two differ.
    - Hosts.  [Remap.remap_coherent] proves that a host that marks the pages it
      has changed keeps the TLB coherent with its page table, whatever the TLB
      held, and [Remap.uncached_stays] that pages a host does not let be cached
      never are.  On these rest: memory of one task of Tiny OS is out of reach
      of the others (C18); the protection unit blocks what
      it forbids and the TLB does not grant, and reports it (C19), and
      reprogramming it takes effect at once (C20) on the page it marks, but
      not on others ([ExMpu.mpu_stale_protection]); demand paging installs the
      page that faulted and nothing else (C21); the cartridge
      implements a bank register (C22), as long as its entry
      is not accessed as data ([ExCart.cart_data_read_switches]); what the linker
      writes into a label file the BASIC host reads back
      (C30).  [ExDevices.HelloSerial.serial_prints_stores]:
      stores to a device are printed in order.  The [_main_passes] theorems run
      each program on the ROM its source assembles to and show that it exits
      with the status its author documents; the BASIC interpreter is not in the
      repository, so [ExBasic] runs its host on a small guest.
    - Logging.  [Log.log_exact]: what is at or below the threshold is written,
      in order, and nothing else.
    - Host control.  [HostControl]: idle waiting (C23), tick cadence (C24),
      stop requests ([stop_request_honoured], for all three loops C25),
      breakpoints ([breakpoint_stops], C27).
      [Fuel.start_fuel_monotone]: the fuel of the model is only a bound.
    - Bus, table, assembler, stack, decimal mode, text:
      C13, C28, C29, C31, C32, C33, C34, C35 in
      [Bus], [TableSpec], [AssemblerSpec], [CallSpec], [Decimal], with
      [TableSpec.opcode_by_mnemonic_lowest], [Decimal.decimal_helpers_agree],
      [Decimal.bcd_roundtrip] and [TextSpec.text_not_truncated] beside them.

    [Machine], [JitMachine] define concrete machines (RAM, a small host,
    native code that is evaluated); [Witnesses] and [JitWitnesses] apply the
    theorems to them.

    ** Fuel

    [Exec.interp_loop] and [Jit.jit_loop] take one unit of fuel per iteration
    of the C loop and give [NoFuel] when it is used up, a value distinct from
    every outcome of the C code.  [Fuel.start_fuel_monotone] shows that more fuel
    never changes a run that ends; C4 that fuel runs out exactly when the guest has not halted, and
    C2 that with the JIT a unit of fuel is worth at least one instruction.
    The loop of [to_bcd] has a constant bound of three that
    [Decimal.bcd_roundtrip] shows enough for every byte; native code is evaluated with
    [JitNative.JIT_NATIVE_BOUND] units, one per instruction of the block, which
    C9 shows enough; [Exec.step_loop] is bounded by its argument as in C, and
    all other loops run over lists or ranges.

    ** What is not modelled

    - GNU lightning and the machine code it generates: a parameter,
      [native_exec], with the law that it does what lightning's manual says of
      the emitted instructions.
    - The calls of [rk65c02_log] (nothing depends on what they write) and the
      performance counters compiled in with [RK65C02_JIT_PERF_DEBUG].
    - Memory allocation: the garbage collector does not fail ([rk65c02_gc_oom]
      aborts the process).
    - In the example programs: messages on [stderr], the readings of the
      clock (an argument), sleeping, and when a signal reaches [msbasic_host.c].
    - The tests of the library.

    The hypotheses of the theorems about callbacks are the contracts that
    [doc/MMU.md] states for hosts: a translation is the same for all addresses
    of a page unless it forbids caching, and changed pages are marked. *)
From Stdlib Require Import ZArith Lia Btauto.
From stdpp Require Import base numbers list gmap strings.

#[global] Open Scope Z_scope.

(** ** Machine integers

    An unsigned [w]-bit C integer is a [Z] in [[0, 2^w)]; every store into
    such a variable goes through the wrap function of its width. *)

Definition u8 (x : Z) : Z := x mod 256.
Definition u16 (x : Z) : Z := x mod 65536.
Definition u32 (x : Z) : Z := x mod 4294967296.
Definition u64 (x : Z) : Z := x mod 18446744073709551616.

(** Conversion of a stored byte to [int8_t]. *)
Definition s8 (x : Z) : Z := if Z.ltb (u8 x) 128 then u8 x else u8 x - 256.
(** Conversion of a 16-bit value to [int16_t]. *)
Definition s16 (x : Z) : Z := if Z.ltb (u16 x) 32768 then u16 x else u16 x - 65536.

Abbreviation byte x := (0 ≤ x < 256) (only parsing).
Abbreviation word x := (0 ≤ x < 65536) (only parsing).

(** C truth of an integer: [if (x)]. *)
Definition ctrue (x : Z) : bool := negb (Z.eqb x 0).

(** The bit operators of C; the shifts [≪] and [≫] are stdpp's. *)
Declare Scope c_scope.
Delimit Scope c_scope with c.
Infix "&&&" := Z.land : c_scope.
Infix "^^^" := Z.lxor (at level 45, left associativity) : c_scope.
Infix "|||" := Z.lor : c_scope.
Notation "!~ x" := (Z.lnot x) (at level 35, right associativity) : c_scope.
#[global] Open Scope c_scope.

(** ** Ranges *)

Create HintDb cint.
Create HintDb keeps.

Lemma u8_byte x : byte (u8 x).
Proof. unfold u8. apply Z.mod_pos_bound. lia. Qed.

Lemma u16_word x : word (u16 x).
Proof. unfold u16. apply Z.mod_pos_bound. lia. Qed.

Lemma u32_range x : 0 ≤ u32 x < 4294967296.
Proof. unfold u32. apply Z.mod_pos_bound. lia. Qed.

Lemma u8_small x : byte x → u8 x = x.
Proof. intros. apply Z.mod_small. lia. Qed.

Lemma u16_small x : word x → u16 x = x.
Proof. intros. apply Z.mod_small. lia. Qed.

Lemma u32_small x : 0 ≤ x < 4294967296 → u32 x = x.
Proof. intros. apply Z.mod_small. lia. Qed.

Lemma u8_add_l a b : u8 (u8 a + b) = u8 (a + b).
Proof. apply Zplus_mod_idemp_l. Qed.

Lemma byte_word x : byte x → word x.
Proof. lia. Qed.

Lemma land_range a b n : 0 ≤ n → 0 ≤ a < 2 ^ n → 0 ≤ a &&& b < 2 ^ n.
Proof.
  intros Hn Ha. rewrite <- (Z.mod_small a (2 ^ n)) by lia.
  rewrite <- Z.land_ones, <- Z.land_assoc, (Z.land_comm (Z.ones n)), Z.land_assoc, Z.land_ones by lia.
  apply Z.mod_pos_bound. lia.
Qed.

Lemma lor_range a b n : 0 ≤ n → 0 ≤ a < 2 ^ n → 0 ≤ b < 2 ^ n → 0 ≤ a ||| b < 2 ^ n.
Proof.
  intros Hn Ha Hb. rewrite <- (Z.mod_small a (2 ^ n)), <- (Z.mod_small b (2 ^ n)) by lia.
  rewrite <- !Z.land_ones, <- Z.land_lor_distr_l, Z.land_ones by lia.
  apply Z.mod_pos_bound. lia.
Qed.

Lemma lxor_range a b n : 0 ≤ n → 0 ≤ a < 2 ^ n → 0 ≤ b < 2 ^ n → 0 ≤ a ^^^ b < 2 ^ n.
Proof.
  intros Hn Ha Hb. rewrite <- (Z.mod_small a (2 ^ n)), <- (Z.mod_small b (2 ^ n)) by lia.
  rewrite <- !Z.land_ones by lia.
  replace ((a &&& Z.ones n) ^^^ (b &&& Z.ones n)) with ((a ^^^ b) &&& Z.ones n).
  - rewrite Z.land_ones by lia. apply Z.mod_pos_bound. lia.
  - apply Z.bits_inj'. intros k Hk. rewrite Z.land_spec, !Z.lxor_spec, !Z.land_spec. btauto.
Qed.

Lemma land_byte a b : byte a → byte (a &&& b).
Proof. apply (land_range a b 8). lia. Qed.
Lemma land_byte_r a b : byte b → byte (a &&& b).
Proof. rewrite Z.land_comm. apply (land_range b a 8). lia. Qed.
Lemma lor_byte a b : byte a → byte b → byte (a ||| b).
Proof. apply (lor_range a b 8). lia. Qed.
Lemma lxor_byte a b : byte a → byte b → byte (a ^^^ b).
Proof. apply (lxor_range a b 8). lia. Qed.
Lemma land_word a b : word a → word (a &&& b).
Proof. apply (land_range a b 16). lia. Qed.
Lemma lor_word a b : word a → word b → word (a ||| b).
Proof. apply (lor_range a b 16). lia. Qed.

Lemma shiftr8_byte a : word a → byte (a ≫ 8).
Proof.
  intros. rewrite Z.shiftr_div_pow2 by lia. change (2 ^ 8) with 256.
  split; [apply Z.div_pos; lia|]. apply Z.div_lt_upper_bound; lia.
Qed.
Lemma shiftr_byte a n : 0 ≤ n → byte a → byte (a ≫ n).
Proof.
  intros Hn Ha. rewrite Z.shiftr_div_pow2 by lia. pose proof (Z.pow_pos_nonneg 2 n).
  split; [apply Z.div_pos; lia|]. apply Z.div_lt_upper_bound; nia.
Qed.
Lemma shiftl8_word a : byte a → word (a ≪ 8).
Proof. intros. rewrite Z.shiftl_mul_pow2 by lia. change (2 ^ 8) with 256. lia. Qed.

(** The little-endian word of two bytes. *)
Lemma lohi_word l h : byte l → byte h → word (l ||| (h ≪ 8)).
Proof. intros. apply lor_word; [lia|by apply shiftl8_word]. Qed.

Lemma testbit_byte_above a k : byte a → 8 ≤ k → Z.testbit a k = false.
Proof.
  intros Ha Hk. destruct (decide (a = 0)) as [->|]; [apply Z.testbit_0_l|].
  apply Z.bits_above_log2; [lia|]. apply Z.log2_lt_pow2; [lia|].
  apply Z.lt_le_trans with (2 ^ 8); [lia|]. apply Z.pow_le_mono_r; lia.
Qed.

Lemma forallb_Forall {T} (f : T → bool) l : forallb f l = true → Forall (λ x, f x = true) l.
Proof. rewrite forallb_forall, Forall_forall. setoid_rewrite list_elem_of_In. done. Qed.

(** A number below [2 ^ k] and one shifted above it. *)
Lemma lor_high l h k : 0 ≤ k → 0 ≤ l < 2 ^ k → l ||| (h ≪ k) = l + h * 2 ^ k.
Proof.
  intros Hk Hl. rewrite Z.shiftl_mul_pow2 by lia.
  assert (l &&& (h * 2 ^ k) = 0) as E.
  { apply Z.bits_inj'. intros i Hi. rewrite Z.land_spec, Z.bits_0.
    destruct (Z.lt_ge_cases i k).
    - rewrite (Z.mul_pow2_bits_low h k i) by lia. btauto.
    - rewrite <- (Z.mod_small l (2 ^ k)) by lia. by rewrite Z.mod_pow2_bits_high by lia. }
  pose proof (Z.add_lor_land l (h * 2 ^ k)). lia.
Qed.

Lemma lohi_add l h : byte l → byte h → l ||| (h ≪ 8) = l + 256 * h.
Proof. intros Hl Hh. rewrite lor_high by lia. lia. Qed.

Lemma land_255 a : a &&& 0xFF = u8 a.
Proof. change 0xFF with (Z.ones 8). by rewrite Z.land_ones by lia. Qed.

Lemma shiftr8_div a : a ≫ 8 = a / 256.
Proof. by rewrite Z.shiftr_div_pow2 by lia. Qed.

Lemma lohi_split w : word w → u8 w ||| ((w ≫ 8) ≪ 8) = w.
Proof.
  intros Hw. rewrite lohi_add; [|apply u8_byte|by apply shiftr8_byte].
  rewrite Z.shiftr_div_pow2 by lia. change (2 ^ 8) with 256. unfold u8.
  pose proof (Z.div_mod w 256). lia.
Qed.

(** Physical page arithmetic: the page base of an address and the page offset
    put together again. *)
Lemma page_base p : 0 ≤ p < 4294967296 → p &&& 0xFFFFFF00 = p - p mod 256.
Proof.
  intros Hp. change 0xFFFFFF00 with (Z.ones 24 ≪ 8).
  replace (p - p mod 256) with ((p ≫ 8) ≪ 8).
  - apply Z.bits_inj'. intros k Hk. rewrite Z.land_spec.
    destruct (Z.lt_ge_cases k 8).
    + rewrite !Z.shiftl_spec_low by lia. btauto.
    + rewrite !Z.shiftl_spec_high, Z.shiftr_spec by lia.
      replace (k - 8 + 8) with k by lia.
      destruct (Z.lt_ge_cases (k - 8) 24).
      * rewrite Z.ones_spec_low by lia. btauto.
      * rewrite Z.ones_spec_high by lia. rewrite <- (Z.mod_small p (2 ^ 32)) by lia.
        rewrite Z.mod_pow2_bits_high by lia. btauto.
  - rewrite Z.shiftl_mul_pow2, Z.shiftr_div_pow2 by lia. change (2 ^ 8) with 256.
    pose proof (Z.div_mod p 256). lia.
Qed.

Lemma page_base_aligned p : 0 ≤ p < 4294967296 → (p &&& 0xFFFFFF00) mod 256 = 0.
Proof.
  intros Hp. rewrite page_base by done. rewrite Zminus_mod_idemp_r, Z.sub_diag. done.
Qed.

Lemma page_or_offset b v : b mod 256 = 0 → b ||| (v &&& 0xFF) = b + u8 v.
Proof.
  intros Hb. rewrite land_255. pose proof (u8_byte v).
  assert (b = (b / 256) * 2 ^ 8) as Eb by (pose proof (Z.div_mod b 256); lia).
  assert (u8 v &&& b = 0) as E.
  { rewrite Eb. apply Z.bits_inj'. intros k Hk. rewrite Z.land_spec, Z.bits_0.
    destruct (Z.lt_ge_cases k 8).
    - rewrite (Z.mul_pow2_bits_low _ 8 k) by lia. btauto.
    - by rewrite (testbit_byte_above (u8 v) k). }
  pose proof (Z.add_lor_land (u8 v) b). rewrite Z.lor_comm. lia.
Qed.

#[export] Hint Resolve u8_byte u16_word u32_range land_byte lor_byte lxor_byte land_word lor_word
  shiftr8_byte shiftr_byte shiftl8_word lohi_word byte_word : cint.

(** [crange] closes range goals on machine integers. *)
Ltac crange := cbv beta in *; first [ assumption | lia | solve [eauto 6 with cint] ].
#[export] Hint Extern 1 (0 ≤ _ &&& _ < 256) => apply land_byte_r; lia : cint.
#[export] Hint Extern 2 (0 ≤ _ < 256) => lia : cint.

(** ** Deciding statements about a byte by evaluation *)

Lemma byte_forall (f : Z → bool) :
  forallb f (seqZ 0 256) = true → ∀ v, byte v → f v = true.
Proof.
  intros H v Hv. rewrite forallb_forall in H. apply H, list_elem_of_In, elem_of_seqZ. lia.
Qed.

Lemma byte_forall_eq (f g : Z → Z) :
  forallb (λ v, f v =? g v) (seqZ 0 256) = true → ∀ v, byte v → f v = g v.
Proof. intros H v Hv. apply Z.eqb_eq. exact (byte_forall _ H v Hv). Qed.

Lemma byte_forall_eqb (f g : Z → bool) :
  forallb (λ v, eqb (f v) (g v)) (seqZ 0 256) = true → ∀ v, byte v → f v = g v.
Proof. intros H v Hv. apply eqb_prop. exact (byte_forall _ H v Hv). Qed.

(** ** Strings *)

(** The append does not unfold by itself. *)
Lemma string_cons_app c (s t : string) : String c s +:+ t = String c (s +:+ t).
Proof. done. Qed.
Lemma string_nil_app (t : string) : "" +:+ t = t.
Proof. done. Qed.
Lemma string_app_nil (s : string) : s +:+ "" = s.
Proof. induction s as [|c s IH]; [done|]. exact (f_equal (String c) IH). Qed.
Lemma string_app_assoc (s t u : string) : (s +:+ t) +:+ u = s +:+ (t +:+ u).
Proof. induction s as [|c s IH]; [done|]. exact (f_equal (String c) IH). Qed.
