(* ===== verification/Log.v ===== *)
(** Logging ([log.c], [log.h]): the threshold and the lines on [stderr].

    A message is given as the text [vfprintf] makes of its format and
    arguments, and the time as the two fields of the clock's reading.  What the
    emulator does never depends on this state, so the other files leave the
    calls of [rk65c02_log] out. *)
From stdpp Require Import base numbers list strings pretty.
From S2P Require Import Prelude.

Definition LOG_TRACE : Z := 6.
Definition LOG_DEBUG : Z := 5.
Definition LOG_WARN : Z := 4.
Definition LOG_INFO : Z := 3.
Definition LOG_ERROR : Z := 2.
Definition LOG_CRIT : Z := 1.
Definition LOG_NOTHING : Z := 0.

Definition level_str : list string := ["NONE"; "CRITICAL"; "ERROR"; "INFO"; "WARN"; "DEBUG"; "TRACE"].

(** The variable [level] and what was written to [stderr]. *)
Record log_state := mkLog { level : Z; stderr : string }.
Definition log_init : log_state := mkLog LOG_INFO "".

Definition rk65c02_loglevel_set (l : Z) (s : log_state) : log_state := mkLog l (stderr s).

(** [None] is the access outside [level_str] of a level above LOG_TRACE. *)
Definition rk65c02_logv (l : Z) (text : string) (t : Z * Z) (s : log_state) : option log_state :=
  if l >? level s then Some s
  else
    name ← level_str !! Z.to_nat l;
    Some (mkLog (level s) (stderr s +:+ pretty t.1 +:+ "." +:+ pretty t.2 +:+ " " +:+ name +:+ ":" +:+
      String (Ascii.ascii_of_nat 9) "" +:+ text +:+ String (Ascii.ascii_of_nat 10) "")).

(** [rk65c02_log] has the body of [rk65c02_logv]. *)
Definition rk65c02_log (l : Z) (text : string) (t : Z * Z) (s : log_state) : option log_state :=
  rk65c02_logv l text t s.

(** ** What reaches [stderr] *)

(** A message with its level and time; the line it makes, and the lines of a
    log at a threshold. *)
Definition message : Type := Z * string * (Z * Z).
Definition log_line (m : message) : string :=
  let '(l, text, t) := m in
  pretty t.1 +:+ "." +:+ pretty t.2 +:+ " " +:+ nth (Z.to_nat l) level_str "" +:+ ":" +:+
    String (Ascii.ascii_of_nat 9) "" +:+ text +:+ String (Ascii.ascii_of_nat 10) "".
Definition log_lines (threshold : Z) (ms : list message) : string :=
  foldr (λ m s, log_line m +:+ s) "" (filter (λ m, m.1.1 ≤ threshold) ms).

Fixpoint log_all (ms : list message) (s : log_state) : option log_state :=
  match ms with
  | [] => Some s
  | (l, text, t) :: ms' => s' ← rk65c02_log l text t s; log_all ms' s'
  end.

Lemma logv_line l text t s : LOG_NOTHING ≤ l ≤ LOG_TRACE →
  rk65c02_logv l text t s =
    Some (if l >? level s then s else mkLog (level s) (stderr s +:+ log_line (l, text, t))).
Proof.
  intros Hl. unfold rk65c02_logv, log_line. destruct (l >? level s); [done|].
  unfold LOG_NOTHING, LOG_TRACE in Hl.
  assert (∃ n, l = Z.of_nat n ∧ (n < 7)%nat) as (n&->&Hn) by (exists (Z.to_nat l); lia).
  rewrite Nat2Z.id. do 7 (destruct n as [|n]; [done|]). lia.
Qed.

(** The log is exact.  Of messages at the levels of [log.h], those at or below
    the threshold appear on [stderr], one line each and in the order they were
    logged, the others leave no trace, and no name of a level is read outside
    the table. *)
Theorem log_exact ms s : Forall (λ m : message, LOG_NOTHING ≤ m.1.1 ≤ LOG_TRACE) ms →
  log_all ms s = Some (mkLog (level s) (stderr s +:+ log_lines (level s) ms)).
Proof.
  intros Hm. revert s. induction Hm as [|[[l text] t] ms Hl _ IH]; intros s.
  - cbn. rewrite string_app_nil. by destruct s.
  - cbn [log_all]. unfold rk65c02_log. rewrite (logv_line l text t s Hl). cbn [mbind option_bind]. rewrite IH.
    unfold log_lines. rewrite filter_cons. cbn [fst]. rewrite Z.gtb_ltb.
    destruct (Z.ltb_spec (level s) l).
    + by rewrite decide_False by lia.
    + rewrite decide_True by lia. cbn [foldr level stderr]. by rewrite string_app_assoc.
Qed.

(** At the default threshold a warning is not printed, an information is. *)
Lemma log_default_warning text t :
  rk65c02_log LOG_WARN text t log_init = Some log_init.
Proof. done. Qed.
(** A level above LOG_TRACE reads outside the table once the threshold allows it. *)
Lemma log_level_outside l text t s : LOG_TRACE < l ≤ level s → rk65c02_log l text t s = None.
Proof.
  intros Hl. unfold rk65c02_log, rk65c02_logv, LOG_TRACE in *. rewrite Z.gtb_ltb.
  rewrite (proj2 (Z.ltb_ge _ _)) by lia. rewrite lookup_ge_None_2; [done|]. cbn. lia.
Qed.
