(* ===== verification/Types.v ===== *)
(** Data types of the emulator: the enumerations, register file, status-flag
    masks and small records of [src/src/rk65c02.h] and
    [src/src/instruction.h]. *)
From stdpp Require Import base numbers list gmap strings.
From S2P Require Import Prelude.

(** ** Emulator status ([rk65c02.h]) *)

Inductive emu_state_t := STOPPED | RUNNING | STEPPING.

Inductive emu_stop_reason_t :=
  | STP | WAI | BREAKPOINT | WATCHPOINT | STEPPED | HOST | EMUERROR.

Inductive rk65c02_mmu_access_t :=
  | RK65C02_MMU_FETCH | RK65C02_MMU_READ | RK65C02_MMU_WRITE.

#[export] Instance emu_state_eq_dec : EqDecision emu_state_t.
Proof. solve_decision. Defined.
#[export] Instance emu_stop_reason_eq_dec : EqDecision emu_stop_reason_t.
Proof. solve_decision. Defined.
#[export] Instance mmu_access_eq_dec : EqDecision rk65c02_mmu_access_t.
Proof. solve_decision. Defined.

Definition RK65C02_MMU_PERM_R : Z := 1.
Definition RK65C02_MMU_PERM_W : Z := 2.
Definition RK65C02_MMU_PERM_X : Z := 4.

(** [RK65C02_BUS_SIZE] and [RK65C02_PHYS_MAX] of [bus.h]. *)
Definition RK65C02_BUS_SIZE : Z := 65536.
Definition RK65C02_PHYS_MAX : Z := 16777216.

(** Result of the host's translation callback. *)
Record rk65c02_mmu_result_t := mkMmuResult {
  r_ok : bool;
  r_paddr : Z;
  r_perms : Z;
  r_fault_code : Z;
  r_no_fill_tlb : bool
}.

Record rk65c02_mmu_tlb_entry := mkTlbEntry {
  te_valid : bool;
  te_vpage : Z;
  te_ppage_base : Z;
  te_perms : Z;
  te_epoch : Z
}.

(** The entry [memset] leaves behind. *)
Definition tlb_entry_zero : rk65c02_mmu_tlb_entry := mkTlbEntry false 0 0 0 0.

(** ** Registers *)

Record reg_state_t := mkRegs {
  A : Z; X : Z; Y : Z; PC : Z; SP : Z; P : Z
}.

Definition P_CARRY : Z := 0x1.
Definition P_ZERO : Z := 0x2.
Definition P_IRQ_DISABLE : Z := 0x4.
Definition P_DECIMAL : Z := 0x8.
Definition P_BREAK : Z := 0x10.
Definition P_UNDEFINED : Z := 0x20.
Definition P_SIGN_OVERFLOW : Z := 0x40.
Definition P_NEGATIVE : Z := 0x80.
Definition NEGATIVE : Z := P_NEGATIVE.

Definition STACK_START : Z := 0x0100.
Definition STACK_END : Z := 0x01FF.
Definition VECTOR_IRQ : Z := 0xFFFE.

(** [BIT(val, n)]. *)
Definition BIT (val n : Z) : Z := val &&& (1 ≪ n).

(** ** Instructions ([instruction.h]) *)

Inductive addressing_t :=
  | IMPLIED | IMMEDIATE | ZP | ZPX | ZPY | IZP | IZPX | IZPY | ZPR | RELATIVE
  | ABSOLUTE | ABSOLUTEX | ABSOLUTEY | IABSOLUTE | IABSOLUTEX | ACCUMULATOR.

#[export] Instance addressing_eq_dec : EqDecision addressing_t.
Proof. solve_decision. Defined.

Record instruction_t := mkInstruction { i_opcode : Z; i_op1 : Z; i_op2 : Z }.
Definition instruction_ok (i : instruction_t) : Prop :=
  byte (i_opcode i) ∧ byte (i_op1 i) ∧ byte (i_op2 i).

(** The emulation routines of [emulation.c], as the function pointers the
    instruction table stores. *)
Inductive emul_fn :=
  | f_adc | f_and | f_asl
  | f_bbr0 | f_bbr1 | f_bbr2 | f_bbr3 | f_bbr4 | f_bbr5 | f_bbr6 | f_bbr7
  | f_bbs0 | f_bbs1 | f_bbs2 | f_bbs3 | f_bbs4 | f_bbs5 | f_bbs6 | f_bbs7
  | f_bit | f_bcc | f_bcs | f_beq | f_bmi | f_bne | f_bpl | f_bra | f_brk
  | f_bvc | f_bvs | f_clc | f_cld | f_cli | f_clv | f_cmp | f_cpx | f_cpy
  | f_dec | f_dex | f_dey | f_eor | f_inc | f_inx | f_iny | f_jmp | f_jsr
  | f_lda | f_ldx | f_ldy | f_lsr | f_nop | f_ora | f_pha | f_php | f_phx
  | f_phy | f_pla | f_plp | f_plx | f_ply | f_rti | f_rts
  | f_rmb0 | f_rmb1 | f_rmb2 | f_rmb3 | f_rmb4 | f_rmb5 | f_rmb6 | f_rmb7
  | f_rol | f_ror | f_sbc | f_sed | f_sec | f_sei
  | f_smb0 | f_smb1 | f_smb2 | f_smb3 | f_smb4 | f_smb5 | f_smb6 | f_smb7
  | f_stp | f_sta | f_stx | f_sty | f_stz | f_tax | f_tay | f_trb | f_tsb
  | f_tsx | f_txa | f_txs | f_tya | f_wai | f_invalid.

#[export] Instance emul_fn_eq_dec : EqDecision emul_fn.
Proof. solve_decision. Defined.

Record instrdef_t := mkInstrdef {
  d_opcode : Z;
  d_mnemonic : string;
  d_mode : addressing_t;
  d_size : Z;
  d_emul : emul_fn;
  d_modify_pc : bool
}.

(** ** Debugging records *)

(** A trace entry; the list links of the C struct are the list it is in. *)
Record trace_t := mkTrace {
  tr_address : Z; tr_opcode : Z; tr_op1 : Z; tr_op2 : Z; tr_regs : reg_state_t
}.
