(* ===== verification/Isa.v ===== *)
(** The instruction table: the 256 rows of [src/src/65c02isa.csv] as
    [65c02isa.awk] turns them into the array [instrs], and
    [instruction_decode]. *)
From stdpp Require Import base numbers list gmap strings.
From S2P Require Import Prelude Types.

(** [instrs]: row [n] of the CSV file is the definition of opcode [n]. *)
Definition instrs : list instrdef_t := [
  mkInstrdef 0x00 "brk" IMPLIED 2 f_brk true;
  mkInstrdef 0x01 "ora" IZPX 2 f_ora false;
  mkInstrdef 0x02 "invalid" IMMEDIATE 2 f_invalid false;
  mkInstrdef 0x03 "invalid" IMPLIED 1 f_invalid false;
  mkInstrdef 0x04 "tsb" ZP 2 f_tsb false;
  mkInstrdef 0x05 "ora" ZP 2 f_ora false;
  mkInstrdef 0x06 "asl" ZP 2 f_asl false;
  mkInstrdef 0x07 "rmb0" ZP 2 f_rmb0 false;
  mkInstrdef 0x08 "php" IMPLIED 1 f_php false;
  mkInstrdef 0x09 "ora" IMMEDIATE 2 f_ora false;
  mkInstrdef 0x0A "asl" ACCUMULATOR 1 f_asl false;
  mkInstrdef 0x0B "invalid" IMPLIED 1 f_invalid false;
  mkInstrdef 0x0C "tsb" ABSOLUTE 3 f_tsb false;
  mkInstrdef 0x0D "ora" ABSOLUTE 3 f_ora false;
  mkInstrdef 0x0E "asl" ABSOLUTE 3 f_asl false;
  mkInstrdef 0x0F "bbr0" ZPR 3 f_bbr0 true;
  mkInstrdef 0x10 "bpl" RELATIVE 2 f_bpl true;
  mkInstrdef 0x11 "ora" IZPY 2 f_ora false;
  mkInstrdef 0x12 "ora" IZP 2 f_ora false;
  mkInstrdef 0x13 "invalid" IMPLIED 1 f_invalid false;
  mkInstrdef 0x14 "trb" ZP 2 f_trb false;
  mkInstrdef 0x15 "ora" ZPX 2 f_ora false;
  mkInstrdef 0x16 "asl" ZPX 2 f_asl false;
  mkInstrdef 0x17 "rmb1" ZP 2 f_rmb1 false;
  mkInstrdef 0x18 "clc" IMPLIED 1 f_clc false;
  mkInstrdef 0x19 "ora" ABSOLUTEY 3 f_ora false;
  mkInstrdef 0x1A "inc" ACCUMULATOR 1 f_inc false;
  mkInstrdef 0x1B "invalid" IMPLIED 1 f_invalid false;
  mkInstrdef 0x1C "trb" ABSOLUTE 3 f_trb false;
  mkInstrdef 0x1D "ora" ABSOLUTEX 3 f_ora false;
  mkInstrdef 0x1E "asl" ABSOLUTEX 3 f_asl false;
  mkInstrdef 0x1F "bbr1" ZPR 3 f_bbr1 true;
  mkInstrdef 0x20 "jsr" ABSOLUTE 3 f_jsr true;
  mkInstrdef 0x21 "and" IZPX 2 f_and false;
  mkInstrdef 0x22 "invalid" IMMEDIATE 2 f_invalid false;
  mkInstrdef 0x23 "invalid" IMPLIED 1 f_invalid false;
  mkInstrdef 0x24 "bit" ZP 2 f_bit false;
  mkInstrdef 0x25 "and" ZP 2 f_and false;
  mkInstrdef 0x26 "rol" ZP 2 f_rol false;
  mkInstrdef 0x27 "rmb2" ZP 2 f_rmb2 false;
  mkInstrdef 0x28 "plp" IMPLIED 1 f_plp false;
  mkInstrdef 0x29 "and" IMMEDIATE 2 f_and false;
  mkInstrdef 0x2A "rol" ACCUMULATOR 1 f_rol false;
  mkInstrdef 0x2B "invalid" IMPLIED 1 f_invalid false;
  mkInstrdef 0x2C "bit" ABSOLUTE 3 f_bit false;
  mkInstrdef 0x2D "and" ABSOLUTE 3 f_and false;
  mkInstrdef 0x2E "rol" ABSOLUTE 3 f_rol false;
  mkInstrdef 0x2F "bbr2" ZPR 3 f_bbr2 true;
  mkInstrdef 0x30 "bmi" RELATIVE 2 f_bmi true;
  mkInstrdef 0x31 "and" IZPY 2 f_and false;
  mkInstrdef 0x32 "and" IZP 2 f_and false;
  mkInstrdef 0x33 "invalid" IMPLIED 1 f_invalid false;
  mkInstrdef 0x34 "bit" ZPX 2 f_bit false;
  mkInstrdef 0x35 "and" ZPX 2 f_and false;
  mkInstrdef 0x36 "rol" ZPX 2 f_rol false;
  mkInstrdef 0x37 "rmb3" ZP 2 f_rmb3 false;
  mkInstrdef 0x38 "sec" IMPLIED 1 f_sec false;
  mkInstrdef 0x39 "and" ABSOLUTEY 3 f_and false;
  mkInstrdef 0x3A "dec" ACCUMULATOR 1 f_dec false;
  mkInstrdef 0x3B "invalid" IMPLIED 1 f_invalid false;
  mkInstrdef 0x3C "bit" ABSOLUTEX 3 f_bit false;
  mkInstrdef 0x3D "and" ABSOLUTEX 3 f_and false;
  mkInstrdef 0x3E "rol" ABSOLUTEX 3 f_rol false;
  mkInstrdef 0x3F "bbr3" ZPR 3 f_bbr3 true;
  mkInstrdef 0x40 "rti" IMPLIED 1 f_rti true;
  mkInstrdef 0x41 "eor" IZPX 2 f_eor false;
  mkInstrdef 0x42 "invalid" IMMEDIATE 2 f_invalid false;
  mkInstrdef 0x43 "invalid" IMPLIED 1 f_invalid false;
  mkInstrdef 0x44 "invalid" ZP 2 f_invalid false;
  mkInstrdef 0x45 "eor" ZP 2 f_eor false;
  mkInstrdef 0x46 "lsr" ZP 2 f_lsr false;
  mkInstrdef 0x47 "rmb4" ZP 2 f_rmb4 false;
  mkInstrdef 0x48 "pha" IMPLIED 1 f_pha false;
  mkInstrdef 0x49 "eor" IMMEDIATE 2 f_eor false;
  mkInstrdef 0x4A "lsr" ACCUMULATOR 1 f_lsr false;
  mkInstrdef 0x4B "invalid" IMPLIED 1 f_invalid false;
  mkInstrdef 0x4C "jmp" ABSOLUTE 3 f_jmp true;
  mkInstrdef 0x4D "eor" ABSOLUTE 3 f_eor false;
  mkInstrdef 0x4E "lsr" ABSOLUTE 3 f_lsr false;
  mkInstrdef 0x4F "bbr4" ZPR 3 f_bbr4 true;
  mkInstrdef 0x50 "bvc" RELATIVE 2 f_bvc true;
  mkInstrdef 0x51 "eor" IZPY 2 f_eor false;
  mkInstrdef 0x52 "eor" IZP 2 f_eor false;
  mkInstrdef 0x53 "invalid" IMPLIED 1 f_invalid false;
  mkInstrdef 0x54 "invalid" ZPX 2 f_invalid false;
  mkInstrdef 0x55 "eor" ZPX 2 f_eor false;
  mkInstrdef 0x56 "lsr" ZPX 2 f_lsr false;
  mkInstrdef 0x57 "rmb5" ZP 2 f_rmb5 false;
  mkInstrdef 0x58 "cli" IMPLIED 1 f_cli false;
  mkInstrdef 0x59 "eor" ABSOLUTEY 3 f_eor false;
  mkInstrdef 0x5A "phy" IMPLIED 1 f_phy false;
  mkInstrdef 0x5B "invalid" IMPLIED 1 f_invalid false;
  mkInstrdef 0x5C "invalid" ABSOLUTE 3 f_invalid false;
  mkInstrdef 0x5D "eor" ABSOLUTEX 3 f_eor false;
  mkInstrdef 0x5E "lsr" ABSOLUTEX 3 f_lsr false;
  mkInstrdef 0x5F "bbr5" ZPR 3 f_bbr5 true;
  mkInstrdef 0x60 "rts" IMPLIED 1 f_rts false;
  mkInstrdef 0x61 "adc" IZPX 2 f_adc false;
  mkInstrdef 0x62 "invalid" IMMEDIATE 2 f_invalid false;
  mkInstrdef 0x63 "invalid" IMPLIED 1 f_invalid false;
  mkInstrdef 0x64 "stz" ZP 2 f_stz false;
  mkInstrdef 0x65 "adc" ZP 2 f_adc false;
  mkInstrdef 0x66 "ror" ZP 2 f_ror false;
  mkInstrdef 0x67 "rmb6" ZP 2 f_rmb6 false;
  mkInstrdef 0x68 "pla" IMPLIED 1 f_pla false;
  mkInstrdef 0x69 "adc" IMMEDIATE 2 f_adc false;
  mkInstrdef 0x6A "ror" ACCUMULATOR 1 f_ror false;
  mkInstrdef 0x6B "invalid" IMPLIED 1 f_invalid false;
  mkInstrdef 0x6C "jmp" IABSOLUTE 3 f_jmp true;
  mkInstrdef 0x6D "adc" ABSOLUTE 3 f_adc false;
  mkInstrdef 0x6E "ror" ABSOLUTE 3 f_ror false;
  mkInstrdef 0x6F "bbr6" ZPR 3 f_bbr6 true;
  mkInstrdef 0x70 "bvs" RELATIVE 2 f_bvs true;
  mkInstrdef 0x71 "adc" IZPY 2 f_adc false;
  mkInstrdef 0x72 "adc" IZP 2 f_adc false;
  mkInstrdef 0x73 "invalid" IMPLIED 1 f_invalid false;
  mkInstrdef 0x74 "stz" ZPX 2 f_stz false;
  mkInstrdef 0x75 "adc" ZPX 2 f_adc false;
  mkInstrdef 0x76 "ror" ZPX 2 f_ror false;
  mkInstrdef 0x77 "rmb7" ZP 2 f_rmb7 false;
  mkInstrdef 0x78 "sei" IMPLIED 1 f_sei false;
  mkInstrdef 0x79 "adc" ABSOLUTEY 3 f_adc false;
  mkInstrdef 0x7A "ply" IMPLIED 1 f_ply false;
  mkInstrdef 0x7B "invalid" IMPLIED 1 f_invalid false;
  mkInstrdef 0x7C "jmp" IABSOLUTEX 3 f_jmp true;
  mkInstrdef 0x7D "adc" ABSOLUTEX 3 f_adc false;
  mkInstrdef 0x7E "ror" ABSOLUTEX 3 f_ror false;
  mkInstrdef 0x7F "bbr7" ZPR 3 f_bbr7 true;
  mkInstrdef 0x80 "bra" RELATIVE 2 f_bra true;
  mkInstrdef 0x81 "sta" IZPX 2 f_sta false;
  mkInstrdef 0x82 "invalid" IMMEDIATE 2 f_invalid false;
  mkInstrdef 0x83 "invalid" IMPLIED 1 f_invalid false;
  mkInstrdef 0x84 "sty" ZP 2 f_sty false;
  mkInstrdef 0x85 "sta" ZP 2 f_sta false;
  mkInstrdef 0x86 "stx" ZP 2 f_stx false;
  mkInstrdef 0x87 "smb0" ZP 2 f_smb0 false;
  mkInstrdef 0x88 "dey" IMPLIED 1 f_dey false;
  mkInstrdef 0x89 "bit" IMMEDIATE 2 f_bit false;
  mkInstrdef 0x8A "txa" IMPLIED 1 f_txa false;
  mkInstrdef 0x8B "invalid" IMPLIED 1 f_invalid false;
  mkInstrdef 0x8C "sty" ABSOLUTE 3 f_sty false;
  mkInstrdef 0x8D "sta" ABSOLUTE 3 f_sta false;
  mkInstrdef 0x8E "stx" ABSOLUTE 3 f_stx false;
  mkInstrdef 0x8F "bbs0" ZPR 3 f_bbs0 true;
  mkInstrdef 0x90 "bcc" RELATIVE 2 f_bcc true;
  mkInstrdef 0x91 "sta" IZPY 2 f_sta false;
  mkInstrdef 0x92 "sta" IZP 2 f_sta false;
  mkInstrdef 0x93 "invalid" IMPLIED 1 f_invalid false;
  mkInstrdef 0x94 "sty" ZPX 2 f_sty false;
  mkInstrdef 0x95 "sta" ZPX 2 f_sta false;
  mkInstrdef 0x96 "stx" ZPY 2 f_stx false;
  mkInstrdef 0x97 "smb1" ZP 2 f_smb1 false;
  mkInstrdef 0x98 "tya" IMPLIED 1 f_tya false;
  mkInstrdef 0x99 "sta" ABSOLUTEY 3 f_sta false;
  mkInstrdef 0x9A "txs" IMPLIED 1 f_txs false;
  mkInstrdef 0x9B "invalid" IMPLIED 1 f_invalid false;
  mkInstrdef 0x9C "stz" ABSOLUTE 3 f_stz false;
  mkInstrdef 0x9D "sta" ABSOLUTEX 3 f_sta false;
  mkInstrdef 0x9E "stz" ABSOLUTEX 3 f_stz false;
  mkInstrdef 0x9F "bbs1" ZPR 3 f_bbs1 true;
  mkInstrdef 0xA0 "ldy" IMMEDIATE 2 f_ldy false;
  mkInstrdef 0xA1 "lda" IZPX 2 f_lda false;
  mkInstrdef 0xA2 "ldx" IMMEDIATE 2 f_ldx false;
  mkInstrdef 0xA3 "invalid" IMPLIED 1 f_invalid false;
  mkInstrdef 0xA4 "ldy" ZP 2 f_ldy false;
  mkInstrdef 0xA5 "lda" ZP 2 f_lda false;
  mkInstrdef 0xA6 "ldx" ZP 2 f_ldx false;
  mkInstrdef 0xA7 "smb2" ZP 2 f_smb2 false;
  mkInstrdef 0xA8 "tay" IMPLIED 1 f_tay false;
  mkInstrdef 0xA9 "lda" IMMEDIATE 2 f_lda false;
  mkInstrdef 0xAA "tax" IMPLIED 1 f_tax false;
  mkInstrdef 0xAB "invalid" IMPLIED 1 f_invalid false;
  mkInstrdef 0xAC "ldy" ABSOLUTE 3 f_ldy false;
  mkInstrdef 0xAD "lda" ABSOLUTE 3 f_lda false;
  mkInstrdef 0xAE "ldx" ABSOLUTE 3 f_ldx false;
  mkInstrdef 0xAF "bbs2" ZPR 3 f_bbs2 true;
  mkInstrdef 0xB0 "bcs" RELATIVE 2 f_bcs true;
  mkInstrdef 0xB1 "lda" IZPY 2 f_lda false;
  mkInstrdef 0xB2 "lda" IZP 2 f_lda false;
  mkInstrdef 0xB3 "invalid" IMPLIED 1 f_invalid false;
  mkInstrdef 0xB4 "ldy" ZPX 2 f_ldy false;
  mkInstrdef 0xB5 "lda" ZPX 2 f_lda false;
  mkInstrdef 0xB6 "ldx" ZPY 2 f_ldx false;
  mkInstrdef 0xB7 "smb3" ZP 2 f_smb3 false;
  mkInstrdef 0xB8 "clv" IMPLIED 1 f_clv false;
  mkInstrdef 0xB9 "lda" ABSOLUTEY 3 f_lda false;
  mkInstrdef 0xBA "tsx" IMPLIED 1 f_tsx false;
  mkInstrdef 0xBB "invalid" IMPLIED 1 f_invalid false;
  mkInstrdef 0xBC "ldy" ABSOLUTEX 3 f_ldy false;
  mkInstrdef 0xBD "lda" ABSOLUTEX 3 f_lda false;
  mkInstrdef 0xBE "ldx" ABSOLUTEY 3 f_ldx false;
  mkInstrdef 0xBF "bbs3" ZPR 3 f_bbs3 true;
  mkInstrdef 0xC0 "cpy" IMMEDIATE 2 f_cpy false;
  mkInstrdef 0xC1 "cmp" IZPX 2 f_cmp false;
  mkInstrdef 0xC2 "invalid" IMMEDIATE 2 f_invalid false;
  mkInstrdef 0xC3 "invalid" IMPLIED 1 f_invalid false;
  mkInstrdef 0xC4 "cpy" ZP 2 f_cpy false;
  mkInstrdef 0xC5 "cmp" ZP 2 f_cmp false;
  mkInstrdef 0xC6 "dec" ZP 2 f_dec false;
  mkInstrdef 0xC7 "smb4" ZP 2 f_smb4 false;
  mkInstrdef 0xC8 "iny" IMPLIED 1 f_iny false;
  mkInstrdef 0xC9 "cmp" IMMEDIATE 2 f_cmp false;
  mkInstrdef 0xCA "dex" IMPLIED 1 f_dex false;
  mkInstrdef 0xCB "wai" IMPLIED 1 f_wai false;
  mkInstrdef 0xCC "cpy" ABSOLUTE 3 f_cpy false;
  mkInstrdef 0xCD "cmp" ABSOLUTE 3 f_cmp false;
  mkInstrdef 0xCE "dec" ABSOLUTE 3 f_dec false;
  mkInstrdef 0xCF "bbs4" ZPR 3 f_bbs4 true;
  mkInstrdef 0xD0 "bne" RELATIVE 2 f_bne true;
  mkInstrdef 0xD1 "cmp" IZPY 2 f_cmp false;
  mkInstrdef 0xD2 "cmp" IZP 2 f_cmp false;
  mkInstrdef 0xD3 "invalid" IMPLIED 1 f_invalid false;
  mkInstrdef 0xD4 "invalid" ZPX 2 f_invalid false;
  mkInstrdef 0xD5 "cmp" ZPX 2 f_cmp false;
  mkInstrdef 0xD6 "dec" ZPX 2 f_dec false;
  mkInstrdef 0xD7 "smb5" ZP 2 f_smb5 false;
  mkInstrdef 0xD8 "cld" IMPLIED 1 f_cld false;
  mkInstrdef 0xD9 "cmp" ABSOLUTEY 3 f_cmp false;
  mkInstrdef 0xDA "phx" IMPLIED 1 f_phx false;
  mkInstrdef 0xDB "stp" IMPLIED 1 f_stp false;
  mkInstrdef 0xDC "invalid" ABSOLUTE 3 f_invalid false;
  mkInstrdef 0xDD "cmp" ABSOLUTEX 3 f_cmp false;
  mkInstrdef 0xDE "dec" ABSOLUTEX 3 f_dec false;
  mkInstrdef 0xDF "bbs5" ZPR 3 f_bbs5 true;
  mkInstrdef 0xE0 "cpx" IMMEDIATE 2 f_cpx false;
  mkInstrdef 0xE1 "sbc" IZPX 2 f_sbc false;
  mkInstrdef 0xE2 "invalid" IMMEDIATE 2 f_invalid false;
  mkInstrdef 0xE3 "invalid" IMPLIED 1 f_invalid false;
  mkInstrdef 0xE4 "cpx" ZP 2 f_cpx false;
  mkInstrdef 0xE5 "sbc" ZP 2 f_sbc false;
  mkInstrdef 0xE6 "inc" ZP 2 f_inc false;
  mkInstrdef 0xE7 "smb6" ZP 2 f_smb6 false;
  mkInstrdef 0xE8 "inx" IMPLIED 1 f_inx false;
  mkInstrdef 0xE9 "sbc" IMMEDIATE 2 f_sbc false;
  mkInstrdef 0xEA "nop" IMPLIED 1 f_nop false;
  mkInstrdef 0xEB "invalid" IMPLIED 1 f_invalid false;
  mkInstrdef 0xEC "cpx" ABSOLUTE 3 f_cpx false;
  mkInstrdef 0xED "sbc" ABSOLUTE 3 f_sbc false;
  mkInstrdef 0xEE "inc" ABSOLUTE 3 f_inc false;
  mkInstrdef 0xEF "bbs6" ZPR 3 f_bbs6 true;
  mkInstrdef 0xF0 "beq" RELATIVE 2 f_beq true;
  mkInstrdef 0xF1 "sbc" IZPY 2 f_sbc false;
  mkInstrdef 0xF2 "sbc" IZP 2 f_sbc false;
  mkInstrdef 0xF3 "invalid" IMPLIED 1 f_invalid false;
  mkInstrdef 0xF4 "invalid" ZPX 2 f_invalid false;
  mkInstrdef 0xF5 "sbc" ZPX 2 f_sbc false;
  mkInstrdef 0xF6 "inc" ZPX 2 f_inc false;
  mkInstrdef 0xF7 "smb7" ZP 2 f_smb7 false;
  mkInstrdef 0xF8 "sed" IMPLIED 1 f_sed false;
  mkInstrdef 0xF9 "sbc" ABSOLUTEY 3 f_sbc false;
  mkInstrdef 0xFA "plx" IMPLIED 1 f_plx false;
  mkInstrdef 0xFB "invalid" IMPLIED 1 f_invalid false;
  mkInstrdef 0xFC "invalid" ABSOLUTE 3 f_invalid false;
  mkInstrdef 0xFD "sbc" ABSOLUTEX 3 f_sbc false;
  mkInstrdef 0xFE "inc" ABSOLUTEX 3 f_inc false;
  mkInstrdef 0xFF "bbs7" ZPR 3 f_bbs7 true
].

(** The entry read for an index outside the table; an [uint8_t] opcode never
    reaches it. *)
Definition instr_out_of_table : instrdef_t :=
  mkInstrdef 0 "invalid" IMPLIED 1 f_invalid false.

Definition instruction_decode (opcode : Z) : instrdef_t :=
  nth (Z.to_nat opcode) instrs instr_out_of_table.
