(* ===== verification/BusSpec.v ===== *)
(** What the CPU core relies on from the bus it is attached to.

    [BusOps] are the four access functions of [bus.h] the core calls, and which
    of the host's device functions such an access calls in turn;
    [BusLaws] is the contract the core's theorems are proved against: the C
    type of a read, an invariant the accesses keep, and the memory behaviour
    of the addresses that are backed by plain RAM.  RAM is described by
    cells, because two addresses may share one (a device mapped twice). *)
From stdpp Require Import base numbers list gmap strings.
From S2P Require Import Prelude Types.

Class BusOps (B : Type) := {
  b_read : B → Z → Z * B;
  b_write : B → Z → Z → B;
  b_read_phys : B → Z → Z * B;
  b_write_phys : B → Z → Z → B;
  (** the host's device function an access calls, if any: the function, the
      device and the offset *)
  b_host : B → Z → option (nat * nat * Z);
  b_host_phys : B → Z → option (nat * nat * Z)
}.

Class BusLaws (B : Type) `{BusOps B} := {
  b_ok : B → Prop;
  b_read_ok : ∀ b a, b_ok b → word a → byte (b_read b a).1 ∧ b_ok (b_read b a).2;
  b_write_ok : ∀ b a v, b_ok b → word a → byte v → b_ok (b_write b a v);
  b_read_phys_ok : ∀ b a, b_ok b → 0 ≤ a → byte (b_read_phys b a).1 ∧ b_ok (b_read_phys b a).2;
  b_write_phys_ok : ∀ b a v, b_ok b → 0 ≤ a → byte v → b_ok (b_write_phys b a v);
  b_cell : B → Z → option (nat * Z);
  b_peek : B → nat * Z → Z;
  b_read_ram : ∀ b a c, b_cell b a = Some c → b_read b a = (b_peek b c, b);
  b_write_cell : ∀ b a v a', is_Some (b_cell b a) → b_cell (b_write b a v) a' = b_cell b a';
  b_write_peek : ∀ b a v c c', b_cell b a = Some c →
    b_peek (b_write b a v) c' = if decide (c = c') then v else b_peek b c';
  b_host_ram : ∀ b a, word a → is_Some (b_cell b a) → b_host b a = None;
  b_host_u16 : ∀ b a, b_host b (u16 a) = b_host b a;
  b_read_host : ∀ b a a', b_host (b_read b a).2 a' = b_host b a';
  b_write_host : ∀ b a v a', b_host (b_write b a v) a' = b_host b a';
  (** physical memory above 64K: its cells may be those of the 64K *)
  b_cell_phys : B → Z → option (nat * Z);
  b_read_phys_ram : ∀ b a c, b_cell_phys b a = Some c → b_read_phys b a = (b_peek b c, b);
  b_write_phys_peek : ∀ b a v c c', b_cell_phys b a = Some c →
    b_peek (b_write_phys b a v) c' = if decide (c = c') then v else b_peek b c';
  b_write_cell_phys : ∀ b a v a', is_Some (b_cell b a) →
    b_cell_phys (b_write b a v) a' = b_cell_phys b a';
  b_write_phys_cell : ∀ b a v a', is_Some (b_cell_phys b a) →
    b_cell (b_write_phys b a v) a' = b_cell b a' ∧
    b_cell_phys (b_write_phys b a v) a' = b_cell_phys b a';
  b_host_phys_ram : ∀ b a, is_Some (b_cell_phys b a) → b_host_phys b a = None
}.

(** ** Memory-only buses

    A bus behaves as a flat 64K memory when every address is RAM and no two
    addresses share a cell. *)
Section Flat.
Context {B : Type} `{BusLaws B}.

Record flat_bus (b : B) : Prop := {
  flat_ok : b_ok b;
  flat_ram : ∀ a, word a → is_Some (b_cell b a);
  flat_inj : ∀ a a', word a → word a' → b_cell b a = b_cell b a' → a = a'
}.

(** The byte a read of [a] returns, for a RAM address. *)
Definition mem_at (b : B) (a : Z) : Z :=
  match b_cell b a with Some c => b_peek b c | None => 0xFF end.

Lemma mem_at_read b a : is_Some (b_cell b a) → b_read b a = (mem_at b a, b).
Proof. intros [c Hc]. unfold mem_at. rewrite Hc. by apply b_read_ram. Qed.

Lemma mem_at_write b a v a' :
  is_Some (b_cell b a) → is_Some (b_cell b a') →
  mem_at (b_write b a v) a' =
    if decide (b_cell b a = b_cell b a') then v else mem_at b a'.
Proof.
  intros [c Hc] [c' Hc']. unfold mem_at.
  rewrite b_write_cell, Hc', Hc, (b_write_peek _ _ _ c) by eauto.
  repeat case_decide; congruence.
Qed.

Lemma mem_at_write_flat b a v a' :
  flat_bus b → word a → word a' →
  mem_at (b_write b a v) a' = if decide (a = a') then v else mem_at b a'.
Proof.
  intros [Hok Hr Hi] Ha Ha'. rewrite mem_at_write by auto.
  repeat case_decide; auto; by subst || exfalso; eauto.
Qed.

Lemma mem_at_byte b a : b_ok b → word a → is_Some (b_cell b a) → byte (mem_at b a).
Proof.
  intros Hok Ha Hc. pose proof (b_read_ok b a Hok Ha) as [Hb _].
  by rewrite mem_at_read in Hb.
Qed.

Lemma flat_host b a : flat_bus b → b_host b a = None.
Proof.
  intros Hf. rewrite <- b_host_u16. apply b_host_ram; [|apply flat_ram; [done|]]; apply u16_word.
Qed.

Lemma flat_bus_write b a v : flat_bus b → word a → byte v → flat_bus (b_write b a v).
Proof.
  intros [Hok Hr Hi] Ha Hv. split; [by apply b_write_ok|..].
  - intros a' Ha'. rewrite b_write_cell by auto. auto.
  - intros a1 a2 H1 H2. rewrite !b_write_cell by auto. auto.
Qed.
End Flat.
