(* ===== verification/Bus.v ===== *)
(** The address bus and its devices: [src/src/bus.c], [bus.h], [device.h] and
    [device_ram.c].

    Devices are heap objects reached through pointers, and one device may be
    mapped several times, so the model keeps the device store [devs] of the
    bus and a mapping holds an index into it.  The [read_1]/[write_1]/[finish]
    pointers of a device are either those of [device_ram.c] or functions the
    host supplies; the latter are the class [DeviceHost]. *)
From stdpp Require Import base numbers list gmap strings.
From S2P Require Import Prelude Types BusSpec.

(** ** Host devices

    What a host device's functions do to the device's private data
    ([aux]/[config]) is up to the host, their C types are the only law.  What
    they do to an emulator is [Interfaces.host_device_read] and
    [host_device_write]. *)
Class DeviceHost := {
  dev_priv : Type;
  host_read_1 : nat → dev_priv → Z → Z * dev_priv;
  host_write_1 : nat → dev_priv → Z → Z → dev_priv;
  host_finish : nat → dev_priv → option dev_priv;
  host_read_1_uint8 : ∀ id p off, byte (host_read_1 id p off).1
}.

Section Bus.
Context {DH : DeviceHost}.

(** The function pointers and [aux] data of a device.  [RamBody] is a device
    built by [device_ram_init]: its cells, unwritten ones being the zeroes of
    [memset]. *)
Inductive dev_body :=
  | RamBody (ram : gmap Z Z)
  | HostBody (id : nat) (priv : dev_priv).

Record device_t := mkDevice {
  dev_name : string;
  dev_size : Z;
  dev_aux : dev_body
}.

Record device_mapping_t := mkMapping { dm_dev : nat; dm_addr : Z }.
Record device_phys_mapping_t := mkPhysMapping { pm_dev : nat; pm_base : Z }.

Record bus_t := mkBus {
  dm_head : list device_mapping_t;
  dm_phys_head : list device_phys_mapping_t;
  access_debug : bool;
  devs : list device_t
}.

(** What a pointer outside the store denotes; a well-formed bus has none. *)
Definition null_device : device_t := mkDevice "" 0 (RamBody ∅).
Definition dev_at (t : bus_t) (p : nat) : device_t := default null_device (devs t !! p).
Definition set_devs (t : bus_t) (ds : list device_t) : bus_t :=
  mkBus (dm_head t) (dm_phys_head t) (access_debug t) ds.
Definition dev_put (t : bus_t) (p : nat) (body : dev_body) : bus_t :=
  let d := dev_at t p in
  set_devs t (<[p := mkDevice (dev_name d) (dev_size d) body]> (devs t)).

(** *** device_ram.c *)

Definition device_ram_read_1 (ram : gmap Z Z) (offset : Z) : Z := default 0 (ram !! offset).
Definition device_ram_write_1 (ram : gmap Z Z) (offset val : Z) : gmap Z Z :=
  <[offset := val]> ram.

(** The device object [device_ram_init] allocates ([size] is a [uint16_t]). *)
Definition device_ram_init (size : Z) : device_t := mkDevice "RAM" (u16 size) (RamBody ∅).

(** A freshly allocated device: its pointer, and the bus with the store
    extended. *)
Definition dev_alloc (t : bus_t) (d : device_t) : nat * bus_t :=
  (length (devs t), set_devs t (devs t ++ [d])).

(** Calls through the device's function pointers. *)
Definition call_read_1 (t : bus_t) (p : nat) (off : Z) : Z * bus_t :=
  match dev_aux (dev_at t p) with
  | RamBody ram => (device_ram_read_1 ram off, t)
  | HostBody id priv =>
      let '(v, priv') := host_read_1 id priv off in (v, dev_put t p (HostBody id priv'))
  end.

Definition call_write_1 (t : bus_t) (p : nat) (off val : Z) : bus_t :=
  match dev_aux (dev_at t p) with
  | RamBody ram => dev_put t p (RamBody (device_ram_write_1 ram off val))
  | HostBody id priv => dev_put t p (HostBody id (host_write_1 id priv off val))
  end.

Definition call_finish (t : bus_t) (p : nat) : bus_t :=
  match dev_aux (dev_at t p) with
  | RamBody _ => t
  | HostBody id priv =>
      match host_finish id priv with
      | None => t
      | Some priv' => dev_put t p (HostBody id priv')
      end
  end.

(** *** bus.c: mapping devices *)

Definition bus_init : bus_t := mkBus [] [] false [].

Definition bus_device_add (b : bus_t) (d : nat) (addr : Z) : bus_t :=
  if addr + dev_size (dev_at b d) >? RK65C02_BUS_SIZE then b
  else mkBus (dm_head b ++ [mkMapping d addr]) (dm_phys_head b) (access_debug b) (devs b).

Definition bus_device_add_phys (b : bus_t) (d : nat) (base : Z) : bus_t :=
  mkBus (dm_head b) (dm_phys_head b ++ [mkPhysMapping d base]) (access_debug b) (devs b).

Definition bus_init_with_default_devs : bus_t :=
  let '(d, t) := dev_alloc bus_init (device_ram_init 0xDFFF) in
  bus_device_add t d 0x0.

(** *** bus.c: access *)

Definition dm_hit (t : bus_t) (addr : Z) (dm : device_mapping_t) : bool :=
  (addr >=? dm_addr dm) && (addr <? dm_addr dm + dev_size (dev_at t (dm_dev dm))).

(** The [LL_FOREACH] of [bus_access_device]: no [break], so the last mapping
    that contains the address wins. *)
Fixpoint dm_scan (t : bus_t) (addr : Z) (l : list device_mapping_t)
    (acc : option (nat * Z)) : option (nat * Z) :=
  match l with
  | [] => acc
  | dm :: l' =>
      dm_scan t addr l' (if dm_hit t addr dm then Some (dm_dev dm, dm_addr dm) else acc)
  end.

(** The device and offset of an access, [None] for unmapped space. *)
Definition bus_access_device (t : bus_t) (addr : Z) : option (nat * Z) :=
  match dm_scan t addr (dm_head t) None with
  | None => None
  | Some (d, doff) => Some (d, u16 (addr - doff))
  end.

(** [base + size] is computed in [uint32_t]. *)
Definition pm_hit (t : bus_t) (addr : Z) (pm : device_phys_mapping_t) : bool :=
  (addr >=? pm_base pm) && (addr <? u32 (pm_base pm + dev_size (dev_at t (pm_dev pm)))).

(** Here the loop returns at the first hit. *)
Fixpoint pm_scan (t : bus_t) (addr : Z) (l : list device_phys_mapping_t) : option (nat * Z) :=
  match l with
  | [] => None
  | pm :: l' =>
      if pm_hit t addr pm then Some (pm_dev pm, u16 (addr - pm_base pm))
      else pm_scan t addr l'
  end.

Definition bus_access_device_phys (t : bus_t) (addr : Z) : option (nat * Z) :=
  if addr <? RK65C02_BUS_SIZE then None else pm_scan t addr (dm_phys_head t).

Definition bus_read_1 (t : bus_t) (addr : Z) : Z * bus_t :=
  match bus_access_device t addr with
  | None => (0xFF, t)
  | Some (d, off) => call_read_1 t d off
  end.

Definition bus_write_1 (t : bus_t) (addr val : Z) : bus_t :=
  match bus_access_device t addr with
  | None => t
  | Some (d, off) => call_write_1 t d off val
  end.

Definition bus_read_1_phys (t : bus_t) (addr : Z) : Z * bus_t :=
  if addr <? RK65C02_BUS_SIZE then bus_read_1 t (u16 addr)
  else match bus_access_device_phys t addr with
       | None => (0xFF, t)
       | Some (d, off) => call_read_1 t d off
       end.

Definition bus_write_1_phys (t : bus_t) (addr val : Z) : bus_t :=
  if addr <? RK65C02_BUS_SIZE then bus_write_1 t (u16 addr) val
  else match bus_access_device_phys t addr with
       | None => t
       | Some (d, off) => call_write_1 t d off val
       end.

(** *** bus.c: loading *)

(** The [for] loop of [bus_load_buf] from index [i] on. *)
Fixpoint load_buf_loop (t : bus_t) (addr i : Z) (buf : list Z) : bus_t :=
  match buf with
  | [] => t
  | v :: buf' => load_buf_loop (bus_write_1 t (u16 (addr + i)) v) addr (i + 1) buf'
  end.

(** [None] is the failed [assert (bufsize != 0)]; [buf] holds the [bufsize]
    bytes, so its length is a [uint16_t]. *)
Definition bus_load_buf (t : bus_t) (addr : Z) (buf : list Z) : option (bool * bus_t) :=
  match buf with
  | [] => None
  | _ =>
      let ende := addr + Z.of_nat (length buf) in
      if ende >? RK65C02_BUS_SIZE then Some (false, t)
      else Some (true, load_buf_loop t addr 0 buf)
  end.

(** The [read] loop of [bus_load_file] over the bytes left in the file. *)
Fixpoint load_file_loop (t : bus_t) (cur : Z) (file : list Z) : bool * bus_t :=
  match file with
  | [] => (true, t)
  | data :: file' =>
      if cur >=? RK65C02_BUS_SIZE then (false, t)
      else load_file_loop (bus_write_1 t (u16 cur) data) (u32 (cur + 1)) file'
  end.

(** [file] is [None] when [open] fails, otherwise its content, up to the first
    [read] that fails if one does: the loop ends there as at the end of the file. *)
Definition bus_load_file (t : bus_t) (addr : Z) (file : option (list Z)) : bool * bus_t :=
  match file with
  | None => (false, t)
  | Some bytes => load_file_loop t addr bytes
  end.

Fixpoint load_file_phys_loop (t : bus_t) (addr : Z) (file : list Z) : bool * bus_t :=
  match file with
  | [] => (true, t)
  | data :: file' =>
      if addr >=? RK65C02_PHYS_MAX then (false, t)
      else load_file_phys_loop (bus_write_1_phys t addr data) (u32 (addr + 1)) file'
  end.

Definition bus_load_file_phys (t : bus_t) (addr : Z) (file : option (list Z)) : bool * bus_t :=
  if addr <? RK65C02_BUS_SIZE then (false, t)
  else match file with
       | None => (false, t)
       | Some bytes => load_file_phys_loop t addr bytes
       end.

Definition bus_finish (t : bus_t) : bus_t :=
  let t1 := fold_left (λ t dm, call_finish t (dm_dev dm)) (dm_head t) t in
  fold_left (λ t pm, call_finish t (pm_dev pm)) (dm_phys_head t) t1.

(** ** Well-formedness *)

Definition body_ok (body : dev_body) : Prop :=
  match body with
  | RamBody ram => map_Forall (λ _ v, byte v) ram
  | HostBody _ _ => True
  end.

Definition device_ok (d : device_t) : Prop := word (dev_size d) ∧ body_ok (dev_aux d).

(** Every mapped pointer is in the store and every 16-bit mapping ends inside
    the bus. *)
Record bus_ok (t : bus_t) : Prop := {
  ok_devs : Forall device_ok (devs t);
  ok_maps : Forall (λ dm, (dm_dev dm < length (devs t))%nat ∧ 0 ≤ dm_addr dm ∧
    dm_addr dm + dev_size (dev_at t (dm_dev dm)) ≤ RK65C02_BUS_SIZE) (dm_head t);
  ok_pmaps : Forall (λ pm, (pm_dev pm < length (devs t))%nat ∧ 0 ≤ pm_base pm < 4294967296)
    (dm_phys_head t)
}.

Lemma dev_at_size_valid t p : 0 < dev_size (dev_at t p) → (p < length (devs t))%nat.
Proof.
  unfold dev_at. destruct (devs t !! p) eqn:E; simpl; [|lia].
  intros _. by eapply lookup_lt_Some.
Qed.

Lemma dev_put_at t p body q :
  dev_at (dev_put t p body) q =
    if decide (p = q ∧ (p < length (devs t))%nat)
    then mkDevice (dev_name (dev_at t p)) (dev_size (dev_at t p)) body
    else dev_at t q.
Proof.
  unfold dev_put, set_devs. unfold dev_at at 1. simpl. case_decide as H.
  - destruct H as [-> H]. by rewrite list_lookup_insert_eq.
  - destruct (decide (p = q)) as [->|Hne]; [|by rewrite list_lookup_insert_ne].
    rewrite list_insert_ge by lia. done.
Qed.

Lemma dev_put_size t p body q : dev_size (dev_at (dev_put t p body) q) = dev_size (dev_at t q).
Proof. rewrite dev_put_at. case_decide as H; [|done]. destruct H as [-> _]. done. Qed.

Lemma dev_put_length t p body : length (devs (dev_put t p body)) = length (devs t).
Proof. apply length_insert. Qed.

Lemma dm_scan_dev_put t p body addr l acc :
  dm_scan (dev_put t p body) addr l acc = dm_scan t addr l acc.
Proof.
  revert acc. induction l as [|dm l IH]; intros acc; [done|]. simpl. rewrite IH.
  unfold dm_hit. by rewrite dev_put_size.
Qed.

(** Replacing a device's data never changes where an address goes. *)
Lemma access_dev_put t p body addr :
  bus_access_device (dev_put t p body) addr = bus_access_device t addr.
Proof. unfold bus_access_device. by rewrite dm_scan_dev_put. Qed.

Lemma dev_at_ok t p : Forall device_ok (devs t) → device_ok (dev_at t p).
Proof.
  intros H. unfold dev_at. destruct (devs t !! p) eqn:E; simpl.
  - by eapply Forall_lookup_1.
  - split; simpl; [lia|]. apply map_Forall_empty.
Qed.

Lemma dev_put_ok t p body : bus_ok t → body_ok body → bus_ok (dev_put t p body).
Proof.
  intros [Hd Hm Hp] Hb. split; simpl.
  - destruct (decide (p < length (devs t))%nat).
    + apply Forall_insert; [done|]. pose proof (dev_at_ok t p Hd) as [? _]. by split.
    + by rewrite list_insert_ge by lia.
  - eapply Forall_impl; [exact Hm|]. intros dm (?&?&?).
    rewrite dev_put_size, length_insert. done.
  - eapply Forall_impl; [exact Hp|]. intros pm ?. by rewrite length_insert.
Qed.

Lemma device_ram_read_1_byte ram off :
  map_Forall (λ _ v, byte v) ram → byte (device_ram_read_1 ram off).
Proof.
  intros H. unfold device_ram_read_1. destruct (ram !! off) eqn:E; simpl; [|lia].
  by apply (H off).
Qed.

Lemma call_read_1_ok t p off :
  bus_ok t → byte (call_read_1 t p off).1 ∧ bus_ok (call_read_1 t p off).2.
Proof.
  intros Ht. pose proof (dev_at_ok t p (ok_devs t Ht)) as [_ Hb].
  unfold call_read_1. destruct (dev_aux (dev_at t p)) as [ram|id priv]; simpl in *.
  - split; [by apply device_ram_read_1_byte|done].
  - pose proof (host_read_1_uint8 id priv off) as Hr.
    destruct (host_read_1 id priv off). split; [done|]. by apply dev_put_ok.
Qed.

Lemma call_write_1_ok t p off v : bus_ok t → byte v → bus_ok (call_write_1 t p off v).
Proof.
  intros Ht Hv. pose proof (dev_at_ok t p (ok_devs t Ht)) as [_ Hb].
  unfold call_write_1. destruct (dev_aux (dev_at t p)); simpl in *; apply dev_put_ok; try done.
  by apply map_Forall_insert_2.
Qed.

Lemma bus_read_1_ok t a : bus_ok t → byte (bus_read_1 t a).1 ∧ bus_ok (bus_read_1 t a).2.
Proof.
  intros Ht. unfold bus_read_1. destruct (bus_access_device t a) as [[d off]|].
  - by apply call_read_1_ok.
  - simpl. split; [lia|done].
Qed.

Lemma bus_write_1_ok t a v : bus_ok t → byte v → bus_ok (bus_write_1 t a v).
Proof.
  intros Ht Hv. unfold bus_write_1. destruct (bus_access_device t a) as [[d off]|]; [|done].
  by apply call_write_1_ok.
Qed.

Lemma bus_read_1_phys_ok t a :
  bus_ok t → byte (bus_read_1_phys t a).1 ∧ bus_ok (bus_read_1_phys t a).2.
Proof.
  intros Ht. unfold bus_read_1_phys. case_match; [by apply bus_read_1_ok|].
  destruct (bus_access_device_phys t a) as [[d off]|]; [by apply call_read_1_ok|].
  simpl. split; [lia|done].
Qed.

Lemma bus_write_1_phys_ok t a v : bus_ok t → byte v → bus_ok (bus_write_1_phys t a v).
Proof.
  intros Ht Hv. unfold bus_write_1_phys. case_match; [by apply bus_write_1_ok|].
  destruct (bus_access_device_phys t a) as [[d off]|]; [by apply call_write_1_ok|done].
Qed.

(** ** Which device answers *)

Definition maps_addr (t : bus_t) (addr : Z) (dm : device_mapping_t) : Prop :=
  dm_addr dm ≤ addr < dm_addr dm + dev_size (dev_at t (dm_dev dm)).

Lemma dm_hit_spec t addr dm : dm_hit t addr dm = true ↔ maps_addr t addr dm.
Proof. unfold dm_hit, maps_addr. lia. Qed.

Lemma dm_scan_app t addr l1 l2 acc :
  dm_scan t addr (l1 ++ l2) acc = dm_scan t addr l2 (dm_scan t addr l1 acc).
Proof. revert acc. induction l1; intros; simpl; auto. Qed.

Lemma dm_scan_miss t addr l acc :
  Forall (λ dm, ¬ maps_addr t addr dm) l → dm_scan t addr l acc = acc.
Proof.
  intros H. revert acc. induction H as [|dm l Hn _ IH]; intros acc; [done|]. simpl.
  rewrite <- dm_hit_spec in Hn. destruct (dm_hit t addr dm); [done|]. apply IH.
Qed.

Lemma dm_scan_Some t addr l d doff :
  dm_scan t addr l None = Some (d, doff) ↔
  ∃ l1 dm l2, l = l1 ++ dm :: l2 ∧ d = dm_dev dm ∧ doff = dm_addr dm ∧
    maps_addr t addr dm ∧ Forall (λ dm', ¬ maps_addr t addr dm') l2.
Proof.
  split.
  - induction l as [|dm l IH] using rev_ind; [done|].
    rewrite dm_scan_app. simpl. destruct (dm_hit t addr dm) eqn:E.
    + intros [= <- <-]. exists l, dm, []. by rewrite <- dm_hit_spec.
    + intros (l1&dm'&l2&->&?&?&?&?)%IH. exists l1, dm', (l2 ++ [dm]).
      rewrite <- app_assoc. split_and!; [done..|]. apply Forall_app. split; [done|].
      constructor; [|done]. rewrite <- dm_hit_spec. by rewrite E.
  - intros (l1&dm&l2&->&->&->&Hd%dm_hit_spec&Hl2).
    rewrite dm_scan_app. simpl. rewrite Hd. by apply dm_scan_miss.
Qed.

Lemma dm_scan_None t addr l :
  dm_scan t addr l None = None ↔ Forall (λ dm, ¬ maps_addr t addr dm) l.
Proof.
  split; [|apply dm_scan_miss].
  induction l as [|dm l IH] using rev_ind; [done|]. rewrite dm_scan_app. simpl.
  destruct (dm_hit t addr dm) eqn:E; [done|]. intros H%IH.
  apply Forall_app. split; [done|]. constructor; [|done].
  rewrite <- dm_hit_spec. by rewrite E.
Qed.

Lemma access_in_bounds t addr d off :
  bus_ok t → word addr → bus_access_device t addr = Some (d, off) →
  (d < length (devs t))%nat ∧ 0 ≤ off < dev_size (dev_at t d).
Proof.
  intros [Hd Hm _] Ha. unfold bus_access_device.
  destruct (dm_scan t addr (dm_head t) None) as [[d' doff]|] eqn:E; [|done].
  intros [= <- <-]. apply dm_scan_Some in E as (l1&dm&l2&E&->&->&[H1 H2]&_).
  rewrite E, Forall_app, Forall_cons in Hm. destruct Hm as (_&(Hl&Hp&Hs)&_).
  unfold RK65C02_BUS_SIZE in Hs. split; [done|]. rewrite u16_small; lia.
Qed.

(** C13: which device a 16-bit access reaches.  On a well-formed bus the access
    goes to the mapping registered last among those that contain the address,
    at the offset of the address in it, and that offset is inside the device;
    there is no device exactly when no mapping contains the address. *)
Theorem bus_access_last_mapping t addr :
  bus_ok t → word addr →
  (∀ d off, bus_access_device t addr = Some (d, off) ↔
     ∃ l1 dm l2, dm_head t = l1 ++ dm :: l2 ∧ d = dm_dev dm ∧ off = addr - dm_addr dm ∧
       0 ≤ off < dev_size (dev_at t d) ∧ Forall (λ dm', ¬ maps_addr t addr dm') l2) ∧
  (bus_access_device t addr = None ↔ Forall (λ dm, ¬ maps_addr t addr dm) (dm_head t)).
Proof.
  intros Ht Ha. split.
  - intros d off. split.
    + intros H. destruct (access_in_bounds _ _ _ _ Ht Ha H) as [Hl Hb].
      unfold bus_access_device in H.
      destruct (dm_scan t addr (dm_head t) None) as [[d' doff]|] eqn:E; [|done].
      injection H as <- <-. apply dm_scan_Some in E as (l1&dm&l2&E&->&->&Hm&Hn).
      exists l1, dm, l2. split_and!; try done; [|lia..].
      destruct Hm, (proj1 (Forall_app _ _ _) (eq_ind _ _ (ok_maps _ Ht) _ E)) as [_ Hc].
      apply Forall_cons in Hc as [(_&?&?) _]. unfold RK65C02_BUS_SIZE in *. apply u16_small. lia.
    + intros (l1&dm&l2&E&->&->&Hb&Hn). unfold bus_access_device.
      assert (dm_scan t addr (dm_head t) None = Some (dm_dev dm, dm_addr dm)) as ->.
      { apply dm_scan_Some. exists l1, dm, l2. unfold maps_addr. split_and!; auto; lia. }
      pose proof (ok_devs _ Ht) as Hds. pose proof (dev_at_ok _ (dm_dev dm) Hds) as [? _].
      rewrite u16_small by lia. done.
  - unfold bus_access_device. rewrite <- dm_scan_None.
    destruct (dm_scan t addr (dm_head t) None) as [[]|]; done.
Qed.

(** *** The RAM cells of the bus *)

Definition ram_cell (t : bus_t) (a : Z) : option (nat * Z) :=
  match bus_access_device t a with
  | Some (d, off) =>
      match dev_aux (dev_at t d) with RamBody _ => Some (d, off) | HostBody _ _ => None end
  | None => None
  end.

Definition cell_peek (t : bus_t) (c : nat * Z) : Z :=
  match dev_aux (dev_at t c.1) with
  | RamBody ram => device_ram_read_1 ram c.2
  | HostBody _ _ => 0
  end.

Lemma access_valid t a d off :
  bus_access_device t a = Some (d, off) → (d < length (devs t))%nat.
Proof.
  unfold bus_access_device.
  destruct (dm_scan t a (dm_head t) None) as [[d' doff]|] eqn:E; [|done].
  intros [= <- _]. apply dm_scan_Some in E as (?&dm&?&_&->&_&[]&_).
  apply dev_at_size_valid. lia.
Qed.

Lemma ram_cell_Some t a d off :
  ram_cell t a = Some (d, off) →
  ∃ ram, bus_access_device t a = Some (d, off) ∧ dev_aux (dev_at t d) = RamBody ram ∧
    (d < length (devs t))%nat.
Proof.
  unfold ram_cell. destruct (bus_access_device t a) as [[d' off']|] eqn:E; [|done].
  destruct (dev_aux (dev_at t d')) as [ram|] eqn:Ed; [|done]. intros [= <- <-].
  exists ram. split_and!; [done..|]. by eapply access_valid.
Qed.

Lemma ram_cell_dev_put t p ram a :
  (∃ ram0, dev_aux (dev_at t p) = RamBody ram0) →
  ram_cell (dev_put t p (RamBody ram)) a = ram_cell t a.
Proof.
  intros [ram0 Hr]. unfold ram_cell. rewrite access_dev_put.
  destruct (bus_access_device t a) as [[d off]|]; [|done].
  rewrite dev_put_at. case_decide as H; [|done]. destruct H as [-> _]. simpl. by rewrite Hr.
Qed.

(** The cells of physical memory above 64K. *)
Definition ram_cell_phys (t : bus_t) (a : Z) : option (nat * Z) :=
  match bus_access_device_phys t a with
  | Some (d, off) =>
      if (d <? length (devs t))%nat then
        match dev_aux (dev_at t d) with RamBody _ => Some (d, off) | HostBody _ _ => None end
      else None
  | None => None
  end.

Lemma pm_scan_dev_put t p body a l : pm_scan (dev_put t p body) a l = pm_scan t a l.
Proof.
  induction l as [|pm l IH]; [done|]. cbn [pm_scan]. rewrite IH.
  replace (pm_hit (dev_put t p body) a pm) with (pm_hit t a pm); [done|].
  unfold pm_hit. rewrite dev_put_at. case_decide as H; [|done]. by destruct H as [-> _].
Qed.
Lemma access_phys_dev_put t p body a :
  bus_access_device_phys (dev_put t p body) a = bus_access_device_phys t a.
Proof. unfold bus_access_device_phys. by rewrite pm_scan_dev_put. Qed.

Lemma ram_cell_phys_dev_put t p ram a :
  (∃ ram0, dev_aux (dev_at t p) = RamBody ram0) →
  ram_cell_phys (dev_put t p (RamBody ram)) a = ram_cell_phys t a.
Proof.
  intros [ram0 Hr]. unfold ram_cell_phys. rewrite access_phys_dev_put.
  destruct (bus_access_device_phys t a) as [[d off]|]; [|done]. rewrite dev_put_length.
  rewrite dev_put_at. case_decide as H; [|done]. destruct H as [-> _]. simpl. by rewrite Hr.
Qed.

Lemma ram_cell_phys_Some t a d off : ram_cell_phys t a = Some (d, off) →
  ∃ ram, bus_access_device_phys t a = Some (d, off) ∧ dev_aux (dev_at t d) = RamBody ram ∧
    (a <? RK65C02_BUS_SIZE) = false ∧ (d < length (devs t))%nat.
Proof.
  unfold ram_cell_phys, bus_access_device_phys. destruct (a <? RK65C02_BUS_SIZE) eqn:Ea; [done|].
  destruct (pm_scan t a (dm_phys_head t)) as [[d' off']|] eqn:E; [|done].
  destruct (Nat.ltb_spec d' (length (devs t))); [|done].
  destruct (dev_aux (dev_at t d')) as [ram|] eqn:Ed; [|done]. intros [= <- <-]. by exists ram.
Qed.

(** Writing a cell of a device that is there. *)
Lemma cell_peek_put t d off v ram c : dev_aux (dev_at t d) = RamBody ram → (d < length (devs t))%nat →
  cell_peek (dev_put t d (RamBody (device_ram_write_1 ram off v))) c =
    if decide ((d, off) = c) then v else cell_peek t c.
Proof.
  intros Hr Hl. destruct c as [d' off']. unfold cell_peek. rewrite dev_put_at. simpl.
  unfold device_ram_write_1, device_ram_read_1. destruct (decide (d = d')) as [<-|Hd].
  - rewrite decide_True by done. simpl. rewrite Hr, lookup_insert.
    repeat case_decide; by simplify_eq/=.
  - rewrite decide_False by naive_solver. rewrite decide_False by congruence. done.
Qed.

(** The host's function that an access at [hit] calls. *)
Definition host_of (t : bus_t) (hit : option (nat * Z)) : option (nat * nat * Z) :=
  match hit with
  | Some (d, off) =>
      match dev_aux (dev_at t d) with HostBody id _ => Some (id, d, off) | RamBody _ => None end
  | None => None
  end.

#[export] Instance bus_ops : BusOps bus_t := {|
  b_read := bus_read_1; b_write := bus_write_1;
  b_read_phys := bus_read_1_phys; b_write_phys := bus_write_1_phys;
  b_host := λ t a, host_of t (bus_access_device t (u16 a));
  b_host_phys := λ t a, host_of t (bus_access_device_phys t a)
|}.

(** A device keeps its functions. *)
Lemma host_of_dev_put t p body a :
  match dev_aux (dev_at t p), body with
  | HostBody id _, HostBody id' _ => id' = id
  | RamBody _, RamBody _ => True
  | _, _ => False
  end → host_of (dev_put t p body) (bus_access_device (dev_put t p body) a) =
        host_of t (bus_access_device t a).
Proof.
  intros Hb. rewrite access_dev_put. destruct (bus_access_device t a) as [[d off]|]; [|done].
  cbn [host_of]. rewrite dev_put_at. case_decide as H; [|done]. destruct H as [-> _]. cbn [dev_aux].
  destruct (dev_aux (dev_at t d)), body; try done. by rewrite Hb.
Qed.

#[export] Program Instance bus_laws : BusLaws bus_t := {|
  b_ok := bus_ok; b_cell := ram_cell; b_peek := cell_peek; b_cell_phys := ram_cell_phys
|}.
Next Obligation. intros. by apply bus_read_1_ok. Qed.
Next Obligation. intros. by apply bus_write_1_ok. Qed.
Next Obligation. intros. by apply bus_read_1_phys_ok. Qed.
Next Obligation. intros. by apply bus_write_1_phys_ok. Qed.
Next Obligation.
  intros t a [d off] (ram&Ha&Hr&_)%ram_cell_Some. 
  unfold b_read, bus_ops, bus_read_1, call_read_1, cell_peek. rewrite Ha. simpl. by rewrite Hr.
Qed.
Next Obligation.
  intros t a v a' [[d off] (ram&Ha&Hr&_)%ram_cell_Some].
  unfold b_write, bus_ops, bus_write_1, call_write_1. rewrite Ha, Hr. apply ram_cell_dev_put. eauto.
Qed.
Next Obligation.
  intros t a v [d off] c' (ram&Ha&Hr&Hl)%ram_cell_Some.
  unfold b_write, bus_ops, bus_write_1, call_write_1. rewrite Ha, Hr. by apply cell_peek_put.
Qed.
Next Obligation.
  intros t a Ha [[d off] (ram&E&Hr&_)%ram_cell_Some]. unfold b_host, bus_ops, host_of.
  by rewrite u16_small, E, Hr.
Qed.
Next Obligation. intros t a. unfold b_host, bus_ops. by rewrite (u16_small (u16 a)) by apply u16_word. Qed.
Next Obligation.
  intros t a a'. unfold b_host, b_read, bus_ops, bus_read_1.
  destruct (bus_access_device t a) as [[d off]|]; [|done]. unfold call_read_1.
  destruct (dev_aux (dev_at t d)) as [ram|id priv] eqn:Ed; [done|].
  destruct (host_read_1 id priv off). apply host_of_dev_put. by rewrite Ed.
Qed.
Next Obligation.
  intros t a v a'. unfold b_host, b_write, bus_ops, bus_write_1.
  destruct (bus_access_device t a) as [[d off]|]; [|done]. unfold call_write_1.
  destruct (dev_aux (dev_at t d)) as [ram|id priv] eqn:Ed; apply host_of_dev_put; by rewrite Ed.
Qed.
Next Obligation.
  intros t a [d off] (ram&Ha&Hr&Hb&_)%ram_cell_phys_Some.
  unfold b_read_phys, bus_ops, bus_read_1_phys, call_read_1, cell_peek. rewrite Hb, Ha. simpl. by rewrite Hr.
Qed.
Next Obligation.
  intros t a v [d off] c' (ram&Ha&Hr&Hb&Hl)%ram_cell_phys_Some.
  unfold b_write_phys, bus_ops, bus_write_1_phys, call_write_1. rewrite Hb, Ha, Hr. by apply cell_peek_put.
Qed.
Next Obligation.
  intros t a v a' [[d off] (ram&Ha&Hr&_)%ram_cell_Some].
  unfold b_write, bus_ops, bus_write_1, call_write_1. rewrite Ha, Hr. apply ram_cell_phys_dev_put. eauto.
Qed.
Next Obligation.
  intros t a v a' [[d off] (ram&Ha&Hr&Hb&_)%ram_cell_phys_Some].
  unfold b_write_phys, bus_ops, bus_write_1_phys, call_write_1. rewrite Hb, Ha, Hr.
  split; [apply ram_cell_dev_put|apply ram_cell_phys_dev_put]; eauto.
Qed.
Next Obligation.
  intros t a [[d off] (ram&E&Hr&_)%ram_cell_phys_Some]. unfold b_host_phys, bus_ops, host_of.
  by rewrite E, Hr.
Qed.

(** The laws at the concrete bus. *)
Lemma bus_write_1_cell t a v a' :
  is_Some (ram_cell t a) → ram_cell (bus_write_1 t a v) a' = ram_cell t a'.
Proof. exact (b_write_cell t a v a'). Qed.

Lemma bus_read_1_ram t a : is_Some (ram_cell t a) → bus_read_1 t a = (mem_at t a, t).
Proof. exact (mem_at_read t a). Qed.

Lemma bus_write_1_mem t a v a' :
  is_Some (ram_cell t a) → is_Some (ram_cell t a') →
  mem_at (bus_write_1 t a v) a' =
    if decide (ram_cell t a = ram_cell t a') then v else mem_at t a'.
Proof. exact (mem_at_write t a v a'). Qed.

(** ** Loading *)

Lemma load_buf_loop_cell t addr i buf a :
  (∀ k, (k < length buf)%nat → is_Some (ram_cell t (u16 (addr + i + Z.of_nat k)))) →
  ram_cell (load_buf_loop t addr i buf) a = ram_cell t a.
Proof.
  revert t i. induction buf as [|v buf IH]; intros t i Hr; [done|]. simpl.
  assert (∀ a, ram_cell (bus_write_1 t (u16 (addr + i)) v) a = ram_cell t a) as Hw.
  { intros a'. apply bus_write_1_cell. specialize (Hr 0%nat ltac:(simpl; lia)).
    by rewrite Z.add_0_r in Hr. }
  rewrite IH, Hw; [done|]. intros k Hk. rewrite Hw.
  specialize (Hr (S k) ltac:(simpl; lia)).
  by replace (addr + (i + 1) + Z.of_nat k) with (addr + i + Z.of_nat (S k)) by lia.
Qed.

(** The content of a RAM address after the loop: the last byte written to its
    cell, or its old content. *)
Lemma load_buf_loop_mem t addr i buf a :
  (∀ k, (k < length buf)%nat → is_Some (ram_cell t (u16 (addr + i + Z.of_nat k)))) →
  is_Some (ram_cell t a) →
  (∀ k v, buf !! k = Some v →
     (∀ j, (k < j < length buf)%nat →
        ram_cell t a ≠ ram_cell t (u16 (addr + i + Z.of_nat j))) →
     ram_cell t a = ram_cell t (u16 (addr + i + Z.of_nat k)) →
     mem_at (load_buf_loop t addr i buf) a = v) ∧
  ((∀ k, (k < length buf)%nat → ram_cell t a ≠ ram_cell t (u16 (addr + i + Z.of_nat k))) →
     mem_at (load_buf_loop t addr i buf) a = mem_at t a).
Proof.
  revert t i. induction buf as [|v buf IH]; intros t i Hr Ha; [done|]. simpl.
  pose proof (Hr 0%nat ltac:(simpl; lia)) as H0. rewrite Z.add_0_r in H0.
  assert (∀ a, ram_cell (bus_write_1 t (u16 (addr + i)) v) a = ram_cell t a) as Hw.
  { intros a'. by apply bus_write_1_cell. }
  assert (∀ k, addr + (i + 1) + Z.of_nat k = addr + i + Z.of_nat (S k)) as Hk by lia.
  destruct (IH (bus_write_1 t (u16 (addr + i)) v) (i + 1)) as [IH1 IH2].
  { intros k Hl. rewrite Hw, Hk. apply Hr. simpl. lia. }
  { by rewrite Hw. }
  assert (mem_at (bus_write_1 t (u16 (addr + i)) v) a =
            if decide (ram_cell t (u16 (addr + i)) = ram_cell t a) then v else mem_at t a) as Hm.
  { by apply bus_write_1_mem. }
  split.
  - intros [|k] v' Hv Hlast Heq; simpl in Hv.
    + injection Hv as <-. rewrite IH2, Hm.
      * rewrite Z.add_0_r in Heq. by rewrite decide_True.
      * intros k Hl. rewrite !Hw, Hk. apply Hlast. lia.
    + eapply IH1; [done|..]; setoid_rewrite Hw; [|by rewrite Hk].
      intros j Hj. rewrite Hk. apply Hlast. lia.
  - intros Hn. rewrite IH2, Hm.
    + specialize (Hn 0%nat ltac:(lia)). rewrite Z.add_0_r in Hn. by rewrite decide_False.
    + intros k Hl. rewrite !Hw, Hk. apply Hn. lia.
Qed.

Lemma bus_load_buf_spec t addr buf :
  word addr → buf ≠ [] → addr + Z.of_nat (length buf) ≤ RK65C02_BUS_SIZE →
  (∀ k, (k < length buf)%nat → is_Some (ram_cell t (addr + Z.of_nat k))) →
  (∀ j k, (j < length buf)%nat → (k < length buf)%nat →
     ram_cell t (addr + Z.of_nat j) = ram_cell t (addr + Z.of_nat k) → j = k) →
  ∃ t', bus_load_buf t addr buf = Some (true, t') ∧
    (∀ k v, buf !! k = Some v → bus_read_1 t' (addr + Z.of_nat k) = (v, t')) ∧
    (∀ a, is_Some (ram_cell t a) →
       (∀ k, (k < length buf)%nat → ram_cell t a ≠ ram_cell t (addr + Z.of_nat k)) →
       bus_read_1 t' a = ((bus_read_1 t a).1, t')).
Proof.
  intros Ha Hne Hfit Hram Hinj.
  assert (∀ k, (k < length buf)%nat → u16 (addr + 0 + Z.of_nat k) = addr + Z.of_nat k) as Hu.
  { intros k Hk. unfold RK65C02_BUS_SIZE in Hfit. rewrite u16_small; lia. }
  exists (load_buf_loop t addr 0 buf). split_and!.
  - unfold bus_load_buf. destruct buf; [done|].
    rewrite Z.gtb_ltb, (proj2 (Z.ltb_ge _ _)) by done. done.
  - intros k v Hv. pose proof (lookup_lt_Some _ _ _ Hv) as Hl.
    destruct (load_buf_loop_mem t addr 0 buf (addr + Z.of_nat k)) as [H1 _].
    { intros j Hj. rewrite Hu by done. auto. } { auto. }
    rewrite <- (H1 k v Hv).
    + apply bus_read_1_ram. rewrite load_buf_loop_cell; [auto|].
      intros j Hj. rewrite Hu by done. auto.
    + intros j Hj. rewrite Hu by lia. intros E. apply Hinj in E; lia.
    + by rewrite Hu.
  - intros a Hc Hd.
    destruct (load_buf_loop_mem t addr 0 buf a) as [_ H2]; [|done|].
    { intros j Hj. rewrite Hu by done. auto. }
    rewrite (bus_read_1_ram t a) by done. simpl.
    rewrite <- H2.
    + apply bus_read_1_ram. rewrite load_buf_loop_cell; [auto|].
      intros j Hj. rewrite Hu by done. auto.
    + intros k Hk. rewrite Hu by done. auto.
Qed.

(** C34: loading a buffer and reading it back.  When the buffer fits below the
    end of the bus and its addresses are distinct RAM cells, [bus_load_buf]
    succeeds, every byte can be read back at its address, and every other RAM
    cell keeps its content. *)
Theorem bus_load_buf_roundtrip t addr buf :
  word addr → buf ≠ [] → addr + Z.of_nat (length buf) ≤ RK65C02_BUS_SIZE →
  (∀ k, (k < length buf)%nat → is_Some (ram_cell t (addr + Z.of_nat k))) →
  (∀ j k, (j < length buf)%nat → (k < length buf)%nat →
     ram_cell t (addr + Z.of_nat j) = ram_cell t (addr + Z.of_nat k) → j = k) →
  ∃ t', bus_load_buf t addr buf = Some (true, t') ∧
    (∀ k v, buf !! k = Some v → bus_read_1 t' (addr + Z.of_nat k) = (v, t')) ∧
    (∀ a, is_Some (ram_cell t a) →
       (∀ k, (k < length buf)%nat → ram_cell t a ≠ ram_cell t (addr + Z.of_nat k)) →
       bus_read_1 t' a = ((bus_read_1 t a).1, t')).
Proof. apply bus_load_buf_spec. Qed.

(** Loading a file is loading the part of it that fits. *)
Lemma load_file_loop_spec t addr i bytes :
  0 ≤ addr → 0 ≤ i → addr + i ≤ RK65C02_BUS_SIZE →
  load_file_loop t (addr + i) bytes =
    (bool_decide (addr + i + Z.of_nat (length bytes) ≤ RK65C02_BUS_SIZE),
     load_buf_loop t addr i (take (Z.to_nat (RK65C02_BUS_SIZE - (addr + i))) bytes)).
Proof.
  unfold RK65C02_BUS_SIZE. intros Ha. revert t i. induction bytes as [|v bytes IH]; intros t i Hi Hle.
  - simpl. rewrite bool_decide_true by (simpl; lia). by rewrite take_nil.
  - cbn [load_file_loop]. unfold RK65C02_BUS_SIZE. destruct (Z.geb_spec (addr + i) 65536).
    + rewrite bool_decide_false by (simpl; lia).
      replace (Z.to_nat (65536 - (addr + i))) with 0%nat by lia. done.
    + rewrite (u32_small (addr + i + 1)) by lia.
      replace (Z.to_nat (65536 - (addr + i))) with (S (Z.to_nat (65536 - (addr + (i + 1))))) by lia.
      simpl. rewrite <- Z.add_assoc, IH by lia. f_equal. apply bool_decide_ext. lia.
Qed.

(** C35: [bus_load_file] never wraps past the top of the bus: it stores exactly
    the bytes of the file that fit between [addr] and 0xFFFF, and its result
    says whether that was the whole file. *)
Theorem bus_load_file_no_wrap t addr bytes :
  word addr →
  bus_load_file t addr (Some bytes) =
    (bool_decide (addr + Z.of_nat (length bytes) ≤ RK65C02_BUS_SIZE),
     load_buf_loop t addr 0 (take (Z.to_nat (RK65C02_BUS_SIZE - addr)) bytes)).
Proof.
  intros Ha. pose proof (load_file_loop_spec t addr 0 bytes) as H.
  unfold RK65C02_BUS_SIZE in *. rewrite Z.add_0_r in H. apply H; lia.
Qed.

(** A well-formed bus, decided by evaluation. *)
Definition ram_devb (d : device_t) : bool :=
  (0 <=? dev_size d) && (dev_size d <? 65536) &&
  match dev_aux d with
  | RamBody ram => forallb (λ kv, (0 <=? kv.2) && (kv.2 <? 256)) (map_to_list ram)
  | HostBody _ _ => true
  end.
Definition bus_okb (t : bus_t) : bool :=
  forallb ram_devb (devs t) &&
  forallb (λ dm, (Nat.ltb (dm_dev dm) (length (devs t))) && (0 <=? dm_addr dm) &&
    (dm_addr dm + dev_size (dev_at t (dm_dev dm)) <=? RK65C02_BUS_SIZE)) (dm_head t) &&
  forallb (λ pm, (Nat.ltb (pm_dev pm) (length (devs t))) && (0 <=? pm_base pm) &&
    (pm_base pm <? 4294967296)) (dm_phys_head t).

Lemma bus_okb_ok t : bus_okb t = true → bus_ok t.
Proof.
  unfold bus_okb. rewrite !andb_true_iff. intros [[Hd%forallb_Forall Hm%forallb_Forall]
    Hp%forallb_Forall]. split.
  - eapply Forall_impl; [exact Hd|]. intros d H. unfold ram_devb in H.
    rewrite !andb_true_iff in H. destruct H as [[] Hb]. split; [lia|].
    destruct (dev_aux d) as [ram|]; [|done]. apply forallb_Forall in Hb.
    rewrite Forall_forall in Hb. intros k v Hkv%elem_of_map_to_list.
    specialize (Hb _ Hkv). simpl in Hb. lia.
  - eapply Forall_impl; [exact Hm|]. intros dm H. simpl in H.
    rewrite !andb_true_iff, Nat.ltb_lt in H. lia.
  - eapply Forall_impl; [exact Hp|]. intros pm H. simpl in H.
    rewrite !andb_true_iff, Nat.ltb_lt in H. lia.
Qed.

End Bus.
