(* ===== verification/State.v ===== *)
(** The emulator instance: [struct rk65c02emu] of [src/src/rk65c02.h], and the
    state monad the C functions that work on it are translated into.

    The struct refers to three things that live elsewhere, the bus, the JIT
    backend's data and whatever memory the host's callbacks use; their types
    are the class [Sys].  The host's memory is a field ([host]) of the model's
    state because callbacks read and write it. *)
From stdpp Require Import base numbers list gmap strings.
From S2P Require Import Prelude Types.

Class Sys := { sys_bus : Type; sys_jit : Type; sys_host : Type }.

(** The two backends the function pointers [mem_read_1_fn] and
    [mem_write_1_fn] select: [rk65c02_mem_*_direct] or [rk65c02_mem_*_mmu]. *)
Inductive mem_fn := mem_direct | mem_mmu.

Section State.
Context {SY : Sys}.

(** Host function pointers are [option nat] ([None] is [NULL]) and the opaque
    [void *] contexts are [Z].  [mmu_changed_vpage] is the set of the indexes
    holding [true]; [mmu_tlb] maps the indexes of the array, absent ones being
    the all-zero entry of [memset].  [jit_fault_env] is the [Longjmp] outcome
    below. *)
#[projections(primitive)]
Record rk65c02emu := mkEmu {
  state : emu_state_t;
  bus : sys_bus;
  regs : reg_state_t;
  stopreason : emu_stop_reason_t;
  mmu_last_fault_addr : Z;
  mmu_last_fault_access : rk65c02_mmu_access_t;
  mmu_last_fault_code : Z;
  irq : bool;
  bps_head : list Z;
  runtime_disassembly : bool;
  trace : bool;
  trace_head : list trace_t;
  use_jit : bool;
  jit_loop_budget : Z;
  jit_requested : bool;
  jit : option sys_jit;
  in_jit_run : bool;
  stop_requested : bool;
  on_stop : option nat;
  on_stop_ctx : Z;
  tick : option nat;
  tick_ctx : Z;
  tick_interval : Z;
  tick_countdown : Z;
  idle_wait_enabled : bool;
  idle_wait : option nat;
  idle_wait_ctx : Z;
  mmu_enabled : bool;
  mmu_identity_fastpath : bool;
  mmu_identity_active : bool;
  mmu_update_pending : bool;
  mmu_epoch : Z;
  mmu_translate : option nat;
  mmu_translate_ctx : Z;
  mmu_fault : option nat;
  mmu_fault_ctx : Z;
  mmu_fault_reexec : bool;
  mmu_tlb_enabled : bool;
  mmu_changed_all : bool;
  mmu_changed_vpage : gset Z;
  mmu_tlb_hits : Z;
  mmu_tlb_misses : Z;
  mmu_tlb : gmap Z rk65c02_mmu_tlb_entry;
  mem_read_1_fn : mem_fn;
  mem_write_1_fn : mem_fn;
  host : sys_host
}.

(** The record rebuilt field by field; the setters replace one field of it. *)
Definition emu_eta (e : rk65c02emu) : rk65c02emu :=
  mkEmu
    e.(state) e.(bus) e.(regs) e.(stopreason) e.(mmu_last_fault_addr)
    e.(mmu_last_fault_access) e.(mmu_last_fault_code) e.(irq) e.(bps_head)
    e.(runtime_disassembly) e.(trace) e.(trace_head) e.(use_jit) e.(jit_loop_budget)
    e.(jit_requested) e.(jit) e.(in_jit_run) e.(stop_requested) e.(on_stop)
    e.(on_stop_ctx) e.(tick) e.(tick_ctx) e.(tick_interval) e.(tick_countdown)
    e.(idle_wait_enabled) e.(idle_wait) e.(idle_wait_ctx) e.(mmu_enabled)
    e.(mmu_identity_fastpath) e.(mmu_identity_active) e.(mmu_update_pending)
    e.(mmu_epoch) e.(mmu_translate) e.(mmu_translate_ctx) e.(mmu_fault)
    e.(mmu_fault_ctx) e.(mmu_fault_reexec) e.(mmu_tlb_enabled) e.(mmu_changed_all)
    e.(mmu_changed_vpage) e.(mmu_tlb_hits) e.(mmu_tlb_misses) e.(mmu_tlb)
    e.(mem_read_1_fn) e.(mem_write_1_fn) e.(host).

Ltac replace_field e f v :=
  let b := eval cbv beta delta [emu_eta] in (emu_eta e) in
  match b with context C [f e] => let b' := context C [v] in exact b' end.

Definition set_state (v : emu_state_t) (e : rk65c02emu) : rk65c02emu :=
  ltac:(replace_field e state v).
Definition set_bus (v : sys_bus) (e : rk65c02emu) : rk65c02emu :=
  ltac:(replace_field e bus v).
Definition set_regs (v : reg_state_t) (e : rk65c02emu) : rk65c02emu :=
  ltac:(replace_field e regs v).
Definition set_stopreason (v : emu_stop_reason_t) (e : rk65c02emu) : rk65c02emu :=
  ltac:(replace_field e stopreason v).
Definition set_mmu_last_fault_addr (v : Z) (e : rk65c02emu) : rk65c02emu :=
  ltac:(replace_field e mmu_last_fault_addr v).
Definition set_mmu_last_fault_access (v : rk65c02_mmu_access_t) (e : rk65c02emu) : rk65c02emu :=
  ltac:(replace_field e mmu_last_fault_access v).
Definition set_mmu_last_fault_code (v : Z) (e : rk65c02emu) : rk65c02emu :=
  ltac:(replace_field e mmu_last_fault_code v).
Definition set_irq (v : bool) (e : rk65c02emu) : rk65c02emu :=
  ltac:(replace_field e irq v).
Definition set_bps_head (v : list Z) (e : rk65c02emu) : rk65c02emu :=
  ltac:(replace_field e bps_head v).
Definition set_runtime_disassembly (v : bool) (e : rk65c02emu) : rk65c02emu :=
  ltac:(replace_field e runtime_disassembly v).
Definition set_trace (v : bool) (e : rk65c02emu) : rk65c02emu :=
  ltac:(replace_field e trace v).
Definition set_trace_head (v : list trace_t) (e : rk65c02emu) : rk65c02emu :=
  ltac:(replace_field e trace_head v).
Definition set_use_jit (v : bool) (e : rk65c02emu) : rk65c02emu :=
  ltac:(replace_field e use_jit v).
Definition set_jit_loop_budget (v : Z) (e : rk65c02emu) : rk65c02emu :=
  ltac:(replace_field e jit_loop_budget v).
Definition set_jit_requested (v : bool) (e : rk65c02emu) : rk65c02emu :=
  ltac:(replace_field e jit_requested v).
Definition set_jit (v : option sys_jit) (e : rk65c02emu) : rk65c02emu :=
  ltac:(replace_field e jit v).
Definition set_in_jit_run (v : bool) (e : rk65c02emu) : rk65c02emu :=
  ltac:(replace_field e in_jit_run v).
Definition set_stop_requested (v : bool) (e : rk65c02emu) : rk65c02emu :=
  ltac:(replace_field e stop_requested v).
Definition set_on_stop (v : option nat) (e : rk65c02emu) : rk65c02emu :=
  ltac:(replace_field e on_stop v).
Definition set_on_stop_ctx (v : Z) (e : rk65c02emu) : rk65c02emu :=
  ltac:(replace_field e on_stop_ctx v).
Definition set_tick (v : option nat) (e : rk65c02emu) : rk65c02emu :=
  ltac:(replace_field e tick v).
Definition set_tick_ctx (v : Z) (e : rk65c02emu) : rk65c02emu :=
  ltac:(replace_field e tick_ctx v).
Definition set_tick_interval (v : Z) (e : rk65c02emu) : rk65c02emu :=
  ltac:(replace_field e tick_interval v).
Definition set_tick_countdown (v : Z) (e : rk65c02emu) : rk65c02emu :=
  ltac:(replace_field e tick_countdown v).
Definition set_idle_wait_enabled (v : bool) (e : rk65c02emu) : rk65c02emu :=
  ltac:(replace_field e idle_wait_enabled v).
Definition set_idle_wait (v : option nat) (e : rk65c02emu) : rk65c02emu :=
  ltac:(replace_field e idle_wait v).
Definition set_idle_wait_ctx (v : Z) (e : rk65c02emu) : rk65c02emu :=
  ltac:(replace_field e idle_wait_ctx v).
Definition set_mmu_enabled (v : bool) (e : rk65c02emu) : rk65c02emu :=
  ltac:(replace_field e mmu_enabled v).
Definition set_mmu_identity_fastpath (v : bool) (e : rk65c02emu) : rk65c02emu :=
  ltac:(replace_field e mmu_identity_fastpath v).
Definition set_mmu_identity_active (v : bool) (e : rk65c02emu) : rk65c02emu :=
  ltac:(replace_field e mmu_identity_active v).
Definition set_mmu_update_pending (v : bool) (e : rk65c02emu) : rk65c02emu :=
  ltac:(replace_field e mmu_update_pending v).
Definition set_mmu_epoch (v : Z) (e : rk65c02emu) : rk65c02emu :=
  ltac:(replace_field e mmu_epoch v).
Definition set_mmu_translate (v : option nat) (e : rk65c02emu) : rk65c02emu :=
  ltac:(replace_field e mmu_translate v).
Definition set_mmu_translate_ctx (v : Z) (e : rk65c02emu) : rk65c02emu :=
  ltac:(replace_field e mmu_translate_ctx v).
Definition set_mmu_fault (v : option nat) (e : rk65c02emu) : rk65c02emu :=
  ltac:(replace_field e mmu_fault v).
Definition set_mmu_fault_ctx (v : Z) (e : rk65c02emu) : rk65c02emu :=
  ltac:(replace_field e mmu_fault_ctx v).
Definition set_mmu_fault_reexec (v : bool) (e : rk65c02emu) : rk65c02emu :=
  ltac:(replace_field e mmu_fault_reexec v).
Definition set_mmu_tlb_enabled (v : bool) (e : rk65c02emu) : rk65c02emu :=
  ltac:(replace_field e mmu_tlb_enabled v).
Definition set_mmu_changed_all (v : bool) (e : rk65c02emu) : rk65c02emu :=
  ltac:(replace_field e mmu_changed_all v).
Definition set_mmu_changed_vpage (v : gset Z) (e : rk65c02emu) : rk65c02emu :=
  ltac:(replace_field e mmu_changed_vpage v).
Definition set_mmu_tlb_hits (v : Z) (e : rk65c02emu) : rk65c02emu :=
  ltac:(replace_field e mmu_tlb_hits v).
Definition set_mmu_tlb_misses (v : Z) (e : rk65c02emu) : rk65c02emu :=
  ltac:(replace_field e mmu_tlb_misses v).
Definition set_mmu_tlb (v : gmap Z rk65c02_mmu_tlb_entry) (e : rk65c02emu) : rk65c02emu :=
  ltac:(replace_field e mmu_tlb v).
Definition set_mem_read_1_fn (v : mem_fn) (e : rk65c02emu) : rk65c02emu :=
  ltac:(replace_field e mem_read_1_fn v).
Definition set_mem_write_1_fn (v : mem_fn) (e : rk65c02emu) : rk65c02emu :=
  ltac:(replace_field e mem_write_1_fn v).
Definition set_host (v : sys_host) (e : rk65c02emu) : rk65c02emu :=
  ltac:(replace_field e host v).

(** ** Register updates *)

Definition regs_A (v : Z) (r : reg_state_t) := mkRegs v (X r) (Y r) (PC r) (SP r) (P r).
Definition regs_X (v : Z) (r : reg_state_t) := mkRegs (A r) v (Y r) (PC r) (SP r) (P r).
Definition regs_Y (v : Z) (r : reg_state_t) := mkRegs (A r) (X r) v (PC r) (SP r) (P r).
Definition regs_PC (v : Z) (r : reg_state_t) := mkRegs (A r) (X r) (Y r) v (SP r) (P r).
Definition regs_SP (v : Z) (r : reg_state_t) := mkRegs (A r) (X r) (Y r) (PC r) v (P r).
Definition regs_P (v : Z) (r : reg_state_t) := mkRegs (A r) (X r) (Y r) (PC r) (SP r) v.

(** ** The monad

    A C function on [rk65c02emu_t *e] is a state transformer.  Besides
    returning it may leave through the [longjmp] of [emu_stop_error] or fail
    an [assert]; a loop the model bounds by fuel may run out of it. *)
Inductive outcome (T : Type) := Ret (a : T) | Longjmp | AssertFail | NoFuel.
Arguments Ret {T} a.
Arguments Longjmp {T}.
Arguments AssertFail {T}.
Arguments NoFuel {T}.

Definition M (T : Type) : Type := rk65c02emu → outcome T * rk65c02emu.

#[export] Instance M_ret : MRet M := λ T a e, (Ret a, e).
#[export] Instance M_bind : MBind M := λ T U f m e,
  match m e with
  | (Ret a, e') => f a e'
  | (Longjmp, e') => (Longjmp, e')
  | (AssertFail, e') => (AssertFail, e')
  | (NoFuel, e') => (NoFuel, e')
  end.

Definition get : M rk65c02emu := λ e, (Ret e, e).
Definition gets {T} (f : rk65c02emu → T) : M T := λ e, (Ret (f e), e).
Definition modify (f : rk65c02emu → rk65c02emu) : M unit := λ e, (Ret tt, f e).
Definition longjmp {T} : M T := λ e, (Longjmp, e).
Definition assert_fail {T} : M T := λ e, (AssertFail, e).
Definition no_fuel {T} : M T := λ e, (NoFuel, e).

(** A [for] loop over the values [l] of its variable. *)
Fixpoint mfor {T} (l : list T) (f : T → M unit) : M unit :=
  match l with
  | [] => mret tt
  | x :: l' => f x;; mfor l' f
  end.

(** [e->regs.A] and so on, as values and as assignments. *)
Definition get_A : M Z := gets (λ e, A (regs e)).
Definition get_X : M Z := gets (λ e, X (regs e)).
Definition get_Y : M Z := gets (λ e, Y (regs e)).
Definition get_PC : M Z := gets (λ e, PC (regs e)).
Definition get_SP : M Z := gets (λ e, SP (regs e)).
Definition get_P : M Z := gets (λ e, P (regs e)).
Definition put_A (v : Z) : M unit := modify (λ e, set_regs (regs_A v (regs e)) e).
Definition put_X (v : Z) : M unit := modify (λ e, set_regs (regs_X v (regs e)) e).
Definition put_Y (v : Z) : M unit := modify (λ e, set_regs (regs_Y v (regs e)) e).
Definition put_PC (v : Z) : M unit := modify (λ e, set_regs (regs_PC v (regs e)) e).
Definition put_SP (v : Z) : M unit := modify (λ e, set_regs (regs_SP v (regs e)) e).
Definition put_P (v : Z) : M unit := modify (λ e, set_regs (regs_P v (regs e)) e).

(** [e->regs.P |= m] and [e->regs.P &= ~m]. *)
Definition P_set (m : Z) : M unit := p ← get_P; put_P (p ||| m).
Definition P_clear (m : Z) : M unit := p ← get_P; put_P (p &&& !~ m).
(** The two-armed conditional the C code writes for every flag. *)
Definition P_put (m : Z) (b : bool) : M unit := if b then P_set m else P_clear m.

(** ** Reasoning *)

Lemma bind_Ret {T U} (m : M T) (k : T → M U) e a e' :
  m e = (Ret a, e') → (x ← m; k x) e = k a e'.
Proof. intros H. unfold mbind, M_bind. by rewrite H. Qed.

Lemma bind_Ret_inv {T U} (m : M T) (k : T → M U) e b e2 :
  (x ← m; k x) e = (Ret b, e2) → ∃ a e1, m e = (Ret a, e1) ∧ k a e1 = (Ret b, e2).
Proof. unfold mbind, M_bind. destruct (m e) as [[a| | |] e1]; try done. eauto. Qed.

Lemma bind_assoc {T U W} (m : M T) (k : T → M U) (h : U → M W) e :
  (y ← (x ← m; k x); h y) e = (x ← m; y ← k x; h y) e.
Proof. unfold mbind, M_bind. destruct (m e) as [[] ?]; done. Qed.

(** [keeps I m Q]: from a state satisfying [I] the computation ends in one
    satisfying [I], whatever its outcome, and a value it returns satisfies
    [Q]. *)
Definition keeps (I : rk65c02emu → Prop) {T} (m : M T) (Q : T → Prop) : Prop :=
  ∀ e, I e → I (m e).2 ∧ ∀ a, (m e).1 = Ret a → Q a.

Lemma keeps_ret I {T} (a : T) (Q : T → Prop) : Q a → keeps I (mret a) Q.
Proof. intros H e He. split; [done|]. by intros ? [= <-]. Qed.

Lemma keeps_bind I {T U} (m : M T) (k : T → M U) Q R :
  keeps I m Q → (∀ a, Q a → keeps I (k a) R) → keeps I (x ← m; k x) R.
Proof.
  intros Hm Hk e He. destruct (Hm e He) as [He' Hq]. unfold mbind, M_bind.
  destruct (m e) as [[a| | |] e'] eqn:E; simpl in *; try (split; [done|discriminate]).
  apply Hk; auto.
Qed.

Lemma keeps_seq I {U} (m : M unit) (k : unit → M U) R :
  keeps I m (λ _, True) → (∀ a, keeps I (k a) R) → keeps I (x ← m; k x) R.
Proof. intros Hm Hk. eapply keeps_bind; [done|]. auto. Qed.

Lemma keeps_gets I {T} (f : rk65c02emu → T) (Q : T → Prop) :
  (∀ e, I e → Q (f e)) → keeps I (gets f) Q.
Proof. intros H e He. split; [done|]. intros ? [= <-]. auto. Qed.

Lemma keeps_modify I f (Q : unit → Prop) :
  (∀ e, I e → I (f e)) → Q tt → keeps I (modify f) Q.
Proof. intros H HQ e He. split; [by apply H|]. by intros [] _. Qed.

(** Consecutive assignments can be seen as one, so that an invariant need not
    hold between them. *)
Lemma keeps_fuse I {U} f g (k : M U) R :
  keeps I (modify (λ e, g (f e));; k) R → keeps I (modify f;; (modify g;; k)) R.
Proof. done. Qed.
Lemma keeps_fuse_last I f g R :
  keeps I (modify (λ e, g (f e))) R → keeps I (modify f;; modify g) R.
Proof. done. Qed.

Lemma keeps_longjmp I {T} (Q : T → Prop) : keeps I longjmp Q.
Proof. intros e He. by split. Qed.

Lemma keeps_assert_fail I {T} (Q : T → Prop) : keeps I assert_fail Q.
Proof. intros e He. by split. Qed.

Lemma keeps_no_fuel I {T} (Q : T → Prop) : keeps I no_fuel Q.
Proof. intros e He. by split. Qed.

Lemma keeps_weaken I {T} (m : M T) (Q Q' : T → Prop) :
  keeps I m Q → (∀ a, Q a → Q' a) → keeps I m Q'.
Proof. intros H HQ e He. destruct (H e He). split; eauto. Qed.

Lemma keeps_and I J {T} (m : M T) (Q R : T → Prop) :
  keeps I m Q → keeps J m R → keeps (λ e, I e ∧ J e) m (λ a, Q a ∧ R a).
Proof.
  intros HI HJ e [Hi Hj]. destruct (HI e Hi) as [? HQ], (HJ e Hj) as [? HR]. split; [done|].
  intros a Ha. split; auto.
Qed.

(** After a part that keeps [I] the rest may go on to any [J] that [I] implies. *)
Lemma keeps_then (I J : rk65c02emu → Prop) {T U} (m : M T) (k : T → M U) Q e :
  keeps I m Q → (∀ e, I e → J e) → (∀ a e, Q a → I e → J (k a e).2) → I e → J ((x ← m; k x) e).2.
Proof.
  intros Hm HIJ Hk He. destruct (Hm e He) as [He' Hq]. unfold mbind, M_bind.
  destruct (m e) as [[a| | |] e'] eqn:E; simpl in *; auto.
Qed.

Lemma keeps_mfor I {T} (l : list T) (f : T → M unit) :
  (∀ x, x ∈ l → keeps I (f x) (λ _, True)) → keeps I (mfor l f) (λ _, True).
Proof.
  induction l as [|x l IH]; intros H; simpl; [by apply keeps_ret|].
  eapply keeps_bind; [apply H; left|]. intros _ _. apply IH. intros y Hy. apply H. by right.
Qed.

End State.

#[global] Arguments Ret {T} a.
#[global] Arguments Longjmp {T}.
#[global] Arguments AssertFail {T}.
#[global] Arguments NoFuel {T}.
#[global] Arguments mfor : simpl never.

(** Walk through a computation, closing the leaves with [keeps]. *)
Ltac keeps_leaf :=
  first [ solve [eauto with keeps]
        | eapply keeps_weaken; [solve [eauto with keeps] | simpl; intros; try done; crange] ].
Ltac keeps_step :=
  lazymatch goal with
  | |- keeps _ (mret _) _ => apply keeps_ret; simpl; try done; try crange
  | |- keeps _ (mbind (A := unit) _ _) _ => apply keeps_seq; [|intros []]
  | |- keeps _ (mbind _ _) _ => eapply keeps_bind; [|simpl; intros ? ?]
  | |- keeps _ (mfor _ _) _ => apply keeps_mfor; intros ? _
  | |- keeps _ longjmp _ => apply keeps_longjmp
  | |- keeps _ assert_fail _ => apply keeps_assert_fail
  | |- keeps _ no_fuel _ => apply keeps_no_fuel
  | |- keeps _ (if ?b then _ else _) _ => destruct b eqn:?
  | |- keeps _ (match ?x with _ => _ end) _ => destruct x eqn:?
  | |- keeps _ _ _ => keeps_leaf
  end.
Ltac keeps_auto := repeat keeps_step.
