(* ===== verification/Interfaces.v ===== *)
(** The interfaces between the CPU core and its surroundings.

    [HostOps]: what the host's callbacks do when the core calls them (the
    typedefs of callbacks in [src/src/rk65c02.h]).  [JitOps]: the entry points
    of the JIT backend the core calls; [Makefile] links either [jit.c] or
    [jit_stub.c] behind them. *)
From stdpp Require Import base numbers list gmap strings.
From S2P Require Import Prelude Types BusSpec State.

Class HostOps {SY : Sys} := {
  (** [rk65c02_on_stop_cb_t]: function, context, reason *)
  host_on_stop : nat → Z → emu_stop_reason_t → M unit;
  (** [rk65c02_tick_cb_t] *)
  host_tick : nat → Z → M unit;
  (** [rk65c02_wait_cb_t] *)
  host_idle_wait : nat → Z → M unit;
  (** [rk65c02_mmu_translate_cb_t]: function, context, vaddr, access *)
  host_mmu_translate : nat → Z → Z → rk65c02_mmu_access_t → M rk65c02_mmu_result_t;
  (** [rk65c02_mmu_fault_cb_t]: function, context, vaddr, access, code *)
  host_mmu_fault : nat → Z → Z → rk65c02_mmu_access_t → Z → M unit;
  (** what the [read_1] and [write_1] functions of a host's device do to the
      emulator beside accessing the device's data: function, device, offset *)
  host_device_read : nat → nat → Z → M unit;
  host_device_write : nat → nat → Z → Z → M unit;
  (** the value an uninitialised byte of an automatic variable holds *)
  indeterminate : Z;
  indeterminate_uint8 : byte indeterminate
}.

Class JitOps {SY : Sys} := {
  rk65c02_jit_note_guest_write : Z → M unit;
  rk65c02_jit_flush : M unit;
  rk65c02_jit_invalidate_all : M unit;
  rk65c02_jit_invalidate_code_vpage : Z → M unit
}.

(** The bus of the emulator is a bus. *)
Class SysBus {SY : Sys} := { sys_bus_ops :: BusOps sys_bus }.

(** [jit_stub.c]: without GNU lightning the entry points do nothing. *)
Definition jit_stub {SY : Sys} : JitOps := {|
  rk65c02_jit_note_guest_write := λ _, mret tt;
  rk65c02_jit_flush := mret tt;
  rk65c02_jit_invalidate_all := mret tt;
  rk65c02_jit_invalidate_code_vpage := λ _, mret tt
|}.
