(* ===== verification/Mmu.v ===== *)
(** Memory access, the host-pluggable MMU and its software TLB: the memory
    backends and the [rk65c02_mmu_*] API of [src/src/rk65c02.c]. *)
From stdpp Require Import base numbers list gmap strings.
From S2P Require Import Prelude Types BusSpec State Interfaces.

Section Mmu.
Context {SY : Sys} {SB : SysBus} {HO : HostOps} {JO : JitOps}.

(** ** Bus accesses of the core *)

(** The calls a host's device function makes back into the emulator.  They come
    after the change of the device's own data, the order in which the functions
    of the example programs make them. *)
Definition device_read (d : option (nat * nat * Z)) : M unit :=
  match d with Some (f, dev, off) => host_device_read f dev off | None => mret tt end.
Definition device_write (d : option (nat * nat * Z)) (val : Z) : M unit :=
  match d with Some (f, dev, off) => host_device_write f dev off val | None => mret tt end.

Definition core_bus_read_1 (addr : Z) : M Z :=
  e ← get;
  let '(v, b) := b_read (bus e) addr in
  modify (set_bus b);; device_read (b_host (bus e) addr);; mret v.
Definition core_bus_write_1 (addr val : Z) : M unit :=
  e ← get;
  modify (set_bus (b_write (bus e) addr val));; device_write (b_host (bus e) addr) val.
Definition core_bus_read_1_phys (addr : Z) : M Z :=
  e ← get;
  let '(v, b) := b_read_phys (bus e) addr in
  modify (set_bus b);; device_read (b_host_phys (bus e) addr);; mret v.
Definition core_bus_write_1_phys (addr val : Z) : M unit :=
  e ← get;
  modify (set_bus (b_write_phys (bus e) addr val));; device_write (b_host_phys (bus e) addr) val.

Definition rk65c02_mem_read_direct (addr : Z) (access : rk65c02_mmu_access_t) : M Z :=
  core_bus_read_1 addr.

Definition rk65c02_mem_write_direct (addr val : Z) (access : rk65c02_mmu_access_t) : M unit :=
  core_bus_write_1 addr val.

(** ** Translation *)

(** [true] with [*paddr_out], or [false] with [*fault_code_out]. *)
Inductive xlate := Xok (paddr : Z) | Xfault (code : Z).

Definition tlb_entry (e : rk65c02emu) (vpage : Z) : rk65c02_mmu_tlb_entry :=
  default tlb_entry_zero (mmu_tlb e !! vpage).

(** The hit condition of the TLB. *)
Definition tlb_hit (e : rk65c02emu) (vpage : Z) : bool :=
  let te := tlb_entry e vpage in
  mmu_tlb_enabled e && te_valid te && (te_vpage te =? vpage) && (te_epoch te =? mmu_epoch e).

Definition rk65c02_mmu_translate_addr (vaddr : Z) (access : rk65c02_mmu_access_t)
    (req_perm : Z) : M xlate :=
  e ← get;
  let vpage := u8 (vaddr ≫ 8) in
  let te := tlb_entry e vpage in
  if tlb_hit e vpage then
    modify (λ e, set_mmu_tlb_hits (u64 (mmu_tlb_hits e + 1)) e);;
    if negb (te_perms te &&& req_perm =? req_perm) then mret (Xfault 0xFFFE)
    else mret (Xok (te_ppage_base te ||| (vaddr &&& 0x00FF)))
  else
    modify (λ e, set_mmu_tlb_misses (u64 (mmu_tlb_misses e + 1)) e);;
    match mmu_translate e with
    | None => mret (Xfault 0xFFFD)
    | Some cb =>
        r ← host_mmu_translate cb (mmu_translate_ctx e) vaddr access;
        if negb (r_ok r) then mret (Xfault (r_fault_code r))
        else if negb (r_perms r &&& req_perm =? req_perm) then mret (Xfault 0xFFFE)
        else if r_paddr r >=? RK65C02_PHYS_MAX then mret (Xfault 0xFFFF)
        else
          e ← get;
          (if mmu_tlb_enabled e && negb (r_no_fill_tlb r)
              && (r_paddr r &&& 0xFF =? vaddr &&& 0xFF)
           then modify (set_mmu_tlb (<[vpage := mkTlbEntry true vpage
                   (r_paddr r &&& 0xFFFFFF00) (r_perms r) (mmu_epoch e)]> (mmu_tlb e)))
           else mret tt);;
          mret (Xok (r_paddr r))
    end.

(** The permission bit [rk65c02_mmu_translate_cached] and
    [rk65c02_mem_read_mmu] require for an access class. *)
Definition req_perm_cached (access : rk65c02_mmu_access_t) : Z :=
  match access with
  | RK65C02_MMU_FETCH => RK65C02_MMU_PERM_X
  | RK65C02_MMU_WRITE => RK65C02_MMU_PERM_W
  | RK65C02_MMU_READ => RK65C02_MMU_PERM_R
  end.
Definition req_perm_read (access : rk65c02_mmu_access_t) : Z :=
  match access with
  | RK65C02_MMU_FETCH => RK65C02_MMU_PERM_X
  | _ => RK65C02_MMU_PERM_R
  end.

Definition rk65c02_mmu_translate_cached (vaddr : Z) (access : rk65c02_mmu_access_t) : M (option Z) :=
  e ← get;
  if negb (mmu_enabled e) || mmu_identity_active e then mret (Some vaddr)
  else
    x ← rk65c02_mmu_translate_addr vaddr access (req_perm_cached access);
    mret (match x with Xok paddr => Some paddr | Xfault _ => None end).

(** ** Stopping on errors *)

Definition rk65c02_maybe_call_on_stop : M unit :=
  e ← get;
  match on_stop e with
  | None => mret tt
  | Some cb => host_on_stop cb (on_stop_ctx e) (stopreason e)
  end.

Definition is_active (s : emu_state_t) : bool :=
  match s with RUNNING | STEPPING => true | STOPPED => false end.

Definition emu_stop_error : M unit :=
  was_active ← gets (λ e, is_active (state e));
  modify (set_state STOPPED);;
  modify (set_stopreason EMUERROR);;
  modify (set_stop_requested false);;
  in_jit ← gets (λ e, in_jit_run e);
  (if in_jit : bool then modify (set_in_jit_run false);; longjmp else mret tt);;
  if was_active : bool then mret tt else rk65c02_maybe_call_on_stop.

(** The message goes to the log, which is not modelled. *)
Definition rk65c02_panic : M unit := emu_stop_error.

Definition rk65c02_mmu_fault (vaddr : Z) (access : rk65c02_mmu_access_t) (fault_code : Z) : M unit :=
  modify (set_mmu_last_fault_addr vaddr);;
  modify (set_mmu_last_fault_access access);;
  modify (set_mmu_last_fault_code fault_code);;
  modify (set_mmu_fault_reexec true);;
  modify (set_use_jit false);;
  e ← get;
  (match mmu_fault e with
   | None => mret tt
   | Some cb => host_mmu_fault cb (mmu_fault_ctx e) vaddr access fault_code
   end);;
  emu_stop_error.

Definition rk65c02_mem_read_mmu (addr : Z) (access : rk65c02_mmu_access_t) : M Z :=
  x ← rk65c02_mmu_translate_addr addr access (req_perm_read access);
  match x with
  | Xfault code => rk65c02_mmu_fault addr access code;; mret 0xFF
  | Xok paddr =>
      if paddr <? RK65C02_BUS_SIZE then core_bus_read_1 (u16 paddr)
      else core_bus_read_1_phys paddr
  end.

Definition rk65c02_mem_write_mmu (addr val : Z) (access : rk65c02_mmu_access_t) : M unit :=
  x ← rk65c02_mmu_translate_addr addr RK65C02_MMU_WRITE RK65C02_MMU_PERM_W;
  match x with
  | Xfault code => rk65c02_mmu_fault addr RK65C02_MMU_WRITE code
  | Xok paddr =>
      if paddr <? RK65C02_BUS_SIZE then core_bus_write_1 (u16 paddr) val
      else core_bus_write_1_phys paddr val
  end.

(** ** Accessors *)

Definition call_mem_read_fn (f : mem_fn) : Z → rk65c02_mmu_access_t → M Z :=
  match f with
  | mem_direct => rk65c02_mem_read_direct
  | mem_mmu => rk65c02_mem_read_mmu
  end.
Definition call_mem_write_fn (f : mem_fn) : Z → Z → rk65c02_mmu_access_t → M unit :=
  match f with
  | mem_direct => rk65c02_mem_write_direct
  | mem_mmu => rk65c02_mem_write_mmu
  end.

Definition rk65c02_mem_fetch_1 (addr : Z) : M Z :=
  f ← gets (λ e, mem_read_1_fn e); call_mem_read_fn f addr RK65C02_MMU_FETCH.

Definition rk65c02_mem_read_1 (addr : Z) : M Z :=
  f ← gets (λ e, mem_read_1_fn e); call_mem_read_fn f addr RK65C02_MMU_READ.

Definition rk65c02_mem_write_1 (addr val : Z) : M unit :=
  f ← gets (λ e, mem_write_1_fn e);
  call_mem_write_fn f addr val RK65C02_MMU_WRITE;;
  j ← gets (λ e, jit e);
  match j with
  | None => mret tt
  | Some _ => rk65c02_jit_note_guest_write addr
  end.

Definition rk65c02_mmu_refresh_accessors : M unit :=
  e ← get;
  let f := if mmu_enabled e && negb (mmu_identity_active e) then mem_mmu else mem_direct in
  modify (set_mem_read_1_fn f);;
  modify (set_mem_write_1_fn f).

(** The accessors the MMU state calls for. *)
Definition accessors_for (e : rk65c02emu) : mem_fn :=
  if mmu_enabled e && negb (mmu_identity_active e) then mem_mmu else mem_direct.
Definition refreshed (e : rk65c02emu) : rk65c02emu :=
  set_mem_write_1_fn (accessors_for e) (set_mem_read_1_fn (accessors_for e) e).

Lemma refresh_modify : rk65c02_mmu_refresh_accessors = modify refreshed.
Proof. reflexivity. Qed.

(** ** TLB and update API *)

Definition rk65c02_mmu_tlb_flush : M unit := modify (set_mmu_tlb ∅).

Definition tlb_entry_invalidate (te : rk65c02_mmu_tlb_entry) : rk65c02_mmu_tlb_entry :=
  mkTlbEntry false (te_vpage te) (te_ppage_base te) (te_perms te) (te_epoch te).

Definition rk65c02_mmu_tlb_flush_vpage (vpage : Z) : M unit :=
  modify (λ e, set_mmu_tlb (<[vpage := tlb_entry_invalidate (tlb_entry e vpage)]> (mmu_tlb e)) e).

Definition rk65c02_mmu_tlb_set (enabled : bool) : M unit :=
  modify (set_mmu_tlb_enabled enabled);;
  if negb enabled then rk65c02_mmu_tlb_flush else mret tt.

(** [e->mmu_epoch++] *)
Definition mmu_epoch_bump : M unit := modify (λ e, set_mmu_epoch (u32 (mmu_epoch e + 1)) e).

Definition when_jit (m : M unit) : M unit :=
  j ← gets (λ e, jit e);
  match j with None => mret tt | Some _ => m end.

Definition rk65c02_mmu_set (translate : option nat) (translate_ctx : Z) (on_fault : option nat)
    (fault_ctx : Z) (enabled identity_fastpath : bool) : M bool :=
  if enabled && bool_decide (translate = None) then mret false
  else
    modify (set_mmu_translate translate);;
    modify (set_mmu_translate_ctx translate_ctx);;
    modify (set_mmu_fault on_fault);;
    modify (set_mmu_fault_ctx fault_ctx);;
    modify (set_mmu_enabled enabled);;
    modify (set_mmu_identity_fastpath identity_fastpath);;
    modify (set_mmu_identity_active (if enabled then identity_fastpath else false));;
    modify (set_mmu_update_pending false);;
    modify (set_mmu_changed_all false);;
    modify (set_mmu_changed_vpage ∅);;
    mmu_epoch_bump;;
    rk65c02_mmu_refresh_accessors;;
    rk65c02_mmu_tlb_flush;;
    when_jit rk65c02_jit_flush;;
    mret true.

Definition rk65c02_mmu_clear : M unit :=
  modify (set_mmu_enabled false);;
  modify (set_mmu_identity_fastpath false);;
  modify (set_mmu_identity_active false);;
  modify (set_mmu_update_pending false);;
  modify (set_mmu_translate None);;
  modify (set_mmu_translate_ctx 0);;
  modify (set_mmu_fault None);;
  modify (set_mmu_fault_ctx 0);;
  mmu_epoch_bump;;
  modify (set_mmu_changed_all false);;
  modify (set_mmu_changed_vpage ∅);;
  rk65c02_mmu_refresh_accessors;;
  rk65c02_mmu_tlb_flush.

Definition rk65c02_mmu_begin_update : M unit :=
  en ← gets (λ e, mmu_enabled e);
  if negb en then mret tt
  else
    modify (set_mmu_update_pending true);;
    modify (set_mmu_changed_all false);;
    modify (set_mmu_changed_vpage ∅).

Definition mark_vpage (p : Z) : M unit :=
  modify (λ e, set_mmu_changed_vpage ({[p]} ∪ mmu_changed_vpage e) e).

Definition rk65c02_mmu_mark_changed_vpage (vpage : Z) : M unit :=
  en ← gets (λ e, mmu_enabled e);
  if negb en then mret tt
  else
    modify (set_mmu_update_pending true);;
    mark_vpage vpage;;
    modify (set_mmu_identity_active false);;
    rk65c02_mmu_refresh_accessors.

Definition rk65c02_mmu_mark_changed_vrange (start ende : Z) : M unit :=
  en ← gets (λ e, mmu_enabled e);
  if negb en then mret tt
  else
    modify (set_mmu_update_pending true);;
    (if start <=? ende then
       let sp := u8 (start ≫ 8) in
       let ep := u8 (ende ≫ 8) in
       mfor (seqZ sp (ep - sp + 1)) (λ p, mark_vpage (u8 p))
     else modify (set_mmu_changed_all true));;
    modify (set_mmu_identity_active false);;
    rk65c02_mmu_refresh_accessors.

Definition rk65c02_mmu_end_update : M unit :=
  en ← gets (λ e, mmu_enabled e);
  if negb en then mret tt
  else
    pending ← gets (λ e, mmu_update_pending e);
    if negb pending then mret tt
    else
      modify (set_mmu_update_pending false);;
      all ← gets (λ e, mmu_changed_all e);
      (if all : bool then
         mmu_epoch_bump;;
         rk65c02_mmu_tlb_flush;;
         when_jit rk65c02_jit_invalidate_all
       else
         mfor (seqZ 0 256) (λ p,
           changed ← gets (λ e, mmu_changed_vpage e);
           if bool_decide (p ∈ changed) then
             rk65c02_mmu_tlb_flush_vpage p;;
             when_jit (rk65c02_jit_invalidate_code_vpage p)
           else mret tt));;
      modify (set_mmu_changed_all false);;
      modify (set_mmu_changed_vpage ∅);;
      rk65c02_mmu_refresh_accessors.

End Mmu.
