(* ===== verification/Instruction.v ===== *)
(** Fetching, operand access, stack and program counter:
    [src/src/instruction.c]. *)
From stdpp Require Import base numbers list gmap strings.
From S2P Require Import Prelude Types Isa BusSpec State Interfaces Mmu.

Section Instruction.
Context {SY : Sys} {SB : SysBus} {HO : HostOps} {JO : JitOps}.

(** How many operand bytes a mode has: the two groups of the [switch]
    statements of [instruction_fetch] and [instruction_fetch_emu]. *)
Definition mode_operands (m : addressing_t) : nat :=
  match m with
  | IMMEDIATE | ZP | ZPX | ZPY | IZP | IZPX | IZPY | RELATIVE => 1
  | ABSOLUTE | ABSOLUTEX | ABSOLUTEY | IABSOLUTE | IABSOLUTEX | ZPR => 2
  | IMPLIED | ACCUMULATOR => 0
  end.

(** [instruction_fetch], used by the disassembler: straight from the bus.
    Operands the mode does not have stay uninitialised. *)
Definition instruction_fetch (b : sys_bus) (addr : Z) : instruction_t * sys_bus :=
  let '(opcode, b) := b_read b addr in
  match mode_operands (d_mode (instruction_decode opcode)) with
  | 1%nat =>
      let '(op1, b) := b_read b (u16 (addr + 1)) in
      (mkInstruction opcode op1 indeterminate, b)
  | 2%nat =>
      let '(op1, b) := b_read b (u16 (addr + 1)) in
      let '(op2, b) := b_read b (u16 (addr + 2)) in
      (mkInstruction opcode op1 op2, b)
  | _ => (mkInstruction opcode indeterminate indeterminate, b)
  end.

Definition instruction_fetch_emu (addr : Z) : M instruction_t :=
  opcode ← rk65c02_mem_fetch_1 addr;
  match mode_operands (d_mode (instruction_decode opcode)) with
  | 1%nat =>
      op1 ← rk65c02_mem_fetch_1 (u16 (addr + 1));
      mret (mkInstruction opcode op1 indeterminate)
  | 2%nat =>
      op1 ← rk65c02_mem_fetch_1 (u16 (addr + 1));
      op2 ← rk65c02_mem_fetch_1 (u16 (addr + 2));
      mret (mkInstruction opcode op1 op2)
  | _ => mret (mkInstruction opcode indeterminate indeterminate)
  end.

(** ** Status flags *)

Definition instruction_status_adjust_zero (regval : Z) : M unit :=
  P_put P_ZERO (regval =? 0).

Definition instruction_status_adjust_negative (regval : Z) : M unit :=
  P_put P_NEGATIVE (ctrue (regval &&& NEGATIVE)).

(** ** Operands *)

(** The little-endian pointer read at two addresses. *)
Definition read_pointer (lo hi : Z) : M Z :=
  l ← rk65c02_mem_read_1 lo;
  h ← rk65c02_mem_read_1 hi;
  mret (l ||| (h ≪ 8)).

Definition instruction_data_address (id : instrdef_t) (i : instruction_t) : M Z :=
  let op1 := i_op1 i in
  let op2 := i_op2 i in
  match d_mode id with
  | ZP | ZPR => mret op1
  | ZPX => x ← get_X; mret (u8 (op1 + x))
  | ZPY => y ← get_Y; mret (u8 (op1 + y))
  | IZP => read_pointer op1 (u8 (op1 + 1))
  | IZPX =>
      x ← get_X;
      l ← rk65c02_mem_read_1 (u8 (op1 + x));
      x ← get_X;
      h ← rk65c02_mem_read_1 (u8 (op1 + x + 1));
      mret (l ||| (h ≪ 8))
  | IZPY =>
      a ← read_pointer op1 (u8 (op1 + 1));
      y ← get_Y;
      mret (u16 (a + y))
  | ABSOLUTE => mret (u16 (op1 + (op2 ≪ 8)))
  | ABSOLUTEX => x ← get_X; mret (u16 (op1 + (op2 ≪ 8) + x))
  | ABSOLUTEY => y ← get_Y; mret (u16 (op1 + (op2 ≪ 8) + y))
  | IABSOLUTE | IABSOLUTEX | RELATIVE | IMPLIED | IMMEDIATE | ACCUMULATOR =>
      rk65c02_panic;; mret 0
  end.

Definition instruction_data_read_1 (id : instrdef_t) (i : instruction_t) : M Z :=
  match d_mode id with
  | ACCUMULATOR => get_A
  | IMMEDIATE => mret (i_op1 i)
  | _ => a ← instruction_data_address id i; rk65c02_mem_read_1 a
  end.

Definition instruction_data_write_1 (id : instrdef_t) (i : instruction_t) (val : Z) : M unit :=
  match d_mode id with
  | ACCUMULATOR => put_A val
  | IMMEDIATE => rk65c02_panic
  | _ => a ← instruction_data_address id i; rk65c02_mem_write_1 a val
  end.

(** ** Stack *)

Definition stack_push (val : Z) : M unit :=
  sp ← get_SP;
  rk65c02_mem_write_1 (STACK_START + sp) val;;
  sp ← get_SP;
  put_SP (u8 (sp - 1)).

Definition stack_pop : M Z :=
  sp ← get_SP;
  put_SP (u8 (sp + 1));;
  sp ← get_SP;
  rk65c02_mem_read_1 (STACK_START + sp).

(** ** Program counter *)

Definition program_counter_increment (id : instrdef_t) : M unit :=
  pc ← get_PC; put_PC (u16 (pc + d_size id)).

(** [boffset] is the [int8_t] argument. *)
Definition program_counter_branch (boffset : Z) : M unit :=
  pc ← get_PC; put_PC (u16 (pc + boffset + 2)).

Definition instruction_modify_pc (id : instrdef_t) : bool := d_modify_pc id.

End Instruction.

(** ** Lookup by mnemonic *)

(** The loop of [instruction_opcode_by_mnemonic] over the opcodes [l]; [strcmp]
    is string equality. *)
Fixpoint opcode_search (mnemonic : string) (mode : addressing_t) (l : list Z)
    : option (Z * instrdef_t) :=
  match l with
  | [] => None
  | o :: l' =>
      let id := instruction_decode o in
      if bool_decide (mnemonic = d_mnemonic id) && bool_decide (d_mode id = mode)
      then Some (o, id)
      else opcode_search mnemonic mode l'
  end.

Definition instruction_opcode_by_mnemonic (mnemonic : string) (mode : addressing_t)
    : option (Z * instrdef_t) :=
  opcode_search mnemonic mode (seqZ 0 256).
