(* ===== verification/Emulation.v ===== *)
(** Emulation of the instructions: [src/src/emulation.c].

    Every routine takes the instruction definition [id] and the fetched
    instruction [i], as in C; the routines that C writes eight times
    ([bbr0]..[bbr7] and so on) are instances of one with a bit number there
    too. *)
From stdpp Require Import base numbers list gmap strings.
From S2P Require Import Prelude Types Isa BusSpec State Interfaces Mmu Instruction.

(** ** BCD conversion *)

Definition from_bcd (val : Z) : Z := u8 (10 * (val ≫ 4) + (0x0F &&& val)).

(** The [while] loop of [to_bcd]; [val] is an [uint8_t], so three iterations
    are enough (see [to_bcd_loop_done]). *)
Fixpoint to_bcd_loop (fuel : nat) (val shift bcd : Z) : Z :=
  match fuel with
  | O => bcd
  | S fuel' =>
      if val >? 0 then
        let digit := val mod 10 in
        to_bcd_loop fuel' (val / 10) (u16 (shift + 4)) (u8 (bcd + (digit ≪ shift)))
      else bcd
  end.

Definition to_bcd (val : Z) : Z := to_bcd_loop 3 (u8 val) 0 0.

Section Emulation.
Context {SY : Sys} {SB : SysBus} {HO : HostOps} {JO : JitOps}.

(** [if (e->regs.P & m)] *)
Definition P_test (m : Z) : M bool := p ← get_P; mret (ctrue (p &&& m)).

(** The pair of calls that end most routines. *)
Definition adjust_zn (v : Z) : M unit :=
  instruction_status_adjust_zero v;; instruction_status_adjust_negative v.

(** The common shape of the routines: [fun e id i]. *)
Implicit Types (id : instrdef_t) (i : instruction_t).

Definition emul_adc id i : M unit :=
  arg ← instruction_data_read_1 id i;
  d ← P_test P_DECIMAL;
  a ← get_A;
  let res := if d : bool then u16 (from_bcd a + from_bcd arg) else u16 (a + arg) in
  c ← P_test P_CARRY;
  let res := if c : bool then u16 (res + 1) else res in
  a ← get_A;
  P_put P_SIGN_OVERFLOW (ctrue ((a ^^^ res) &&& (arg ^^^ res) &&& 0x80));;
  d ← P_test P_DECIMAL;
  (if d : bool then P_put P_CARRY (res >? 99) else P_put P_CARRY (res >? 0xFF));;
  d ← P_test P_DECIMAL;
  (if d : bool then put_A (to_bcd (u8 res)) else put_A (u8 res));;
  a ← get_A;
  adjust_zn a.

Definition emul_and id i : M unit :=
  v ← instruction_data_read_1 id i;
  a ← get_A;
  put_A (a &&& v);;
  a ← get_A; adjust_zn a.

Definition emul_asl id i : M unit :=
  val ← instruction_data_read_1 id i;
  P_put P_CARRY (ctrue (val &&& 0x80));;
  let val := u8 (val ≪ 1) in
  adjust_zn val;;
  instruction_data_write_1 id i val.

(** [e->regs.PC += (int8_t) i->op2 + 3] *)
Definition bit_branch i : M unit := pc ← get_PC; put_PC (u16 (pc + (s8 (i_op2 i) + 3))).

Definition emul_bbr (bit : Z) id i : M unit :=
  val ← instruction_data_read_1 id i;
  if negb (ctrue (BIT val bit)) then bit_branch i else program_counter_increment id.
Definition emul_bbr0 id i : M unit := emul_bbr 0 id i.
Definition emul_bbr1 id i : M unit := emul_bbr 1 id i.
Definition emul_bbr2 id i : M unit := emul_bbr 2 id i.
Definition emul_bbr3 id i : M unit := emul_bbr 3 id i.
Definition emul_bbr4 id i : M unit := emul_bbr 4 id i.
Definition emul_bbr5 id i : M unit := emul_bbr 5 id i.
Definition emul_bbr6 id i : M unit := emul_bbr 6 id i.
Definition emul_bbr7 id i : M unit := emul_bbr 7 id i.

Definition emul_bbs (bit : Z) id i : M unit :=
  val ← instruction_data_read_1 id i;
  if ctrue (BIT val bit) then bit_branch i else program_counter_increment id.
Definition emul_bbs0 id i : M unit := emul_bbs 0 id i.
Definition emul_bbs1 id i : M unit := emul_bbs 1 id i.
Definition emul_bbs2 id i : M unit := emul_bbs 2 id i.
Definition emul_bbs3 id i : M unit := emul_bbs 3 id i.
Definition emul_bbs4 id i : M unit := emul_bbs 4 id i.
Definition emul_bbs5 id i : M unit := emul_bbs 5 id i.
Definition emul_bbs6 id i : M unit := emul_bbs 6 id i.
Definition emul_bbs7 id i : M unit := emul_bbs 7 id i.

Definition emul_bit id i : M unit :=
  v ← instruction_data_read_1 id i;
  a ← get_A;
  P_put P_ZERO (negb (ctrue (a &&& v)));;
  if bool_decide (d_mode id ≠ IMMEDIATE) then
    mem ← instruction_data_read_1 id i;
    P_put P_SIGN_OVERFLOW (ctrue (BIT mem 6));;
    P_put P_NEGATIVE (ctrue (BIT mem 7))
  else mret tt.

(** The shape of the conditional branches: taken when [b]. *)
Definition branch_if (b : bool) id i : M unit :=
  if b then program_counter_branch (s8 (i_op1 i)) else program_counter_increment id.

Definition emul_bcc id i : M unit := c ← P_test P_CARRY; branch_if (negb c) id i.
Definition emul_bcs id i : M unit := c ← P_test P_CARRY; branch_if c id i.
Definition emul_beq id i : M unit := z ← P_test P_ZERO; branch_if z id i.
Definition emul_bmi id i : M unit := n ← P_test P_NEGATIVE; branch_if n id i.
Definition emul_bne id i : M unit := z ← P_test P_ZERO; branch_if (negb z) id i.
Definition emul_bpl id i : M unit := n ← P_test P_NEGATIVE; branch_if (negb n) id i.
Definition emul_bra id i : M unit := program_counter_branch (s8 (i_op1 i)).

(** [rk65c02_irq] of [rk65c02.c], which BRK shares with hardware interrupts. *)
Definition rk65c02_irq : M unit :=
  pc ← get_PC; stack_push (pc ≫ 8);;
  pc ← get_PC; stack_push (pc &&& 0xFF);;
  p ← get_P; stack_push p;;
  P_set P_IRQ_DISABLE;;
  P_clear P_DECIMAL;;
  P_clear P_BREAK;;
  l ← rk65c02_mem_read_1 VECTOR_IRQ;
  put_PC l;;
  h ← rk65c02_mem_read_1 (VECTOR_IRQ + 1);
  pc ← get_PC; put_PC (u16 (pc ||| (h ≪ 8)));;
  modify (set_irq false).

Definition emul_brk id i : M unit :=
  pc ← get_PC; put_PC (u16 (pc + 2));;
  P_set P_BREAK;;
  rk65c02_irq.

Definition emul_bvc id i : M unit := v ← P_test P_SIGN_OVERFLOW; branch_if (negb v) id i.
Definition emul_bvs id i : M unit := v ← P_test P_SIGN_OVERFLOW; branch_if v id i.

Definition emul_clc id i : M unit := P_clear P_CARRY.
Definition emul_cld id i : M unit := P_clear P_DECIMAL.
Definition emul_cli id i : M unit := P_clear P_IRQ_DISABLE.
Definition emul_clv id i : M unit := P_clear P_SIGN_OVERFLOW.

(** The body [emul_cmp], [emul_cpx] and [emul_cpy] share, on the register they
    compare. *)
Definition compare_with (reg : M Z) id i : M unit :=
  val ← instruction_data_read_1 id i;
  r ← reg;
  let sr := u8 (r - val) in
  adjust_zn sr;;
  r ← reg;
  P_put P_CARRY (negb (r <? val)).

Definition emul_cmp id i : M unit := compare_with get_A id i.
Definition emul_cpx id i : M unit := compare_with get_X id i.
Definition emul_cpy id i : M unit := compare_with get_Y id i.

Definition emul_dec id i : M unit :=
  val ← instruction_data_read_1 id i;
  let val := u8 (val - 1) in
  instruction_data_write_1 id i val;;
  adjust_zn val.

Definition emul_dex id i : M unit := x ← get_X; put_X (u8 (x - 1));; x ← get_X; adjust_zn x.
Definition emul_dey id i : M unit := y ← get_Y; put_Y (u8 (y - 1));; y ← get_Y; adjust_zn y.

Definition emul_eor id i : M unit :=
  v ← instruction_data_read_1 id i;
  a ← get_A;
  put_A (a ^^^ v);;
  a ← get_A; adjust_zn a.

Definition emul_inc id i : M unit :=
  val ← instruction_data_read_1 id i;
  let val := u8 (val + 1) in
  instruction_data_write_1 id i val;;
  adjust_zn val.

Definition emul_inx id i : M unit := x ← get_X; put_X (u8 (x + 1));; x ← get_X; adjust_zn x.
Definition emul_iny id i : M unit := y ← get_Y; put_Y (u8 (y + 1));; y ← get_Y; adjust_zn y.

Definition emul_jmp id i : M unit :=
  target ←
    match d_mode id with
    | ABSOLUTE => mret (u16 (i_op1 i + (i_op2 i ≪ 8)))
    | IABSOLUTE =>
        let iaddr := u16 (i_op1 i + (i_op2 i ≪ 8)) in
        read_pointer iaddr (u16 (iaddr + 1))
    | IABSOLUTEX =>
        x ← get_X;
        let iaddr := u16 (i_op1 i + (i_op2 i ≪ 8) + x) in
        read_pointer iaddr (u16 (iaddr + 1))
    | _ => assert_fail
    end;
  put_PC target.

Definition emul_jsr id i : M unit :=
  let jumpaddr := u16 (i_op1 i + (i_op2 i ≪ 8)) in
  pc ← get_PC;
  let retaddr := u16 (pc + 2) in
  stack_push (retaddr ≫ 8);;
  stack_push (retaddr &&& 0xFF);;
  put_PC jumpaddr.

Definition emul_lda id i : M unit :=
  v ← instruction_data_read_1 id i; put_A v;; a ← get_A; adjust_zn a.
Definition emul_ldx id i : M unit :=
  v ← instruction_data_read_1 id i; put_X v;; x ← get_X; adjust_zn x.
Definition emul_ldy id i : M unit :=
  v ← instruction_data_read_1 id i; put_Y v;; y ← get_Y; adjust_zn y.

Definition emul_lsr id i : M unit :=
  val ← instruction_data_read_1 id i;
  P_put P_CARRY (ctrue (val &&& 0x1));;
  let val := u8 (val ≫ 1) in
  adjust_zn val;;
  instruction_data_write_1 id i val.

Definition emul_nop id i : M unit := mret tt.

Definition emul_ora id i : M unit :=
  v ← instruction_data_read_1 id i;
  a ← get_A;
  put_A (a ||| v);;
  a ← get_A; adjust_zn a.

Definition emul_pha id i : M unit := a ← get_A; stack_push a.
Definition emul_php id i : M unit := p ← get_P; stack_push (p ||| P_BREAK ||| P_UNDEFINED).
Definition emul_phx id i : M unit := x ← get_X; stack_push x.
Definition emul_phy id i : M unit := y ← get_Y; stack_push y.

Definition emul_pla id i : M unit := v ← stack_pop; put_A v;; a ← get_A; adjust_zn a.

(** [(stack_pop(e) | P_UNDEFINED) & ~P_BREAK] *)
Definition status_from_stack (v : Z) : Z := (v ||| P_UNDEFINED) &&& !~ P_BREAK.

Definition emul_plp id i : M unit := v ← stack_pop; put_P (status_from_stack v).
Definition emul_plx id i : M unit := v ← stack_pop; put_X v;; x ← get_X; adjust_zn x.
Definition emul_ply id i : M unit := v ← stack_pop; put_Y v;; y ← get_Y; adjust_zn y.

Definition emul_rti id i : M unit :=
  v ← stack_pop; put_P (status_from_stack v);;
  l ← stack_pop;
  h ← stack_pop;
  put_PC (u16 (l ||| (h ≪ 8))).

Definition emul_rts id i : M unit :=
  l ← stack_pop;
  h ← stack_pop;
  put_PC (u16 (l ||| (h ≪ 8))).

Definition emul_rmb (bit : Z) id i : M unit :=
  val ← instruction_data_read_1 id i;
  instruction_data_write_1 id i (u8 (val &&& !~ (1 ≪ bit))).
Definition emul_rmb0 id i : M unit := emul_rmb 0 id i.
Definition emul_rmb1 id i : M unit := emul_rmb 1 id i.
Definition emul_rmb2 id i : M unit := emul_rmb 2 id i.
Definition emul_rmb3 id i : M unit := emul_rmb 3 id i.
Definition emul_rmb4 id i : M unit := emul_rmb 4 id i.
Definition emul_rmb5 id i : M unit := emul_rmb 5 id i.
Definition emul_rmb6 id i : M unit := emul_rmb 6 id i.
Definition emul_rmb7 id i : M unit := emul_rmb 7 id i.

Definition emul_rol id i : M unit :=
  val ← instruction_data_read_1 id i;
  let ncarry := ctrue (val &&& 0x80) in
  let val := u8 (val ≪ 1) in
  c ← P_test P_CARRY;
  let val := if c : bool then val ||| 0x1 else val &&& !~ 0x1 in
  P_put P_CARRY ncarry;;
  adjust_zn val;;
  instruction_data_write_1 id i val.

Definition emul_ror id i : M unit :=
  val ← instruction_data_read_1 id i;
  let ncarry := ctrue (val &&& 0x1) in
  let val := u8 (val ≫ 1) in
  c ← P_test P_CARRY;
  let val := if c : bool then val ||| 0x80 else val &&& !~ 0x80 in
  P_put P_CARRY ncarry;;
  adjust_zn val;;
  instruction_data_write_1 id i val.

(** The decimal result of SBC from the 16-bit difference [res]: C's [%]
    truncates towards zero. *)
Definition sbc_bcd_result (res : Z) : Z :=
  let bcd_val := Z.rem (s16 res + 100) 100 in
  let bcd_val := if bcd_val <? 0 then bcd_val + 100 else bcd_val in
  to_bcd (u8 bcd_val).

Definition emul_sbc id i : M unit :=
  arg ← instruction_data_read_1 id i;
  d ← P_test P_DECIMAL;
  a ← get_A;
  let res := if d : bool then u16 (from_bcd a - from_bcd arg) else u16 (a - arg) in
  c ← P_test P_CARRY;
  let res := if c : bool then res else u16 (res - 1) in
  a ← get_A;
  P_put P_SIGN_OVERFLOW (ctrue ((a ^^^ res) &&& ((0xFF - arg) ^^^ res) &&& 0x80));;
  d ← P_test P_DECIMAL;
  (if d : bool then P_put P_CARRY (negb ((res >? 99) || ctrue (res &&& 0xFF00)))
   else P_put P_CARRY (negb (ctrue (res &&& 0xFF00))));;
  d ← P_test P_DECIMAL;
  (if d : bool then put_A (sbc_bcd_result res) else put_A (u8 res));;
  a ← get_A;
  adjust_zn a.

(** The helpers the JIT calls for decimal mode. *)
Definition rk65c02_do_adc_bcd (operand : Z) : M unit :=
  a ← get_A;
  let res := u16 (from_bcd a + from_bcd operand) in
  c ← P_test P_CARRY;
  let res := if c : bool then u16 (res + 1) else res in
  a ← get_A;
  P_put P_SIGN_OVERFLOW (ctrue ((a ^^^ res) &&& (operand ^^^ res) &&& 0x80));;
  P_put P_CARRY (res >? 99);;
  put_A (to_bcd (u8 res));;
  a ← get_A;
  adjust_zn a.

Definition rk65c02_do_sbc_bcd (operand : Z) : M unit :=
  a ← get_A;
  let res := u16 (from_bcd a - from_bcd operand) in
  c ← P_test P_CARRY;
  let res := if c : bool then res else u16 (res - 1) in
  a ← get_A;
  P_put P_SIGN_OVERFLOW (ctrue ((a ^^^ res) &&& ((0xFF - operand) ^^^ res) &&& 0x80));;
  P_put P_CARRY (negb ((res >? 99) || ctrue (res &&& 0xFF00)));;
  put_A (sbc_bcd_result res);;
  a ← get_A;
  adjust_zn a.

Definition emul_sed id i : M unit := P_set P_DECIMAL.
Definition emul_sec id i : M unit := P_set P_CARRY.
Definition emul_sei id i : M unit := P_set P_IRQ_DISABLE.

Definition emul_smb (bit : Z) id i : M unit :=
  val ← instruction_data_read_1 id i;
  instruction_data_write_1 id i (u8 (val ||| (1 ≪ bit))).
Definition emul_smb0 id i : M unit := emul_smb 0 id i.
Definition emul_smb1 id i : M unit := emul_smb 1 id i.
Definition emul_smb2 id i : M unit := emul_smb 2 id i.
Definition emul_smb3 id i : M unit := emul_smb 3 id i.
Definition emul_smb4 id i : M unit := emul_smb 4 id i.
Definition emul_smb5 id i : M unit := emul_smb 5 id i.
Definition emul_smb6 id i : M unit := emul_smb 6 id i.
Definition emul_smb7 id i : M unit := emul_smb 7 id i.

Definition emul_stp id i : M unit := modify (set_state STOPPED);; modify (set_stopreason STP).

Definition emul_sta id i : M unit := a ← get_A; instruction_data_write_1 id i a.
Definition emul_stx id i : M unit := x ← get_X; instruction_data_write_1 id i x.
Definition emul_sty id i : M unit := y ← get_Y; instruction_data_write_1 id i y.
Definition emul_stz id i : M unit := instruction_data_write_1 id i 0.

Definition emul_tax id i : M unit := a ← get_A; put_X a;; x ← get_X; adjust_zn x.
Definition emul_tay id i : M unit := a ← get_A; put_Y a;; y ← get_Y; adjust_zn y.

Definition emul_trb id i : M unit :=
  val ← instruction_data_read_1 id i;
  a ← get_A;
  P_put P_ZERO (negb (ctrue (a &&& val)));;
  a ← get_A;
  instruction_data_write_1 id i (val &&& (a ^^^ 0xFF)).

Definition emul_tsb id i : M unit :=
  val ← instruction_data_read_1 id i;
  a ← get_A;
  P_put P_ZERO (negb (ctrue (a &&& val)));;
  a ← get_A;
  instruction_data_write_1 id i (val ||| a).

Definition emul_tsx id i : M unit := sp ← get_SP; put_X sp;; x ← get_X; adjust_zn x.
Definition emul_txa id i : M unit := x ← get_X; put_A x;; a ← get_A; adjust_zn a.
Definition emul_txs id i : M unit := x ← get_X; put_SP x.
Definition emul_tya id i : M unit := y ← get_Y; put_A y;; a ← get_A; adjust_zn a.

Definition emul_wai id i : M unit := modify (set_state STOPPED);; modify (set_stopreason WAI).

(** Only logs. *)
Definition emul_invalid id i : M unit := mret tt.

(** The call through [id.emul]. *)
Definition call_emul (f : emul_fn) : instrdef_t → instruction_t → M unit :=
  match f with
  | f_adc => emul_adc | f_and => emul_and | f_asl => emul_asl | f_bbr0 => emul_bbr0
  | f_bbr1 => emul_bbr1 | f_bbr2 => emul_bbr2 | f_bbr3 => emul_bbr3 | f_bbr4 => emul_bbr4
  | f_bbr5 => emul_bbr5 | f_bbr6 => emul_bbr6 | f_bbr7 => emul_bbr7 | f_bbs0 => emul_bbs0
  | f_bbs1 => emul_bbs1 | f_bbs2 => emul_bbs2 | f_bbs3 => emul_bbs3 | f_bbs4 => emul_bbs4
  | f_bbs5 => emul_bbs5 | f_bbs6 => emul_bbs6 | f_bbs7 => emul_bbs7 | f_bit => emul_bit
  | f_bcc => emul_bcc | f_bcs => emul_bcs | f_beq => emul_beq | f_bmi => emul_bmi
  | f_bne => emul_bne | f_bpl => emul_bpl | f_bra => emul_bra | f_brk => emul_brk
  | f_bvc => emul_bvc | f_bvs => emul_bvs | f_clc => emul_clc | f_cld => emul_cld
  | f_cli => emul_cli | f_clv => emul_clv | f_cmp => emul_cmp | f_cpx => emul_cpx
  | f_cpy => emul_cpy | f_dec => emul_dec | f_dex => emul_dex | f_dey => emul_dey
  | f_eor => emul_eor | f_inc => emul_inc | f_inx => emul_inx | f_iny => emul_iny
  | f_jmp => emul_jmp | f_jsr => emul_jsr | f_lda => emul_lda | f_ldx => emul_ldx
  | f_ldy => emul_ldy | f_lsr => emul_lsr | f_nop => emul_nop | f_ora => emul_ora
  | f_pha => emul_pha | f_php => emul_php | f_phx => emul_phx | f_phy => emul_phy
  | f_pla => emul_pla | f_plp => emul_plp | f_plx => emul_plx | f_ply => emul_ply
  | f_rti => emul_rti | f_rts => emul_rts | f_rmb0 => emul_rmb0 | f_rmb1 => emul_rmb1
  | f_rmb2 => emul_rmb2 | f_rmb3 => emul_rmb3 | f_rmb4 => emul_rmb4 | f_rmb5 => emul_rmb5
  | f_rmb6 => emul_rmb6 | f_rmb7 => emul_rmb7 | f_rol => emul_rol | f_ror => emul_ror
  | f_sbc => emul_sbc | f_sed => emul_sed | f_sec => emul_sec | f_sei => emul_sei
  | f_smb0 => emul_smb0 | f_smb1 => emul_smb1 | f_smb2 => emul_smb2 | f_smb3 => emul_smb3
  | f_smb4 => emul_smb4 | f_smb5 => emul_smb5 | f_smb6 => emul_smb6 | f_smb7 => emul_smb7
  | f_stp => emul_stp | f_sta => emul_sta | f_stx => emul_stx | f_sty => emul_sty
  | f_stz => emul_stz | f_tax => emul_tax | f_tay => emul_tay | f_trb => emul_trb
  | f_tsb => emul_tsb | f_tsx => emul_tsx | f_txa => emul_txa | f_txs => emul_txs
  | f_tya => emul_tya | f_wai => emul_wai | f_invalid => emul_invalid
  end.

End Emulation.
