(* ===== verification/Disasm.v ===== *)
(** Textual output: [instruction_string_get] and [disassemble] of
    [src/src/instruction.c], [rk65c02_regs_string_get] of [rk65c02.c], with the
    conversions of [printf] they use.  A function that prints returns the text
    it prints. *)
From stdpp Require Import base numbers list gmap strings.
From S2P Require Import Prelude Types Isa BusSpec State Interfaces Mmu Instruction.

(** ** Hexadecimal conversions *)

Definition hex_digit (upper : bool) (d : Z) : string :=
  nth (Z.to_nat d)
    ["0"; "1"; "2"; "3"; "4"; "5"; "6"; "7"; "8"; "9"] (
  nth (Z.to_nat (d - 10))
    (if upper then ["A"; "B"; "C"; "D"; "E"; "F"] else ["a"; "b"; "c"; "d"; "e"; "f"]) "")%string.

(** Digits of a value below [16 ^ fuel], without leading zeroes. *)
Fixpoint hex_digits (upper : bool) (fuel : nat) (v : Z) : string :=
  match fuel with
  | O => ""
  | S fuel' =>
      if v <? 16 then hex_digit upper v
      else hex_digits upper fuel' (v / 16) +:+ hex_digit upper (v mod 16)
  end.

(** [%X] of an [uint8_t] or [uint16_t]. *)
Definition fmt_X (v : Z) : string := hex_digits true 4 v.
(** [%02x] of an [uint8_t]. *)
Definition fmt_02x (v : Z) : string := hex_digit false (v / 16) +:+ hex_digit false (v mod 16).
(** [%#02x] of an [uint8_t]: the prefix counts towards the width, and zero has
    no prefix. *)
Definition fmt_alt02x (v : Z) : string :=
  if v =? 0 then "00" else "0x" +:+ hex_digits false 2 v.

(** [snprintf (str, len, ...)] keeps at most [len - 1] characters. *)
Definition snprintf (len : nat) (s : string) : string := String.substring 0 (len - 1) s.

Definition INSTR_STR_LEN : nat := 24.
Definition REGS_STR_LEN : nat := 50.

Definition instruction_text (i : instruction_t) : string :=
  let id := instruction_decode (i_opcode i) in
  let m := d_mnemonic id in
  let op1 := fmt_alt02x (i_op1 i) in
  let op2 := fmt_alt02x (i_op2 i) in
  let abs := op2 +:+ fmt_02x (i_op1 i) in
  match d_mode id with
  | IMPLIED => m
  | ACCUMULATOR => m +:+ " A"
  | IMMEDIATE => m +:+ " #" +:+ op1
  | ZP | RELATIVE => m +:+ " " +:+ op1
  | ZPX => m +:+ " " +:+ op1 +:+ ",X"
  | ZPY => m +:+ " " +:+ op1 +:+ ",Y"
  | IZP => m +:+ " (" +:+ op1 +:+ ")"
  | IZPX => m +:+ " (" +:+ op1 +:+ ",X)"
  | IZPY => m +:+ " (" +:+ op1 +:+ "),Y"
  | ZPR => m +:+ " " +:+ op1 +:+ "," +:+ op2
  | ABSOLUTE => m +:+ " " +:+ abs
  | ABSOLUTEX => m +:+ " " +:+ abs +:+ ",X"
  | ABSOLUTEY => m +:+ " " +:+ abs +:+ ",Y"
  | IABSOLUTE => m +:+ " (" +:+ abs +:+ ")"
  | IABSOLUTEX => m +:+ " (" +:+ abs +:+ ",X)"
  end.

Definition instruction_string_get (i : instruction_t) : string :=
  snprintf INSTR_STR_LEN (instruction_text i).

Definition TAB : string := String (Ascii.ascii_of_nat 9) "".
Definition NL : string := String (Ascii.ascii_of_nat 10) "".

Section Disasm.
Context {SY : Sys} {SB : SysBus} {HO : HostOps}.

(** [disassemble]: the line it prints, and the bus after its reads. *)
Definition disassemble (b : sys_bus) (addr : Z) : string * sys_bus :=
  let '(i, b) := instruction_fetch b addr in
  let id := instruction_decode (i_opcode i) in
  let bytes :=
    if d_size id =? 1 then fmt_X (d_opcode id)
    else if d_size id =? 2 then fmt_X (d_opcode id) +:+ " " +:+ fmt_X (i_op1 i)
    else if d_size id =? 3 then
      fmt_X (d_opcode id) +:+ " " +:+ fmt_X (i_op1 i) +:+ " " +:+ fmt_X (i_op2 i)
    else "" in
  (fmt_X addr +:+ ":" +:+ TAB +:+ instruction_string_get i +:+ TAB +:+ TAB +:+ "// "
     +:+ bytes +:+ NL, b).

End Disasm.

Definition flag_char (p m : Z) (c : string) : string := if ctrue (p &&& m) then c else "-".

Definition regs_text (r : reg_state_t) : string :=
  "A: " +:+ fmt_X (A r) +:+ " X: " +:+ fmt_X (X r) +:+ " Y: " +:+ fmt_X (Y r) +:+
  " PC: " +:+ fmt_X (PC r) +:+ " SP: " +:+ fmt_X (SP r) +:+ " P: " +:+
  flag_char (P r) P_NEGATIVE "N" +:+ flag_char (P r) P_SIGN_OVERFLOW "V" +:+
  flag_char (P r) P_UNDEFINED "1" +:+ flag_char (P r) P_BREAK "B" +:+
  flag_char (P r) P_DECIMAL "D" +:+ flag_char (P r) P_IRQ_DISABLE "I" +:+
  flag_char (P r) P_ZERO "Z" +:+ flag_char (P r) P_CARRY "C".

Definition rk65c02_regs_string_get (r : reg_state_t) : string := snprintf REGS_STR_LEN (regs_text r).
