(* ===== verification/Debug.v ===== *)
(** Breakpoints and tracing: [src/src/debug.c].  The linked lists of the C code
    are lists in insertion order. *)
From stdpp Require Import base numbers list gmap strings.
From S2P Require Import Prelude Types Isa BusSpec State Interfaces Mmu Instruction Disasm.

Section Debug.
Context {SY : Sys}.

Definition debug_trace_set (st : bool) : M unit := modify (set_trace st).

(** The lines [debug_trace_print_all] logs. *)
Definition debug_trace_print_all (e : rk65c02emu) : list string :=
  (λ tr, fmt_X (tr_address tr) +:+ ": " +:+
     instruction_string_get (mkInstruction (tr_opcode tr) (tr_op1 tr) (tr_op2 tr)) +:+ TAB +:+
     rk65c02_regs_string_get (tr_regs tr)) <$> trace_head e.

Definition debug_trace_savestate (address : Z) (id : instrdef_t) (i : instruction_t) : M unit :=
  modify (λ e, set_trace_head
    (trace_head e ++ [mkTrace address (i_opcode i) (i_op1 i) (i_op2 i) (regs e)]) e).

(** [LL_DELETE] of the first breakpoint at [address]; [None] when the loop
    ends without finding one. *)
Fixpoint bp_delete (address : Z) (l : list Z) : option (list Z) :=
  match l with
  | [] => None
  | bp :: l' => if bp =? address then Some l' else cons bp <$> bp_delete address l'
  end.

Definition debug_breakpoint_remove (address : Z) : M bool :=
  bps ← gets (λ e, bps_head e);
  match bp_delete address bps with
  | Some bps' => modify (set_bps_head bps');; mret true
  | None => mret false
  end.

(** [GC_MALLOC] does not return NULL: [rk65c02_gc_oom] aborts instead. *)
Definition debug_breakpoint_add (address : Z) : M bool :=
  modify (λ e, set_bps_head (bps_head e ++ [address]) e);; mret true.

Definition debug_PC_is_breakpoint : M bool :=
  e ← get; mret (existsb (λ bp, bp =? PC (regs e)) (bps_head e)).

End Debug.
