(* ===== verification/Exec.v ===== *)
(** Execution control: [rk65c02_init], [rk65c02_exec], the host polling points,
    [rk65c02_start], [rk65c02_step] and the callback setters of
    [src/src/rk65c02.c]. *)
From stdpp Require Import base numbers list gmap strings.
From S2P Require Import Prelude Types Isa BusSpec State Interfaces Mmu Instruction Emulation.
From S2P Require Import Disasm Debug.

(** ** Creation *)

Section Init.
Context {SY : Sys}.

(** [junk] is the automatic variable [e] before [rk65c02_init] assigns its
    fields: the registers other than [P] and the loop budget keep its values.
    The host's memory is not part of the instance. *)
Definition rk65c02_init (junk : rk65c02emu) (b : sys_bus) : rk65c02emu :=
  let r := regs junk in
  {| state := STOPPED; bus := b;
     regs := regs_P ((P_UNDEFINED ||| P_IRQ_DISABLE) &&& !~ P_DECIMAL) r;
     stopreason := HOST;
     mmu_last_fault_addr := 0; mmu_last_fault_access := RK65C02_MMU_READ;
     mmu_last_fault_code := 0;
     irq := false; bps_head := []; runtime_disassembly := false;
     trace := false; trace_head := [];
     use_jit := false; jit_loop_budget := jit_loop_budget junk; jit_requested := false;
     jit := None; in_jit_run := false; stop_requested := false;
     on_stop := None; on_stop_ctx := 0;
     tick := None; tick_ctx := 0; tick_interval := 0; tick_countdown := 0;
     idle_wait_enabled := false; idle_wait := None; idle_wait_ctx := 0;
     mmu_enabled := false; mmu_identity_fastpath := false; mmu_identity_active := false;
     mmu_update_pending := false; mmu_epoch := 0;
     mmu_translate := None; mmu_translate_ctx := 0; mmu_fault := None; mmu_fault_ctx := 0;
     mmu_fault_reexec := false; mmu_tlb_enabled := true;
     mmu_changed_all := false; mmu_changed_vpage := ∅;
     mmu_tlb_hits := 0; mmu_tlb_misses := 0; mmu_tlb := ∅;
     mem_read_1_fn := mem_direct; mem_write_1_fn := mem_direct;
     host := host junk |}.

(** ** Callback registration and control requests *)

Definition rk65c02_on_stop_set (cb : option nat) (ctx : Z) : M unit :=
  modify (set_on_stop cb);; modify (set_on_stop_ctx ctx).
Definition rk65c02_on_stop_clear : M unit :=
  modify (set_on_stop None);; modify (set_on_stop_ctx 0).
Definition rk65c02_tick_set (cb : option nat) (interval ctx : Z) : M unit :=
  modify (set_tick cb);; modify (set_tick_ctx ctx);;
  modify (set_tick_interval interval);; modify (set_tick_countdown interval).
Definition rk65c02_tick_clear : M unit :=
  modify (set_tick None);; modify (set_tick_ctx 0);;
  modify (set_tick_interval 0);; modify (set_tick_countdown 0).
Definition rk65c02_idle_wait_set (cb : option nat) (ctx : Z) : M unit :=
  modify (set_idle_wait cb);; modify (set_idle_wait_ctx ctx);;
  modify (set_idle_wait_enabled (bool_decide (cb ≠ None))).
Definition rk65c02_idle_wait_clear : M unit :=
  modify (set_idle_wait_enabled false);; modify (set_idle_wait None);;
  modify (set_idle_wait_ctx 0).

Definition rk65c02_request_stop : M unit := modify (set_stop_requested true).

Definition rk65c02_assert_irq : M unit :=
  modify (set_irq true);;
  e ← get;
  if bool_decide (state e = STOPPED) && bool_decide (stopreason e = WAI)
  then modify (set_state RUNNING) else mret tt.
Definition rk65c02_deassert_irq : M unit := modify (set_irq false).

End Init.

Definition rk65c02_stop_reason_string (reason : emu_stop_reason_t) : string :=
  match reason with
  | STP => "STP" | WAI => "WAI" | BREAKPOINT => "BREAKPOINT" | WATCHPOINT => "WATCHPOINT"
  | STEPPED => "STEPPED" | HOST => "HOST" | EMUERROR => "EMUERROR"
  end.

Section Exec.
Context {SY : Sys} {SB : SysBus} {HO : HostOps} {JO : JitOps}.

(** ** One instruction *)

(** [disassemble], with the calls of the devices the instruction is read from. *)
Definition core_disassemble (addr : Z) : M string :=
  e ← get;
  let '(s, b) := disassemble (bus e) addr in
  let i := (instruction_fetch (bus e) addr).1 in
  modify (set_bus b);;
  mfor (seqZ 0 (1 + Z.of_nat (mode_operands (d_mode (instruction_decode (i_opcode i))))))
    (λ k, device_read (b_host (bus e) (u16 (addr + k))));;
  mret s.

(** What follows the emulation routine in [rk65c02_exec] and
    [instruction_exec_one]. *)
Definition finish_instruction (id : instrdef_t) : M unit :=
  e ← get;
  if bool_decide (state e = STOPPED) && mmu_fault_reexec e
  then modify (set_mmu_fault_reexec false)
  else if negb (instruction_modify_pc id) then program_counter_increment id
  else mret tt.

Definition rk65c02_exec : M unit :=
  tpc ← get_PC;
  e ← get;
  (if irq e && negb (ctrue (P (regs e) &&& P_IRQ_DISABLE)) then rk65c02_irq else mret tt);;
  bp ← debug_PC_is_breakpoint;
  if bp : bool then modify (set_state STOPPED);; modify (set_stopreason BREAKPOINT)
  else
    rd ← gets (λ e, runtime_disassembly e);
    (if rd : bool then pc ← get_PC; _ ← core_disassemble pc; mret tt else mret tt);;
    pc ← get_PC;
    i ← instruction_fetch_emu pc;
    let id := instruction_decode (i_opcode i) in
    call_emul (d_emul id) id i;;
    finish_instruction id;;
    tr ← gets (λ e, trace e);
    if tr : bool then debug_trace_savestate tpc id i else mret tt.

(** [instruction_exec_one] of [instruction.c]. *)
Definition instruction_exec_one : M unit :=
  pc ← get_PC;
  i ← instruction_fetch_emu pc;
  let id := instruction_decode (i_opcode i) in
  call_emul (d_emul id) id i;;
  finish_instruction id.

(** ** Host polling *)

Definition rk65c02_apply_host_stop_request : M unit :=
  req ← gets (λ e, stop_requested e);
  if negb req then mret tt
  else
    modify (set_state STOPPED);;
    modify (set_stopreason HOST);;
    modify (set_stop_requested false).

Definition rk65c02_maybe_tick : M unit :=
  e ← get;
  match tick e with
  | None => mret tt
  | Some cb =>
      if negb (is_active (state e)) then mret tt
      else if tick_interval e =? 0 then host_tick cb (tick_ctx e)
      else
        (if tick_countdown e >? 0 then modify (set_tick_countdown (tick_countdown e - 1))
         else mret tt);;
        n ← gets (λ e, tick_countdown e);
        if n =? 0 then
          host_tick cb (tick_ctx e);;
          modify (λ e, set_tick_countdown (tick_interval e) e)
        else mret tt
  end.

Definition rk65c02_poll_host_controls : M unit :=
  rk65c02_apply_host_stop_request;;
  rk65c02_maybe_tick;;
  rk65c02_apply_host_stop_request.

Definition rk65c02_maybe_wait_on_idle : M bool :=
  e ← get;
  match idle_wait e with
  | None => mret false
  | Some cb =>
      if negb (idle_wait_enabled e) then mret false
      else if negb (bool_decide (state e = STOPPED) && bool_decide (stopreason e = WAI))
      then mret false
      else
        host_idle_wait cb (idle_wait_ctx e);;
        rk65c02_apply_host_stop_request;;
        mret true
  end.

Definition is_running (e : rk65c02emu) : bool := bool_decide (state e = RUNNING).

(** ** The interpreter loop

    The [while] of [rk65c02_start], which [jit.c] and [jit_stub.c] repeat; one
    unit of fuel per iteration. *)
Fixpoint interp_loop (fuel : nat) : M unit :=
  match fuel with
  | O => no_fuel
  | S fuel' =>
      r ← gets is_running;
      if negb r then mret tt
      else
        rk65c02_poll_host_controls;;
        r ← gets is_running;
        if negb r then
          w ← rk65c02_maybe_wait_on_idle;
          if w : bool then interp_loop fuel' else mret tt
        else
          rk65c02_exec;;
          rk65c02_poll_host_controls;;
          r ← gets is_running;
          if negb r then
            w ← rk65c02_maybe_wait_on_idle;
            r ← gets is_running;
            if (w : bool) && r then interp_loop fuel' else mret tt
          else interp_loop fuel'
  end.

Definition rk65c02_can_use_jit (e : rk65c02emu) : bool :=
  use_jit e && bool_decide (is_Some (jit e)) && negb (trace e) && negb (runtime_disassembly e)
    && bool_decide (bps_head e = []).

(** [run_jit] is [rk65c02_run_jit] of the linked backend. *)
Definition rk65c02_start (run_jit : nat → M unit) (fuel : nat) : M unit :=
  modify (λ e, set_use_jit (jit_requested e) e);;
  modify (set_stop_requested false);;
  modify (set_mmu_fault_reexec false);;
  modify (λ e, set_tick_countdown (tick_interval e) e);;
  rk65c02_mmu_refresh_accessors;;
  cj ← gets rk65c02_can_use_jit;
  (if cj : bool then run_jit fuel
   else modify (set_state RUNNING);; interp_loop fuel);;
  rk65c02_poll_host_controls;;
  e ← get;
  if bool_decide (state e = STOPPED) then rk65c02_maybe_call_on_stop else mret tt.

(** [rk65c02_run_jit] of [jit_stub.c]. *)
Definition stub_run_jit (fuel : nat) : M unit :=
  modify (set_state RUNNING);; interp_loop fuel.

(** The [while] of [rk65c02_step] with [n] steps left. *)
Fixpoint step_loop (n : nat) : M unit :=
  match n with
  | O => mret tt
  | S n' =>
      e ← get;
      if negb (bool_decide (state e = STEPPING)) then mret tt
      else
        rk65c02_poll_host_controls;;
        e ← get;
        if negb (bool_decide (state e = STEPPING)) then mret tt
        else
          rk65c02_exec;;
          rk65c02_poll_host_controls;;
          step_loop n'
  end.

Definition rk65c02_step (steps : Z) : M unit :=
  modify (set_stop_requested false);;
  modify (λ e, set_tick_countdown (tick_interval e) e);;
  rk65c02_mmu_refresh_accessors;;
  modify (set_state STEPPING);;
  step_loop (Z.to_nat steps);;
  rk65c02_poll_host_controls;;
  e ← get;
  (if bool_decide (state e = STEPPING) then
     modify (set_state STOPPED);; modify (set_stopreason STEPPED)
   else mret tt);;
  e ← get;
  if bool_decide (state e = STOPPED) then rk65c02_maybe_call_on_stop else mret tt.

End Exec.
