(* ===== verification/Console.v ===== *)
(** The functions that print: [rk65c02_dump_stack] and [rk65c02_dump_regs] of
    [src/src/rk65c02.c], [instruction_print] of [instruction.c] and
    [bus_device_dump] of [bus.c]; and [rk65c02_load_rom].  A function that
    prints returns the text it prints. *)
From stdpp Require Import base numbers list gmap strings.
From S2P Require Import Prelude Types Isa BusSpec Bus State Interfaces Mmu Instruction Disasm.
From S2P Require Import Emulation Debug Exec.

(** [%#02x] and [%x] of an [uint16_t]. *)
Definition fmt_alt02x_word (v : Z) : string :=
  if v =? 0 then "00" else "0x" +:+ hex_digits false 4 v.
Definition fmt_x (v : Z) : string := hex_digits false 4 v.

Definition rk65c02_dump_regs (r : reg_state_t) : string := rk65c02_regs_string_get r +:+ NL.
Definition instruction_print (i : instruction_t) : string := instruction_string_get i.

(** ** The stack *)

Section Stack.
Context {SY : Sys} {SB : SysBus}.

(** The [while] at [stackaddr]; it runs at most 256 times. *)
Fixpoint dump_stack_loop (fuel : nat) (n stackaddr : Z) (b : sys_bus) : string * sys_bus :=
  match fuel with
  | O => ("", b)
  | S fuel' =>
      if negb (stackaddr <=? STACK_END) then ("", b)
      else
        let head :=
          if (stackaddr =? STACK_END - n) || (stackaddr mod 0x10 =? 0)
          then "stack " +:+ fmt_alt02x_word stackaddr +:+ ": " else "" in
        let '(v, b) := b_read b stackaddr in
        let next := u16 (stackaddr + 1) in
        let '(rest, b) := dump_stack_loop fuel' n next b in
        (head +:+ fmt_alt02x v +:+ " " +:+ (if next mod 0x10 =? 0 then NL else "") +:+ rest, b)
  end.

Definition rk65c02_dump_stack (b : sys_bus) (n : Z) : string * sys_bus :=
  dump_stack_loop 257 n (u16 (STACK_END - n)) b.

(** The bound on the iterations is enough. *)
Lemma dump_stack_enough fuel k n a b : 0 ≤ a → STACK_END - a < Z.of_nat fuel →
  dump_stack_loop (fuel + k) n a b = dump_stack_loop fuel n a b.
Proof.
  unfold STACK_END. revert a b. induction fuel as [|fuel IH]; intros a b Ha Hf.
  - destruct k; [done|]. cbn [dump_stack_loop Nat.add]. unfold STACK_END.
    by rewrite (proj2 (Z.leb_gt _ _)) by lia.
  - cbn [dump_stack_loop Nat.add]. unfold STACK_END. destruct (Z.leb_spec a 511) as [Hle|]; [|done]. cbn [negb].
    destruct (b_read b a). rewrite IH; [done|..]; rewrite u16_small by lia; lia.
Qed.

(** Looking at a stack in RAM changes nothing. *)
Lemma dump_stack_flat `{!BusLaws sys_bus} b n : flat_bus b → byte n → (rk65c02_dump_stack b n).2 = b.
Proof.
  intros Hb _. unfold rk65c02_dump_stack. generalize (u16_word (STACK_END - n)).
  generalize (u16 (STACK_END - n)). generalize 257%nat. intros fuel. induction fuel as [|fuel IH]; intros a Ha; [done|].
  cbn [dump_stack_loop]. destruct (negb _); [done|]. rewrite mem_at_read by by apply flat_ram.
  specialize (IH (u16 (a + 1)) (u16_word _)). by destruct (dump_stack_loop fuel n (u16 (a + 1)) b).
Qed.
End Stack.

(** ** Devices *)

Section Devices.
Context {DH : DeviceHost}.

Definition bus_device_dump (t : bus_t) : string :=
  foldr (λ dm rest, let d := dev_at t (dm_dev dm) in
    "@ " +:+ fmt_x (dm_addr dm) +:+ " size " +:+ fmt_x (dev_size d) +:+ " - " +:+ dev_name d +:+ NL
      +:+ rest) "" (dm_head t).

(** ** Loading a ROM *)

Context {J H : Type}.
#[local] Instance rom_sys : Sys := {| sys_bus := bus_t; sys_jit := J; sys_host := H |}.

(** [b] is [None] for a NULL pointer, and the result is [None] when the
    assertion on the load fails. *)
Definition rk65c02_load_rom (junk : rk65c02emu) (file : option (list Z)) (load_addr : Z)
    (b : option bus_t) : option rk65c02emu :=
  let b := match b with None => bus_init_with_default_devs | Some b => b end in
  let '(ok, b) := bus_load_file b load_addr file in
  if ok then Some (rk65c02_init junk b) else None.

(** The instance comes up on the bus with the whole file in place, or not at
    all. *)
Lemma load_rom_loaded junk bytes addr t : word addr →
  rk65c02_load_rom junk (Some bytes) addr (Some t) =
    if bool_decide (addr + Z.of_nat (length bytes) ≤ RK65C02_BUS_SIZE)
    then Some (rk65c02_init junk (load_buf_loop t addr 0 bytes)) else None.
Proof.
  intros Ha. unfold rk65c02_load_rom, bus_load_file. pose proof (load_file_loop_spec t addr 0 bytes) as Hl.
  rewrite Z.add_0_r in Hl. rewrite Hl by (unfold RK65C02_BUS_SIZE; lia). case_bool_decide as Hf; [|done].
  by rewrite take_ge by (unfold RK65C02_BUS_SIZE in *; lia).
Qed.

End Devices.
