(* ===== verification/Assembler.v ===== *)
(** The in-process assembler: [src/src/assembler.c] and [assembler.h]. *)
From stdpp Require Import base numbers list gmap strings.
From S2P Require Import Prelude Types Isa BusSpec Bus State Interfaces Mmu Instruction.

Section Assembler.
Context {DH : DeviceHost}.

Record assembler_t := mkAssembler { asm_bus : bus_t; asm_pc : Z }.

Definition assemble_init (b : bus_t) (pc : Z) : assembler_t := mkAssembler b pc.

(** [*buf] with its [*bsize] bytes; [None] when no opcode has the mnemonic and
    mode. *)
Definition assemble_single_buf (mnemonic : string) (mode : addressing_t) (op1 op2 : Z)
    : option (list Z) :=
  match instruction_opcode_by_mnemonic mnemonic mode with
  | None => None
  | Some (opcode, id) =>
      let buf := replicate (Z.to_nat (d_size id)) 0 in
      let buf := <[0%nat := opcode]> buf in
      let buf := if d_size id >? 1 then <[1%nat := op1]> buf else buf in
      let buf := if d_size id >? 2 then <[2%nat := op2]> buf else buf in
      Some buf
  end.

Definition assemble_single_buf_implied (mnemonic : string) : option (list Z) :=
  assemble_single_buf mnemonic IMPLIED 0 0.

(** The outer [None] is a failed [assert] of [bus_load_buf]. *)
Definition assemble_single (a : assembler_t) (mnemonic : string) (mode : addressing_t)
    (op1 op2 : Z) : option (bool * assembler_t) :=
  match assemble_single_buf mnemonic mode op1 op2 with
  | None => Some (false, a)
  | Some asmbuf =>
      match bus_load_buf (asm_bus a) (asm_pc a) asmbuf with
      | None => None
      | Some (rv, b) =>
          Some (rv, mkAssembler b (u16 (asm_pc a + Z.of_nat (length asmbuf))))
      end
  end.

Definition assemble_single_implied (a : assembler_t) (mnemonic : string)
    : option (bool * assembler_t) :=
  assemble_single a mnemonic IMPLIED 0 0.

End Assembler.
