(* ===== verification/IsaSpec.v ===== *)
(** What the instructions of a 65C02 do, stated without reference to the
    emulator: flags are booleans, the memory is a function, operands are
    numbers.  Signed overflow, borrow and decimal arithmetic are stated by
    their arithmetic meaning and not by the bit manipulations of
    [src/src/emulation.c].  [Refine] proves that [rk65c02_exec] implements
    [spec_step]. *)
From stdpp Require Import base numbers list gmap strings.
From S2P Require Import Prelude Types Isa.

(** ** The machine *)

Record flags := mkFlags {
  fC : bool; fZ : bool; fI : bool; fD : bool; fB : bool; fU : bool; fV : bool; fN : bool
}.

Inductive power := Running | Stopped | Waiting.

Record cpu := mkCpu {
  cA : Z; cX : Z; cY : Z; cPC : Z; cSP : Z; cF : flags;
  cM : Z → Z;
  cIrq : bool;
  cPower : power
}.

Definition with_A v c := mkCpu v (cX c) (cY c) (cPC c) (cSP c) (cF c) (cM c) (cIrq c) (cPower c).
Definition with_X v c := mkCpu (cA c) v (cY c) (cPC c) (cSP c) (cF c) (cM c) (cIrq c) (cPower c).
Definition with_Y v c := mkCpu (cA c) (cX c) v (cPC c) (cSP c) (cF c) (cM c) (cIrq c) (cPower c).
Definition with_PC v c := mkCpu (cA c) (cX c) (cY c) v (cSP c) (cF c) (cM c) (cIrq c) (cPower c).
Definition with_SP v c := mkCpu (cA c) (cX c) (cY c) (cPC c) v (cF c) (cM c) (cIrq c) (cPower c).
Definition with_F v c := mkCpu (cA c) (cX c) (cY c) (cPC c) (cSP c) v (cM c) (cIrq c) (cPower c).
Definition with_M v c := mkCpu (cA c) (cX c) (cY c) (cPC c) (cSP c) (cF c) v (cIrq c) (cPower c).
Definition with_Irq v c := mkCpu (cA c) (cX c) (cY c) (cPC c) (cSP c) (cF c) (cM c) v (cPower c).
Definition with_Power v c := mkCpu (cA c) (cX c) (cY c) (cPC c) (cSP c) (cF c) (cM c) (cIrq c) v.

Definition set_C b f := mkFlags b (fZ f) (fI f) (fD f) (fB f) (fU f) (fV f) (fN f).
Definition set_Z b f := mkFlags (fC f) b (fI f) (fD f) (fB f) (fU f) (fV f) (fN f).
Definition set_I b f := mkFlags (fC f) (fZ f) b (fD f) (fB f) (fU f) (fV f) (fN f).
Definition set_D b f := mkFlags (fC f) (fZ f) (fI f) b (fB f) (fU f) (fV f) (fN f).
Definition set_B b f := mkFlags (fC f) (fZ f) (fI f) (fD f) b (fU f) (fV f) (fN f).
Definition set_U b f := mkFlags (fC f) (fZ f) (fI f) (fD f) (fB f) b (fV f) (fN f).
Definition set_V b f := mkFlags (fC f) (fZ f) (fI f) (fD f) (fB f) (fU f) b (fN f).
Definition set_N b f := mkFlags (fC f) (fZ f) (fI f) (fD f) (fB f) (fU f) (fV f) b.

(** The status byte and its bits. *)
Definition flags_of (p : Z) : flags :=
  mkFlags (Z.testbit p 0) (Z.testbit p 1) (Z.testbit p 2) (Z.testbit p 3)
    (Z.testbit p 4) (Z.testbit p 5) (Z.testbit p 6) (Z.testbit p 7).
Definition status_of (f : flags) : Z :=
  Z.b2z (fC f) + 2 * Z.b2z (fZ f) + 4 * Z.b2z (fI f) + 8 * Z.b2z (fD f)
  + 16 * Z.b2z (fB f) + 32 * Z.b2z (fU f) + 64 * Z.b2z (fV f) + 128 * Z.b2z (fN f).

Definition upd (m : Z → Z) (a v : Z) : Z → Z := λ x, if decide (a = x) then v else m x.

(** Bytes and words. *)
Definition signed (v : Z) : Z := if v <? 128 then v else v - 256.
Definition word_of (lo hi : Z) : Z := lo + 256 * hi.
Definition bit (v n : Z) : bool := Z.testbit v n.

(** Zero and negative of a result. *)
Definition set_NZ (v : Z) (f : flags) : flags := set_N (128 <=? v) (set_Z (v =? 0) f).

(** ** Addressing *)

Definition spec_ea (m : addressing_t) (op1 op2 : Z) (c : cpu) : Z :=
  let M := cM c in
  match m with
  | ZP | ZPR => op1
  | ZPX => (op1 + cX c) mod 256
  | ZPY => (op1 + cY c) mod 256
  | IZP => word_of (M op1) (M ((op1 + 1) mod 256))
  | IZPX => word_of (M ((op1 + cX c) mod 256)) (M ((op1 + cX c + 1) mod 256))
  | IZPY => (word_of (M op1) (M ((op1 + 1) mod 256)) + cY c) mod 65536
  | ABSOLUTE => word_of op1 op2
  | ABSOLUTEX => (word_of op1 op2 + cX c) mod 65536
  | ABSOLUTEY => (word_of op1 op2 + cY c) mod 65536
  | _ => 0
  end.

Definition spec_operand (m : addressing_t) (op1 op2 : Z) (c : cpu) : Z :=
  match m with
  | IMMEDIATE => op1
  | ACCUMULATOR => cA c
  | _ => cM c (spec_ea m op1 op2 c)
  end.

Definition spec_store (m : addressing_t) (op1 op2 v : Z) (c : cpu) : cpu :=
  match m with
  | ACCUMULATOR => with_A v c
  | _ => with_M (upd (cM c) (spec_ea m op1 op2 c) v) c
  end.

(** ** The stack *)

Definition spec_push (v : Z) (c : cpu) : cpu :=
  with_SP ((cSP c - 1) mod 256) (with_M (upd (cM c) (0x100 + cSP c) v) c).

(** The byte the [n]th pop from now returns. *)
Definition spec_pop (n : Z) (c : cpu) : Z := cM c (0x100 + (cSP c + n) mod 256).
Definition spec_drop (n : Z) (c : cpu) : cpu := with_SP ((cSP c + n) mod 256) c.

(** ** Arithmetic *)

(** The number two BCD digits denote, and the digits of a number's last two
    decimal places. *)
Definition bcd_value (v : Z) : Z := 10 * (v / 16) + v mod 16.
Definition bcd_digits (n : Z) : Z := 16 * (n / 10 mod 10) + n mod 10.

(** [a + v + carry]: result, carry and overflow.  In decimal mode the sum is
    kept modulo 256 before its two last digits are taken, which matters only
    for operands that are not BCD, and overflow is that of the decimal sum's
    low byte. *)
Definition spec_adc (a v : Z) (f : flags) : Z * bool * bool :=
  let cin := Z.b2z (fC f) in
  if fD f then
    let s := bcd_value a + bcd_value v + cin in
    (bcd_digits (s mod 256), 100 <=? s,
     xorb (128 <=? a) (bit s 7) && xorb (128 <=? v) (bit s 7))
  else
    let s := a + v + cin in
    (s mod 256, 256 <=? s,
     negb ((-128 <=? signed a + signed v + cin) && (signed a + signed v + cin <=? 127))).

(** [a - v - borrow]; carry means no borrow. *)
Definition spec_sbc (a v : Z) (f : flags) : Z * bool * bool :=
  let bin := 1 - Z.b2z (fC f) in
  if fD f then
    let s := bcd_value a - bcd_value v - bin in
    (bcd_digits (s mod 100),
     (0 <=? s) && (s <=? 99),
     xorb (128 <=? a) (bit (s mod 65536) 7) && xorb (v <? 128) (bit (s mod 65536) 7))
  else
    let s := a - v - bin in
    (s mod 256, 0 <=? s,
     negb ((-128 <=? signed a - signed v - bin) && (signed a - signed v - bin <=? 127))).

(** Store a result in a register or in memory and set N and Z from it. *)
Definition load_A (v : Z) (c : cpu) : cpu := with_F (set_NZ v (cF c)) (with_A v c).
Definition load_X (v : Z) (c : cpu) : cpu := with_F (set_NZ v (cF c)) (with_X v c).
Definition load_Y (v : Z) (c : cpu) : cpu := with_F (set_NZ v (cF c)) (with_Y v c).

(** ** Interrupts *)

(** Push the return address and the status, mask interrupts, leave decimal
    mode and go through the vector. *)
Definition spec_interrupt (c : cpu) : cpu :=
  let c := spec_push (cPC c / 256) c in
  let c := spec_push (cPC c mod 256) c in
  let c := spec_push (status_of (cF c)) c in
  let c := with_F (set_B false (set_D false (set_I true (cF c)))) c in
  with_Irq false (with_PC (word_of (cM c 0xFFFE) (cM c 0xFFFF)) c).

(** ** Instructions *)

Definition spec_branch (taken : bool) (len off : Z) (c : cpu) : cpu :=
  with_PC ((cPC c + len + (if taken then signed off else 0)) mod 65536) c.

(** The effect of the instruction implemented by [f] in mode [m] on the
    operand bytes, the program counter of instructions that do not jump
    aside. *)
Definition spec_effect (f : emul_fn) (m : addressing_t) (op1 op2 : Z) (c : cpu) : cpu :=
  let v := spec_operand m op1 op2 c in
  let F := cF c in
  let store x c := spec_store m op1 op2 x c in
  let compare r := with_F (set_C (v <=? r) (set_NZ ((r - v) mod 256) F)) c in
  let shifted out x := store x (with_F (set_NZ x (set_C out F)) c) in
  let bbr n := spec_branch (negb (bit v n)) 3 op2 c in
  let bbs n := spec_branch (bit v n) 3 op2 c in
  let rmb n := store (Z.clearbit v n) c in
  let smb n := store (Z.setbit v n) c in
  let branch b := spec_branch b 2 op1 c in
  match f with
  | f_adc => let '(r, co, ov) := spec_adc (cA c) v F in
      with_F (set_NZ r (set_C co (set_V ov F))) (with_A r c)
  | f_sbc => let '(r, co, ov) := spec_sbc (cA c) v F in
      with_F (set_NZ r (set_C co (set_V ov F))) (with_A r c)
  | f_and => load_A (Z.land (cA c) v) c
  | f_ora => load_A (Z.lor (cA c) v) c
  | f_eor => load_A (Z.lxor (cA c) v) c
  | f_asl => shifted (128 <=? v) ((2 * v) mod 256)
  | f_lsr => shifted (bit v 0) (v / 2)
  | f_rol => shifted (128 <=? v) ((2 * v) mod 256 + Z.b2z (fC F))
  | f_ror => shifted (bit v 0) (v / 2 + 128 * Z.b2z (fC F))
  | f_bbr0 => bbr 0 | f_bbr1 => bbr 1 | f_bbr2 => bbr 2 | f_bbr3 => bbr 3
  | f_bbr4 => bbr 4 | f_bbr5 => bbr 5 | f_bbr6 => bbr 6 | f_bbr7 => bbr 7
  | f_bbs0 => bbs 0 | f_bbs1 => bbs 1 | f_bbs2 => bbs 2 | f_bbs3 => bbs 3
  | f_bbs4 => bbs 4 | f_bbs5 => bbs 5 | f_bbs6 => bbs 6 | f_bbs7 => bbs 7
  | f_rmb0 => rmb 0 | f_rmb1 => rmb 1 | f_rmb2 => rmb 2 | f_rmb3 => rmb 3
  | f_rmb4 => rmb 4 | f_rmb5 => rmb 5 | f_rmb6 => rmb 6 | f_rmb7 => rmb 7
  | f_smb0 => smb 0 | f_smb1 => smb 1 | f_smb2 => smb 2 | f_smb3 => smb 3
  | f_smb4 => smb 4 | f_smb5 => smb 5 | f_smb6 => smb 6 | f_smb7 => smb 7
  | f_bit =>
      let F := set_Z (Z.land (cA c) v =? 0) F in
      with_F (match m with IMMEDIATE => F | _ => set_N (bit v 7) (set_V (bit v 6) F) end) c
  | f_bcc => branch (negb (fC F)) | f_bcs => branch (fC F)
  | f_bne => branch (negb (fZ F)) | f_beq => branch (fZ F)
  | f_bpl => branch (negb (fN F)) | f_bmi => branch (fN F)
  | f_bvc => branch (negb (fV F)) | f_bvs => branch (fV F)
  | f_bra => branch true
  | f_brk => spec_interrupt (with_F (set_B true F) (with_PC ((cPC c + 2) mod 65536) c))
  | f_clc => with_F (set_C false F) c | f_sec => with_F (set_C true F) c
  | f_cld => with_F (set_D false F) c | f_sed => with_F (set_D true F) c
  | f_cli => with_F (set_I false F) c | f_sei => with_F (set_I true F) c
  | f_clv => with_F (set_V false F) c
  | f_cmp => compare (cA c) | f_cpx => compare (cX c) | f_cpy => compare (cY c)
  | f_dec => let r := (v - 1) mod 256 in with_F (set_NZ r F) (store r c)
  | f_inc => let r := (v + 1) mod 256 in with_F (set_NZ r F) (store r c)
  | f_dex => load_X ((cX c - 1) mod 256) c | f_inx => load_X ((cX c + 1) mod 256) c
  | f_dey => load_Y ((cY c - 1) mod 256) c | f_iny => load_Y ((cY c + 1) mod 256) c
  | f_jmp =>
      let a := word_of op1 op2 in
      let at_pointer p := word_of (cM c p) (cM c ((p + 1) mod 65536)) in
      with_PC (match m with
               | IABSOLUTE => at_pointer a
               | IABSOLUTEX => at_pointer ((a + cX c) mod 65536)
               | _ => a
               end) c
  | f_jsr =>
      let r := (cPC c + 2) mod 65536 in
      with_PC (word_of op1 op2) (spec_push (r mod 256) (spec_push (r / 256) c))
  | f_rts => with_PC (word_of (spec_pop 1 c) (spec_pop 2 c)) (spec_drop 2 c)
  | f_rti =>
      with_PC (word_of (spec_pop 2 c) (spec_pop 3 c))
        (with_F (set_B false (set_U true (flags_of (spec_pop 1 c)))) (spec_drop 3 c))
  | f_lda => load_A v c | f_ldx => load_X v c | f_ldy => load_Y v c
  | f_sta => store (cA c) c | f_stx => store (cX c) c | f_sty => store (cY c) c
  | f_stz => store 0 c
  | f_pha => spec_push (cA c) c | f_phx => spec_push (cX c) c | f_phy => spec_push (cY c) c
  | f_php => spec_push (status_of (set_B true (set_U true F))) c
  | f_pla => load_A (spec_pop 1 c) (spec_drop 1 c)
  | f_plx => load_X (spec_pop 1 c) (spec_drop 1 c)
  | f_ply => load_Y (spec_pop 1 c) (spec_drop 1 c)
  | f_plp => with_F (set_B false (set_U true (flags_of (spec_pop 1 c)))) (spec_drop 1 c)
  | f_tax => load_X (cA c) c | f_tay => load_Y (cA c) c | f_tsx => load_X (cSP c) c
  | f_txa => load_A (cX c) c | f_tya => load_A (cY c) c | f_txs => with_SP (cX c) c
  | f_trb => store (Z.ldiff v (cA c)) (with_F (set_Z (Z.land (cA c) v =? 0) F) c)
  | f_tsb => store (Z.lor v (cA c)) (with_F (set_Z (Z.land (cA c) v =? 0) F) c)
  | f_stp => with_Power Stopped c
  | f_wai => with_Power Waiting c
  | f_nop | f_invalid => c
  end.

(** The instructions that set the program counter themselves. *)
Definition jumps (f : emul_fn) : bool :=
  match f with
  | f_bbr0 | f_bbr1 | f_bbr2 | f_bbr3 | f_bbr4 | f_bbr5 | f_bbr6 | f_bbr7
  | f_bbs0 | f_bbs1 | f_bbs2 | f_bbs3 | f_bbs4 | f_bbs5 | f_bbs6 | f_bbs7
  | f_bcc | f_bcs | f_beq | f_bmi | f_bne | f_bpl | f_bra | f_bvc | f_bvs
  | f_brk | f_jmp | f_jsr | f_rti => true
  | _ => false
  end.

(** How many operand bytes follow the opcode. *)
Definition operand_bytes (m : addressing_t) : Z :=
  match m with
  | IMPLIED | ACCUMULATOR => 0
  | IMMEDIATE | ZP | ZPX | ZPY | IZP | IZPX | IZPY | RELATIVE => 1
  | ZPR | ABSOLUTE | ABSOLUTEX | ABSOLUTEY | IABSOLUTE | IABSOLUTEX => 2
  end.

(** One instruction: fetch, execute, go on to the next one unless the
    instruction jumped.  RTS returns to the address before the next
    instruction, so it is not a jump here. *)
Definition spec_instruction (c : cpu) : cpu :=
  let pc := cPC c in
  let id := instruction_decode (cM c pc) in
  let op1 := cM c ((pc + 1) mod 65536) in
  let op2 := cM c ((pc + 2) mod 65536) in
  let c := spec_effect (d_emul id) (d_mode id) op1 op2 c in
  if jumps (d_emul id) then c
  else with_PC ((cPC c + 1 + operand_bytes (d_mode id)) mod 65536) c.

(** A pending interrupt that is not masked is taken first. *)
Definition spec_step (c : cpu) : cpu :=
  spec_instruction (if cIrq c && negb (fI (cF c)) then spec_interrupt c else c).
