(* ===== verification/Invariant.v ===== *)
(** The typing invariant of the emulator: every register and every counter the
    C code declares with a fixed width stays inside it, the bus stays
    well-formed and every live TLB entry translates a page to a page of
    physical memory.  Every operation of the core keeps it, whatever its
    outcome. *)
From stdpp Require Import base numbers list gmap strings.
From S2P Require Import Prelude Types Isa BusSpec State Interfaces Mmu Instruction Emulation.
From S2P Require Import Disasm Debug Exec.

Record regs_ok (r : reg_state_t) : Prop := {
  ok_A : byte (A r); ok_X : byte (X r); ok_Y : byte (Y r);
  ok_PC : word (PC r); ok_SP : byte (SP r); ok_P : byte (P r)
}.

(** A live entry belongs to its slot and names an aligned page below
    [RK65C02_PHYS_MAX]. *)
Definition tlb_entry_ok (vpage : Z) (te : rk65c02_mmu_tlb_entry) : Prop :=
  te_valid te = true →
  te_vpage te = vpage ∧ 0 ≤ te_ppage_base te < RK65C02_PHYS_MAX ∧
  te_ppage_base te mod 256 = 0.

(** Fields outside the invariant may be assigned freely. *)
Ltac keeps_field :=
  apply (keeps_modify _ _ (λ _, True)); [|exact I];
  intros ? []; split; simpl; auto; try apply map_Forall_empty; try apply u32_range; try done.
Section Invariant.
Context {SY : Sys} {SB : SysBus} {BL : BusLaws sys_bus}.

Record emu_ok (e : rk65c02emu) : Prop := {
  ok_regs : regs_ok (regs e);
  ok_bus : b_ok (bus e);
  ok_epoch : 0 ≤ mmu_epoch e < 4294967296;
  ok_tlb : map_Forall tlb_entry_ok (mmu_tlb e);
  (** the accessors are those the MMU mode calls for *)
  ok_read_fn : mem_read_1_fn e = accessors_for e;
  ok_write_fn : mem_write_1_fn e = accessors_for e;
  (** an enabled MMU has a translation callback *)
  ok_translate : mmu_enabled e = true → is_Some (mmu_translate e)
}.

(** What the core relies on from the host's callbacks: they may do anything
    to the instance a C program may do through the API, which keeps the
    invariant, and their results have their C types. *)
Class HostTyped {HO : HostOps} : Prop := {
  host_on_stop_ok cb ctx r : keeps emu_ok (host_on_stop cb ctx r) (λ _, True);
  host_tick_ok cb ctx : keeps emu_ok (host_tick cb ctx) (λ _, True);
  host_idle_wait_ok cb ctx : keeps emu_ok (host_idle_wait cb ctx) (λ _, True);
  host_mmu_translate_ok cb ctx v a : word v →
    keeps emu_ok (host_mmu_translate cb ctx v a) (λ r, 0 ≤ r_paddr r < 4294967296);
  host_mmu_fault_ok cb ctx v a c : keeps emu_ok (host_mmu_fault cb ctx v a c) (λ _, True);
  host_device_read_ok f d off : keeps emu_ok (host_device_read f d off) (λ _, True);
  host_device_write_ok f d off v : keeps emu_ok (host_device_write f d off v) (λ _, True)
}.

Class JitTyped {JO : JitOps} : Prop := {
  note_guest_write_ok a : word a → keeps emu_ok (rk65c02_jit_note_guest_write a) (λ _, True);
  jit_flush_ok : keeps emu_ok rk65c02_jit_flush (λ _, True);
  jit_invalidate_all_ok : keeps emu_ok rk65c02_jit_invalidate_all (λ _, True);
  jit_invalidate_code_vpage_ok p : keeps emu_ok (rk65c02_jit_invalidate_code_vpage p) (λ _, True)
}.

Context {HO : HostOps} {JO : JitOps} {HT : HostTyped} {JT : JitTyped}.

(** ** Automation *)

Lemma keeps_get : keeps emu_ok get emu_ok.
Proof. intros e He. split; [done|]. by intros ? [= <-]. Qed.

Lemma keeps_gets_any {T} (f : rk65c02emu → T) : keeps emu_ok (gets f) (λ a, ∃ e, emu_ok e ∧ a = f e).
Proof. apply keeps_gets. eauto. Qed.

#[local] Hint Resolve keeps_get : keeps.
#[local] Hint Resolve host_on_stop_ok host_tick_ok host_idle_wait_ok host_mmu_fault_ok note_guest_write_ok jit_flush_ok jit_invalidate_all_ok
  jit_invalidate_code_vpage_ok : keeps.
#[local] Hint Extern 1 (keeps _ (host_mmu_translate _ _ _ _) _) =>
  apply host_mmu_translate_ok; crange : keeps.
#[local] Hint Extern 2 (keeps _ (modify _) _) => keeps_field : keeps.
#[local] Hint Extern 9 (keeps _ (gets _) _) => apply keeps_gets_any : keeps.

(** ** Memory *)

Lemma keeps_device_read d : keeps emu_ok (device_read d) (λ _, True).
Proof. destruct d as [[[f dev] off]|]; [apply host_device_read_ok|by apply keeps_ret]. Qed.
Lemma keeps_device_write d v : keeps emu_ok (device_write d v) (λ _, True).
Proof. destruct d as [[[f dev] off]|]; [apply host_device_write_ok|by apply keeps_ret]. Qed.
Lemma keeps_set_bus b : b_ok b → keeps emu_ok (modify (set_bus b)) (λ _, True).
Proof. intros Hb. apply keeps_modify; [|done]. intros e []. by split. Qed.

Lemma keeps_bus_read a : word a → keeps emu_ok (core_bus_read_1 a) (λ v, byte v).
Proof.
  intros Ha. eapply keeps_bind; [apply keeps_get|]. intros e [_ Hb _ _ _ _ _].
  destruct (b_read_ok (bus e) a) as [Hv Hb']; [done..|]. destruct (b_read (bus e) a) as [v b].
  apply keeps_seq; [by apply keeps_set_bus|intros []].
  apply keeps_seq; [apply keeps_device_read|intros []; by apply keeps_ret].
Qed.

Lemma keeps_bus_read_phys a : 0 ≤ a → keeps emu_ok (core_bus_read_1_phys a) (λ v, byte v).
Proof.
  intros Ha. eapply keeps_bind; [apply keeps_get|]. intros e [_ Hb _ _ _ _ _].
  destruct (b_read_phys_ok (bus e) a) as [Hv Hb']; [done..|]. destruct (b_read_phys (bus e) a) as [v b].
  apply keeps_seq; [by apply keeps_set_bus|intros []].
  apply keeps_seq; [apply keeps_device_read|intros []; by apply keeps_ret].
Qed.

Lemma keeps_bus_write a v : word a → byte v → keeps emu_ok (core_bus_write_1 a v) (λ _, True).
Proof.
  intros Ha Hv. eapply keeps_bind; [apply keeps_get|]. intros e [_ Hb _ _ _ _ _].
  apply keeps_seq; [by apply keeps_set_bus, b_write_ok|intros []; apply keeps_device_write].
Qed.

Lemma keeps_bus_write_phys a v :
  0 ≤ a → byte v → keeps emu_ok (core_bus_write_1_phys a v) (λ _, True).
Proof.
  intros Ha Hv. eapply keeps_bind; [apply keeps_get|]. intros e [_ Hb _ _ _ _ _].
  apply keeps_seq; [by apply keeps_set_bus, b_write_phys_ok|intros []; apply keeps_device_write].
Qed.

Definition xlate_ok (x : xlate) : Prop :=
  match x with Xok paddr => 0 ≤ paddr < RK65C02_PHYS_MAX | Xfault _ => True end.

Lemma tlb_entry_get_ok e p : emu_ok e → te_valid (tlb_entry e p) = true →
  tlb_entry_ok p (tlb_entry e p).
Proof.
  intros [_ _ _ Ht _ _ _] Hv. unfold tlb_entry in *. destruct (mmu_tlb e !! p) eqn:E; [|done].
  by apply (Ht p).
Qed.

#[local] Hint Extern 1 (keeps _ (core_bus_read_1 _) _) => apply keeps_bus_read; crange : keeps.
#[local] Hint Extern 1 (keeps _ (core_bus_write_1 _ _) _) => apply keeps_bus_write; crange : keeps.
#[local] Hint Extern 1 (keeps _ (core_bus_read_1_phys _) _) =>
  apply keeps_bus_read_phys; crange : keeps.
#[local] Hint Extern 1 (keeps _ (core_bus_write_1_phys _ _) _) =>
  apply keeps_bus_write_phys; crange : keeps.

Lemma keeps_tlb_fill e p perms paddr :
  0 ≤ paddr < RK65C02_PHYS_MAX → emu_ok e →
  keeps emu_ok (modify (set_mmu_tlb
    (<[p := mkTlbEntry true p (paddr &&& 0xFFFFFF00) perms (mmu_epoch e)]> (mmu_tlb e)))) (λ _, True).
Proof.
  unfold RK65C02_PHYS_MAX. intros Hp [_ _ _ He _ _ _]. apply keeps_modify; [|done].
  intros e' []. split; simpl; auto.
  apply map_Forall_insert_2; [|done]. intros _. simpl. unfold RK65C02_PHYS_MAX.
  split_and!; [done| | |apply page_base_aligned; lia];
    rewrite page_base by lia; pose proof (Z.mod_pos_bound paddr 256); [|lia].
  pose proof (Z.mod_le paddr 256). lia.
Qed.

Lemma tlb_hit_ok e vaddr (te := tlb_entry e (u8 (vaddr ≫ 8))) :
  emu_ok e → tlb_hit e (u8 (vaddr ≫ 8)) = true →
  te_ppage_base te ||| (vaddr &&& 0x00FF) = te_ppage_base te + u8 vaddr ∧
  0 ≤ te_ppage_base te + u8 vaddr < RK65C02_PHYS_MAX.
Proof.
  intros He Hh. destruct (tlb_entry_get_ok e (u8 (vaddr ≫ 8)) He) as (_&Hr&Hm);
    [unfold tlb_hit in Hh; by repeat (apply andb_prop in Hh as [Hh ?])..|].
  fold te in Hr, Hm. rewrite page_or_offset by done. split; [done|].
  pose proof (u8_byte vaddr). pose proof (Z.div_mod (te_ppage_base te) 256).
  unfold RK65C02_PHYS_MAX in *. lia.
Qed.

Lemma keeps_translate_addr vaddr access perm :
  word vaddr → keeps emu_ok (rk65c02_mmu_translate_addr vaddr access perm) xlate_ok.
Proof.
  intros Hv. unfold rk65c02_mmu_translate_addr. keeps_auto.
  - destruct (tlb_hit_ok a vaddr) as [-> ?]; done.
  - apply keeps_tlb_fill; [|done]. unfold RK65C02_PHYS_MAX in *. lia.
Qed.
#[local] Hint Resolve keeps_translate_addr : keeps.

Lemma keeps_translate_cached vaddr access :
  word vaddr → keeps emu_ok (rk65c02_mmu_translate_cached vaddr access)
    (λ r, ∀ p, r = Some p → 0 ≤ p < RK65C02_PHYS_MAX).
Proof.
  intros Hv. unfold rk65c02_mmu_translate_cached, RK65C02_PHYS_MAX. keeps_auto.
  - intros p [= <-]. lia.
  - intros q Hq. by destruct a0; simplify_eq.
Qed.

Lemma keeps_maybe_call_on_stop : keeps emu_ok rk65c02_maybe_call_on_stop (λ _, True).
Proof. unfold rk65c02_maybe_call_on_stop. keeps_auto. Qed.
#[local] Hint Resolve keeps_maybe_call_on_stop : keeps.

Lemma keeps_emu_stop_error : keeps emu_ok emu_stop_error (λ _, True).
Proof. unfold emu_stop_error. keeps_auto. Qed.
#[local] Hint Resolve keeps_emu_stop_error : keeps.

Lemma keeps_panic : keeps emu_ok rk65c02_panic (λ _, True).
Proof. exact keeps_emu_stop_error. Qed.
#[local] Hint Resolve keeps_panic : keeps.

Lemma keeps_mmu_fault v a c : keeps emu_ok (rk65c02_mmu_fault v a c) (λ _, True).
Proof. unfold rk65c02_mmu_fault. keeps_auto. Qed.
#[local] Hint Resolve keeps_mmu_fault : keeps.

Lemma keeps_call_read f a acc : word a → keeps emu_ok (call_mem_read_fn f a acc) (λ v, byte v).
Proof.
  intros. destruct f; simpl; unfold rk65c02_mem_read_direct, rk65c02_mem_read_mmu; keeps_auto;
    unfold xlate_ok in *; keeps_auto.
Qed.

Lemma keeps_call_write f a v acc :
  word a → byte v → keeps emu_ok (call_mem_write_fn f a v acc) (λ _, True).
Proof.
  intros. destruct f; simpl; unfold rk65c02_mem_write_direct, rk65c02_mem_write_mmu; keeps_auto;
    unfold xlate_ok in *; keeps_auto.
Qed.
#[local] Hint Extern 1 (keeps _ (call_mem_read_fn _ _ _) _) => apply keeps_call_read; crange : keeps.
#[local] Hint Extern 1 (keeps _ (call_mem_write_fn _ _ _ _) _) =>
  apply keeps_call_write; crange : keeps.

Lemma keeps_fetch a : word a → keeps emu_ok (rk65c02_mem_fetch_1 a) (λ v, byte v).
Proof. intros. unfold rk65c02_mem_fetch_1. keeps_auto. Qed.
Lemma keeps_read a : word a → keeps emu_ok (rk65c02_mem_read_1 a) (λ v, byte v).
Proof. intros. unfold rk65c02_mem_read_1. keeps_auto. Qed.
Lemma keeps_write a v : word a → byte v → keeps emu_ok (rk65c02_mem_write_1 a v) (λ _, True).
Proof. intros. unfold rk65c02_mem_write_1. keeps_auto. Qed.
#[local] Hint Extern 1 (keeps _ (rk65c02_mem_fetch_1 _) _) => apply keeps_fetch; crange : keeps.
#[local] Hint Extern 1 (keeps _ (rk65c02_mem_read_1 _) _) => apply keeps_read; crange : keeps.
#[local] Hint Extern 1 (keeps _ (rk65c02_mem_write_1 _ _) _) => apply keeps_write; crange : keeps.

Lemma keeps_refresh : keeps emu_ok rk65c02_mmu_refresh_accessors (λ _, True).
Proof. rewrite refresh_modify. keeps_field. Qed.
#[local] Hint Resolve keeps_refresh : keeps.

(** ** The MMU API *)

Lemma keeps_when_jit m : keeps emu_ok m (λ _, True) → keeps emu_ok (when_jit m) (λ _, True).
Proof. intros. unfold when_jit. keeps_auto. Qed.
#[local] Hint Resolve keeps_when_jit : keeps.

Lemma keeps_tlb_flush_vpage p : keeps emu_ok (rk65c02_mmu_tlb_flush_vpage p) (λ _, True).
Proof.
  apply keeps_modify; [|done]. intros e []. split; simpl; auto.
  by apply map_Forall_insert_2.
Qed.
#[local] Hint Resolve keeps_tlb_flush_vpage : keeps.

(** Fuse a run of assignments into one. *)
Ltac keeps_fused :=
  repeat lazymatch goal with
  | |- keeps _ (mbind (λ _, mbind _ (modify _)) (modify _)) _ => apply keeps_fuse
  | |- keeps _ (mbind (λ _, modify _) (modify _)) _ => apply keeps_fuse_last
  end;
  lazymatch goal with
  | |- keeps _ (mbind _ _) _ => apply keeps_seq; [|intros []]
  | _ => idtac
  end.

Lemma keeps_mmu_set tr trc fl flc en id :
  keeps emu_ok (rk65c02_mmu_set tr trc fl flc en id) (λ _, True).
Proof.
  unfold rk65c02_mmu_set, mmu_epoch_bump, rk65c02_mmu_tlb_flush. rewrite refresh_modify.
  case_match eqn:E; [by apply keeps_ret|]. keeps_fused; [|keeps_auto].
  keeps_field. simpl. intros ->. destruct tr; [done|]. by case_bool_decide.
Qed.

Lemma keeps_mmu_clear : keeps emu_ok rk65c02_mmu_clear (λ _, True).
Proof.
  unfold rk65c02_mmu_clear, mmu_epoch_bump, rk65c02_mmu_tlb_flush. rewrite refresh_modify.
  keeps_fused. keeps_field.
Qed.

Lemma keeps_mmu_tlb_set en : keeps emu_ok (rk65c02_mmu_tlb_set en) (λ _, True).
Proof. unfold rk65c02_mmu_tlb_set, rk65c02_mmu_tlb_flush. keeps_auto. Qed.

Lemma keeps_mmu_begin_update : keeps emu_ok rk65c02_mmu_begin_update (λ _, True).
Proof. unfold rk65c02_mmu_begin_update. keeps_auto. Qed.

Lemma keeps_mark_vpage p : keeps emu_ok (rk65c02_mmu_mark_changed_vpage p) (λ _, True).
Proof.
  unfold rk65c02_mmu_mark_changed_vpage, mark_vpage. rewrite refresh_modify.
  eapply keeps_bind; [apply keeps_gets_any|]. intros en _. destruct en; [|by apply keeps_ret].
  simpl. keeps_fused. keeps_field.
Qed.

Lemma keeps_mark_vrange a b : keeps emu_ok (rk65c02_mmu_mark_changed_vrange a b) (λ _, True).
Proof.
  unfold rk65c02_mmu_mark_changed_vrange, mark_vpage. rewrite refresh_modify.
  eapply keeps_bind; [apply keeps_gets_any|]. intros en _. destruct en; [|by apply keeps_ret].
  simpl. apply keeps_seq; [keeps_auto|intros _]. apply keeps_seq; [keeps_auto|intros _].
  keeps_fused. keeps_field.
Qed.

Lemma keeps_end_update : keeps emu_ok rk65c02_mmu_end_update (λ _, True).
Proof.
  unfold rk65c02_mmu_end_update, mmu_epoch_bump, rk65c02_mmu_tlb_flush. keeps_auto.
Qed.

Lemma instruction_fetch_ok b a : b_ok b → word a → b_ok (instruction_fetch b a).2.
Proof.
  intros Hb Ha. unfold instruction_fetch.
  destruct (b_read_ok b a Hb Ha) as [_ Hb1]. destruct (b_read b a) as [op b1]. simpl in Hb1.
  destruct (b_read_ok b1 (u16 (a + 1)) Hb1 (u16_word _)) as [_ Hb2].
  destruct (b_read b1 (u16 (a + 1))) as [op1 b2]. simpl in Hb2.
  destruct (b_read_ok b2 (u16 (a + 2)) Hb2 (u16_word _)) as [_ Hb3].
  destruct (b_read b2 (u16 (a + 2))) as [op2 b3]. simpl in Hb3.
  by destruct (mode_operands _) as [|[|[|]]].
Qed.

Lemma keeps_disassemble a : word a → keeps emu_ok (core_disassemble a) (λ _, True).
Proof.
  intros Ha. eapply keeps_bind; [apply keeps_get|]. intros e [_ Hb _ _ _ _ _].
  pose proof (instruction_fetch_ok (bus e) a) as Hf. unfold disassemble.
  destruct (instruction_fetch (bus e) a) as [i b]. apply keeps_seq; [by apply keeps_set_bus, Hf|intros []].
  apply keeps_seq; [|intros []; by apply keeps_ret]. apply keeps_mfor. intros. apply keeps_device_read.
Qed.
End Invariant.

(** ** Instructions

    Instructions keep more than the typing: any invariant [I] that implies it,
    that does not depend on the registers' values or on the fields an
    instruction may assign freely, and that the memory accessors keep. *)
Section Typed.
Context {SY : Sys} {SB : SysBus} {BL : BusLaws sys_bus} {HO : HostOps} {JO : JitOps}.

(** The fields of [e] that [I] may depend on, the registers apart. *)
Record same_machine (e e' : rk65c02emu) : Prop := {
  sm_bus : bus e' = bus e;
  sm_jit : jit e' = jit e;
  sm_use_jit : use_jit e' = use_jit e;
  sm_in_jit_run : in_jit_run e' = in_jit_run e;
  sm_mmu_epoch : mmu_epoch e' = mmu_epoch e;
  sm_mmu_tlb : mmu_tlb e' = mmu_tlb e;
  sm_mmu_enabled : mmu_enabled e' = mmu_enabled e;
  sm_mmu_identity : mmu_identity_active e' = mmu_identity_active e;
  sm_mmu_translate : mmu_translate e' = mmu_translate e;
  sm_read_fn : mem_read_1_fn e' = mem_read_1_fn e;
  sm_write_fn : mem_write_1_fn e' = mem_write_1_fn e;
  sm_on_stop : on_stop e' = on_stop e;
  sm_tick : tick e' = tick e;
  sm_idle : idle_wait e' = idle_wait e
}.

Class Typed (I : rk65c02emu → Prop) : Prop := {
  typed_ok e : I e → emu_ok e;
  typed_only e e' : same_machine e e' → regs_ok (regs e') → I e → I e';
  typed_fetch a : word a → keeps I (rk65c02_mem_fetch_1 a) (λ v, byte v);
  typed_read a : word a → keeps I (rk65c02_mem_read_1 a) (λ v, byte v);
  typed_write a v : word a → byte v → keeps I (rk65c02_mem_write_1 a v) (λ _, True);
  typed_panic : keeps I rk65c02_panic (λ _, True);
  typed_disassemble a : word a → keeps I (core_disassemble a) (λ _, True)
}.

Context {I : rk65c02emu → Prop} {TI : Typed I}.

Lemma typed_regs e : I e → regs_ok (regs e).
Proof. intros He. by destruct (typed_ok e He). Qed.

Lemma keeps_typed_get : keeps I get I.
Proof. intros e He. split; [done|]. by intros ? [= <-]. Qed.
Lemma keeps_typed_gets {T} (f : rk65c02emu → T) : keeps I (gets f) (λ a, ∃ e, I e ∧ a = f e).
Proof. apply keeps_gets. eauto. Qed.
Lemma keeps_typed_modify f : (∀ e, same_machine e (f e)) → (∀ e, regs_ok (regs e) → regs_ok (regs (f e))) →
  keeps I (modify f) (λ _, True).
Proof.
  intros H1 H2. apply keeps_modify; [|done]. intros e He. apply (typed_only e); [done| |done].
  apply H2. by apply typed_regs.
Qed.

Lemma keeps_P_get : keeps I get_P (λ v, byte v).
Proof. apply keeps_gets. intros e He; by destruct (typed_regs e He). Qed.
Lemma keeps_A_get : keeps I get_A (λ v, byte v).
Proof. apply keeps_gets. intros e He; by destruct (typed_regs e He). Qed.
Lemma keeps_X_get : keeps I get_X (λ v, byte v).
Proof. apply keeps_gets. intros e He; by destruct (typed_regs e He). Qed.
Lemma keeps_Y_get : keeps I get_Y (λ v, byte v).
Proof. apply keeps_gets. intros e He; by destruct (typed_regs e He). Qed.
Lemma keeps_SP_get : keeps I get_SP (λ v, byte v).
Proof. apply keeps_gets. intros e He; by destruct (typed_regs e He). Qed.
Lemma keeps_PC_get : keeps I get_PC (λ v, word v).
Proof. apply keeps_gets. intros e He; by destruct (typed_regs e He). Qed.

Lemma keeps_set_regs (f : reg_state_t → reg_state_t) :
  (∀ r, regs_ok r → regs_ok (f r)) →
  keeps I (modify (λ e, set_regs (f (regs e)) e)) (λ _, True).
Proof. intros Hf. apply keeps_typed_modify; [done|]. intros e. apply Hf. Qed.

Lemma keeps_A_put v : byte v → keeps I (put_A v) (λ _, True).
Proof. intros. apply (keeps_set_regs (regs_A v)). by intros r []. Qed.
Lemma keeps_X_put v : byte v → keeps I (put_X v) (λ _, True).
Proof. intros. apply (keeps_set_regs (regs_X v)). by intros r []. Qed.
Lemma keeps_Y_put v : byte v → keeps I (put_Y v) (λ _, True).
Proof. intros. apply (keeps_set_regs (regs_Y v)). by intros r []. Qed.
Lemma keeps_SP_put v : byte v → keeps I (put_SP v) (λ _, True).
Proof. intros. apply (keeps_set_regs (regs_SP v)). by intros r []. Qed.
Lemma keeps_P_put v : byte v → keeps I (put_P v) (λ _, True).
Proof. intros. apply (keeps_set_regs (regs_P v)). by intros r []. Qed.
Lemma keeps_PC_put v : word v → keeps I (put_PC v) (λ _, True).
Proof. intros. apply (keeps_set_regs (regs_PC v)). by intros r []. Qed.

#[local] Hint Resolve keeps_A_get keeps_X_get keeps_Y_get keeps_SP_get keeps_P_get keeps_PC_get
  keeps_typed_get : keeps.
#[local] Hint Extern 1 (keeps _ (put_A _) _) => apply keeps_A_put; crange : keeps.
#[local] Hint Extern 1 (keeps _ (put_X _) _) => apply keeps_X_put; crange : keeps.
#[local] Hint Extern 1 (keeps _ (put_Y _) _) => apply keeps_Y_put; crange : keeps.
#[local] Hint Extern 1 (keeps _ (put_SP _) _) => apply keeps_SP_put; crange : keeps.
#[local] Hint Extern 1 (keeps _ (put_P _) _) => apply keeps_P_put; crange : keeps.
#[local] Hint Extern 1 (keeps _ (put_PC _) _) => apply keeps_PC_put; crange : keeps.

#[local] Hint Extern 1 (keeps _ (rk65c02_mem_fetch_1 _) _) => apply typed_fetch; crange : keeps.
#[local] Hint Extern 1 (keeps _ (rk65c02_mem_read_1 _) _) => apply typed_read; crange : keeps.
#[local] Hint Extern 1 (keeps _ (rk65c02_mem_write_1 _ _) _) => apply typed_write; crange : keeps.
#[local] Hint Resolve typed_panic : keeps.
#[local] Hint Extern 2 (keeps _ (modify _) _) => apply keeps_typed_modify; [by split|done] : keeps.
#[local] Hint Extern 9 (keeps _ (gets _) _) => apply keeps_typed_gets : keeps.


Lemma keeps_fetch_emu a : word a → keeps I (instruction_fetch_emu a) instruction_ok.
Proof.
  intros. unfold instruction_fetch_emu, instruction_ok. pose proof indeterminate_uint8.
  keeps_auto.
Qed.
#[local] Hint Extern 1 (keeps _ (instruction_fetch_emu _) _) =>
  apply keeps_fetch_emu; crange : keeps.

Lemma keeps_P_set m : byte m → keeps I (P_set m) (λ _, True).
Proof. intros. unfold P_set. keeps_auto. Qed.
Lemma keeps_P_clear m : keeps I (P_clear m) (λ _, True).
Proof. intros. unfold P_clear. keeps_auto. Qed.
#[local] Hint Extern 1 (keeps _ (P_set _) _) =>
  apply keeps_P_set; split; done : keeps.
#[local] Hint Resolve keeps_P_clear : keeps.

Lemma keeps_P_flag m b : byte m → keeps I (P_put m b) (λ _, True).
Proof. intros. unfold P_put. destruct b; [by apply keeps_P_set|apply keeps_P_clear]. Qed.
#[local] Hint Extern 1 (keeps _ (P_put _ _) _) =>
  apply keeps_P_flag; split; done : keeps.

Lemma keeps_P_test m : keeps I (P_test m) (λ _, True).
Proof. unfold P_test. keeps_auto. Qed.
Lemma keeps_adjust_zn v : keeps I (adjust_zn v) (λ _, True).
Proof.
  unfold adjust_zn, instruction_status_adjust_zero, instruction_status_adjust_negative. keeps_auto.
Qed.
#[local] Hint Resolve keeps_P_test keeps_adjust_zn : keeps.

Section Operands.
Context (id : instrdef_t) (i : instruction_t) (Hi : instruction_ok i).

Lemma keeps_read_pointer lo hi : word lo → word hi → keeps I (read_pointer lo hi) (λ a, word a).
Proof. intros. unfold read_pointer. keeps_auto. Qed.
#[local] Hint Extern 1 (keeps _ (read_pointer _ _) _) => apply keeps_read_pointer; crange : keeps.

Lemma keeps_data_address : keeps I (instruction_data_address id i) (λ a, word a).
Proof. destruct Hi as (?&?&?). unfold instruction_data_address. keeps_auto. Qed.
#[local] Hint Resolve keeps_data_address : keeps.

Lemma keeps_data_read : keeps I (instruction_data_read_1 id i) (λ v, byte v).
Proof. destruct Hi as (?&?&?). unfold instruction_data_read_1. keeps_auto. Qed.

Lemma keeps_data_write v : byte v → keeps I (instruction_data_write_1 id i v) (λ _, True).
Proof. intros. unfold instruction_data_write_1. keeps_auto. Qed.
End Operands.

#[local] Hint Extern 1 (keeps _ (read_pointer _ _) _) => apply keeps_read_pointer; crange : keeps.
#[local] Hint Resolve keeps_data_address keeps_data_read : keeps.
#[local] Hint Extern 1 (keeps _ (instruction_data_write_1 _ _ _) _) =>
  apply keeps_data_write; [assumption|crange] : keeps.

Lemma keeps_stack_push v : byte v → keeps I (stack_push v) (λ _, True).
Proof. intros. unfold stack_push, STACK_START. keeps_auto. Qed.
Lemma keeps_stack_pop : keeps I stack_pop (λ v, byte v).
Proof. unfold stack_pop, STACK_START. keeps_auto. Qed.
#[local] Hint Extern 1 (keeps _ (stack_push _) _) => apply keeps_stack_push; crange : keeps.
#[local] Hint Resolve keeps_stack_pop : keeps.

Lemma keeps_pc_increment id : keeps I (program_counter_increment id) (λ _, True).
Proof. unfold program_counter_increment. keeps_auto. Qed.
#[local] Hint Resolve keeps_pc_increment : keeps.
Lemma keeps_pc_branch o : keeps I (program_counter_branch o) (λ _, True).
Proof. unfold program_counter_branch. keeps_auto. Qed.
#[local] Hint Resolve keeps_pc_branch : keeps.

Lemma to_bcd_loop_byte n v sh bcd : byte bcd → byte (to_bcd_loop n v sh bcd).
Proof.
  revert v sh bcd. induction n as [|n IH]; intros v sh bcd H; simpl; [done|].
  case_match; [|done]. apply IH, u8_byte.
Qed.
Lemma to_bcd_byte v : byte (to_bcd v).
Proof. apply to_bcd_loop_byte. lia. Qed.
#[local] Hint Resolve to_bcd_byte : cint.

Lemma keeps_irq : keeps I rk65c02_irq (λ _, True).
Proof.
  unfold rk65c02_irq, VECTOR_IRQ. keeps_auto.
Qed.
#[local] Hint Resolve keeps_irq : keeps.

(** Every emulation routine, through the table's function pointer. *)
Lemma keeps_call_emul f id i :
  instruction_ok i → keeps I (call_emul f id i) (λ _, True).
Proof.
  intros Hi. pose proof Hi as (?&?&?).
  destruct f; cbn [call_emul];
    cbv delta [emul_adc emul_and emul_asl emul_bbr0 emul_bbr1 emul_bbr2 emul_bbr3 emul_bbr4
      emul_bbr5 emul_bbr6 emul_bbr7 emul_bbs0 emul_bbs1 emul_bbs2 emul_bbs3 emul_bbs4 emul_bbs5
      emul_bbs6 emul_bbs7 emul_bbr emul_bbs bit_branch emul_bit branch_if emul_bcc emul_bcs
      emul_beq emul_bmi emul_bne emul_bpl emul_bra emul_brk emul_bvc emul_bvs emul_clc emul_cld
      emul_cli emul_clv compare_with emul_cmp emul_cpx emul_cpy emul_dec emul_dex emul_dey
      emul_eor emul_inc emul_inx emul_iny emul_jmp emul_jsr emul_lda emul_ldx emul_ldy emul_lsr
      emul_nop emul_ora emul_pha emul_php emul_phx emul_phy emul_pla status_from_stack emul_plp
      emul_plx emul_ply emul_rti emul_rts emul_rmb0 emul_rmb1 emul_rmb2 emul_rmb3 emul_rmb4
      emul_rmb5 emul_rmb6 emul_rmb7 emul_rmb emul_rol emul_ror emul_sbc sbc_bcd_result emul_sed
      emul_sec emul_sei emul_smb0 emul_smb1 emul_smb2 emul_smb3 emul_smb4 emul_smb5 emul_smb6
      emul_smb7 emul_smb emul_stp emul_sta emul_stx emul_sty emul_stz emul_tax emul_tay emul_trb
      emul_tsb emul_tsx emul_txa emul_txs emul_tya emul_wai emul_invalid]; cbv beta zeta; keeps_auto.
  all: try match goal with |- context [if ?c then _ else _] => destruct c end.
  all: unfold P_BREAK, P_UNDEFINED in *; keeps_auto.
  apply u16_word.
Qed.

#[local] Hint Resolve keeps_call_emul : keeps.

(** ** Running *)

Lemma keeps_is_breakpoint : keeps I debug_PC_is_breakpoint (λ _, True).
Proof. unfold debug_PC_is_breakpoint. keeps_auto. Qed.
Lemma keeps_savestate a id i : keeps I (debug_trace_savestate a id i) (λ _, True).
Proof. unfold debug_trace_savestate. keeps_auto. Qed.
Lemma keeps_finish id : keeps I (finish_instruction id) (λ _, True).
Proof. unfold finish_instruction. keeps_auto. Qed.
#[local] Hint Resolve keeps_is_breakpoint keeps_savestate keeps_finish : keeps.

#[local] Hint Extern 1 (keeps _ (core_disassemble _) _) => apply typed_disassemble; crange : keeps.

Lemma keeps_exec : keeps I rk65c02_exec (λ _, True).
Proof.
  unfold rk65c02_exec. keeps_auto.
Qed.
#[local] Hint Resolve keeps_exec : keeps.

Lemma keeps_exec_one : keeps I instruction_exec_one (λ _, True).
Proof. unfold instruction_exec_one. keeps_auto. Qed.

End Typed.

(** ** Running *)

Section Running.
Context {SY : Sys} {SB : SysBus} {BL : BusLaws sys_bus}.
Context {HO : HostOps} {JO : JitOps} {HT : HostTyped} {JT : JitTyped}.

#[export] Instance emu_ok_typed : Typed emu_ok.
Proof.
  split; [done| |apply keeps_fetch|apply keeps_read|apply keeps_write|apply keeps_panic|apply keeps_disassemble].
  intros e e' [Eb _ _ _ Ee Et En Ei Em Ef Eg _ _ _] Hr []. unfold accessors_for in *.
  split; unfold accessors_for; rewrite ?Eb, ?Ee, ?Et, ?En, ?Ei, ?Em, ?Ef, ?Eg; done.
Qed.

#[local] Hint Extern 1 (keeps _ rk65c02_exec _) => apply keeps_exec : keeps.
#[local] Hint Resolve keeps_get : keeps.
#[local] Hint Resolve host_on_stop_ok host_tick_ok host_idle_wait_ok : keeps.
#[local] Hint Resolve keeps_refresh keeps_maybe_call_on_stop : keeps.
#[local] Hint Extern 2 (keeps _ (modify _) _) => keeps_field : keeps.
#[local] Hint Extern 9 (keeps _ (gets _) _) => apply keeps_gets_any : keeps.

Lemma keeps_apply_stop : keeps emu_ok rk65c02_apply_host_stop_request (λ _, True).
Proof. unfold rk65c02_apply_host_stop_request. keeps_auto. Qed.
#[local] Hint Resolve keeps_apply_stop : keeps.
Lemma keeps_maybe_tick : keeps emu_ok rk65c02_maybe_tick (λ _, True).
Proof. unfold rk65c02_maybe_tick. keeps_auto. Qed.
#[local] Hint Resolve keeps_maybe_tick : keeps.
Lemma keeps_poll : keeps emu_ok rk65c02_poll_host_controls (λ _, True).
Proof. unfold rk65c02_poll_host_controls. keeps_auto. Qed.
Lemma keeps_wait_on_idle : keeps emu_ok rk65c02_maybe_wait_on_idle (λ _, True).
Proof. unfold rk65c02_maybe_wait_on_idle. keeps_auto. Qed.
#[local] Hint Resolve keeps_poll keeps_wait_on_idle : keeps.

Lemma keeps_interp_loop fuel : keeps emu_ok (interp_loop fuel) (λ _, True).
Proof. induction fuel as [|n IH]; simpl; keeps_auto. Qed.
#[local] Hint Resolve keeps_interp_loop : keeps.

Lemma keeps_step_loop n : keeps emu_ok (step_loop n) (λ _, True).
Proof. induction n as [|n IH]; simpl; keeps_auto. Qed.
#[local] Hint Resolve keeps_step_loop : keeps.

Lemma keeps_step n : keeps emu_ok (rk65c02_step n) (λ _, True).
Proof. unfold rk65c02_step. keeps_auto. Qed.

Lemma keeps_start run_jit fuel :
  (∀ n, keeps emu_ok (run_jit n) (λ _, True)) →
  keeps emu_ok (rk65c02_start run_jit fuel) (λ _, True).
Proof. intros Hj. unfold rk65c02_start. keeps_auto. Qed.

Lemma keeps_stub_run_jit fuel : keeps emu_ok (stub_run_jit fuel) (λ _, True).
Proof. unfold stub_run_jit. keeps_auto. Qed.

End Running.

#[export] Hint Resolve keeps_step keeps_start keeps_stub_run_jit keeps_mmu_set keeps_mmu_clear
  keeps_mmu_tlb_set keeps_mmu_begin_update keeps_mark_vpage keeps_mark_vrange keeps_end_update
  keeps_tlb_flush_vpage keeps_get : keeps.
#[export] Hint Extern 1 (keeps _ rk65c02_exec _) => apply keeps_exec : keeps.
#[export] Hint Extern 1 (keeps _ instruction_exec_one _) => apply keeps_exec_one : keeps.
#[export] Hint Extern 1 (keeps _ (rk65c02_mem_fetch_1 _) _) => apply keeps_fetch; crange : keeps.
#[export] Hint Extern 1 (keeps _ (rk65c02_mem_read_1 _) _) => apply keeps_read; crange : keeps.
#[export] Hint Extern 1 (keeps _ (rk65c02_mem_write_1 _ _) _) => apply keeps_write; crange : keeps.

#[export] Hint Extern 2 (keeps _ (modify _) _) => keeps_field : keeps.
#[export] Hint Extern 9 (keeps _ (gets _) _) => apply keeps_gets_any : keeps.
