(* ===== verification/MmuSpec.v ===== *)
(** The MMU against the host's mapping.

    The documentation ([doc/MMU.md], 2.2, 3.1 and 3.2) asks the translation
    callback to be free of side effects, deterministic for one mapping state,
    and to set [no_fill_tlb] where the mapping of a page is not uniform.  Here
    the mapping is a function [pt]; [callback_is] and [page_stable] are those
    requirements.  The TLB is then invisible: translation with it gives the
    answer of the callback, and the update protocol keeps it so when the host
    changes the mapping. *)
From stdpp Require Import base numbers list gmap strings.
From S2P Require Import Prelude Types Isa BusSpec State Interfaces Mmu Invariant.

Definition mapping : Type := Z → rk65c02_mmu_access_t → rk65c02_mmu_result_t.

Definition page (vaddr : Z) : Z := u8 (vaddr ≫ 8).

(** What the callback's answer means for an access that needs [req]. *)
Definition answer (r : rk65c02_mmu_result_t) (req : Z) : xlate :=
  if negb (r_ok r) then Xfault (r_fault_code r)
  else if negb (Z.land (r_perms r) req =? req) then Xfault 0xFFFE
  else if RK65C02_PHYS_MAX <=? r_paddr r then Xfault 0xFFFF
  else Xok (r_paddr r).
Definition translate_spec (pt : mapping) (vaddr : Z) (access : rk65c02_mmu_access_t) (req : Z) : xlate :=
  answer (pt vaddr access) req.

(** An answer that may be cached stands for its whole page, for all accesses:
    for the addresses of page [p], and for all pages. *)
Definition stable_at (pt : mapping) (p : Z) : Prop :=
  ∀ v a, word v → page v = p →
  r_ok (pt v a) = true → r_no_fill_tlb (pt v a) = false → u8 (r_paddr (pt v a)) = u8 v →
  ∀ v' a', word v' → page v' = p →
    r_ok (pt v' a') = true ∧ r_perms (pt v' a') = r_perms (pt v a) ∧
    r_paddr (pt v' a') = r_paddr (pt v a) - u8 v + u8 v'.
Definition page_stable (pt : mapping) : Prop :=
  ∀ v a, word v → r_ok (pt v a) = true → r_no_fill_tlb (pt v a) = false → u8 (r_paddr (pt v a)) = u8 v →
  ∀ v' a', word v' → page v' = page v →
    r_ok (pt v' a') = true ∧ r_perms (pt v' a') = r_perms (pt v a) ∧
    r_paddr (pt v' a') = r_paddr (pt v a) - u8 v + u8 v'.

Definition mapping_typed (pt : mapping) : Prop :=
  ∀ v a, word v → 0 ≤ r_paddr (pt v a) < 4294967296.

Section MmuSpec.
Context {SY : Sys} {SB : SysBus} {HO : HostOps} {JO : JitOps}.

(** Translation touches nothing but the TLB and its counters. *)
Definition tlb_only (e e' : rk65c02emu) : Prop :=
  ∃ t h n, e' = set_mmu_tlb t (set_mmu_tlb_hits h (set_mmu_tlb_misses n e)).

Lemma tlb_only_refl e : tlb_only e e.
Proof. by exists (mmu_tlb e), (mmu_tlb_hits e), (mmu_tlb_misses e). Qed.
Lemma tlb_only_trans e e1 e2 : tlb_only e e1 → tlb_only e1 e2 → tlb_only e e2.
Proof. intros (?&?&?&->) (t&h&n&->). by exists t, h, n. Qed.

(** The registered callback answers with [pt], whatever the TLB holds, and
    changes nothing.  The answer may depend on the rest of the instance: a host
    may keep its page tables in the memory of the bus. *)
Definition callback_is (pt : mapping) (e : rk65c02emu) : Prop :=
  ∃ cb, mmu_translate e = Some cb ∧
    ∀ v a e', tlb_only e e' →
      host_mmu_translate cb (mmu_translate_ctx e) v a e' = (Ret (pt v a), e').

(** The same for one address and access only. *)
Definition callback_at (pt : mapping) (e : rk65c02emu) (v : Z) (a : rk65c02_mmu_access_t) : Prop :=
  ∃ cb, mmu_translate e = Some cb ∧
    ∀ e', tlb_only e e' → host_mmu_translate cb (mmu_translate_ctx e) v a e' = (Ret (pt v a), e').
Lemma callback_is_at pt e v a : callback_is pt e → callback_at pt e v a.
Proof. intros (cb&Hcb&Hpt). exists cb. auto. Qed.

(** Live TLB entries agree with the mapping: that of page [p], and all. *)
Definition coherent_at (pt : mapping) (e : rk65c02emu) (p : Z) : Prop :=
  tlb_hit e p = true → ∀ v a, word v → page v = p →
    r_ok (pt v a) = true ∧ r_perms (pt v a) = te_perms (tlb_entry e p) ∧
    r_paddr (pt v a) = te_ppage_base (tlb_entry e p) ||| (v &&& 0x00FF) ∧
    r_paddr (pt v a) < RK65C02_PHYS_MAX.
Definition coherent (pt : mapping) (e : rk65c02emu) : Prop := ∀ p, coherent_at pt e p.

Lemma page_stable_at pt p : page_stable pt → stable_at pt p.
Proof. intros Hst v a Hv <- Ho Hn Hl v' a' Hv' Hp. by apply Hst. Qed.

(** Filling the TLB with a cacheable answer keeps it coherent. *)
Lemma coherent_fill pt e v a :
  stable_at pt (page v) → mapping_typed pt → word v →
  r_ok (pt v a) = true → r_no_fill_tlb (pt v a) = false → u8 (r_paddr (pt v a)) = u8 v →
  r_paddr (pt v a) < RK65C02_PHYS_MAX →
  coherent_at pt (set_mmu_tlb (<[page v := mkTlbEntry true (page v) (r_paddr (pt v a) &&& 0xFFFFFF00)
    (r_perms (pt v a)) (mmu_epoch e)]> (mmu_tlb e)) e) (page v).
Proof.
  intros Hst Hty Hv Hok Hnf Hlow Hmax Hp v' a' Hv' Hpv.
  unfold tlb_hit, tlb_entry in *. simpl in *.
  destruct (Hst v a Hv eq_refl Hok Hnf Hlow v' a' Hv' Hpv) as (Ho&Hpe&Hpa).
  rewrite lookup_insert_eq. simpl. rewrite Hpa. specialize (Hty v a Hv).
  rewrite page_or_offset by by apply page_base_aligned. rewrite page_base by done.
  fold (u8 (r_paddr (pt v a))). rewrite Hlow. split_and!; [done..|].
  pose proof (u8_byte v'). pose proof (u8_byte v). unfold RK65C02_PHYS_MAX in *.
  unfold u8 in Hlow. pose proof (Z.div_mod (r_paddr (pt v a)) 256). fold (u8 v) in Hlow. lia.
Qed.

(** What a translation may do to the TLB: touch the entry of its own page. *)
Definition other_pages (p : Z) (e e' : rk65c02emu) : Prop :=
  ∀ q, q ≠ p → tlb_hit e' q = tlb_hit e q ∧ tlb_entry e' q = tlb_entry e q.

Lemma coherent_other pt e e' p q : other_pages p e e' → q ≠ p → coherent_at pt e q → coherent_at pt e' q.
Proof. intros Ho Hq. unfold coherent_at. by destruct (Ho q Hq) as [-> ->]. Qed.

(** Translation with the TLB is translation by the callback. *)
Lemma translate_addr_at pt e v a req :
  callback_at pt e v a → stable_at pt (page v) → mapping_typed pt → coherent_at pt e (page v) → word v →
  ∃ e', rk65c02_mmu_translate_addr v a req e = (Ret (translate_spec pt v a req), e') ∧
    coherent_at pt e' (page v) ∧ other_pages (page v) e e' ∧ tlb_only e e'.
Proof.
  intros (cb&Hcb&Hpt) Hst Hty Hco Hv. unfold rk65c02_mmu_translate_addr, translate_spec, answer.
  erewrite bind_Ret by reflexivity. fold (page v).
  destruct (tlb_hit e (page v)) eqn:Hh.
  - destruct (Hco Hh v a Hv eq_refl) as (Ho&Hp&Hpa&Hmax).
    exists (set_mmu_tlb_hits (u64 (mmu_tlb_hits e + 1)) e).
    erewrite bind_Ret by reflexivity. rewrite Ho, Hp, Hpa in *. simpl.
    rewrite (proj2 (Z.leb_gt _ _)) by done.
    split; [by destruct (negb _)|]. split; [done|]. split; [done|].
    by exists (mmu_tlb e), (u64 (mmu_tlb_hits e + 1)), (mmu_tlb_misses e).
  - set (e1 := set_mmu_tlb_misses (u64 (mmu_tlb_misses e + 1)) e).
    assert (coherent_at pt e1 (page v)) as Hco1 by exact Hco.
    assert (other_pages (page v) e e1) as Ho1 by done.
    assert (tlb_only e e1) as Ht1.
    { by exists (mmu_tlb e), (mmu_tlb_hits e), (u64 (mmu_tlb_misses e + 1)). }
    erewrite bind_Ret by reflexivity. rewrite Hcb. erewrite bind_Ret by by apply Hpt.
    destruct (r_ok (pt v a)) eqn:Ho; simpl; [|by exists e1].
    destruct (negb (r_perms (pt v a) &&& req =? req)) eqn:Hpe; [by exists e1|].
    rewrite Z.geb_leb. destruct (RK65C02_PHYS_MAX <=? r_paddr (pt v a)) eqn:Hmax; [by exists e1|].
    erewrite bind_Ret by reflexivity. rewrite !land_255. fold e1.
    destruct (mmu_tlb_enabled e1 && negb (r_no_fill_tlb (pt v a)) &&
              (u8 (r_paddr (pt v a)) =? u8 v)) eqn:Hfill; [|by exists e1].
    rewrite !andb_true_iff, negb_true_iff in Hfill. destruct Hfill as [[_ Hnf] Hlow].
    eexists. split; [reflexivity|]. split; [apply (coherent_fill pt e1 v a); try done; lia|].
    split; [|by eexists _, (mmu_tlb_hits e), (u64 (mmu_tlb_misses e + 1))].
    intros q Hq. unfold tlb_hit, tlb_entry. cbn [mmu_tlb set_mmu_tlb mmu_tlb_enabled mmu_epoch].
    by rewrite lookup_insert_ne by done.
Qed.

Lemma translate_addr_spec pt e v a req :
  callback_is pt e → page_stable pt → mapping_typed pt → coherent pt e → word v →
  ∃ e', rk65c02_mmu_translate_addr v a req e = (Ret (translate_spec pt v a req), e') ∧
    coherent pt e' ∧ tlb_only e e'.
Proof.
  intros Hcb Hst Hty Hco Hv.
  destruct (translate_addr_at pt e v a req) as (e'&E&Hc&Ho&Ht);
    [by apply callback_is_at|by apply page_stable_at|done..|].
  exists e'. split; [done|]. split; [|done]. intros q. destruct (decide (q = page v)) as [->|Hq]; [done|].
  by apply (coherent_other pt e e' (page v)).
Qed.

(** A sequence of translations, and what each of them answers. *)
Fixpoint translate_all (l : list (Z * rk65c02_mmu_access_t * Z)) : M (list xlate) :=
  match l with
  | [] => mret []
  | (v, a, req) :: l' =>
      x ← rk65c02_mmu_translate_addr v a req;
      xs ← translate_all l';
      mret (x :: xs)
  end.

Lemma callback_is_tlb_only pt e e' : callback_is pt e → tlb_only e e' → callback_is pt e'.
Proof.
  intros (cb&Hcb&Hpt) Ht. exists cb. assert (mmu_translate e' = mmu_translate e ∧
    mmu_translate_ctx e' = mmu_translate_ctx e) as [-> ->] by by destruct Ht as (?&?&?&->).
  split; [done|]. intros v a e2 H2. apply Hpt. by eapply tlb_only_trans.
Qed.

(** C10: the TLB is transparent.  For a callback that keeps the contract of
    [doc/MMU.md] (no side effects, and an answer that may be cached stands for
    its whole page and for every kind of access), any sequence of translations,
    from a TLB that agrees with the mapping on, answers what the callback answers
    for each address, whether or not it came from the TLB; the TLB goes on to
    agree with the mapping and nothing but it and its counters changes. *)
Theorem tlb_transparent pt e l :
  callback_is pt e → page_stable pt → mapping_typed pt → coherent pt e →
  Forall (λ q, word q.1.1) l →
  ∃ e', translate_all l e = (Ret ((λ q, translate_spec pt q.1.1 q.1.2 q.2) <$> l), e') ∧
    coherent pt e' ∧ tlb_only e e'.
Proof.
  intros Hcb Hst Hty Hco Hl. revert e Hcb Hco.
  induction Hl as [|[[v a] req] l Hv _ IH]; intros e Hcb Hco.
  - exists e. split; [done|]. split; [done|apply tlb_only_refl].
  - destruct (translate_addr_spec pt e v a req Hcb Hst Hty Hco Hv) as (e1&E1&Hco1&Ht1).
    destruct (IH e1) as (e2&E2&Hco2&Ht2); [by eapply callback_is_tlb_only|done|].
    exists e2. split; [|split; [done|]].
    + simpl. erewrite bind_Ret by exact E1. by erewrite bind_Ret by exact E2.
    + by eapply tlb_only_trans.
Qed.

(** ** Changing the mapping *)

(** Invalidation changes nothing but the JIT backend. *)
Definition jit_only (e e' : rk65c02emu) : Prop := ∃ j u, e' = set_jit j (set_use_jit u e).
Class JitKeepsMmu : Prop := {
  invalidate_all_only e : ∃ e', rk65c02_jit_invalidate_all e = (Ret tt, e') ∧ jit_only e e';
  invalidate_code_vpage_only p e :
    ∃ e', rk65c02_jit_invalidate_code_vpage p e = (Ret tt, e') ∧ jit_only e e'
}.
Context {JK : JitKeepsMmu}.

(** The pages on which two mappings may differ. *)
Definition same_on (pt pt' : mapping) (p : Z) : Prop :=
  ∀ v a, word v → page v = p → pt v a = pt' v a.

(** The part of the state the TLB's answers depend on. *)
Definition same_mmu (e e' : rk65c02emu) : Prop :=
  mmu_tlb e' = mmu_tlb e ∧ mmu_epoch e' = mmu_epoch e ∧ mmu_tlb_enabled e' = mmu_tlb_enabled e.

Lemma same_mmu_hit e e' p : same_mmu e e' → tlb_hit e' p = tlb_hit e p ∧ tlb_entry e' p = tlb_entry e p.
Proof. intros (H1&H2&H3). unfold tlb_hit, tlb_entry. by rewrite H1, H2, H3. Qed.

Lemma coherent_same pt e e' : same_mmu e e' → coherent pt e → coherent pt e'.
Proof.
  intros Hs Hco p. unfold coherent_at. destruct (same_mmu_hit e e' p Hs) as [-> ->]. apply Hco.
Qed.

Lemma flushed_coherent pt e : mmu_tlb e = ∅ → coherent pt e.
Proof.
  intros Ht p Hp. unfold tlb_hit, tlb_entry in Hp. rewrite Ht, lookup_empty in Hp. simpl in Hp.
  by rewrite andb_false_r in Hp.
Qed.

(** Flushing one page: the other entries are untouched. *)
Definition hits_within (e0 e : rk65c02emu) (flushed : Z → Prop) : Prop :=
  ∀ p, tlb_hit e p = true → tlb_hit e0 p = true ∧ tlb_entry e p = tlb_entry e0 p ∧ ¬ flushed p.

Lemma when_jit_vpage p e : ∃ e', when_jit (rk65c02_jit_invalidate_code_vpage p) e = (Ret tt, e') ∧
  same_mmu e e' ∧ mmu_changed_vpage e' = mmu_changed_vpage e.
Proof.
  unfold when_jit. erewrite bind_Ret by reflexivity. cbv beta.
  destruct (jit e); [|by exists e].
  destruct (invalidate_code_vpage_only p e) as (e'&E&?&?&->). by eexists.
Qed.

Lemma flush_vpage_hits e0 e p flushed : hits_within e0 e flushed →
  hits_within e0 (set_mmu_tlb (<[p := tlb_entry_invalidate (tlb_entry e p)]> (mmu_tlb e)) e)
    (λ x, flushed x ∨ x = p).
Proof.
  intros H x Hx. destruct (decide (x = p)) as [->|Hne].
  - unfold tlb_hit, tlb_entry in Hx. simpl in Hx. rewrite lookup_insert_eq in Hx. simpl in Hx.
    by rewrite andb_false_r in Hx.
  - unfold tlb_hit, tlb_entry in *. simpl in *. rewrite lookup_insert_ne in * by done.
    destruct (H x Hx) as (?&?&?). split_and!; [done..|]. intros [?|?]; auto.
Qed.

(** The loop of [rk65c02_mmu_end_update] over the pages [l]. *)
Definition flush_changed (p : Z) : M unit :=
  changed ← gets (λ e, mmu_changed_vpage e);
  if bool_decide (p ∈ changed) then
    rk65c02_mmu_tlb_flush_vpage p;;
    when_jit (rk65c02_jit_invalidate_code_vpage p)
  else mret tt.

Lemma flush_changed_spec p e0 e flushed : hits_within e0 e flushed →
  ∃ e', flush_changed p e = (Ret tt, e') ∧ mmu_changed_vpage e' = mmu_changed_vpage e ∧
    hits_within e0 e' (λ x, flushed x ∨ x = p ∧ p ∈ mmu_changed_vpage e).
Proof.
  intros H. unfold flush_changed. erewrite bind_Ret by reflexivity. cbv beta.
  case_bool_decide as Hp.
  - set (e1 := set_mmu_tlb (<[p := tlb_entry_invalidate (tlb_entry e p)]> (mmu_tlb e)) e).
    destruct (when_jit_vpage p e1) as (e2&E2&Hs&Hch). exists e2.
    split; [by erewrite bind_Ret by reflexivity|]. split; [by rewrite Hch|].
    intros x Hx. destruct (same_mmu_hit e1 e2 x Hs) as [Hh He]. rewrite Hh in Hx. rewrite He.
    destruct (flush_vpage_hits e0 e p flushed H x Hx) as (?&?&Hn). split_and!; [done..|].
    intros [?|[? _]]; apply Hn; auto.
  - exists e. split; [done|]. split; [done|]. intros x Hx. destruct (H x Hx) as (?&?&?).
    split_and!; [done..|]. by intros [?|[_ ?]].
Qed.

Lemma flush_loop_spec l e0 e flushed : hits_within e0 e flushed →
  ∃ e', mfor l flush_changed e = (Ret tt, e') ∧ mmu_changed_vpage e' = mmu_changed_vpage e ∧
    hits_within e0 e' (λ x, flushed x ∨ x ∈ l ∧ x ∈ mmu_changed_vpage e).
Proof.
  revert e flushed. induction l as [|p l IH]; intros e flushed H.
  - exists e. split; [done|]. split; [done|]. intros x Hx. destruct (H x Hx) as (?&?&?).
    split_and!; [done..|]. intros [?|[Hin _]]; [done|]. by apply elem_of_nil in Hin.
  - destruct (flush_changed_spec p e0 e flushed H) as (e1&E1&Hc1&H1).
    destruct (IH e1 _ H1) as (e2&E2&Hc2&H2). exists e2.
    split; [change (mfor (p :: l) flush_changed) with (flush_changed p;; mfor l flush_changed);
            by erewrite bind_Ret by exact E1|].
    split; [by rewrite Hc2|]. intros x Hx. destruct (H2 x Hx) as (?&?&Hn). split_and!; [done..|].
    rewrite Hc1 in Hn. intros [?|[Hin ?]]; [by apply Hn; auto|].
    apply elem_of_cons in Hin as [->|]; apply Hn; auto.
Qed.

Lemma page_byte v : byte (page v).
Proof. apply u8_byte. Qed.

Lemma when_jit_all e : ∃ e', when_jit rk65c02_jit_invalidate_all e = (Ret tt, e') ∧ same_mmu e e'.
Proof.
  unfold when_jit. erewrite bind_Ret by reflexivity. cbv beta.
  destruct (jit e); [|by exists e].
  destruct (invalidate_all_only e) as (e'&E&?&?&->). by eexists.
Qed.

(** What follows the flushes in [rk65c02_mmu_end_update]. *)
Definition update_closed (e : rk65c02emu) : rk65c02emu :=
  refreshed (set_mmu_changed_vpage ∅ (set_mmu_changed_all false e)).

(** The end of an update: whatever is still cached is right for the new
    mapping. *)
Lemma end_update_coherent pt pt' e :
  mmu_enabled e = true → mmu_update_pending e = true → coherent pt e →
  (mmu_changed_all e = false → ∀ p, byte p → p ∉ mmu_changed_vpage e → same_on pt pt' p) →
  ∃ e1, rk65c02_mmu_end_update e = (Ret tt, update_closed e1) ∧ coherent pt' (update_closed e1).
Proof.
  intros Hen Hpe Hco Hsame. unfold rk65c02_mmu_end_update. rewrite refresh_modify.
  erewrite bind_Ret by reflexivity. cbv beta. rewrite Hen. cbn [negb].
  erewrite bind_Ret by reflexivity. cbv beta. rewrite Hpe. cbn [negb].
  erewrite bind_Ret by reflexivity. erewrite bind_Ret by reflexivity. cbv beta.
  cbn [mmu_changed_all set_mmu_update_pending].
  set (e0 := set_mmu_update_pending false e). destruct (mmu_changed_all e) eqn:Hall.
  - set (ef := set_mmu_tlb ∅ (set_mmu_epoch (u32 (mmu_epoch e0 + 1)) e0)).
    destruct (when_jit_all ef) as (e1&E1&Hs). exists e1. split.
    + erewrite bind_Ret; [reflexivity|]. do 2 erewrite bind_Ret by reflexivity. exact E1.
    + apply flushed_coherent. destruct Hs as [Ht _]. exact Ht.
  - assert (hits_within e0 e0 (λ _, False)) as H0 by (intros p Hp; tauto).
    destruct (flush_loop_spec (seqZ 0 256) e0 e0 _ H0) as (e1&E1&_&H1). exists e1.
    split; [by erewrite bind_Ret by exact E1|].
    intros p Hp v a Hv Hpv. destruct (H1 p Hp) as (Hh&He&Hn).
    assert (same_on pt pt' p) as Hs.
    { rewrite <- Hpv. apply Hsame; [done|apply page_byte|]. rewrite Hpv. intros Hin. apply Hn.
      right. split; [|exact Hin]. apply elem_of_seqZ. rewrite <- Hpv. pose proof (page_byte v). lia. }
    rewrite <- (Hs v a Hv Hpv). change (tlb_entry (update_closed e1) p) with (tlb_entry e1 p).
    rewrite He. by apply Hco.
Qed.

(** [begin_update] and the marks of a range. *)
Definition pages_between (start ende : Z) : gset Z :=
  list_to_set (seqZ (page start) (page ende - page start + 1)).

Lemma mark_loop_spec l e : Forall (λ p, byte p) l →
  mfor l (λ p, mark_vpage (u8 p)) e =
    (Ret tt, set_mmu_changed_vpage (list_to_set l ∪ mmu_changed_vpage e) e).
Proof.
  intros Hl. revert e. induction Hl as [|p l Hp _ IH]; intros e.
  - change (mfor [] (λ p, mark_vpage (u8 p)) e) with (@Ret unit tt, e).
    assert (list_to_set [] ∪ mmu_changed_vpage e = mmu_changed_vpage e) as -> by set_solver. done.
  - change (mfor (p :: l) (λ p, mark_vpage (u8 p)) e) with
      ((mark_vpage (u8 p);; mfor l (λ p, mark_vpage (u8 p))) e).
    unfold mark_vpage at 1. erewrite bind_Ret by reflexivity. rewrite IH, u8_small by done.
    cbn [mmu_changed_vpage set_mmu_changed_vpage].
    assert (list_to_set l ∪ ({[p]} ∪ mmu_changed_vpage e) =
            list_to_set (p :: l) ∪ mmu_changed_vpage e) as -> by set_solver.
    done.
Qed.

(** C11: the update protocol.  When the mapping changes from [pt] to [pt'] only
    on the pages of an address range, then [begin_update], marking the range
    and [end_update] leave a TLB coherent with the new mapping, so that no
    access is translated by a stale entry; for a reversed range, which marks
    everything, the mapping may have changed anywhere. *)
Theorem update_protocol_coherent pt pt' e start ende :
  mmu_enabled e = true → coherent pt e → word start → word ende →
  (start ≤ ende → ∀ p, byte p → p ∉ pages_between start ende → same_on pt pt' p) →
  ∃ e', (rk65c02_mmu_begin_update;; rk65c02_mmu_mark_changed_vrange start ende;;
         rk65c02_mmu_end_update) e = (Ret tt, e') ∧
    coherent pt' e' ∧ mmu_changed_all e' = false ∧ mmu_changed_vpage e' = ∅.
Proof.
  intros Hen Hco Hs He Hsame.
  set (e1 := set_mmu_changed_vpage ∅ (set_mmu_changed_all false (set_mmu_update_pending true e))).
  assert (rk65c02_mmu_begin_update e = (Ret tt, e1)) as E1.
  { unfold rk65c02_mmu_begin_update. erewrite bind_Ret by reflexivity. cbv beta. by rewrite Hen. }
  erewrite bind_Ret by exact E1.
  set (marked := if start <=? ende then set_mmu_changed_vpage (pages_between start ende ∪ ∅) e1
                 else set_mmu_changed_all true e1).
  assert (rk65c02_mmu_mark_changed_vrange start ende e1 =
    (Ret tt, refreshed (set_mmu_identity_active false marked))) as E2.
  { unfold rk65c02_mmu_mark_changed_vrange. rewrite refresh_modify.
    erewrite bind_Ret by reflexivity. cbv beta. change (mmu_enabled e1) with (mmu_enabled e).
    rewrite Hen. cbn [negb]. erewrite bind_Ret by reflexivity. unfold marked.
    destruct (start <=? ende); [|by do 2 erewrite bind_Ret by reflexivity].
    erewrite bind_Ret; [by erewrite bind_Ret by reflexivity|]. apply mark_loop_spec.
    apply Forall_forall. intros p Hp%elem_of_seqZ. pose proof (page_byte ende).
    pose proof (page_byte start). fold (page start) (page ende) in Hp. lia. }
  erewrite bind_Ret by exact E2.
  destruct (end_update_coherent pt pt' (refreshed (set_mmu_identity_active false marked)))
    as (e2&E&Hc).
  - unfold marked. by destruct (start <=? ende).
  - unfold marked. by destruct (start <=? ende).
  - unfold marked. by destruct (start <=? ende).
  - unfold marked. destruct (Z.leb_spec start ende); [|done]. intros _ p Hp Hn.
    apply Hsame; [done..|]. cbn in Hn. set_solver.
  - by exists (update_closed e2).
Qed.

(** ** Accesses *)

(** Where an access of the MMU backend goes once translated. *)
Definition phys_read (paddr : Z) (b : sys_bus) : Z * sys_bus :=
  if paddr <? RK65C02_BUS_SIZE then b_read b paddr else b_read_phys b paddr.
Definition phys_write (paddr val : Z) (b : sys_bus) : sys_bus :=
  if paddr <? RK65C02_BUS_SIZE then b_write b paddr val else b_write_phys b paddr val.
Definition phys_host (paddr : Z) (b : sys_bus) : option (nat * nat * Z) :=
  if paddr <? RK65C02_BUS_SIZE then b_host b paddr else b_host_phys b paddr.

Lemma translate_spec_ok pt v a req p : mapping_typed pt → word v → translate_spec pt v a req = Xok p →
  r_ok (pt v a) = true ∧ Z.land (r_perms (pt v a)) req = req ∧ p = r_paddr (pt v a) ∧
  0 ≤ p < RK65C02_PHYS_MAX.
Proof.
  intros Hty Hv. specialize (Hty v a Hv). unfold translate_spec, answer. destruct (r_ok (pt v a)); [|done]. simpl.
  destruct (Z.eqb_spec (r_perms (pt v a) &&& req) req); [|done]. simpl.
  destruct (Z.leb_spec RK65C02_PHYS_MAX (r_paddr (pt v a))); [done|].
  intros [= <-]. split_and!; [done..|lia|lia].
Qed.

(** A store through the MMU backend that translates: the byte goes to the
    physical address, at which the mapping grants writing, and a device there
    has its host function run. *)
Lemma mem_write_mmu_ok pt e v val acc p :
  callback_is pt e → page_stable pt → mapping_typed pt → coherent pt e → word v →
  translate_spec pt v RK65C02_MMU_WRITE RK65C02_MMU_PERM_W = Xok p →
  ∃ e1, tlb_only e e1 ∧ coherent pt e1 ∧
    rk65c02_mem_write_mmu v val acc e =
      device_write (phys_host p (bus e)) val (set_bus (phys_write p val (bus e)) e1).
Proof.
  intros Hcb Hst Hty Hco Hv Hx.
  destruct (translate_addr_spec pt e v RK65C02_MMU_WRITE RK65C02_MMU_PERM_W Hcb Hst Hty Hco Hv)
    as (e1&E1&Hco1&Ht1). exists e1. split; [done|]. split; [done|].
  unfold rk65c02_mem_write_mmu. erewrite bind_Ret by exact E1. rewrite Hx.
  apply translate_spec_ok in Hx as (_&_&_&Hp); [|done..].
  assert (bus e1 = bus e) as Hb by by destruct Ht1 as (?&?&?&->).
  unfold core_bus_write_1, core_bus_write_1_phys, phys_write, phys_host. rewrite <- Hb.
  unfold RK65C02_BUS_SIZE. destruct (Z.ltb_spec p 65536); [|done]. by rewrite u16_small by lia.
Qed.

Lemma mem_read_mmu_ok pt e v acc p : acc ≠ RK65C02_MMU_WRITE →
  callback_is pt e → page_stable pt → mapping_typed pt → coherent pt e → word v →
  translate_spec pt v acc (req_perm_read acc) = Xok p →
  ∃ e1, tlb_only e e1 ∧ coherent pt e1 ∧
    rk65c02_mem_read_mmu v acc e =
      (device_read (phys_host p (bus e));; mret (phys_read p (bus e)).1)
        (set_bus (phys_read p (bus e)).2 e1).
Proof.
  intros Hacc Hcb Hst Hty Hco Hv Hx.
  destruct (translate_addr_spec pt e v acc (req_perm_read acc) Hcb Hst Hty Hco Hv)
    as (e1&E1&Hco1&Ht1). exists e1. split; [done|]. split; [done|].
  unfold rk65c02_mem_read_mmu. erewrite bind_Ret by exact E1. rewrite Hx.
  apply translate_spec_ok in Hx as (_&_&_&Hp); [|done..].
  assert (bus e1 = bus e) as Hb by by destruct Ht1 as (?&?&?&->).
  unfold core_bus_read_1, core_bus_read_1_phys, phys_read, phys_host. rewrite <- Hb.
  unfold RK65C02_BUS_SIZE. destruct (Z.ltb_spec p 65536).
  - rewrite u16_small by lia. erewrite bind_Ret by reflexivity. by destruct (b_read (bus e1) p).
  - erewrite bind_Ret by reflexivity. by destruct (b_read_phys (bus e1) p).
Qed.

(** The instance a fault leaves, with no fault callback. *)
Definition faulted (v : Z) (a : rk65c02_mmu_access_t) (code : Z) (e : rk65c02emu) : rk65c02emu :=
  set_stop_requested false (set_stopreason EMUERROR (set_state STOPPED
    (set_use_jit false (set_mmu_fault_reexec true (set_mmu_last_fault_code code
      (set_mmu_last_fault_access a (set_mmu_last_fault_addr v e))))))).

Lemma mmu_fault_interp v a code e :
  is_active (state e) = true → in_jit_run e = false → mmu_fault e = None →
  rk65c02_mmu_fault v a code e = (Ret tt, faulted v a code e).
Proof.
  intros Ha Hj Hf. unfold rk65c02_mmu_fault. do 6 erewrite bind_Ret by reflexivity.
  cbn [mmu_fault set_use_jit set_mmu_fault_reexec set_mmu_last_fault_code set_mmu_last_fault_access
    set_mmu_last_fault_addr]. rewrite Hf. erewrite bind_Ret by reflexivity.
  unfold emu_stop_error. do 5 erewrite bind_Ret by reflexivity. cbn [in_jit_run].
  cbv beta. cbn. rewrite Hj, Ha. reflexivity.
Qed.

(** C15: a store the mapping forbids.  While the interpreter runs without a
    fault callback, a store to an address that is unmapped, not writable or
    out of physical memory writes nothing anywhere: the fault address, access
    class and code are recorded and the emulator stops with EMUERROR. *)
Theorem mem_write_mmu_fault pt e v val acc code :
  callback_is pt e → page_stable pt → mapping_typed pt → coherent pt e → word v →
  is_active (state e) = true → in_jit_run e = false → mmu_fault e = None →
  translate_spec pt v RK65C02_MMU_WRITE RK65C02_MMU_PERM_W = Xfault code →
  ∃ e1, tlb_only e e1 ∧ coherent pt e1 ∧ bus e1 = bus e ∧ regs e1 = regs e ∧
    rk65c02_mem_write_mmu v val acc e = (Ret tt, faulted v RK65C02_MMU_WRITE code e1).
Proof.
  intros Hcb Hst Hty Hco Hv Ha Hj Hf Hx.
  destruct (translate_addr_spec pt e v RK65C02_MMU_WRITE RK65C02_MMU_PERM_W Hcb Hst Hty Hco Hv)
    as (e1&E1&Hco1&Ht1). exists e1.
  assert (bus e1 = bus e ∧ regs e1 = regs e ∧ state e1 = state e ∧ in_jit_run e1 = in_jit_run e ∧
    mmu_fault e1 = mmu_fault e) as (Hb&Hr&Hs&Hj1&Hf1) by by destruct Ht1 as (?&?&?&->).
  split_and!; [done..|]. unfold rk65c02_mem_write_mmu. erewrite bind_Ret by exact E1. rewrite Hx.
  apply mmu_fault_interp; congruence.
Qed.

(** ** Physical memory *)

Section Ram.
Context {BL : BusLaws sys_bus}.

(** The RAM cell at a physical address, below 64K or above. *)
Definition phys_cell (b : sys_bus) (p : Z) : option (nat * Z) :=
  if p <? RK65C02_BUS_SIZE then b_cell b p else b_cell_phys b p.

Lemma phys_read_ram b p c : phys_cell b p = Some c → phys_read p b = (b_peek b c, b).
Proof.
  unfold phys_cell, phys_read. case_match; intros Hc; [by apply b_read_ram|by apply b_read_phys_ram].
Qed.
Lemma phys_host_none b p : 0 ≤ p → is_Some (phys_cell b p) → phys_host p b = None.
Proof.
  unfold phys_cell, phys_host. intros Hp. destruct (Z.ltb_spec p RK65C02_BUS_SIZE) as [Hl|Hl]; intros Hc.
  - apply b_host_ram; [|done]. unfold RK65C02_BUS_SIZE in Hl. lia.
  - by apply b_host_phys_ram.
Qed.
Lemma phys_write_cell b p v p' : is_Some (phys_cell b p) →
  phys_cell (phys_write p v b) p' = phys_cell b p'.
Proof.
  unfold phys_cell, phys_write. intros Hc. destruct (p <? RK65C02_BUS_SIZE).
  - destruct (p' <? RK65C02_BUS_SIZE); [by apply b_write_cell|by apply b_write_cell_phys].
  - destruct (b_write_phys_cell b p v p' Hc) as [H1 H2]. by destruct (p' <? RK65C02_BUS_SIZE).
Qed.
Lemma phys_write_peek b p v c : phys_cell b p = Some c → b_peek (phys_write p v b) c = v.
Proof.
  unfold phys_cell, phys_write. case_match; intros Hc.
  - rewrite (b_write_peek _ _ _ _ _ Hc). by rewrite decide_True.
  - rewrite (b_write_phys_peek _ _ _ _ _ Hc). by rewrite decide_True.
Qed.

(** A store through the MMU to RAM. *)
Lemma mem_write_mmu_ram pt e v val acc p c :
  callback_is pt e → page_stable pt → mapping_typed pt → coherent pt e → word v →
  translate_spec pt v RK65C02_MMU_WRITE RK65C02_MMU_PERM_W = Xok p → phys_cell (bus e) p = Some c →
  ∃ e1, tlb_only e e1 ∧ coherent pt e1 ∧
    rk65c02_mem_write_mmu v val acc e = (Ret tt, set_bus (phys_write p val (bus e)) e1).
Proof.
  intros Hcb Hst Hty Hco Hv Hx Hc.
  destruct (mem_write_mmu_ok pt e v val acc p Hcb Hst Hty Hco Hv Hx) as (e1&Ht&Hco1&E1).
  exists e1. split; [done|]. split; [done|]. rewrite E1.
  apply translate_spec_ok in Hx as (_&_&_&Hp); [|done..]. by rewrite phys_host_none by (eauto; lia).
Qed.
(** A read or a fetch. *)
Lemma mem_read_mmu_ram pt e v acc p c : acc ≠ RK65C02_MMU_WRITE →
  callback_is pt e → page_stable pt → mapping_typed pt → coherent pt e → word v →
  translate_spec pt v acc (req_perm_read acc) = Xok p → phys_cell (bus e) p = Some c →
  ∃ e1, tlb_only e e1 ∧ coherent pt e1 ∧ rk65c02_mem_read_mmu v acc e = (Ret (b_peek (bus e) c), e1).
Proof.
  intros Ha Hcb Hst Hty Hco Hv Hx Hc.
  destruct (mem_read_mmu_ok pt e v acc p Ha Hcb Hst Hty Hco Hv Hx) as (e1&Ht&Hco1&E1).
  exists e1. split; [done|]. split; [done|]. rewrite E1.
  apply translate_spec_ok in Hx as (_&_&_&Hp); [|done..]. rewrite phys_host_none by (eauto; lia).
  rewrite (phys_read_ram _ _ _ Hc). cbn. destruct Ht as (t&h&n&->). by destruct e.
Qed.

Lemma callback_is_written pt e e1 p val : callback_is pt (set_bus (phys_write p val (bus e)) e) →
  tlb_only e e1 → callback_is pt (set_bus (phys_write p val (bus e)) e1).
Proof.
  intros Hcb Ht. eapply callback_is_tlb_only; [exact Hcb|]. destruct Ht as (t&h&n&->). by exists t, h, n.
Qed.

End Ram.

(** A mapping of every page to itself with all permissions. *)
Definition identity_mapping (pt : mapping) : Prop :=
  ∀ v a, word v → r_ok (pt v a) = true ∧ r_paddr (pt v a) = v ∧ Z.land (r_perms (pt v a)) 7 = 7.

Lemma perms_all x : Z.land x 7 = 7 →
  Z.land x RK65C02_MMU_PERM_R = RK65C02_MMU_PERM_R ∧ Z.land x RK65C02_MMU_PERM_W = RK65C02_MMU_PERM_W ∧
  Z.land x RK65C02_MMU_PERM_X = RK65C02_MMU_PERM_X.
Proof.
  intros H. unfold RK65C02_MMU_PERM_R, RK65C02_MMU_PERM_W, RK65C02_MMU_PERM_X.
  change 1 with (Z.land 7 1). change 2 with (Z.land 7 2). change 4 with (Z.land 7 4).
  by rewrite !Z.land_assoc, H.
Qed.

Lemma identity_translate pt v a req : identity_mapping pt → word v →
  (req = RK65C02_MMU_PERM_R ∨ req = RK65C02_MMU_PERM_W ∨ req = RK65C02_MMU_PERM_X) →
  translate_spec pt v a req = Xok v.
Proof.
  intros Hid Hv Hreq. destruct (Hid v a Hv) as (Ho&Hp&Hpe). unfold translate_spec, answer.
  destruct (perms_all _ Hpe) as (HR&HW&HX). rewrite Ho, Hp. simpl.
  destruct Hreq as [-> | [-> | ->]]; rewrite ?HR, ?HW, ?HX, Z.eqb_refl; simpl;
    unfold RK65C02_PHYS_MAX; by rewrite (proj2 (Z.leb_gt _ _)) by lia.
Qed.

(** C17: the identity fast path.  Under an identity mapping the MMU backend
    reads and writes exactly as the direct backend does from the same instance,
    the TLB and its counters aside, devices and their host functions included,
    so that switching to the direct accessors is not observable. *)
Theorem identity_mmu_direct pt e v val acc : acc ≠ RK65C02_MMU_WRITE →
  callback_is pt e → identity_mapping pt → page_stable pt → mapping_typed pt → coherent pt e →
  word v →
  (∃ e1, tlb_only e e1 ∧ rk65c02_mem_read_mmu v acc e = rk65c02_mem_read_direct v acc e1) ∧
  (∃ e1, tlb_only e e1 ∧
    rk65c02_mem_write_mmu v val RK65C02_MMU_WRITE e =
      rk65c02_mem_write_direct v val RK65C02_MMU_WRITE e1).
Proof.
  intros Hacc Hcb Hid Hst Hty Hco Hv. split.
  - destruct (mem_read_mmu_ok pt e v acc v) as (e1&Ht&_&E); try done.
    { apply identity_translate; [done..|]. destruct acc; auto. }
    exists e1. split; [done|]. rewrite E. unfold phys_read, phys_host, RK65C02_BUS_SIZE.
    rewrite (proj2 (Z.ltb_lt _ _)) by lia.
    assert (bus e1 = bus e) as Hb by by destruct Ht as (?&?&?&->). rewrite <- Hb.
    unfold rk65c02_mem_read_direct, core_bus_read_1. symmetry. erewrite bind_Ret by reflexivity.
    by destruct (b_read (bus e1) v).
  - destruct (mem_write_mmu_ok pt e v val RK65C02_MMU_WRITE v) as (e1&Ht&_&E); try done.
    { apply identity_translate; auto. }
    exists e1. split; [done|]. rewrite E. unfold phys_write, phys_host, RK65C02_BUS_SIZE.
    assert (bus e1 = bus e) as Hb by by destruct Ht as (?&?&?&->). rewrite <- Hb.
    by rewrite (proj2 (Z.ltb_lt _ _)) by lia.
Qed.

End MmuSpec.

(** Both backends change nothing else when told to invalidate; for the stub,
    nothing at all. *)
Lemma jit_only_refl {SY : Sys} e : jit_only e e.
Proof. exists (jit e), (use_jit e). by destruct e. Qed.
Lemma stub_keeps_mmu {SY : Sys} : JitKeepsMmu (JO := jit_stub).
Proof. split; intros; exists e; split; (done || apply jit_only_refl). Qed.

(** Coherence decided by evaluation. *)
Definition coherent_entryb (pt : mapping) (p : Z) (te : rk65c02_mmu_tlb_entry) : bool :=
  forallb (λ o, let v := p * 256 + o in
    forallb (λ a, let r := pt v a in
      r_ok r && (r_perms r =? te_perms te) && (r_paddr r =? te_ppage_base te ||| (v &&& 0x00FF)) &&
      (r_paddr r <? RK65C02_PHYS_MAX)) [RK65C02_MMU_FETCH; RK65C02_MMU_READ; RK65C02_MMU_WRITE])
  (seqZ 0 256).
Definition coherentb {SY : Sys} (pt : mapping) (e : rk65c02emu) : bool :=
  forallb (λ q, coherent_entryb pt q.1 q.2) (map_to_list (mmu_tlb e)).

Lemma page_split v : word v → page v * 256 + u8 v = v.
Proof.
  intros Hv. unfold page. rewrite shiftr8_div. unfold u8 at 2. rewrite u8_small.
  - pose proof (Z.div_mod v 256). lia.
  - split; [apply Z.div_pos; lia|]. apply Z.div_lt_upper_bound; lia.
Qed.

Lemma coherentb_ok {SY : Sys} pt e : coherentb pt e = true → coherent pt e.
Proof.
  intros Hc%forallb_Forall p Hp v a Hv Hpv. rewrite Forall_forall in Hc.
  unfold tlb_hit, tlb_entry in *. destruct (mmu_tlb e !! p) as [te|] eqn:Et;
    [|cbn in Hp; by rewrite andb_false_r in Hp].
  specialize (Hc (p, te) (proj2 (elem_of_map_to_list _ _ _) Et)). cbn [fst snd default] in *.
  unfold coherent_entryb in Hc. apply forallb_Forall in Hc. rewrite Forall_forall in Hc.
  specialize (Hc (u8 v)). rewrite <- Hpv, page_split in Hc by done.
  pose proof (u8_byte v). rewrite elem_of_seqZ in Hc. specialize (Hc ltac:(lia)). cbv zeta in Hc.
  apply forallb_Forall in Hc. rewrite Forall_forall in Hc.
  specialize (Hc a ltac:(destruct a; set_solver)). rewrite !andb_true_iff in Hc.
  destruct Hc as [[[Ho Hpe%Z.eqb_eq] Hpa%Z.eqb_eq] Hm%Z.ltb_lt]. by split_and!.
Qed.
