(* ===== verification/Api.v ===== *)
(** The instance under its whole public API.

    A host program interleaves calls of the functions of [src/src/rk65c02.h],
    [debug.h], [instruction.h] and [bus.h] in any order, and sets the registers
    and the disassembly flag of the instance directly.  [api_call] is one such action, [api_run] what it does;
    [reachable] are the states any sequence of them leads to from a freshly
    created instance. *)
From stdpp Require Import base numbers list gmap strings.
From S2P Require Import Prelude Types Isa BusSpec State Interfaces Mmu Instruction Emulation.
From S2P Require Import Disasm Debug Exec Invariant.

Inductive api_call :=
  | ApiStart (fuel : nat)
  | ApiStep (steps : Z)
  | ApiAssertIrq
  | ApiDeassertIrq
  | ApiRequestStop
  | ApiOnStopSet (cb : option nat) (ctx : Z)
  | ApiOnStopClear
  | ApiTickSet (cb : option nat) (interval ctx : Z)
  | ApiTickClear
  | ApiIdleWaitSet (cb : option nat) (ctx : Z)
  | ApiIdleWaitClear
  | ApiMmuSet (translate : option nat) (translate_ctx : Z) (on_fault : option nat) (fault_ctx : Z)
      (enabled identity_fastpath : bool)
  | ApiMmuClear
  | ApiMmuTlbSet (enabled : bool)
  | ApiMmuTlbFlush
  | ApiMmuTlbFlushVpage (vpage : Z)
  | ApiMmuBeginUpdate
  | ApiMmuMarkVpage (vpage : Z)
  | ApiMmuMarkVrange (start ende : Z)
  | ApiMmuEndUpdate
  | ApiIrq
  | ApiPanic
  | ApiMemFetch (addr : Z)
  | ApiMemRead (addr : Z)
  | ApiMemWrite (addr val : Z)
  | ApiBusRead (addr : Z)
  | ApiBusWrite (addr val : Z)
  | ApiBusReadPhys (addr : Z)
  | ApiBusWritePhys (addr val : Z)
  | ApiStackPush (val : Z)
  | ApiStackPop
  | ApiBreakpointAdd (addr : Z)
  | ApiBreakpointRemove (addr : Z)
  | ApiTraceSet (st : bool)
  | ApiDisassemblySet (st : bool)
  | ApiJitEnable (enable : bool)
  | ApiJitFlush
  | ApiJitStatsReset
  | ApiSetRegs (r : reg_state_t).

(** The C types of the arguments. *)
Definition api_typed (c : api_call) : Prop :=
  match c with
  | ApiMemFetch a | ApiMemRead a | ApiBusRead a => word a
  | ApiMemWrite a v | ApiBusWrite a v => word a ∧ byte v
  | ApiBusReadPhys a => 0 ≤ a < 2 ^ 32
  | ApiBusWritePhys a v => 0 ≤ a < 2 ^ 32 ∧ byte v
  | ApiStackPush v => byte v
  | ApiMmuTlbFlushVpage p | ApiMmuMarkVpage p => byte p
  | ApiMmuMarkVrange a b => word a ∧ word b
  | ApiBreakpointAdd a | ApiBreakpointRemove a => word a
  | ApiSetRegs r => regs_ok r
  | _ => True
  end.

Lemma api_start_or_not c : (∃ fuel, c = ApiStart fuel) ∨ ∀ fuel, c ≠ ApiStart fuel.
Proof. destruct c; (left; by eexists) || by right. Qed.

Section Api.
Context {SY : Sys} {SB : SysBus} {HO : HostOps} {JO : JitOps}.

(** [rk65c02_jit_enable] of [jit_stub.c]. *)
Definition stub_jit_enable (enable : bool) : M unit :=
  modify (set_jit_requested false);; modify (set_use_jit false).

(** The functions of the API that the backend linked with the core defines,
    beside those of [JitOps]. *)
Record backend := mkBackend {
  be_jit_enable : bool → M unit;
  be_run_jit : nat → M unit;
  be_stats_reset : M unit
}.
Definition stub_backend : backend := mkBackend stub_jit_enable stub_run_jit (mret tt).

(** One call, of an emulator linked with the backend [be]. *)
Definition api_run (be : backend) (c : api_call) : M unit :=
  match c with
  | ApiStart fuel => rk65c02_start (be_run_jit be) fuel
  | ApiStep n => rk65c02_step n
  | ApiAssertIrq => rk65c02_assert_irq
  | ApiDeassertIrq => rk65c02_deassert_irq
  | ApiRequestStop => rk65c02_request_stop
  | ApiOnStopSet cb ctx => rk65c02_on_stop_set cb ctx
  | ApiOnStopClear => rk65c02_on_stop_clear
  | ApiTickSet cb interval ctx => rk65c02_tick_set cb interval ctx
  | ApiTickClear => rk65c02_tick_clear
  | ApiIdleWaitSet cb ctx => rk65c02_idle_wait_set cb ctx
  | ApiIdleWaitClear => rk65c02_idle_wait_clear
  | ApiMmuSet tr trc fl flc en idf => _ ← rk65c02_mmu_set tr trc fl flc en idf; mret tt
  | ApiMmuClear => rk65c02_mmu_clear
  | ApiMmuTlbSet en => rk65c02_mmu_tlb_set en
  | ApiMmuTlbFlush => rk65c02_mmu_tlb_flush
  | ApiMmuTlbFlushVpage p => rk65c02_mmu_tlb_flush_vpage p
  | ApiMmuBeginUpdate => rk65c02_mmu_begin_update
  | ApiMmuMarkVpage p => rk65c02_mmu_mark_changed_vpage p
  | ApiMmuMarkVrange a b => rk65c02_mmu_mark_changed_vrange a b
  | ApiMmuEndUpdate => rk65c02_mmu_end_update
  | ApiIrq => rk65c02_irq
  | ApiPanic => rk65c02_panic
  | ApiMemFetch a => _ ← rk65c02_mem_fetch_1 a; mret tt
  | ApiMemRead a => _ ← rk65c02_mem_read_1 a; mret tt
  | ApiMemWrite a v => rk65c02_mem_write_1 a v
  | ApiBusRead a => _ ← core_bus_read_1 a; mret tt
  | ApiBusWrite a v => core_bus_write_1 a v
  | ApiBusReadPhys a => _ ← core_bus_read_1_phys a; mret tt
  | ApiBusWritePhys a v => core_bus_write_1_phys a v
  | ApiStackPush v => stack_push v
  | ApiStackPop => _ ← stack_pop; mret tt
  | ApiBreakpointAdd a => _ ← debug_breakpoint_add a; mret tt
  | ApiBreakpointRemove a => _ ← debug_breakpoint_remove a; mret tt
  | ApiTraceSet st => debug_trace_set st
  | ApiDisassemblySet st => modify (set_runtime_disassembly st)
  | ApiJitEnable en => be_jit_enable be en
  | ApiJitFlush => rk65c02_jit_flush
  | ApiJitStatsReset => be_stats_reset be
  | ApiSetRegs r => modify (set_regs r)
  end.

(** [reachable be junk b e]: some sequence of typed calls leads from
    [rk65c02_init] to [e].  Calls count whatever their outcome: the state a
    run out of fuel ends in is one the C loop passes through. *)
Inductive reachable (be : backend) (junk : rk65c02emu) (b : sys_bus) : rk65c02emu → Prop :=
  | reach_init : reachable be junk b (rk65c02_init junk b)
  | reach_call c e : reachable be junk b e → api_typed c → reachable be junk b (api_run be c e).2.

(** What a new instance satisfies and every call keeps, holds for good. *)
Lemma reachable_keeps (I : rk65c02emu → Prop) be junk b e : I (rk65c02_init junk b) →
  (∀ c, api_typed c → keeps I (api_run be c) (λ _, True)) → reachable be junk b e → I e.
Proof. intros Hi Hk. induction 1 as [|c e _ IH Hc]; [done|]. by apply (Hk c Hc). Qed.

Section Typing.
Context {BL : BusLaws sys_bus} {HT : HostTyped} {JT : JitTyped}.

Lemma keeps_set_regs_typed r : regs_ok r → keeps emu_ok (modify (set_regs r)) (λ _, True).
Proof. intros Hr. apply keeps_modify; [|done]. by intros e []. Qed.

Lemma keeps_breakpoint_add a : keeps emu_ok (debug_breakpoint_add a) (λ _, True).
Proof. unfold debug_breakpoint_add. keeps_auto. Qed.
Lemma keeps_breakpoint_remove a : keeps emu_ok (debug_breakpoint_remove a) (λ _, True).
Proof. unfold debug_breakpoint_remove. keeps_auto. Qed.
#[local] Hint Resolve keeps_breakpoint_add keeps_breakpoint_remove keeps_set_regs_typed : keeps.
#[local] Hint Resolve keeps_panic jit_flush_ok : keeps.
#[local] Hint Extern 1 (keeps _ rk65c02_irq _) => apply keeps_irq : keeps.
#[local] Hint Extern 1 (keeps _ (stack_push _) _) => apply keeps_stack_push; done : keeps.
#[local] Hint Extern 1 (keeps _ stack_pop _) => apply keeps_stack_pop : keeps.
#[local] Hint Extern 1 (keeps _ (core_bus_read_1 _) _) => apply keeps_bus_read; done : keeps.
#[local] Hint Extern 1 (keeps _ (core_bus_write_1 _ _) _) => apply keeps_bus_write; done : keeps.
#[local] Hint Extern 1 (keeps _ (core_bus_read_1_phys _) _) => apply keeps_bus_read_phys; lia : keeps.
#[local] Hint Extern 1 (keeps _ (core_bus_write_1_phys _ _) _) => apply keeps_bus_write_phys; lia : keeps.

(** Every call but a run keeps the typing invariant, if the backend's do. *)
Lemma api_run_keeps be c : (∀ en, keeps emu_ok (be_jit_enable be en) (λ _, True)) →
  keeps emu_ok (be_stats_reset be) (λ _, True) → (∀ fuel, c ≠ ApiStart fuel) →
  api_typed c → keeps emu_ok (api_run be c) (λ _, True).
Proof.
  intros Hen Hst Hc Ht. destruct c; simpl in *; try (by destruct (Hc fuel));
    destruct_and? Ht;
    unfold rk65c02_assert_irq, rk65c02_deassert_irq, rk65c02_request_stop, rk65c02_on_stop_set,
      rk65c02_on_stop_clear, rk65c02_tick_set, rk65c02_tick_clear, rk65c02_idle_wait_set,
      rk65c02_idle_wait_clear, debug_trace_set, rk65c02_mmu_tlb_flush; keeps_auto.
Qed.

Lemma init_ok junk b : regs_ok (regs junk) → b_ok b → emu_ok (rk65c02_init junk b).
Proof.
  intros [] Hb. by split; simpl; try apply map_Forall_empty.
Qed.

(** C6: the typing invariant.  Whatever sequence of API calls a host makes on
    a new instance (callbacks included, which may themselves act on it), all
    registers stay within their width, the bus stays well-formed, live TLB
    entries translate their page to an aligned page of physical memory, the
    memory accessors are those the MMU mode calls for and an enabled MMU has a
    translation callback. *)
Theorem reachable_ok junk b e :
  regs_ok (regs junk) → b_ok b → reachable stub_backend junk b e → emu_ok e.
Proof.
  intros Hr Hb. apply reachable_keeps; [by apply init_ok|]. intros c Hc.
  destruct (api_start_or_not c) as [[fuel ->]|Hn]; [cbn; keeps_auto|].
  apply api_run_keeps; [intros en; cbn; unfold stub_jit_enable; keeps_auto|by apply keeps_ret|done..].
Qed.

End Typing.
End Api.
