(* ===== verification/Runs.v ===== *)
(** Running the core on plain memory.

    With the MMU off, no JIT and a flat bus, a computation of the core is a
    function of the registers and of the content of memory: [runs e p r m a
    r' m'] says that [p], started with registers [r] and memory content [m],
    returns [a] with registers [r'] and content [m'], whatever bus holds that
    content.  The rest of the instance is that of [e] throughout. *)
From stdpp Require Import base numbers list gmap strings.
From S2P Require Import Prelude Types Isa BusSpec State Interfaces Mmu Instruction Emulation.
From S2P Require Import IsaSpec Invariant.

Section Runs.
Context {SY : Sys} {SB : SysBus} {BL : BusLaws sys_bus} {HO : HostOps} {JO : JitOps}.

(** The instance with other registers and another bus. *)
Definition core (e : rk65c02emu) (r : reg_state_t) (b : sys_bus) : rk65c02emu :=
  set_regs r (set_bus b e).

Record plain (e : rk65c02emu) : Prop := {
  plain_read : mem_read_1_fn e = mem_direct;
  plain_write : mem_write_1_fn e = mem_direct;
  plain_jit : jit e = None
}.

(** The bus holds [m]. *)
Record holds (b : sys_bus) (m : Z → Z) : Prop := {
  holds_flat : flat_bus b;
  holds_mem : ∀ a, word a → mem_at b a = m a
}.

Lemma holds_byte b m a : holds b m → word a → byte (m a).
Proof.
  intros [Hf Hm] Ha. rewrite <- Hm by done. apply mem_at_byte; [by apply flat_ok|done|].
  by apply flat_ram.
Qed.

Lemma holds_write b m a v :
  holds b m → word a → byte v → holds (b_write b a v) (upd m a v).
Proof.
  intros [Hf Hm] Ha Hv. split; [by apply flat_bus_write|]. intros x Hx.
  rewrite mem_at_write_flat by done. unfold upd. case_decide; auto.
Qed.

Definition runs_to (e : rk65c02emu) {T} (p : M T) (r : reg_state_t) (m : Z → Z)
    (a : T) (e' : rk65c02emu) (r' : reg_state_t) (m' : Z → Z) : Prop :=
  ∀ b, holds b m → ∃ b', p (core e r b) = (Ret a, core e' r' b') ∧ holds b' m'.

(** Most computations leave the rest of the instance alone. *)
Abbreviation runs e p r m a r' m' := (runs_to e p r m a e r' m').

Section Rules.
Context (e : rk65c02emu).

Lemma runs_ret {T} (a : T) r m : runs e (mret a) r m a r m.
Proof. intros b Hb. by exists b. Qed.

Lemma runs_bind {T U} (p : M T) (k : T → M U) r m a e1 r1 m1 x e2 r2 m2 :
  runs_to e p r m a e1 r1 m1 → runs_to e1 (k a) r1 m1 x e2 r2 m2 →
  runs_to e (y ← p; k y) r m x e2 r2 m2.
Proof.
  intros Hp Hk b Hb. destruct (Hp b Hb) as (b1&E1&Hb1). destruct (Hk b1 Hb1) as (b2&E2&Hb2).
  exists b2. split; [|done]. by rewrite (bind_Ret _ _ _ _ _ E1).
Qed.

(** Equal results may replace each other. *)
Lemma runs_eq {T} (p : M T) r m a e1 r1 m1 a' r1' m1' :
  runs_to e p r m a e1 r1 m1 → a = a' → r1 = r1' → m1 = m1' → runs_to e p r m a' e1 r1' m1'.
Proof. by intros ? -> -> ->. Qed.

Lemma runs_get_A r m : runs e get_A r m (A r) r m.
Proof. intros b Hb. by exists b. Qed.
Lemma runs_get_X r m : runs e get_X r m (X r) r m.
Proof. intros b Hb. by exists b. Qed.
Lemma runs_get_Y r m : runs e get_Y r m (Y r) r m.
Proof. intros b Hb. by exists b. Qed.
Lemma runs_get_SP r m : runs e get_SP r m (SP r) r m.
Proof. intros b Hb. by exists b. Qed.
Lemma runs_get_PC r m : runs e get_PC r m (PC r) r m.
Proof. intros b Hb. by exists b. Qed.
Lemma runs_get_P r m : runs e get_P r m (P r) r m.
Proof. intros b Hb. by exists b. Qed.
Lemma runs_put_A v r m : runs e (put_A v) r m tt (regs_A v r) m.
Proof. intros b Hb. by exists b. Qed.
Lemma runs_put_X v r m : runs e (put_X v) r m tt (regs_X v r) m.
Proof. intros b Hb. by exists b. Qed.
Lemma runs_put_Y v r m : runs e (put_Y v) r m tt (regs_Y v r) m.
Proof. intros b Hb. by exists b. Qed.
Lemma runs_put_SP v r m : runs e (put_SP v) r m tt (regs_SP v r) m.
Proof. intros b Hb. by exists b. Qed.
Lemma runs_put_PC v r m : runs e (put_PC v) r m tt (regs_PC v r) m.
Proof. intros b Hb. by exists b. Qed.
Lemma runs_put_P v r m : runs e (put_P v) r m tt (regs_P v r) m.
Proof. intros b Hb. by exists b. Qed.

(** A flag assigned in the status byte. *)
Definition flag_put (k : Z) (b : bool) (p : Z) : Z := if b then p ||| k else p &&& !~ k.

Lemma runs_P_put k f r m : runs e (P_put k f) r m tt (regs_P (flag_put k f (P r)) r) m.
Proof. intros b Hb. exists b. by destruct f. Qed.
Lemma runs_P_set k r m : runs e (P_set k) r m tt (regs_P (flag_put k true (P r)) r) m.
Proof. apply (runs_P_put k true). Qed.
Lemma runs_P_clear k r m : runs e (P_clear k) r m tt (regs_P (flag_put k false (P r)) r) m.
Proof. apply (runs_P_put k false). Qed.
Lemma runs_P_test k r m : runs e (P_test k) r m (ctrue (P r &&& k)) r m.
Proof. intros b Hb. by exists b. Qed.

Lemma runs_adjust_zn v r m :
  runs e (adjust_zn v) r m tt
    (regs_P (flag_put P_NEGATIVE (ctrue (v &&& NEGATIVE)) (flag_put P_ZERO (v =? 0) (P r))) r) m.
Proof.
  eapply runs_bind; [apply runs_P_put|]. eapply runs_eq; [apply runs_P_put|done..].
Qed.

Context (He : plain e).

Lemma runs_read a r m : word a → runs e (rk65c02_mem_read_1 a) r m (m a) r m.
Proof.
  intros Ha b Hb. exists b. split; [|done]. destruct He as [Hr _ _], Hb as [Hf Hm].
  unfold rk65c02_mem_read_1, gets, mbind, M_bind. simpl. rewrite Hr. simpl.
  unfold rk65c02_mem_read_direct, core_bus_read_1, get, modify, mbind, M_bind. simpl.
  rewrite mem_at_read by by apply flat_ram. simpl. by rewrite flat_host, Hm by done.
Qed.

Lemma runs_fetch a r m : word a → runs e (rk65c02_mem_fetch_1 a) r m (m a) r m.
Proof.
  intros Ha b Hb. exists b. split; [|done]. destruct He as [Hr _ _], Hb as [Hf Hm].
  unfold rk65c02_mem_fetch_1, gets, mbind, M_bind. simpl. rewrite Hr. simpl.
  unfold rk65c02_mem_read_direct, core_bus_read_1, get, modify, mbind, M_bind. simpl.
  rewrite mem_at_read by by apply flat_ram. simpl. by rewrite flat_host, Hm by done.
Qed.

Lemma runs_write a v r m :
  word a → byte v → runs e (rk65c02_mem_write_1 a v) r m tt r (upd m a v).
Proof.
  intros Ha Hv b Hb. exists (b_write b a v). split; [|by apply holds_write].
  destruct He as [_ Hw Hj], Hb as [Hf _].
  unfold rk65c02_mem_write_1, gets, mbind, M_bind. simpl. rewrite Hw. simpl.
  unfold rk65c02_mem_write_direct, core_bus_write_1, get, modify, mbind, M_bind. simpl.
  rewrite flat_host by done. simpl. by rewrite Hj.
Qed.

End Rules.

(** ** Operands and the stack, against the specification *)

Definition bytes (m : Z → Z) : Prop := ∀ a, word a → byte (m a).

Lemma holds_bytes b m : holds b m → bytes m.
Proof. intros Hb a. by apply (holds_byte b). Qed.

Lemma bytes_upd m a v : bytes m → byte v → bytes (upd m a v).
Proof. intros Hm Hv x Hx. unfold upd. case_decide; auto. Qed.

(** The specification's machine with these registers and this memory. *)
Definition cpu_of (r : reg_state_t) (m : Z → Z) (q : bool) (w : power) : cpu :=
  mkCpu (A r) (X r) (Y r) (PC r) (SP r) (flags_of (P r)) m q w.

(** Modes with an effective address; modes with a readable operand. *)
Definition has_ea (m : addressing_t) : bool :=
  match m with
  | IABSOLUTE | IABSOLUTEX | RELATIVE | IMPLIED | IMMEDIATE | ACCUMULATOR => false
  | _ => true
  end.
Definition readable (m : addressing_t) : bool :=
  match m with IMMEDIATE | ACCUMULATOR => true | _ => has_ea m end.
Definition writable (m : addressing_t) : bool :=
  match m with ACCUMULATOR => true | _ => has_ea m end.

Lemma abs_word l h : byte l → byte h → l + (h ≪ 8) = word_of l h ∧ word (word_of l h).
Proof.
  intros. unfold word_of. rewrite Z.shiftl_mul_pow2 by lia. change (2 ^ 8) with 256. lia.
Qed.

Lemma spec_ea_word mode op1 op2 r m q w :
  regs_ok r → bytes m → byte op1 → byte op2 → word (spec_ea mode op1 op2 (cpu_of r m q w)).
Proof.
  intros [] Hm H1 H2. unfold spec_ea, cpu_of, word_of. simpl.
  pose proof (Hm op1 ltac:(lia)). pose proof (Hm ((op1 + 1) mod 256)).
  pose proof (Hm ((op1 + X r) mod 256)). pose proof (Hm ((op1 + X r + 1) mod 256)).
  pose proof (Z.mod_pos_bound (op1 + 1) 256). pose proof (Z.mod_pos_bound (op1 + X r) 256).
  pose proof (Z.mod_pos_bound (op1 + X r + 1) 256). pose proof (Z.mod_pos_bound (op1 + Y r) 256).
  destruct mode; try lia; apply Z.mod_pos_bound; lia.
Qed.

Section Operands.
Context (e : rk65c02emu) (He : plain e) (r : reg_state_t) (m : Z → Z) (q : bool) (w : power)
  (Hr : regs_ok r) (Hm : bytes m).

Lemma runs_read_pointer lo hi : word lo → word hi →
  runs e (read_pointer lo hi) r m (word_of (m lo) (m hi)) r m.
Proof.
  intros Hl Hh. eapply runs_bind; [by apply runs_read|]. eapply runs_bind; [by apply runs_read|].
  eapply runs_eq; [apply runs_ret| |done..]. by rewrite lohi_add by auto.
Qed.

Context (id : instrdef_t) (i : instruction_t) (Hi : instruction_ok i).

Lemma runs_data_address : has_ea (d_mode id) = true →
  runs e (instruction_data_address id i) r m
    (spec_ea (d_mode id) (i_op1 i) (i_op2 i) (cpu_of r m q w)) r m.
Proof.
  intros Hea. destruct Hi as (_&H1&H2). pose proof (abs_word _ _ H1 H2) as [Ha _].
  unfold instruction_data_address, spec_ea, cpu_of.
  destruct (d_mode id); try done; simpl; try rewrite Ha.
  all: try (by apply runs_ret).
  all: try (eapply runs_bind; [first [apply runs_get_X | apply runs_get_Y]|]; by apply runs_ret).
  - apply runs_read_pointer; [lia|]. apply byte_word, u8_byte.
  - pose proof (u8_byte (i_op1 i + X r)). pose proof (u8_byte (i_op1 i + X r + 1)).
    do 2 (eapply runs_bind; [apply runs_get_X|]; eapply runs_bind; [apply runs_read; [done|simpl; lia]|]).
    eapply runs_eq; [apply runs_ret| |done..].
    by rewrite lohi_add by (apply Hm; lia).
  - pose proof (u8_byte (i_op1 i + 1)).
    eapply runs_bind; [apply runs_read_pointer; lia|]. eapply runs_bind; [apply runs_get_Y|].
    by apply runs_ret.
  - eapply runs_eq; [apply runs_ret| |done..]. by apply u16_small, abs_word.
Qed.

Lemma runs_data_read : readable (d_mode id) = true →
  runs e (instruction_data_read_1 id i) r m
    (spec_operand (d_mode id) (i_op1 i) (i_op2 i) (cpu_of r m q w)) r m.
Proof.
  intros Hrd. pose proof Hi as (_&H1&H2). pose proof runs_data_address as Ha.
  pose proof (spec_ea_word (d_mode id) _ _ r m q w Hr Hm H1 H2) as Hw.
  unfold instruction_data_read_1, spec_operand.
  destruct (d_mode id); try done; try (by apply runs_ret); try (by apply runs_get_A);
    (eapply runs_bind; [by apply Ha|by apply runs_read]).
Qed.

Lemma spec_operand_byte : byte (spec_operand (d_mode id) (i_op1 i) (i_op2 i) (cpu_of r m q w)).
Proof.
  pose proof Hi as (_&H1&H2). pose proof (spec_ea_word (d_mode id) _ _ r m q w Hr Hm H1 H2) as Hw.
  unfold spec_operand. destruct (d_mode id); try (by apply Hm); simpl; [lia|by apply ok_A].
Qed.

(** A store replaces the accumulator or a byte of memory. *)
Definition store_regs (v : Z) : reg_state_t :=
  match d_mode id with ACCUMULATOR => regs_A v r | _ => r end.
Definition store_mem (v : Z) : Z → Z :=
  match d_mode id with
  | ACCUMULATOR => m
  | _ => upd m (spec_ea (d_mode id) (i_op1 i) (i_op2 i) (cpu_of r m q w)) v
  end.

Lemma runs_data_write v : writable (d_mode id) = true → byte v →
  runs e (instruction_data_write_1 id i v) r m tt (store_regs v) (store_mem v).
Proof.
  intros Hwr Hv. pose proof Hi as (_&H1&H2). pose proof runs_data_address as Ha.
  pose proof (spec_ea_word (d_mode id) _ _ r m q w Hr Hm H1 H2) as Hw.
  unfold instruction_data_write_1, store_regs, store_mem.
  destruct (d_mode id); try done; try (by apply runs_put_A);
    (eapply runs_bind; [by apply Ha|by apply runs_write]).
Qed.

End Operands.

Section Stack.
Context (e : rk65c02emu) (He : plain e).

Lemma runs_push v r m : byte (SP r) → byte v →
  runs e (stack_push v) r m tt (regs_SP (u8 (SP r - 1)) r) (upd m (0x100 + SP r) v).
Proof.
  intros Hs Hv. unfold stack_push, STACK_START.
  eapply runs_bind; [apply runs_get_SP|].
  eapply runs_bind; [apply runs_write; [done|lia|done]|].
  eapply runs_bind; [apply runs_get_SP|]. apply runs_put_SP.
Qed.

Lemma runs_pop r m :
  runs e stack_pop r m (m (0x100 + u8 (SP r + 1))) (regs_SP (u8 (SP r + 1)) r) m.
Proof.
  pose proof (u8_byte (SP r + 1)). unfold stack_pop, STACK_START.
  eapply runs_bind; [apply runs_get_SP|]. eapply runs_bind; [apply runs_put_SP|].
  eapply runs_bind; [apply runs_get_SP|].
  apply runs_read; [done|]. simpl. lia.
Qed.
End Stack.
End Runs.

Abbreviation runs e p r m a r' m' := (runs_to e p r m a e r' m').
