(* ===== verification/IsaArith.v ===== *)
(** The bit manipulations of [src/src/emulation.c] and what they compute: flags
    of the status byte, shifts, BCD conversion, sign overflow. *)
From stdpp Require Import base numbers list gmap strings.
From S2P Require Import Prelude Types Isa BusSpec State Interfaces Mmu Instruction Emulation.
From S2P Require Import IsaSpec Invariant Runs.

(** ** Flags *)

Create Rewrite HintDb flags.

Ltac const_bits :=
  repeat match goal with
  | |- context [Z.testbit (Zpos ?q) ?n] =>
      let b := eval vm_compute in (Z.testbit (Zpos q) n) in
      change (Z.testbit (Zpos q) n) with b
  end.
Ltac flag_bits :=
  intros b; unfold flags_of, flag_put, set_C, set_Z, set_I, set_D, set_B, set_U, set_V, set_N,
    P_CARRY, P_ZERO, P_IRQ_DISABLE, P_DECIMAL, P_BREAK, P_UNDEFINED, P_SIGN_OVERFLOW, P_NEGATIVE;
  cbn [fC fZ fI fD fB fU fV fN]; destruct b; f_equal;
  rewrite ?Z.lor_spec, ?Z.land_spec, ?Z.lnot_spec by lia; const_bits;
  rewrite ?orb_true_r, ?orb_false_r, ?andb_true_r, ?andb_false_r; reflexivity.

Lemma flags_put_C p : ∀ b, flags_of (flag_put P_CARRY b p) = set_C b (flags_of p).
Proof. flag_bits. Qed.
Lemma flags_put_Z p : ∀ b, flags_of (flag_put P_ZERO b p) = set_Z b (flags_of p).
Proof. flag_bits. Qed.
Lemma flags_put_I p : ∀ b, flags_of (flag_put P_IRQ_DISABLE b p) = set_I b (flags_of p).
Proof. flag_bits. Qed.
Lemma flags_put_D p : ∀ b, flags_of (flag_put P_DECIMAL b p) = set_D b (flags_of p).
Proof. flag_bits. Qed.
Lemma flags_put_B p : ∀ b, flags_of (flag_put P_BREAK b p) = set_B b (flags_of p).
Proof. flag_bits. Qed.
Lemma flags_put_U p : ∀ b, flags_of (flag_put P_UNDEFINED b p) = set_U b (flags_of p).
Proof. flag_bits. Qed.
Lemma flags_put_V p : ∀ b, flags_of (flag_put P_SIGN_OVERFLOW b p) = set_V b (flags_of p).
Proof. flag_bits. Qed.
Lemma flags_put_N p : ∀ b, flags_of (flag_put P_NEGATIVE b p) = set_N b (flags_of p).
Proof. flag_bits. Qed.
#[export] Hint Rewrite flags_put_C flags_put_Z flags_put_I flags_put_D flags_put_B flags_put_U
  flags_put_V flags_put_N : flags.

Lemma ctrue_bit x n : 0 ≤ n → ctrue (x &&& (1 ≪ n)) = Z.testbit x n.
Proof.
  intros Hn. unfold ctrue. rewrite Z.shiftl_mul_pow2, Z.mul_1_l by done.
  destruct (Z.testbit x n) eqn:E.
  - apply negb_true_iff, Z.eqb_neq. intros H.
    assert (Z.testbit (x &&& 2 ^ n) n = true) as Hb
      by (rewrite Z.land_spec, E, Z.pow2_bits_true; done).
    by rewrite H, Z.bits_0 in Hb.
  - apply negb_false_iff, Z.eqb_eq, Z.bits_inj'. intros k Hk.
    rewrite Z.land_spec, Z.bits_0. destruct (decide (k = n)) as [->|]; [by rewrite E|].
    rewrite Z.pow2_bits_false by done. apply andb_false_r.
Qed.

Lemma test_C p : ctrue (p &&& P_CARRY) = fC (flags_of p).
Proof. exact (ctrue_bit p 0 ltac:(lia)). Qed.
Lemma test_Z p : ctrue (p &&& P_ZERO) = fZ (flags_of p).
Proof. exact (ctrue_bit p 1 ltac:(lia)). Qed.
Lemma test_I p : ctrue (p &&& P_IRQ_DISABLE) = fI (flags_of p).
Proof. exact (ctrue_bit p 2 ltac:(lia)). Qed.
Lemma test_D p : ctrue (p &&& P_DECIMAL) = fD (flags_of p).
Proof. exact (ctrue_bit p 3 ltac:(lia)). Qed.
Lemma test_V p : ctrue (p &&& P_SIGN_OVERFLOW) = fV (flags_of p).
Proof. exact (ctrue_bit p 6 ltac:(lia)). Qed.
Lemma test_N p : ctrue (p &&& P_NEGATIVE) = fN (flags_of p).
Proof. exact (ctrue_bit p 7 ltac:(lia)). Qed.
#[export] Hint Rewrite test_C test_Z test_I test_D test_V test_N : flags.

Lemma bit_true v n : 0 ≤ n → ctrue (BIT v n) = bit v n.
Proof. apply ctrue_bit. Qed.

Lemma bit7_sign v : byte v → Z.testbit v 7 = (128 <=? v).
Proof. revert v. apply byte_forall_eqb. vm_compute. reflexivity. Qed.

Lemma negative_sign v : byte v → ctrue (v &&& NEGATIVE) = (128 <=? v).
Proof. intros. rewrite <- bit7_sign by done. exact (ctrue_bit v 7 ltac:(lia)). Qed.

Lemma status_flags p : byte p → status_of (flags_of p) = p.
Proof. revert p. apply byte_forall_eq. vm_compute. reflexivity. Qed.

Lemma regs_P_idem v w r : regs_P v (regs_P w r) = regs_P v r.
Proof. done. Qed.

(** The two flags most instructions set. *)
Lemma flags_put_NZ v p : byte v →
  flags_of (flag_put P_NEGATIVE (ctrue (v &&& NEGATIVE)) (flag_put P_ZERO (v =? 0) p)) =
    set_NZ v (flags_of p).
Proof. intros. by rewrite flags_put_N, flags_put_Z, negative_sign. Qed.

Lemma status_put_byte k b p : byte k → byte p → byte (flag_put k b p).
Proof. intros. unfold flag_put. destruct b; [by apply lor_byte|by apply land_byte]. Qed.

(** ** Arithmetic of the routines *)

Lemma shl1_val v : byte v → u8 (v ≪ 1) = (2 * v) mod 256.
Proof. intros. unfold u8. rewrite Z.shiftl_mul_pow2 by lia. f_equal. lia. Qed.
Lemma shr1_val v : byte v → u8 (v ≫ 1) = v / 2.
Proof. revert v. apply byte_forall_eq. vm_compute. reflexivity. Qed.
Lemma bit0_val v : ctrue (v &&& 0x1) = bit v 0.
Proof. exact (ctrue_bit v 0 ltac:(lia)). Qed.
Lemma bit7_val v : byte v → ctrue (v &&& 0x80) = (128 <=? v).
Proof. exact (negative_sign v). Qed.

Lemma rol_val v (c : bool) : byte v →
  (if c then u8 (v ≪ 1) ||| 0x1 else u8 (v ≪ 1) &&& !~ 0x1) = (2 * v) mod 256 + Z.b2z c.
Proof. revert v. destruct c; apply byte_forall_eq; vm_compute; reflexivity. Qed.
Lemma ror_val v (c : bool) : byte v →
  (if c then u8 (v ≫ 1) ||| 0x80 else u8 (v ≫ 1) &&& !~ 0x80) = v / 2 + 128 * Z.b2z c.
Proof. revert v. destruct c; apply byte_forall_eq; vm_compute; reflexivity. Qed.

Lemma rol_byte v (c : bool) : byte v → byte ((2 * v) mod 256 + Z.b2z c).
Proof. intros. rewrite <- rol_val by done. destruct c; crange. Qed.
Lemma ror_byte v (c : bool) : byte v → byte (v / 2 + 128 * Z.b2z c).
Proof. intros. rewrite <- ror_val by done. destruct c; crange. Qed.

Lemma rmb_val v n : byte v → 0 ≤ n → u8 (v &&& !~ (1 ≪ n)) = Z.clearbit v n.
Proof.
  intros Hv Hn. rewrite u8_small by by apply land_byte.
  apply Z.bits_inj'. intros k Hk. rewrite Z.land_spec, Z.lnot_spec by done.
  rewrite Z.shiftl_mul_pow2, Z.mul_1_l, Z.pow2_bits_eqb by done.
  rewrite Z.clearbit_eqb by done. by destruct (n =? k).
Qed.
Lemma smb_val v n : byte v → 0 ≤ n < 8 → u8 (v ||| (1 ≪ n)) = Z.setbit v n.
Proof.
  intros Hv Hn. rewrite u8_small.
  - unfold Z.setbit. done.
  - apply lor_byte; [done|]. rewrite Z.shiftl_mul_pow2 by lia.
    pose proof (Z.pow_lt_mono_r 2 n 8). pose proof (Z.pow_pos_nonneg 2 n). lia.
Qed.

Lemma trb_val v a : byte v → v &&& (a ^^^ 0xFF) = Z.ldiff v a.
Proof.
  intros Hv. apply Z.bits_inj'. intros k Hk. rewrite Z.land_spec, Z.lxor_spec, Z.ldiff_spec.
  change 0xFF with (Z.ones 8). destruct (Z.lt_ge_cases k 8).
  - rewrite Z.ones_spec_low by lia. by destruct (Z.testbit a k).
  - by rewrite (testbit_byte_above v k).
Qed.

Lemma from_bcd_val v : byte v → from_bcd v = bcd_value v.
Proof. revert v. apply byte_forall_eq. vm_compute. reflexivity. Qed.
Lemma to_bcd_val v : byte v → to_bcd v = bcd_digits v.
Proof. revert v. apply byte_forall_eq. vm_compute. reflexivity. Qed.
Lemma bcd_value_bound v : byte v → 0 ≤ bcd_value v ≤ 165.
Proof.
  intros Hv. pose proof (byte_forall (λ v, (0 <=? bcd_value v) && (bcd_value v <=? 165)) eq_refl v Hv).
  simpl in *. lia.
Qed.

Lemma s8_signed v : byte v → s8 v = signed v.
Proof. intros. unfold s8, signed. by rewrite u8_small. Qed.

(** The sign-overflow expression: bit 7 of both differences. *)
Lemma overflow_bits x y s :
  ctrue ((x ^^^ s) &&& (y ^^^ s) &&& 0x80) =
    xorb (Z.testbit x 7) (Z.testbit s 7) && xorb (Z.testbit y 7) (Z.testbit s 7).
Proof.
  change 0x80 with (1 ≪ 7). rewrite ctrue_bit by lia. by rewrite Z.land_spec, !Z.lxor_spec.
Qed.

Lemma bit7_mod s : Z.testbit s 7 = (128 <=? s mod 256).
Proof.
  rewrite <- bit7_sign by (apply Z.mod_pos_bound; lia).
  change 256 with (2 ^ 8). by rewrite Z.mod_pow2_bits_low by lia.
Qed.

(** The value [s] takes modulo 256, for the ranges of byte arithmetic. *)
Lemma mod256_cases s : -512 ≤ s < 512 →
  s mod 256 = s + 512 ∧ s < -256 ∨ s mod 256 = s + 256 ∧ -256 ≤ s < 0 ∨
  s mod 256 = s ∧ 0 ≤ s < 256 ∨ s mod 256 = s - 256 ∧ 256 ≤ s.
Proof. intros. pose proof (Z.div_mod s 256). pose proof (Z.mod_pos_bound s 256). lia. Qed.

Ltac sum_cases s :=
  let H := fresh in
  pose proof (mod256_cases s ltac:(lia)) as H;
  destruct H as [[H ?]|[[H ?]|[[H ?]|[H ?]]]]; rewrite H.

Ltac decide_bounds :=
  repeat match goal with
  | |- context [?x <? ?y] => destruct (Z.ltb_spec x y)
  | |- context [?x <=? ?y] => destruct (Z.leb_spec x y)
  end; try reflexivity; exfalso; lia.

(** Overflow of a binary sum and difference, by signs and by value. *)
Lemma adc_overflow a v (c : bool) : byte a → byte v →
  xorb (128 <=? a) (128 <=? (a + v + Z.b2z c) mod 256) &&
    xorb (128 <=? v) (128 <=? (a + v + Z.b2z c) mod 256) =
  negb ((-128 <=? signed a + signed v + Z.b2z c) && (signed a + signed v + Z.b2z c <=? 127)).
Proof.
  intros Ha Hv. assert (0 ≤ Z.b2z c ≤ 1) by (destruct c; simpl; lia).
  unfold signed. sum_cases (a + v + Z.b2z c);
    decide_bounds.
Qed.

Lemma sbc_overflow a v (c : bool) : byte a → byte v →
  xorb (128 <=? a) (128 <=? (a - v - (1 - Z.b2z c)) mod 256) &&
    xorb (v <? 128) (128 <=? (a - v - (1 - Z.b2z c)) mod 256) =
  negb ((-128 <=? signed a - signed v - (1 - Z.b2z c)) &&
        (signed a - signed v - (1 - Z.b2z c) <=? 127)).
Proof.
  intros Ha Hv. assert (0 ≤ Z.b2z c ≤ 1) by (destruct c; simpl; lia).
  unfold signed. sum_cases (a - v - (1 - Z.b2z c));
    decide_bounds.
Qed.

(** The 16-bit sum and difference of the routines. *)
Lemma sum_val x y (c : bool) : 0 ≤ x < 256 → 0 ≤ y < 256 →
  (if c then u16 (u16 (x + y) + 1) else u16 (x + y)) = x + y + Z.b2z c.
Proof. intros. rewrite (u16_small (x + y)) by lia. destruct c; simpl; [apply u16_small|]; lia. Qed.

Lemma diff_val x y (c : bool) :
  (if c then u16 (x - y) else u16 (u16 (x - y) - 1)) = (x - y - (1 - Z.b2z c)) mod 65536.
Proof.
  unfold u16. destruct c; simpl; [f_equal; lia|]. rewrite Zminus_mod_idemp_l. f_equal.
Qed.

Lemma mod65536_mod256 s : (s mod 65536) mod 256 = s mod 256.
Proof.
  change 65536 with (256 * 256). rewrite Z.rem_mul_r by lia.
  rewrite Z.mul_comm, Z_mod_plus_full. apply Z.mod_mod. lia.
Qed.

Lemma bit7_compl v : byte v → Z.testbit (0xFF - v) 7 = (v <? 128).
Proof. revert v. apply byte_forall_eqb. vm_compute. reflexivity. Qed.

(** No borrow: the difference has no high byte. *)
Lemma no_borrow s : -256 ≤ s < 256 → negb (ctrue (s mod 65536 &&& 0xFF00)) = (0 <=? s).
Proof.
  intros Hs. unfold ctrue. rewrite negb_involutive.
  assert (s mod 65536 = if 0 <=? s then s else s + 65536) as E.
  { destruct (Z.leb_spec 0 s); [apply Z.mod_small; lia|].
    rewrite <- (Z_mod_plus_full s 1). apply Z.mod_small. lia. }
  rewrite E. clear E. destruct (Z.leb_spec 0 s).
  - apply Z.eqb_eq, Z.bits_inj'. intros k Hk. rewrite Z.land_spec, Z.bits_0.
    destruct (Z.lt_ge_cases k 8); [|by rewrite testbit_byte_above by lia].
    change 0xFF00 with (0xFF ≪ 8). rewrite Z.shiftl_spec_low by lia. apply andb_false_r.
  - apply Z.eqb_neq. intros H0.
    assert (Z.testbit ((s + 65536) &&& 0xFF00) 15 = true) as Hb; [|by rewrite H0 in Hb].
    rewrite Z.land_spec. change (Z.testbit 0xFF00 15) with true. rewrite andb_true_r.
    replace (s + 65536) with ((s + 32768) + 1 * 2 ^ 15) by lia.
    rewrite Z.testbit_true by lia. rewrite Z.div_add by lia.
    rewrite Z.div_small by lia. done.
Qed.

Lemma s16_val s : -32768 ≤ s < 32768 → s16 (s mod 65536) = s.
Proof.
  intros Hs. unfold s16, u16. rewrite Z.mod_mod by lia.
  destruct (Z.leb_spec 0 s).
  - rewrite Z.mod_small by lia. by rewrite (proj2 (Z.ltb_lt _ _)) by lia.
  - rewrite <- (Z_mod_plus_full s 1), Z.mod_small by lia.
    rewrite (proj2 (Z.ltb_ge _ _)) by lia. lia.
Qed.

Lemma sbc_bcd_val s : -199 ≤ s < 200 → sbc_bcd_result (s mod 65536) = bcd_digits (s mod 100).
Proof.
  intros Hs. unfold sbc_bcd_result. rewrite s16_val by lia.
  assert ((if Z.rem (s + 100) 100 <? 0 then Z.rem (s + 100) 100 + 100 else Z.rem (s + 100) 100)
          = s mod 100) as ->.
  { rewrite <- (Z_mod_plus_full s 1 100). destruct (Z.le_gt_cases 0 (s + 100)).
    - rewrite Z.rem_mod_nonneg by lia. pose proof (Z.mod_pos_bound (s + 100) 100).
      rewrite (proj2 (Z.ltb_ge _ _)) by lia. f_equal.
    - rewrite <- (Z.opp_involutive (s + 100)), Z.rem_opp_l, Z.rem_small by lia.
      rewrite (proj2 (Z.ltb_lt _ _)) by lia. rewrite <- (Z_mod_plus_full _ 1 100).
      rewrite Z.mod_small; lia. }
  pose proof (Z.mod_pos_bound s 100). rewrite u8_small by lia. apply to_bcd_val. lia.
Qed.

Lemma bcd_no_borrow s : -200 ≤ s < 200 →
  negb ((s mod 65536 >? 99) || ctrue (s mod 65536 &&& 0xFF00)) = (0 <=? s) && (s <=? 99).
Proof.
  intros Hs. rewrite negb_orb, no_borrow by lia. destruct (Z.leb_spec 0 s); simpl; [|apply andb_false_r].
  rewrite Z.mod_small, andb_true_r by lia. rewrite Z.gtb_ltb. by rewrite Z.leb_antisym.
Qed.
