(* ===== verification/Routines.v ===== *)
(** Every emulation routine of [src/src/emulation.c] on plain memory does what
    [spec_effect] of [IsaSpec] says. *)
From stdpp Require Import base numbers list gmap strings.
From S2P Require Import Prelude Types Isa BusSpec State Interfaces Mmu Instruction Emulation.
From S2P Require Import IsaSpec Invariant Runs IsaArith.

Section Routines.
Context {SY : Sys} {SB : SysBus} {BL : BusLaws sys_bus} {HO : HostOps} {JO : JitOps}.

(** ** One emulation routine *)

Section Routine.
Context (e : rk65c02emu) (He : plain e) (r : reg_state_t) (m : Z → Z) (q : bool) (w : power)
  (Hr : regs_ok r) (Hm : bytes m) (id : instrdef_t) (i : instruction_t) (Hi : instruction_ok i).

Let c : cpu := cpu_of r m q w.
Let v : Z := spec_operand (d_mode id) (i_op1 i) (i_op2 i) c.
Let store (x : Z) : cpu → cpu := spec_store (d_mode id) (i_op1 i) (i_op2 i) x.

(** The routine [p] leads to the machine [c'] of the specification. *)
Definition refines (p : M unit) (c' : cpu) : Prop :=
  ∃ r' m', runs e p r m tt r' m' ∧ cpu_of r' m' q w = c' ∧ regs_ok r'.

Lemma v_byte : byte v.
Proof. by apply spec_operand_byte. Qed.

(** Reading the operand, also after flags have been changed. *)
Lemma runs_operand p : readable (d_mode id) = true → byte p →
  runs e (instruction_data_read_1 id i) (regs_P p r) m v (regs_P p r) m.
Proof.
  intros Hrd Hp. eapply runs_eq; [apply (runs_data_read e He (regs_P p r) m q w)|..]; try done.
  by destruct Hr.
Qed.

Lemma runs_operand_0 : readable (d_mode id) = true →
  runs e (instruction_data_read_1 id i) r m v r m.
Proof. intros Hrd. by apply (runs_data_read e He r m q w). Qed.

(** Storing a result: the specification's [store]. *)
Lemma store_cpu r1 x :
  cpu_of (store_regs r1 id x) (store_mem r1 m q w id i x) q w = store x (cpu_of r1 m q w).
Proof.
  unfold store, store_regs, store_mem, spec_store. by destruct (d_mode id).
Qed.

Lemma store_regs_ok r1 x : regs_ok r1 → byte x → regs_ok (store_regs r1 id x).
Proof. intros [] Hx. unfold store_regs. by destruct (d_mode id). Qed.

Lemma store_regs_P r1 x : P (store_regs r1 id x) = P r1.
Proof. unfold store_regs. by destruct (d_mode id). Qed.

(** Run a computation step by step. *)
Ltac runs_leaf :=
  first [ apply runs_get_A | apply runs_get_X | apply runs_get_Y | apply runs_get_SP
        | apply runs_get_PC | apply runs_get_P | apply runs_put_A | apply runs_put_X
        | apply runs_put_Y | apply runs_put_SP | apply runs_put_PC | apply runs_put_P
        | apply runs_P_put | apply runs_P_set | apply runs_P_clear | apply runs_P_test
        | apply runs_adjust_zn | apply runs_ret | by apply runs_operand_0 ].
Ltac runs_step :=
  lazymatch goal with
  | |- runs_to _ (mbind _ _) _ _ _ _ _ _ => eapply runs_bind; [runs_leaf|cbv beta zeta]
  | |- runs_to _ _ _ _ _ _ _ _ => first [runs_leaf | eapply runs_eq; [runs_leaf|reflexivity..]]
  end.
Ltac runs_all := repeat runs_step.

(** Registers written by a routine are in range. *)
Ltac regs_range :=
  destruct Hr; split; simpl; try assumption;
  repeat first [apply status_put_byte; [split; done|]]; try assumption; crange.

(** *** Loads, transfers, logic: a register takes [x], N and Z follow *)

Definition nz_of (x : Z) : Z :=
  flag_put P_NEGATIVE (ctrue (x &&& NEGATIVE)) (flag_put P_ZERO (x =? 0) (P r)).

Lemma refines_load_A x p : byte x → runs e p r m tt (regs_P (nz_of x) (regs_A x r)) m →
  refines p (load_A x c).
Proof.
  intros Hx Hp. eexists _, _. split; [exact Hp|]. split; [|regs_range].
  unfold load_A, with_F, with_A, cpu_of, nz_of. simpl. by rewrite flags_put_NZ.
Qed.
Lemma refines_load_X x p : byte x → runs e p r m tt (regs_P (nz_of x) (regs_X x r)) m →
  refines p (load_X x c).
Proof.
  intros Hx Hp. eexists _, _. split; [exact Hp|]. split; [|regs_range].
  unfold load_X, with_F, with_X, cpu_of, nz_of. simpl. by rewrite flags_put_NZ.
Qed.
Lemma refines_load_Y x p : byte x → runs e p r m tt (regs_P (nz_of x) (regs_Y x r)) m →
  refines p (load_Y x c).
Proof.
  intros Hx Hp. eexists _, _. split; [exact Hp|]. split; [|regs_range].
  unfold load_Y, with_F, with_Y, cpu_of, nz_of. simpl. by rewrite flags_put_NZ.
Qed.

Ltac loads :=
  intros; pose proof v_byte; pose proof Hr as [];
  first [apply refines_load_A | apply refines_load_X | apply refines_load_Y];
  [crange | cbv delta [emul_lda emul_ldx emul_ldy emul_and emul_ora emul_eor emul_tax emul_tay
     emul_tsx emul_txa emul_tya emul_dex emul_dey emul_inx emul_iny]; cbv beta; runs_all].

Lemma refines_lda : readable (d_mode id) = true → refines (emul_lda id i) (load_A v c).
Proof. loads. Qed.
Lemma refines_ldx : readable (d_mode id) = true → refines (emul_ldx id i) (load_X v c).
Proof. loads. Qed.
Lemma refines_ldy : readable (d_mode id) = true → refines (emul_ldy id i) (load_Y v c).
Proof. loads. Qed.
Lemma refines_and : readable (d_mode id) = true → refines (emul_and id i) (load_A (Z.land (A r) v) c).
Proof. loads. Qed.
Lemma refines_ora : readable (d_mode id) = true → refines (emul_ora id i) (load_A (Z.lor (A r) v) c).
Proof. loads. Qed.
Lemma refines_eor : readable (d_mode id) = true → refines (emul_eor id i) (load_A (Z.lxor (A r) v) c).
Proof. loads. Qed.
Lemma refines_tax : refines (emul_tax id i) (load_X (A r) c).
Proof. loads. Qed.
Lemma refines_tay : refines (emul_tay id i) (load_Y (A r) c).
Proof. loads. Qed.
Lemma refines_tsx : refines (emul_tsx id i) (load_X (SP r) c).
Proof. loads. Qed.
Lemma refines_txa : refines (emul_txa id i) (load_A (X r) c).
Proof. loads. Qed.
Lemma refines_tya : refines (emul_tya id i) (load_A (Y r) c).
Proof. loads. Qed.
Lemma refines_dex : refines (emul_dex id i) (load_X (u8 (X r - 1)) c).
Proof. loads. Qed.
Lemma refines_dey : refines (emul_dey id i) (load_Y (u8 (Y r - 1)) c).
Proof. loads. Qed.
Lemma refines_inx : refines (emul_inx id i) (load_X (u8 (X r + 1)) c).
Proof. loads. Qed.
Lemma refines_iny : refines (emul_iny id i) (load_Y (u8 (Y r + 1)) c).
Proof. loads. Qed.

(** *** Flags only *)

Lemma refines_flags p k : byte k →
  runs e p r m tt (regs_P k r) m → refines p (with_F (flags_of k) c).
Proof. intros Hk Hp. eexists _, _. split; [exact Hp|]. split; [done|regs_range]. Qed.

Lemma refines_clear p k F : byte k → flags_of (flag_put k false (P r)) = F →
  p = P_clear k → refines p (with_F F c).
Proof.
  intros Hk <- ->. apply refines_flags; [|apply runs_P_clear].
  apply status_put_byte; [done|by apply ok_P].
Qed.
Lemma refines_set p k F : byte k → flags_of (flag_put k true (P r)) = F →
  p = P_set k → refines p (with_F F c).
Proof.
  intros Hk <- ->. apply refines_flags; [|apply runs_P_set].
  apply status_put_byte; [done|by apply ok_P].
Qed.

Lemma refines_compare g x : (∀ r1, X r1 = X r → Y r1 = Y r → A r1 = A r → runs e g r1 m x r1 m) →
  byte x → readable (d_mode id) = true →
  refines (compare_with g id i)
    (with_F (set_C (v <=? x) (set_NZ (u8 (x - v)) (cF c))) c).
Proof.
  intros Hg Hx Hrd. pose proof v_byte as Hv. eexists _, _. split; [|split].
  - unfold compare_with. eapply runs_bind; [by apply runs_operand_0|].
    eapply runs_bind; [by apply Hg|]. cbv beta zeta.
    eapply runs_bind; [apply runs_adjust_zn|]. eapply runs_bind; [by apply Hg|]. runs_all.
  - unfold cpu_of, with_F. simpl.
    rewrite flags_put_C, flags_put_NZ by crange. rewrite <- Z.leb_antisym. done.
  - regs_range.
Qed.

Lemma refines_bit : readable (d_mode id) = true →
  refines (emul_bit id i)
    (with_F (match d_mode id with
             | IMMEDIATE => set_Z (Z.land (A r) v =? 0) (cF c)
             | _ => set_N (bit v 7) (set_V (bit v 6) (set_Z (Z.land (A r) v =? 0) (cF c)))
             end) c).
Proof.
  intros Hrd. unfold emul_bit.
  assert (negb (ctrue (A r &&& v)) = (A r &&& v =? 0)) as Hz by apply negb_involutive.
  destruct (decide (d_mode id = IMMEDIATE)) as [Em|Em].
  - rewrite Em. eexists _, _. split; [|split].
    + rewrite bool_decide_false by auto. runs_all.
    + unfold cpu_of, with_F. simpl. by rewrite flags_put_Z, Hz.
    + regs_range.
  - eexists _, _. split; [|split].
    + rewrite bool_decide_true by done. do 3 runs_step.
      eapply runs_bind; [apply runs_operand; [done|]|].
      { apply status_put_byte; [split; done|by apply ok_P]. }
      runs_all.
    + unfold cpu_of, with_F. simpl. rewrite flags_put_N, flags_put_V, flags_put_Z, Hz.
      rewrite !bit_true by lia. by destruct (d_mode id).
    + regs_range.
Qed.

(** BIT with one access to its operand, as native code does it. *)
Lemma refines_bit_once : readable (d_mode id) = true →
  refines (mem ← instruction_data_read_1 id i;
           a ← get_A;
           P_put P_ZERO (negb (ctrue (a &&& mem)));;
           if bool_decide (d_mode id ≠ IMMEDIATE) then
             P_put P_SIGN_OVERFLOW (ctrue (BIT mem 6));;
             P_put P_NEGATIVE (ctrue (BIT mem 7))
           else mret tt)
    (with_F (match d_mode id with
             | IMMEDIATE => set_Z (Z.land (A r) v =? 0) (cF c)
             | _ => set_N (bit v 7) (set_V (bit v 6) (set_Z (Z.land (A r) v =? 0) (cF c)))
             end) c).
Proof.
  intros Hrd.
  assert (negb (ctrue (A r &&& v)) = (A r &&& v =? 0)) as Hz by apply negb_involutive.
  destruct (decide (d_mode id = IMMEDIATE)) as [Em|Em].
  - rewrite Em. eexists _, _. split; [|split].
    + rewrite bool_decide_false by auto. runs_all.
    + unfold cpu_of, with_F. simpl. by rewrite flags_put_Z, Hz.
    + regs_range.
  - eexists _, _. split; [|split].
    + rewrite bool_decide_true by done. runs_all.
    + unfold cpu_of, with_F. simpl. rewrite flags_put_N, flags_put_V, flags_put_Z, Hz.
      rewrite !bit_true by lia. by destruct (d_mode id).
    + regs_range.
Qed.

(** *** Stores and read-modify-write *)

(** Storing after the flags were set, as the shifts do. *)
Lemma refines_store_flags p k x F : writable (d_mode id) = true → byte x → byte k →
  flags_of k = F →
  (∀ r' m', runs e (instruction_data_write_1 id i x) (regs_P k r) m tt r' m' →
     runs e p r m tt r' m') →
  refines p (store x (with_F F c)).
Proof.
  intros Hw Hx Hk <- Hp. assert (regs_ok (regs_P k r)) as Hr1 by by destruct Hr.
  eexists _, _. split; [apply Hp, (runs_data_write e He (regs_P k r) m q w); done|].
  split; [apply store_cpu|by apply store_regs_ok].
Qed.

Lemma refines_store p x : writable (d_mode id) = true → byte x →
  (∀ r' m', runs e (instruction_data_write_1 id i x) r m tt r' m' → runs e p r m tt r' m') →
  refines p (store x c).
Proof.
  intros Hw Hx Hp.
  eexists _, _. split; [apply Hp, (runs_data_write e He r m q w); done|].
  split; [apply store_cpu|by apply store_regs_ok].
Qed.

(** Storing before the flags are set, as INC and DEC do. *)
Lemma refines_store_then_flags p x : writable (d_mode id) = true → byte x →
  (∀ r' m', runs e (instruction_data_write_1 id i x;; adjust_zn x) r m tt r' m' →
     runs e p r m tt r' m') →
  refines p (with_F (set_NZ x (cF c)) (store x c)).
Proof.
  intros Hw Hx Hp.
  eexists _, _. split; [apply Hp|split].
  - eapply runs_bind; [apply (runs_data_write e He r m q w); done|]. apply runs_adjust_zn.
  - change (store x c) with (store x (cpu_of r m q w)). rewrite <- store_cpu.
    unfold cpu_of, with_F. simpl.
    by rewrite flags_put_NZ, store_regs_P.
  - pose proof (store_regs_ok r x Hr Hx) as []. split; simpl; try done.
    by repeat (apply status_put_byte; [split; done|]).
Qed.

Lemma refines_sta : writable (d_mode id) = true → refines (emul_sta id i) (store (A r) c).
Proof.
  intros Hw. apply refines_store; [done|by apply ok_A|]. intros r' m' Hs.
  unfold emul_sta. by runs_step.
Qed.
Lemma refines_stx : writable (d_mode id) = true → refines (emul_stx id i) (store (X r) c).
Proof.
  intros Hw. apply refines_store; [done|by apply ok_X|]. intros r' m' Hs.
  unfold emul_stx. by runs_step.
Qed.
Lemma refines_sty : writable (d_mode id) = true → refines (emul_sty id i) (store (Y r) c).
Proof.
  intros Hw. apply refines_store; [done|by apply ok_Y|]. intros r' m' Hs.
  unfold emul_sty. by runs_step.
Qed.
Lemma refines_stz : writable (d_mode id) = true → refines (emul_stz id i) (store 0 c).
Proof. intros Hw. by apply refines_store. Qed.

Lemma writable_readable : writable (d_mode id) = true → readable (d_mode id) = true.
Proof. by destruct (d_mode id). Qed.

Lemma refines_dec : writable (d_mode id) = true →
  refines (emul_dec id i) (with_F (set_NZ (u8 (v - 1)) (cF c)) (store (u8 (v - 1)) c)).
Proof.
  intros Hw. pose proof (writable_readable Hw). apply refines_store_then_flags; [done|crange|].
  intros r' m' Hs. unfold emul_dec. by runs_step.
Qed.
Lemma refines_inc : writable (d_mode id) = true →
  refines (emul_inc id i) (with_F (set_NZ (u8 (v + 1)) (cF c)) (store (u8 (v + 1)) c)).
Proof.
  intros Hw. pose proof (writable_readable Hw). apply refines_store_then_flags; [done|crange|].
  intros r' m' Hs. unfold emul_inc. by runs_step.
Qed.

(** The shifts: carry [out], result [x], operand stored. *)
Lemma refines_shift p out x : writable (d_mode id) = true → byte x →
  (∀ r' m', runs e (P_put P_CARRY out;; adjust_zn x;; instruction_data_write_1 id i x)
     r m tt r' m' → runs e p r m tt r' m') →
  refines p (store x (with_F (set_NZ x (set_C out (cF c))) c)).
Proof.
  intros Hw Hx Hp.
  eapply (refines_store_flags _ (flag_put P_NEGATIVE (ctrue (x &&& NEGATIVE))
    (flag_put P_ZERO (x =? 0) (flag_put P_CARRY out (P r))))); try done.
  - pose proof (ok_P r Hr). by repeat (apply status_put_byte; [split; done|]).
  - by rewrite flags_put_NZ, flags_put_C.
  - intros r' m' Hs. apply Hp. by do 2 runs_step.
Qed.

Lemma refines_asl : writable (d_mode id) = true →
  refines (emul_asl id i)
    (store ((2 * v) mod 256) (with_F (set_NZ ((2 * v) mod 256) (set_C (128 <=? v) (cF c))) c)).
Proof.
  intros Hw. pose proof (writable_readable Hw). pose proof v_byte.
  rewrite <- shl1_val, <- bit7_val by done.
  apply refines_shift; [done|crange|]. intros r' m' Hs. unfold emul_asl. by runs_step.
Qed.
Lemma refines_lsr : writable (d_mode id) = true →
  refines (emul_lsr id i) (store (v / 2) (with_F (set_NZ (v / 2) (set_C (bit v 0) (cF c))) c)).
Proof.
  intros Hw. pose proof (writable_readable Hw). pose proof v_byte.
  rewrite <- shr1_val, <- bit0_val by done.
  apply refines_shift; [done|crange|]. intros r' m' Hs. unfold emul_lsr. by runs_step.
Qed.
Lemma refines_rol (x := (2 * v) mod 256 + Z.b2z (fC (cF c))) : writable (d_mode id) = true →
  refines (emul_rol id i) (store x (with_F (set_NZ x (set_C (128 <=? v) (cF c))) c)).
Proof.
  intros Hw. pose proof (writable_readable Hw). pose proof v_byte.
  rewrite <- bit7_val by done. apply refines_shift; [done|by apply rol_byte|].
  intros r' m' Hs. unfold emul_rol. do 2 runs_step. rewrite test_C, rol_val by done. exact Hs.
Qed.
Lemma refines_ror (x := v / 2 + 128 * Z.b2z (fC (cF c))) : writable (d_mode id) = true →
  refines (emul_ror id i) (store x (with_F (set_NZ x (set_C (bit v 0) (cF c))) c)).
Proof.
  intros Hw. pose proof (writable_readable Hw). pose proof v_byte.
  rewrite <- bit0_val by done. apply refines_shift; [done|by apply ror_byte|].
  intros r' m' Hs. unfold emul_ror. do 2 runs_step. rewrite test_C, ror_val by done. exact Hs.
Qed.

Lemma refines_rmb n : 0 ≤ n → writable (d_mode id) = true →
  refines (emul_rmb n id i) (store (Z.clearbit v n) c).
Proof.
  intros Hn Hw. pose proof (writable_readable Hw). pose proof v_byte.
  rewrite <- rmb_val by done. apply refines_store; [done|crange|].
  intros r' m' Hs. unfold emul_rmb. by runs_step.
Qed.
Lemma refines_smb n : 0 ≤ n < 8 → writable (d_mode id) = true →
  refines (emul_smb n id i) (store (Z.setbit v n) c).
Proof.
  intros Hn Hw. pose proof (writable_readable Hw). pose proof v_byte.
  rewrite <- smb_val by done. apply refines_store; [done|crange|].
  intros r' m' Hs. unfold emul_smb. by runs_step.
Qed.

Lemma refines_test_store p x : writable (d_mode id) = true → byte x →
  (∀ r' m', runs e (instruction_data_write_1 id i x)
     (regs_P (flag_put P_ZERO (negb (ctrue (A r &&& v))) (P r)) r) m tt r' m' →
     runs e p r m tt r' m') →
  refines p (store x (with_F (set_Z (A r &&& v =? 0) (cF c)) c)).
Proof.
  intros Hw Hx Hp.
  apply (refines_store_flags _ (flag_put P_ZERO (negb (ctrue (A r &&& v))) (P r))); try done.
  - apply status_put_byte; [split; done|by apply ok_P].
  - rewrite flags_put_Z. unfold ctrue. by rewrite negb_involutive.
Qed.

Lemma refines_trb : writable (d_mode id) = true →
  refines (emul_trb id i)
    (store (Z.ldiff v (A r)) (with_F (set_Z (A r &&& v =? 0) (cF c)) c)).
Proof.
  intros Hw. pose proof (writable_readable Hw). pose proof v_byte. rewrite <- trb_val by done.
  apply refines_test_store; [done|crange|]. intros r' m' Hs. unfold emul_trb. by do 4 runs_step.
Qed.
Lemma refines_tsb : writable (d_mode id) = true →
  refines (emul_tsb id i)
    (store (Z.lor v (A r)) (with_F (set_Z (A r &&& v =? 0) (cF c)) c)).
Proof.
  intros Hw. pose proof (writable_readable Hw). pose proof v_byte. pose proof (ok_A r Hr).
  apply refines_test_store; [done|crange|]. intros r' m' Hs. unfold emul_tsb. by do 4 runs_step.
Qed.

(** *** Branches and jumps *)

Lemma refines_PC p pc : word pc → runs e p r m tt (regs_PC pc r) m → refines p (with_PC pc c).
Proof. intros Hpc Hp. eexists _, _. split; [exact Hp|]. split; [done|regs_range]. Qed.

Lemma refines_branch (b : bool) : d_size id = 2 →
  refines (branch_if b id i) (spec_branch b 2 (i_op1 i) c).
Proof.
  intros Hs. destruct Hi as (_&H1&_). apply refines_PC; [apply Z.mod_pos_bound; lia|].
  unfold branch_if, program_counter_branch, program_counter_increment.
  destruct b; (eapply runs_eq; [runs_all|done| |done]); unfold u16.
  - rewrite s8_signed by done. do 2 f_equal. simpl. lia.
  - rewrite Hs. do 2 f_equal. simpl. lia.
Qed.

Lemma refines_flag_branch k (f : bool → bool) b :
  ctrue (P r &&& k) = b → d_size id = 2 →
  refines (b ← P_test k; branch_if (f b) id i) (spec_branch (f b) 2 (i_op1 i) c).
Proof.
  intros <- Hs. destruct (refines_branch (f (ctrue (P r &&& k))) Hs) as (r'&m'&Hrun&Hc&Hok).
  exists r', m'. split; [|done]. eapply runs_bind; [apply runs_P_test|done].
Qed.

Lemma refines_bit_branch (f : bool → bool) n : 0 ≤ n → d_size id = 3 → readable (d_mode id) = true →
  refines (val ← instruction_data_read_1 id i;
           if f (ctrue (BIT val n)) then bit_branch i else program_counter_increment id)
    (spec_branch (f (bit v n)) 3 (i_op2 i) c).
Proof.
  intros Hn Hs Hrd. destruct Hi as (_&_&H2).
  apply refines_PC; [apply Z.mod_pos_bound; lia|]. eapply runs_bind; [by apply runs_operand_0|].
  cbv beta. rewrite bit_true by done. unfold bit_branch, program_counter_increment.
  destruct (f (bit v n)); (eapply runs_eq; [runs_all|done| |done]); unfold u16.
  - rewrite s8_signed by done. do 2 f_equal. simpl. lia.
  - rewrite Hs. do 2 f_equal. simpl. lia.
Qed.

Lemma op_word : u16 (i_op1 i + (i_op2 i ≪ 8)) = word_of (i_op1 i) (i_op2 i).
Proof.
  destruct Hi as (_&H1&H2). destruct (abs_word _ _ H1 H2) as [-> ?]. by apply u16_small.
Qed.

Lemma refines_jmp :
  d_mode id = ABSOLUTE ∨ d_mode id = IABSOLUTE ∨ d_mode id = IABSOLUTEX →
  refines (emul_jmp id i) (spec_effect f_jmp (d_mode id) (i_op1 i) (i_op2 i) c).
Proof.
  intros Hmode. destruct Hi as (_&H1&H2). destruct (abs_word _ _ H1 H2) as [Ha Hw].
  assert (∀ a, word a → word (word_of (m a) (m (u16 (a + 1))))) as Hp.
  { intros a Hword. apply abs_word; apply Hm; [done|apply u16_word]. }
  unfold emul_jmp. destruct Hmode as [Em|[Em|Em]]; rewrite Em; simpl.
  - apply refines_PC; [done|]. rewrite op_word. runs_all.
  - apply refines_PC; [by apply Hp|]. rewrite op_word.
    eapply runs_bind; [apply runs_read_pointer; try done; apply u16_word|]. runs_all.
  - rewrite Ha. apply refines_PC; [apply Hp, u16_word|].
    eapply runs_bind; [eapply runs_bind; [apply runs_get_X|]|].
    + apply runs_read_pointer; try done; apply u16_word.
    + runs_all.
Qed.

Lemma refines_bbr n : 0 ≤ n → d_size id = 3 → readable (d_mode id) = true →
  refines (emul_bbr n id i) (spec_branch (negb (bit v n)) 3 (i_op2 i) c).
Proof. intros. by apply (refines_bit_branch negb n). Qed.
Lemma refines_bbs n : 0 ≤ n → d_size id = 3 → readable (d_mode id) = true →
  refines (emul_bbs n id i) (spec_branch (bit v n) 3 (i_op2 i) c).
Proof. intros. by apply (refines_bit_branch (λ b, b) n). Qed.

(** *** The stack *)

Lemma refines_push x p : byte x → (∀ r' m', runs e (stack_push x) r m tt r' m' →
  runs e p r m tt r' m') → refines p (spec_push x c).
Proof.
  intros Hx Hp. pose proof (ok_SP r Hr) as Hsp. eexists _, _.
  split; [by apply Hp, runs_push|]. split; [done|regs_range].
Qed.

Lemma refines_pha : refines (emul_pha id i) (spec_push (A r) c).
Proof.
  apply refines_push; [by apply ok_A|]. intros r' m' Hs. unfold emul_pha. by runs_step.
Qed.
Lemma refines_phx : refines (emul_phx id i) (spec_push (X r) c).
Proof.
  apply refines_push; [by apply ok_X|]. intros r' m' Hs. unfold emul_phx. by runs_step.
Qed.
Lemma refines_phy : refines (emul_phy id i) (spec_push (Y r) c).
Proof.
  apply refines_push; [by apply ok_Y|]. intros r' m' Hs. unfold emul_phy. by runs_step.
Qed.

Lemma php_status p : byte p →
  p ||| P_BREAK ||| P_UNDEFINED = status_of (set_B true (set_U true (flags_of p))).
Proof.
  intros Hp. rewrite <- (flags_put_U p true), <- flags_put_B, status_flags.
  - unfold flag_put. by rewrite <- !Z.lor_assoc.
  - by repeat (apply status_put_byte; [split; done|]).
Qed.
Lemma plp_status p : flags_of (status_from_stack p) = set_B false (set_U true (flags_of p)).
Proof. exact (eq_trans (flags_put_B _ false) (f_equal _ (flags_put_U p true))). Qed.
Lemma status_from_stack_byte p : byte p → byte (status_from_stack p).
Proof.
  intros. apply (status_put_byte P_BREAK false); [split; done|].
  by apply (status_put_byte P_UNDEFINED true).
Qed.

Lemma refines_php :
  refines (emul_php id i) (spec_push (status_of (set_B true (set_U true (cF c)))) c).
Proof.
  pose proof (ok_P r Hr). change (cF c) with (flags_of (P r)).
  rewrite <- php_status by done. apply refines_push.
  - apply (status_put_byte P_UNDEFINED true); [split; done|].
    by apply (status_put_byte P_BREAK true).
  - intros r' m' Hs. unfold emul_php. by runs_step.
Qed.

Lemma pop_byte n : byte (spec_pop n c).
Proof. apply Hm. pose proof (u8_byte (SP r + n)). simpl. fold (u8 (SP r + n)). lia. Qed.

Lemma refines_pla : refines (emul_pla id i) (load_A (spec_pop 1 c) (spec_drop 1 c)).
Proof.
  pose proof (pop_byte 1) as Hb. eexists _, _. split; [|split].
  - unfold emul_pla. eapply runs_bind; [by apply runs_pop|]. runs_all.
  - unfold cpu_of, load_A, with_F, with_A. simpl. by rewrite flags_put_NZ.
  - regs_range.
Qed.
Lemma refines_plx : refines (emul_plx id i) (load_X (spec_pop 1 c) (spec_drop 1 c)).
Proof.
  pose proof (pop_byte 1) as Hb. eexists _, _. split; [|split].
  - unfold emul_plx. eapply runs_bind; [by apply runs_pop|]. runs_all.
  - unfold cpu_of, load_X, with_F, with_X. simpl. by rewrite flags_put_NZ.
  - regs_range.
Qed.
Lemma refines_ply : refines (emul_ply id i) (load_Y (spec_pop 1 c) (spec_drop 1 c)).
Proof.
  pose proof (pop_byte 1) as Hb. eexists _, _. split; [|split].
  - unfold emul_ply. eapply runs_bind; [by apply runs_pop|]. runs_all.
  - unfold cpu_of, load_Y, with_F, with_Y. simpl. by rewrite flags_put_NZ.
  - regs_range.
Qed.
Lemma refines_plp :
  refines (emul_plp id i)
    (with_F (set_B false (set_U true (flags_of (spec_pop 1 c)))) (spec_drop 1 c)).
Proof.
  pose proof (pop_byte 1) as Hb. eexists _, _. split; [|split].
  - unfold emul_plp. eapply runs_bind; [by apply runs_pop|]. runs_all.
  - unfold cpu_of, with_F. simpl. by rewrite plp_status.
  - destruct Hr; split; simpl; try done; [crange|by apply status_from_stack_byte].
Qed.

(** *** Addition and subtraction *)

(** A test of D after V and C were changed still reads the original flag. *)
Ltac test_flag H :=
  cbn [P regs_P regs_A]; rewrite ?test_D, ?test_C, ?flags_put_C, ?flags_put_V;
  cbn [fD fC set_V set_C]; rewrite ?H; cbv iota.

(** The state after an addition or subtraction with these results. *)
Lemma refines_arith p x (co ov : bool) : byte x →
  runs e p r m tt
    (regs_P (flag_put P_NEGATIVE (ctrue (x &&& NEGATIVE)) (flag_put P_ZERO (x =? 0)
       (flag_put P_CARRY co (flag_put P_SIGN_OVERFLOW ov (P r))))) (regs_A x r)) m →
  refines p (with_F (set_NZ x (set_C co (set_V ov (cF c)))) (with_A x c)).
Proof.
  intros Hx Hp. eexists _, _. split; [exact Hp|]. split; [|regs_range].
  unfold cpu_of, with_F, with_A. simpl. by rewrite flags_put_NZ, flags_put_C, flags_put_V.
Qed.

Lemma refines_adc : readable (d_mode id) = true →
  refines (emul_adc id i) (spec_effect f_adc (d_mode id) (i_op1 i) (i_op2 i) c).
Proof.
  intros Hrd. pose proof v_byte as Hv. pose proof (ok_A r Hr) as Ha.
  unfold spec_effect. fold c. fold v. unfold spec_adc. cbn [cF cA c cpu_of].
  pose proof (bcd_value_bound _ Ha) as Hba. pose proof (bcd_value_bound _ Hv) as Hbv.
  destruct (fD (flags_of (P r))) eqn:Hd.
  - assert (0 ≤ Z.b2z (fC (flags_of (P r))) ≤ 1) by (destruct (fC _); simpl; lia).
    set (s := bcd_value (A r) + bcd_value v + Z.b2z (fC (flags_of (P r)))).
    rewrite <- to_bcd_val by apply u8_byte. apply refines_arith; [apply to_bcd_byte|].
    unfold emul_adc. do 5 runs_step. test_flag Hd.
    rewrite !from_bcd_val, sum_val by (try done; lia). fold s.
    do 2 runs_step. test_flag Hd. do 2 runs_step. test_flag Hd.
    do 2 runs_step. eapply runs_eq; [runs_all|done| |done]. cbn [A P regs_A regs_P].
    rewrite overflow_bits, (bit7_sign (A r)), (bit7_sign v) by done.
    by replace (s >? 99) with (100 <=? s) by lia.
  - set (s := A r + v + Z.b2z (fC (flags_of (P r)))).
    apply refines_arith; [apply u8_byte|].
    unfold emul_adc. do 5 runs_step. test_flag Hd. rewrite sum_val by done. fold s.
    do 2 runs_step. test_flag Hd. do 2 runs_step. test_flag Hd.
    do 2 runs_step. eapply runs_eq; [runs_all|done| |done]. cbn [A P regs_A regs_P].
    rewrite overflow_bits, (bit7_sign (A r)), (bit7_sign v), bit7_mod by done.
    replace (s >? 0xFF) with (256 <=? s) by lia. unfold s. by rewrite adc_overflow by done.
Qed.

Lemma refines_sbc : readable (d_mode id) = true →
  refines (emul_sbc id i) (spec_effect f_sbc (d_mode id) (i_op1 i) (i_op2 i) c).
Proof.
  intros Hrd. pose proof v_byte as Hv. pose proof (ok_A r Hr) as Ha.
  unfold spec_effect. fold c. fold v. unfold spec_sbc. cbn [cF cA c cpu_of].
  pose proof (bcd_value_bound _ Ha) as Hba. pose proof (bcd_value_bound _ Hv) as Hbv.
  assert (0 ≤ Z.b2z (fC (flags_of (P r))) ≤ 1) by (destruct (fC _); simpl; lia).
  destruct (fD (flags_of (P r))) eqn:Hd.
  - set (s := bcd_value (A r) - bcd_value v - (1 - Z.b2z (fC (flags_of (P r))))).
    rewrite <- sbc_bcd_val, <- bcd_no_borrow by lia. apply refines_arith; [apply to_bcd_byte|].
    unfold emul_sbc. do 5 runs_step. test_flag Hd. rewrite !from_bcd_val, diff_val by done. fold s.
    do 2 runs_step. test_flag Hd. do 2 runs_step. test_flag Hd.
    do 2 runs_step. eapply runs_eq; [runs_all|done| |done]. cbn [A P regs_A regs_P].
    by rewrite overflow_bits, (bit7_sign (A r)), bit7_compl by done.
  - set (s := A r - v - (1 - Z.b2z (fC (flags_of (P r))))).
    rewrite <- no_borrow by lia. apply refines_arith; [apply u8_byte|].
    unfold emul_sbc. do 5 runs_step. test_flag Hd. rewrite diff_val. fold s.
    do 2 runs_step. test_flag Hd. do 2 runs_step. test_flag Hd.
    do 2 runs_step. eapply runs_eq; [runs_all|done| |done]. cbn [A P regs_A regs_P].
    rewrite overflow_bits, (bit7_sign (A r)), bit7_compl, bit7_mod by done.
    unfold u8. rewrite mod65536_mod256.
    pose proof (sbc_overflow (A r) v (fC (flags_of (P r))) Ha Hv) as E. fold s in E.
    by rewrite E.
Qed.

(** *** Subroutines and returns *)

Lemma refines_jsr : refines (emul_jsr id i) (spec_effect f_jsr (d_mode id) (i_op1 i) (i_op2 i) c).
Proof.
  pose proof Hi as (_&H1&H2). destruct (abs_word _ _ H1 H2) as [_ Hw].
  pose proof (u16_word (PC r + 2)) as Hret. pose proof (ok_SP r Hr) as Hsp.
  unfold emul_jsr. rewrite op_word. eexists _, _. split; [|split].
  - cbv zeta. runs_step. eapply runs_bind; [apply runs_push; [done|done|by apply shiftr8_byte]|].
    eapply runs_bind; [apply runs_push; [done|simpl; apply u8_byte|rewrite land_255; apply u8_byte]|].
    runs_all.
  - unfold cpu_of. simpl. rewrite shiftr8_div, land_255. reflexivity.
  - regs_range.
Qed.

Lemma pop_two : u8 (u8 (SP r + 1) + 1) = u8 (SP r + 2).
Proof. rewrite u8_add_l. f_equal. lia. Qed.
Lemma pop_three : u8 (u8 (SP r + 2) + 1) = u8 (SP r + 3).
Proof. rewrite u8_add_l. f_equal. lia. Qed.

Lemma pop_word n k : u16 (spec_pop n c ||| (spec_pop k c ≪ 8)) = word_of (spec_pop n c) (spec_pop k c).
Proof.
  pose proof (pop_byte n). pose proof (pop_byte k). rewrite lohi_add by done.
  unfold word_of. rewrite u16_small; lia.
Qed.
Lemma pop_word_range n k : word (word_of (spec_pop n c) (spec_pop k c)).
Proof. rewrite <- pop_word. apply u16_word. Qed.

Lemma refines_rts : refines (emul_rts id i) (spec_effect f_rts (d_mode id) (i_op1 i) (i_op2 i) c).
Proof.
  pose proof (pop_word_range 1 2). eexists _, (m). split; [|split].
  - unfold emul_rts. eapply runs_bind; [by apply runs_pop|]. eapply runs_bind; [by apply runs_pop|].
    cbn [SP regs_SP]. rewrite pop_two. runs_step.
  - unfold cpu_of, spec_effect, with_PC. cbn [PC regs_PC]. f_equal. exact (pop_word 1 2).
  - destruct Hr; split; simpl; try done; crange.
Qed.

Lemma refines_rti : refines (emul_rti id i) (spec_effect f_rti (d_mode id) (i_op1 i) (i_op2 i) c).
Proof.
  pose proof (pop_word_range 2 3). pose proof (pop_byte 1) as H1. eexists _, (m). split; [|split].
  - unfold emul_rti. eapply runs_bind; [by apply runs_pop|]. runs_step.
    eapply runs_bind; [by apply runs_pop|]. eapply runs_bind; [by apply runs_pop|].
    cbn [SP regs_SP regs_P]. rewrite pop_two, pop_three. runs_step.
  - unfold cpu_of, spec_effect, with_PC. cbn [PC regs_PC]. f_equal; [exact (pop_word 2 3)|].
    apply plp_status.
  - destruct Hr; split; simpl; try done; try crange.
    by apply status_from_stack_byte.
Qed.

Lemma refines_txs : refines (emul_txs id i) (with_SP (X r) c).
Proof.
  eexists _, _. split; [unfold emul_txs; runs_all|]. split; [done|regs_range].
Qed.

Lemma refines_nop : refines (emul_nop id i) c.
Proof. exists r, m. split; [apply runs_ret|done]. Qed.

(** *** Interrupts *)

Lemma runs_modify_irq b r1 m1 : runs_to e (modify (set_irq b)) r1 m1 tt (set_irq b e) r1 m1.
Proof. intros t Ht. by exists t. Qed.

Lemma bytes_after_push x : byte x → bytes (cM (spec_push x c)).
Proof. intros Hx. by apply bytes_upd. Qed.

Lemma runs_irq : ∃ r' m', runs_to e rk65c02_irq r m tt (set_irq false e) r' m' ∧
  cpu_of r' m' false w = spec_interrupt c ∧ regs_ok r'.
Proof.
  pose proof Hr as []. pose proof (u8_byte (SP r - 1)). pose proof (u8_byte (u8 (SP r - 1) - 1)).
  set (m3 := upd (upd (upd m (0x100 + SP r) (PC r / 256)) (0x100 + u8 (SP r - 1)) (PC r mod 256))
    (0x100 + u8 (u8 (SP r - 1) - 1)) (P r)).
  assert (bytes m3) as Hm3.
  { unfold m3. rewrite <- shiftr8_div. repeat apply bytes_upd; try done; [by apply shiftr8_byte|].
    apply u8_byte. }
  assert (word (m3 0xFFFE ||| (m3 0xFFFF ≪ 8))) as Hw by (apply lohi_word; apply Hm3; lia).
  eexists _, m3. split; [|split].
  - unfold rk65c02_irq. runs_step.
    eapply runs_bind; [apply runs_push; [done|done|by apply shiftr8_byte]|]. runs_step.
    eapply runs_bind; [apply runs_push; [done|done|rewrite land_255; apply u8_byte]|]. runs_step.
    eapply runs_bind; [apply runs_push; done|]. cbn [SP PC P regs_SP].
    rewrite shiftr8_div, land_255. do 3 runs_step. fold m3.
    eapply runs_bind; [apply runs_read; [done|unfold VECTOR_IRQ; lia]|]. runs_step.
    eapply runs_bind; [apply runs_read; [done|unfold VECTOR_IRQ; lia]|]. do 2 runs_step.
    apply runs_modify_irq.
  - unfold c, cpu_of, spec_interrupt, spec_push.
    cbn [with_SP with_M with_F with_PC with_Irq cA cX cY cPC cSP cF cM cIrq cPower
         A X Y PC SP P regs_PC regs_P regs_SP].
    rewrite status_flags, flags_put_B, flags_put_D, flags_put_I, u16_small by done.
    transitivity (mkCpu (A r) (X r) (Y r) (word_of (m3 0xFFFE) (m3 0xFFFF))
      (u8 (u8 (u8 (SP r - 1) - 1) - 1)) (set_B false (set_D false (set_I true (flags_of (P r)))))
      m3 false w); [|reflexivity].
    f_equal. exact (lohi_add (m3 0xFFFE) (m3 0xFFFF) (Hm3 0xFFFE ltac:(lia)) (Hm3 0xFFFF ltac:(lia))).
  - split; cbn [A X Y PC SP P regs_PC regs_P regs_SP]; try done;
      [apply u16_word|apply u8_byte|]. by repeat (apply status_put_byte; [split; done|]).
Qed.

End Routine.
End Routines.
