(* ===== verification/Refine.v ===== *)
(** The interpreter implements the instruction set: [rk65c02_exec] on plain
    memory does what [spec_step] of [IsaSpec] says. *)
From stdpp Require Import base numbers list gmap strings.
From S2P Require Import Prelude Types Isa BusSpec State Interfaces Mmu Instruction Emulation.
From S2P Require Import Disasm Debug Exec IsaSpec Invariant Runs IsaArith Routines.

(** ** The instruction table *)

(** The modes a routine can be used with: a routine that reads its operand
    needs one, a routine that writes it back needs a place to write. *)
Definition emul_mode_ok (f : emul_fn) (m : addressing_t) : bool :=
  match f with
  | f_adc | f_sbc | f_and | f_ora | f_eor | f_bit | f_cmp | f_cpx | f_cpy
  | f_lda | f_ldx | f_ldy => readable m
  | f_asl | f_lsr | f_rol | f_ror | f_dec | f_inc | f_trb | f_tsb
  | f_sta | f_stx | f_sty | f_stz
  | f_rmb0 | f_rmb1 | f_rmb2 | f_rmb3 | f_rmb4 | f_rmb5 | f_rmb6 | f_rmb7
  | f_smb0 | f_smb1 | f_smb2 | f_smb3 | f_smb4 | f_smb5 | f_smb6 | f_smb7 => writable m
  | f_bbr0 | f_bbr1 | f_bbr2 | f_bbr3 | f_bbr4 | f_bbr5 | f_bbr6 | f_bbr7
  | f_bbs0 | f_bbs1 | f_bbs2 | f_bbs3 | f_bbs4 | f_bbs5 | f_bbs6 | f_bbs7 => bool_decide (m = ZPR)
  | f_bcc | f_bcs | f_beq | f_bmi | f_bne | f_bpl | f_bra | f_bvc | f_bvs =>
      bool_decide (m = RELATIVE)
  | f_jmp => bool_decide (m = ABSOLUTE ∨ m = IABSOLUTE ∨ m = IABSOLUTEX)
  | f_jsr => bool_decide (m = ABSOLUTE)
  | f_invalid => true
  | _ => bool_decide (m = IMPLIED)
  end.

Record def_ok (id : instrdef_t) : Prop := {
  def_mode : emul_mode_ok (d_emul id) (d_mode id) = true;
  def_jumps : d_modify_pc id = jumps (d_emul id);
  def_size : d_emul id ≠ f_brk → d_size id = 1 + operand_bytes (d_mode id)
}.

Definition def_okb (id : instrdef_t) : bool :=
  emul_mode_ok (d_emul id) (d_mode id) && eqb (d_modify_pc id) (jumps (d_emul id)) &&
  (bool_decide (d_emul id = f_brk) || (d_size id =? 1 + operand_bytes (d_mode id))).

Lemma decode_ok o : byte o → def_ok (instruction_decode o).
Proof.
  intros Ho. assert (def_okb (instruction_decode o) = true) as H.
  { revert o Ho. apply byte_forall. vm_compute. reflexivity. }
  unfold def_okb in H. rewrite !andb_true_iff, orb_true_iff, bool_decide_eq_true in H.
  destruct H as [[H1 H2%eqb_prop] H3]. split; [done..|]. intros Hb. destruct H3; [done|lia].
Qed.

Section Refine.
Context {SY : Sys} {SB : SysBus} {BL : BusLaws sys_bus} {HO : HostOps} {JO : JitOps}.

Definition power_of (e : rk65c02emu) : power :=
  match state e, stopreason e with
  | STOPPED, WAI => Waiting
  | STOPPED, _ => Stopped
  | _, _ => Running
  end.

(** The fields a routine may change besides registers and memory: it can clear
    the interrupt line and stop the emulator. *)
Definition tuned (e e' : rk65c02emu) : Prop :=
  ∃ s sr q, e' = set_state s (set_stopreason sr (set_irq q e)) ∧
    (s = state e ∧ sr = stopreason e ∨ s = STOPPED ∧ (sr = STP ∨ sr = WAI)).

Lemma tuned_refl e : tuned e e.
Proof. exists (state e), (stopreason e), (irq e). auto. Qed.

Lemma tuned_trans e1 e2 e3 : tuned e1 e2 → tuned e2 e3 → tuned e1 e3.
Proof.
  intros (s&sr&q&->&H1) (s'&sr'&q'&->&H2). exists s', sr', q'. split; [done|].
  simpl in H2. destruct H2 as [[-> ->]|]; auto.
Qed.

(** [p] takes the machine [c] with its registers to [c']. *)
Definition simulates (e : rk65c02emu) (p : M unit) (r : reg_state_t) (m : Z → Z) (c' : cpu) : Prop :=
  ∃ e' r' m', runs_to e p r m tt e' r' m' ∧ cpu_of r' m' (irq e') (power_of e') = c' ∧
    regs_ok r' ∧ tuned e e'.

Lemma refines_simulates e p r m c' :
  refines e r m (irq e) (power_of e) p c' → simulates e p r m c'.
Proof. intros (r'&m'&Hp&Hc&Hr). exists e, r', m'. eauto using tuned_refl. Qed.

Section Dispatch.
Context (e : rk65c02emu) (He : plain e) (r : reg_state_t) (m : Z → Z)
  (Hr : regs_ok r) (Hm : bytes m) (id : instrdef_t) (i : instruction_t)
  (Hi : instruction_ok i) (Hid : def_ok id).

Let c : cpu := cpu_of r m (irq e) (power_of e).
Let effect (f : emul_fn) : cpu := spec_effect f (d_mode id) (i_op1 i) (i_op2 i) c.

Lemma simulates_stp : simulates e (emul_stp id i) r m (effect f_stp).
Proof.
  eexists (set_stopreason STP (set_state STOPPED e)), r, m. split_and!; [|done|done|].
  - intros b Hb. by exists b.
  - exists STOPPED, STP, (irq e). auto 6.
Qed.
Lemma simulates_wai : simulates e (emul_wai id i) r m (effect f_wai).
Proof.
  eexists (set_stopreason WAI (set_state STOPPED e)), r, m. split_and!; [|done|done|].
  - intros b Hb. by exists b.
  - exists STOPPED, WAI, (irq e). auto 6.
Qed.

Lemma simulates_irq r1 : regs_ok r1 →
  simulates e rk65c02_irq r1 m (spec_interrupt (cpu_of r1 m (irq e) (power_of e))).
Proof.
  intros Hr1.
  destruct (runs_irq e He r1 m (irq e) (power_of e) Hr1 Hm id i) as (r'&m'&Hrun&Hc&Hok).
  exists (set_irq false e), r', m'. split_and!; try done.
  exists (state e), (stopreason e), false. auto.
Qed.

Lemma simulates_brk : simulates e (emul_brk id i) r m (effect f_brk).
Proof.
  assert (regs_ok (regs_P (flag_put P_BREAK true (P r)) (regs_PC (u16 (PC r + 2)) r))) as Hr1.
  { destruct Hr; split; simpl; try done; [apply u16_word|].
    by apply (status_put_byte P_BREAK true). }
  destruct (simulates_irq _ Hr1) as (e'&r'&m'&Hrun&Hc&Hok&Ht).
  exists e', r', m'. split_and!; [exact Hrun| |done..].
  rewrite Hc. unfold effect, spec_effect, c, cpu_of, with_F, with_PC. cbn [A X Y PC SP P regs_P regs_PC cF cPC cA cX cY cSP cM cIrq cPower].
    by rewrite flags_put_B.
Qed.

(** The lemma of each routine, by family; [done] settles the conditions on the
    mode. *)
Ltac by_load p :=
  lazymatch p with
  | emul_lda _ _ => apply refines_lda
  | emul_ldx _ _ => apply refines_ldx
  | emul_ldy _ _ => apply refines_ldy
  | emul_and _ _ => apply refines_and
  | emul_ora _ _ => apply refines_ora
  | emul_eor _ _ => apply refines_eor
  | emul_tax _ _ => apply refines_tax
  | emul_tay _ _ => apply refines_tay
  | emul_tsx _ _ => apply refines_tsx
  | emul_txa _ _ => apply refines_txa
  | emul_tya _ _ => apply refines_tya
  | emul_dex _ _ => apply refines_dex
  | emul_dey _ _ => apply refines_dey
  | emul_inx _ _ => apply refines_inx
  | emul_iny _ _ => apply refines_iny
  | emul_adc _ _ => apply refines_adc
  | emul_sbc _ _ => apply refines_sbc
  | emul_bit _ _ => apply refines_bit
  end.
Ltac by_store p :=
  lazymatch p with
  | emul_sta _ _ => apply refines_sta
  | emul_stx _ _ => apply refines_stx
  | emul_sty _ _ => apply refines_sty
  | emul_stz _ _ => apply refines_stz
  | emul_dec _ _ => apply refines_dec
  | emul_inc _ _ => apply refines_inc
  | emul_asl _ _ => apply refines_asl
  | emul_lsr _ _ => apply refines_lsr
  | emul_rol _ _ => apply refines_rol
  | emul_ror _ _ => apply refines_ror
  | emul_trb _ _ => apply refines_trb
  | emul_tsb _ _ => apply refines_tsb
  end.
Ltac by_stack p :=
  lazymatch p with
  | emul_pha _ _ => apply refines_pha
  | emul_phx _ _ => apply refines_phx
  | emul_phy _ _ => apply refines_phy
  | emul_php _ _ => apply refines_php
  | emul_pla _ _ => apply refines_pla
  | emul_plx _ _ => apply refines_plx
  | emul_ply _ _ => apply refines_ply
  | emul_plp _ _ => apply refines_plp
  | emul_jsr _ _ => apply refines_jsr
  | emul_rts _ _ => apply refines_rts
  | emul_rti _ _ => apply refines_rti
  | emul_txs _ _ => apply refines_txs
  | emul_nop _ _ => apply refines_nop
  | emul_jmp _ _ => apply refines_jmp
  end.
Ltac by_flag p :=
  lazymatch p with
  | emul_clc _ _ => eapply (refines_clear e r m (irq e) (power_of e) Hr _ P_CARRY); [split; done|exact (flags_put_C _ false)|reflexivity]
  | emul_cld _ _ => eapply (refines_clear e r m (irq e) (power_of e) Hr _ P_DECIMAL); [split; done|exact (flags_put_D _ false)|reflexivity]
  | emul_cli _ _ => eapply (refines_clear e r m (irq e) (power_of e) Hr _ P_IRQ_DISABLE); [split; done|exact (flags_put_I _ false)|reflexivity]
  | emul_clv _ _ => eapply (refines_clear e r m (irq e) (power_of e) Hr _ P_SIGN_OVERFLOW); [split; done|exact (flags_put_V _ false)|reflexivity]
  | emul_sec _ _ => eapply (refines_set e r m (irq e) (power_of e) Hr _ P_CARRY); [split; done|exact (flags_put_C _ true)|reflexivity]
  | emul_sed _ _ => eapply (refines_set e r m (irq e) (power_of e) Hr _ P_DECIMAL); [split; done|exact (flags_put_D _ true)|reflexivity]
  | emul_sei _ _ => eapply (refines_set e r m (irq e) (power_of e) Hr _ P_IRQ_DISABLE); [split; done|exact (flags_put_I _ true)|reflexivity]
  end.
Ltac by_branch p :=
  lazymatch p with
  | emul_bcc _ _ => apply (refines_flag_branch e r m (irq e) (power_of e) Hr id i Hi P_CARRY negb _ (test_C (P r)))
  | emul_bcs _ _ => apply (refines_flag_branch e r m (irq e) (power_of e) Hr id i Hi P_CARRY (λ b, b) _ (test_C (P r)))
  | emul_bne _ _ => apply (refines_flag_branch e r m (irq e) (power_of e) Hr id i Hi P_ZERO negb _ (test_Z (P r)))
  | emul_beq _ _ => apply (refines_flag_branch e r m (irq e) (power_of e) Hr id i Hi P_ZERO (λ b, b) _ (test_Z (P r)))
  | emul_bpl _ _ => apply (refines_flag_branch e r m (irq e) (power_of e) Hr id i Hi P_NEGATIVE negb _ (test_N (P r)))
  | emul_bmi _ _ => apply (refines_flag_branch e r m (irq e) (power_of e) Hr id i Hi P_NEGATIVE (λ b, b) _ (test_N (P r)))
  | emul_bvc _ _ => apply (refines_flag_branch e r m (irq e) (power_of e) Hr id i Hi P_SIGN_OVERFLOW negb _ (test_V (P r)))
  | emul_bvs _ _ => apply (refines_flag_branch e r m (irq e) (power_of e) Hr id i Hi P_SIGN_OVERFLOW (λ b, b) _ (test_V (P r)))
  | emul_bra _ _ => apply (refines_branch e r m (irq e) (power_of e) Hr id i Hi true)
  end.
Ltac by_compare p :=
  lazymatch p with
  | emul_cmp _ _ => apply (refines_compare e He r m (irq e) (power_of e) Hr Hm id i Hi get_A (A r));
      [|by apply ok_A|done]
  | emul_cpx _ _ => apply (refines_compare e He r m (irq e) (power_of e) Hr Hm id i Hi get_X (X r));
      [|by apply ok_X|done]
  | emul_cpy _ _ => apply (refines_compare e He r m (irq e) (power_of e) Hr Hm id i Hi get_Y (Y r));
      [|by apply ok_Y|done]
  end.
Ltac by_bit :=
  lazymatch goal with
  | |- refines _ _ _ _ _ (emul_bbr _ _ _) _ => apply refines_bbr
  | |- refines _ _ _ _ _ (emul_bbs _ _ _) _ => apply refines_bbs
  | |- refines _ _ _ _ _ (emul_rmb _ _ _) _ => apply refines_rmb
  | |- refines _ _ _ _ _ (emul_smb _ _ _) _ => apply refines_smb
  end.

Lemma simulates_emul : simulates e (call_emul (d_emul id) id i) r m (effect (d_emul id)).
Proof.
  destruct Hid as [Hmode _ Hsize]. unfold effect. destruct (d_emul id) eqn:Ef;
    cbn [emul_mode_ok] in Hmode; cbn [call_emul];
    try (apply bool_decide_eq_true in Hmode).
  all: lazymatch goal with
       | |- simulates _ (emul_stp _ _) _ _ _ => exact simulates_stp
       | |- simulates _ (emul_wai _ _) _ _ _ => exact simulates_wai
       | |- simulates _ (emul_brk _ _) _ _ _ => exact simulates_brk
       | _ => apply refines_simulates
       end.
  all: try (lazymatch goal with |- refines _ _ _ _ _ ?p _ =>
    first [by_load p | by_store p | by_stack p | by_flag p] end; done).
  all: try (lazymatch goal with |- refines _ _ _ _ _ ?p _ => by_branch p end; by rewrite Hsize, Hmode).
  all: try (lazymatch goal with |- refines _ _ _ _ _ ?p _ => by_compare p end;
    intros r1 HX HY HA; first [rewrite <- HX | rewrite <- HY | rewrite <- HA];
    first [apply runs_get_A | apply runs_get_X | apply runs_get_Y]).
  all: try (unfold emul_bbr0, emul_bbr1, emul_bbr2, emul_bbr3, emul_bbr4, emul_bbr5, emul_bbr6,
    emul_bbr7, emul_bbs0, emul_bbs1, emul_bbs2, emul_bbs3, emul_bbs4, emul_bbs5, emul_bbs6,
    emul_bbs7, emul_rmb0, emul_rmb1, emul_rmb2, emul_rmb3, emul_rmb4, emul_rmb5, emul_rmb6,
    emul_rmb7, emul_smb0, emul_smb1, emul_smb2, emul_smb3, emul_smb4, emul_smb5, emul_smb6,
    emul_smb7; by_bit; first [done | lia | by rewrite Hmode | by rewrite Hsize, Hmode]).
  exact (refines_nop e r m (irq e) (power_of e) Hr id i).
Qed.

End Dispatch.
(** ** Fetching *)

Lemma runs_fetch_emu e r m pc : plain e → bytes m → word pc →
  let id := instruction_decode (m pc) in
  ∃ i, runs e (instruction_fetch_emu pc) r m i r m ∧ instruction_ok i ∧ i_opcode i = m pc ∧
    (1 ≤ operand_bytes (d_mode id) → i_op1 i = m (u16 (pc + 1))) ∧
    (2 ≤ operand_bytes (d_mode id) → i_op2 i = m (u16 (pc + 2))).
Proof.
  intros He Hm Hpc id. unfold instruction_fetch_emu.
  pose proof (u16_word (pc + 1)). pose proof (u16_word (pc + 2)). pose proof indeterminate_uint8.
  pose proof (Hm pc Hpc). pose proof (Hm _ (u16_word (pc + 1))). pose proof (Hm _ (u16_word (pc + 2))).
  destruct (mode_operands (d_mode id)) as [|[|[|n]]] eqn:Em.
  - exists (mkInstruction (m pc) indeterminate indeterminate). split_and!; try done; [| |].
    + eapply runs_bind; [by apply runs_fetch|]. fold id. rewrite Em. apply runs_ret.
    + by destruct (d_mode id).
    + by destruct (d_mode id).
  - exists (mkInstruction (m pc) (m (u16 (pc + 1))) indeterminate).
    split_and!; try done; [|].
    + eapply runs_bind; [by apply runs_fetch|]. fold id. rewrite Em.
      eapply runs_bind; [by apply runs_fetch|]. apply runs_ret.
    + by destruct (d_mode id).
  - exists (mkInstruction (m pc) (m (u16 (pc + 1))) (m (u16 (pc + 2)))).
    split_and!; try done; [].
    eapply runs_bind; [by apply runs_fetch|]. fold id. rewrite Em.
    eapply runs_bind; [by apply runs_fetch|]. eapply runs_bind; [by apply runs_fetch|]. apply runs_ret.
  - by destruct (d_mode id).
Qed.

(** Operand bytes an instruction does not have do not matter. *)
Lemma spec_effect_operands f mode a1 a2 b1 b2 c : emul_mode_ok f mode = true →
  (1 ≤ operand_bytes mode → a1 = b1) → (2 ≤ operand_bytes mode → a2 = b2) →
  spec_effect f mode a1 a2 c = spec_effect f mode b1 b2 c.
Proof.
  intros Hok H1 H2.
  destruct mode; cbn [operand_bytes] in *; try (rewrite H1 by lia); try (rewrite H2 by lia);
    try reflexivity; destruct f; first [reflexivity | discriminate Hok].
Qed.

(** ** One instruction *)

(** Nothing watches the core: no breakpoints, no trace, no disassembly, and no
    memory fault is being handled. *)
Record bare (e : rk65c02emu) : Prop := {
  bare_plain : plain e;
  bare_bps : bps_head e = [];
  bare_disasm : runtime_disassembly e = false;
  bare_trace : trace e = false;
  bare_reexec : mmu_fault_reexec e = false
}.

Lemma bare_tuned e e' : bare e → tuned e e' → bare e'.
Proof. by intros [[] ? ? ? ?] (s&sr&q&->&_). Qed.

Lemma runs_get_bind e {T} (k : rk65c02emu → M T) r m x e' r' m' :
  (∀ b, runs_to e (k (core e r b)) r m x e' r' m') → runs_to e (y ← get; k y) r m x e' r' m'.
Proof. intros H b Hb. exact (H b b Hb). Qed.

Lemma runs_gets e {T} (f : rk65c02emu → T) r m x :
  (∀ b, f (core e r b) = x) → runs e (gets f) r m x r m.
Proof. intros H b Hb. exists b. split; [|done]. unfold gets. by rewrite H. Qed.

(** The program counter after the routine. *)
Lemma simulates_finish e r m id : mmu_fault_reexec e = false → def_ok id → d_emul id ≠ f_brk →
  regs_ok r → simulates e (finish_instruction id) r m
    (let c := cpu_of r m (irq e) (power_of e) in
     if jumps (d_emul id) then c
     else with_PC ((cPC c + 1 + operand_bytes (d_mode id)) mod 65536) c).
Proof.
  intros Hx [_ Hj Hs] Hb Hr. rewrite <- Hj.
  exists e, (if d_modify_pc id then r else regs_PC (u16 (PC r + d_size id)) r), m.
  split_and!; [| | |apply tuned_refl].
  - unfold finish_instruction. apply runs_get_bind. intros b. simpl. rewrite Hx, andb_false_r.
    unfold instruction_modify_pc. destruct (d_modify_pc id); simpl; [apply runs_ret|].
    eapply runs_bind; [apply runs_get_PC|]. apply runs_put_PC.
  - rewrite Hs by done. destruct (d_modify_pc id); [done|].
    unfold cpu_of, with_PC, u16. simpl. by rewrite <- Z.add_assoc.
  - destruct (d_modify_pc id); [done|]. destruct Hr; split; simpl; try done. apply u16_word.
Qed.

Lemma simulates_finish_brk e r m id : mmu_fault_reexec e = false → def_ok id → d_emul id = f_brk →
  regs_ok r → simulates e (finish_instruction id) r m (cpu_of r m (irq e) (power_of e)).
Proof.
  intros Hx [_ Hj Hs] Hb Hr. exists e, r, m. split_and!; [|done|done|apply tuned_refl].
  unfold finish_instruction. apply runs_get_bind. intros b. simpl. rewrite Hx, andb_false_r.
  unfold instruction_modify_pc. rewrite Hj, Hb. apply runs_ret.
Qed.

(** Fetch, emulate, advance. *)
Lemma instruction_phases e r m : plain e → mmu_fault_reexec e = false → regs_ok r → bytes m →
  ∃ i e1 r1 m1 e2 r2 m2, let id := instruction_decode (i_opcode i) in
    runs e (instruction_fetch_emu (PC r)) r m i r m ∧
    runs_to e (call_emul (d_emul id) id i) r m tt e1 r1 m1 ∧
    runs_to e1 (finish_instruction id) r1 m1 tt e2 r2 m2 ∧
    cpu_of r2 m2 (irq e2) (power_of e2) = spec_instruction (cpu_of r m (irq e) (power_of e)) ∧
    regs_ok r2 ∧ tuned e e2.
Proof.
  intros He Hx Hr Hm. pose proof (ok_PC r Hr) as Hpc.
  destruct (runs_fetch_emu e r m (PC r) He Hm Hpc) as (i&Hf&Hi&Hop&H1&H2).
  set (id := instruction_decode (m (PC r))). pose proof (decode_ok (m (PC r)) (Hm _ Hpc)) as Hid.
  fold id in Hid, H1, H2.
  destruct (simulates_emul e He r m Hr Hm id i Hi Hid) as (e1&r1&m1&Hrun&Hc&Hr1&Ht).
  assert (mmu_fault_reexec e1 = false) as Hx1 by (by destruct Ht as (?&?&?&->&_)).
  assert (simulates e1 (finish_instruction id) r1 m1
    (let c := cpu_of r1 m1 (irq e1) (power_of e1) in
     if jumps (d_emul id) then c
     else with_PC ((cPC c + 1 + operand_bytes (d_mode id)) mod 65536) c))
    as (e2&r2&m2&Hrun2&Hc2&Hr2&Ht2).
  { destruct (decide (d_emul id = f_brk)) as [Hb|Hb]; [|by apply simulates_finish].
    rewrite Hb. by apply simulates_finish_brk. }
  exists i, e1, r1, m1, e2, r2, m2. rewrite Hop. fold id.
  split_and!; [done..| |done|by eapply tuned_trans]. rewrite Hc2, Hc.
  by rewrite (spec_effect_operands _ _ (i_op1 i) (i_op2 i) _ _ _ (def_mode id Hid) H1 H2).
Qed.

Lemma simulates_pending_irq e r m : plain e → regs_ok r → bytes m →
  simulates e (if irq e && negb (ctrue (P r &&& P_IRQ_DISABLE)) then rk65c02_irq else mret tt) r m
    (let c := cpu_of r m (irq e) (power_of e) in
     if cIrq c && negb (fI (cF c)) then spec_interrupt c else c).
Proof.
  intros He Hr Hm. rewrite test_I. cbn [cIrq cF cpu_of].
  destruct (irq e && negb (fI (flags_of (P r)))).
  - apply (simulates_irq e He m Hm instr_out_of_table (mkInstruction 0 0 0)). done.
  - exists e, r, m. split_and!; [apply runs_ret|done|done|apply tuned_refl].
Qed.

(** The instance [e] is in the state [c] of the specification. *)
Record represents (e : rk65c02emu) (c : cpu) : Prop := {
  rep_regs : regs_ok (regs e);
  rep_mem : holds (bus e) (cM c);
  rep_cpu : cpu_of (regs e) (cM c) (irq e) (power_of e) = c
}.

(** What an instruction leaves alone: everything but registers, memory, the
    interrupt line and, when it stops the emulator, the run state. *)
Definition stepped (e e' : rk65c02emu) : Prop :=
  ∃ e1 r b, tuned e e1 ∧ e' = core e1 r b.

Lemma stepped_bare e e' : bare e → stepped e e' → bare e'.
Proof. intros He (e1&r&b&Ht&->). by destruct (bare_tuned e e1 He Ht) as [[] ? ? ? ?]. Qed.

Lemma exec_runs e m b : bare e → regs_ok (regs e) → holds b m →
  simulates e rk65c02_exec (regs e) m (spec_step (cpu_of (regs e) m (irq e) (power_of e))).
Proof.
  intros He Hr Hm. pose proof He as [Hp _ _ _ _].
  destruct (simulates_pending_irq e (regs e) m Hp Hr (holds_bytes _ _ Hm))
    as (e1&r1&m1&Hrun1&Hc1&Hr1&Ht1).
  pose proof (bare_tuned e e1 He Ht1) as [Hp1 Hb1 Hd1 _ Hx1].
  destruct (Hrun1 b Hm) as (b1&_&Hm1%holds_bytes).
  destruct (instruction_phases e1 r1 m1 Hp1 Hx1 Hr1 Hm1)
    as (i&e2&r2&m2&e3&r3&m3&Hf&He2&He3&Hc&Hr3&Ht3).
  pose proof (tuned_trans e e1 e3 Ht1 Ht3) as Ht. pose proof (bare_tuned e e3 He Ht) as [_ _ _ Htr _].
  exists e3, r3, m3. split_and!; [| |done|done].
  - unfold rk65c02_exec. eapply runs_bind; [apply runs_get_PC|].
    apply runs_get_bind. intros b'. eapply runs_bind; [exact Hrun1|].
    eapply runs_bind; [apply runs_get_bind; intros b2; simpl; rewrite Hb1; apply runs_ret|].
    eapply runs_bind; [by apply (runs_gets _ runtime_disassembly _ _ false)|].
    eapply runs_bind; [apply runs_ret|]. eapply runs_bind; [apply runs_get_PC|].
    eapply runs_bind; [exact Hf|]. eapply runs_bind; [exact He2|]. eapply runs_bind; [exact He3|].
    eapply runs_bind; [by apply (runs_gets _ trace _ _ false)|]. apply runs_ret.
  - rewrite Hc, Hc1. reflexivity.
Qed.

Lemma exec_refines e c : bare e → represents e c →
  ∃ e', rk65c02_exec e = (Ret tt, e') ∧ represents e' (spec_step c) ∧ stepped e e'.
Proof.
  intros He [Hr Hm Hc].
  destruct (exec_runs e (cM c) (bus e) He Hr Hm) as (e1&r1&m1&Hrun&Hc1&Hr1&Ht).
  destruct (Hrun (bus e) Hm) as (b1&E&Hb1).
  exists (core e1 r1 b1). split; [exact E|]. split; [|by exists e1, r1, b1].
  rewrite Hc in Hc1. rewrite <- Hc1. by split.
Qed.

(** C1: the interpreter implements the instruction set.  On plain memory, with
    no breakpoints, trace or fault in progress, [rk65c02_exec] returns, and it
    takes the state [c] of the specification to [spec_step c]: a pending
    unmasked interrupt is taken, then one instruction of the 256 is executed
    with its registers, flags, memory, stack and program counter.  Nothing
    else of the instance changes, except that STP and WAI stop it. *)
Theorem exec_refines_isa e c : bare e → represents e c →
  ∃ e', rk65c02_exec e = (Ret tt, e') ∧ represents e' (spec_step c) ∧ stepped e e'.
Proof. apply exec_refines. Qed.

End Refine.
