(* ===== verification/RunRefine.v ===== *)
(** Runs of the interpreter: [rk65c02_step] and [rk65c02_start] against the
    iteration of the specification's step. *)
From stdpp Require Import base numbers list gmap strings.
From S2P Require Import Prelude Types Isa BusSpec State Interfaces Mmu Instruction Emulation.
From S2P Require Import Disasm Debug Exec IsaSpec Invariant Runs IsaArith Routines Refine.

(** At most [n] instructions, until the processor halts. *)
Fixpoint spec_run (n : nat) (c : cpu) : cpu :=
  match n with
  | O => c
  | S n' => match cPower c with Running => spec_run n' (spec_step c) | _ => c end
  end.

(** The stop reason of a run that ends in [c]; [last] when the processor is
    still running. *)
Definition run_reason (last : emu_stop_reason_t) (c : cpu) : emu_stop_reason_t :=
  match cPower c with Running => last | Waiting => WAI | Stopped => STP end.

Section RunRefine.
Context {SY : Sys} {SB : SysBus} {BL : BusLaws sys_bus} {HO : HostOps} {JO : JitOps}.

(** No callback is registered and no stop is requested. *)
Record quiet (e : rk65c02emu) : Prop := {
  quiet_tick : tick e = None;
  quiet_stop : on_stop e = None;
  quiet_idle : idle_wait e = None;
  quiet_request : stop_requested e = false
}.

Lemma stepped_quiet e e' : quiet e → stepped e e' → quiet e'.
Proof. by intros [] (e1&r&b&(s&sr&q&->&_)&->). Qed.

Lemma apply_stop_none e : stop_requested e = false →
  rk65c02_apply_host_stop_request e = (Ret tt, e).
Proof.
  intros Hq. unfold rk65c02_apply_host_stop_request. erewrite bind_Ret by reflexivity.
  cbv beta. by rewrite Hq.
Qed.
Lemma maybe_tick_none e : tick e = None → rk65c02_maybe_tick e = (Ret tt, e).
Proof.
  intros Ht. unfold rk65c02_maybe_tick. erewrite bind_Ret by reflexivity. by rewrite Ht.
Qed.

Lemma poll_quiet e : quiet e → rk65c02_poll_host_controls e = (Ret tt, e).
Proof.
  intros [Ht _ _ Hq]. unfold rk65c02_poll_host_controls.
  erewrite bind_Ret by by apply apply_stop_none. erewrite bind_Ret by by apply maybe_tick_none.
  by apply apply_stop_none.
Qed.

(** The run state after an instruction follows the specification's. *)
Lemma stepped_state e c e' c' : represents e c → represents e' c' → stepped e e' →
  state e ≠ STOPPED →
  match cPower c' with
  | Running => state e' = state e
  | _ => state e' = STOPPED ∧ ∀ last, stopreason e' = run_reason last c'
  end.
Proof.
  intros _ [_ _ <-] (e1&r&b&(s&sr&q&->&Hs)&->) Hne.
  unfold cpu_of, power_of, run_reason. simpl in *.
  destruct Hs as [[-> ->]|[-> [ -> | -> ]]]; simpl; [|done..]. by destruct (state e).
Qed.

(** The loop of [rk65c02_step]. *)
Lemma step_loop_refines n e c :
  bare e → quiet e → state e = STEPPING → represents e c →
  ∃ e', step_loop n e = (Ret tt, e') ∧ represents e' (spec_run n c) ∧ bare e' ∧ quiet e' ∧
    match cPower (spec_run n c) with
    | Running => state e' = STEPPING
    | _ => state e' = STOPPED ∧ ∀ last, stopreason e' = run_reason last (spec_run n c)
    end.
Proof.
  revert e c. induction n as [|n IH]; intros e c Hb Hq Hs Hc.
  - exists e. cbn [spec_run]. assert (cPower c = Running) as ->.
    { destruct Hc as [_ _ <-]. simpl. unfold power_of. by rewrite Hs. }
    done.
  - assert (cPower c = Running) as Hp.
    { destruct Hc as [_ _ <-]. simpl. unfold power_of. by rewrite Hs. }
    cbn [spec_run]. rewrite Hp.
    destruct (exec_refines e c Hb Hc) as (e1&E1&Hc1&Hst).
    pose proof (stepped_bare _ _ Hb Hst) as Hb1. pose proof (stepped_quiet _ _ Hq Hst) as Hq1.
    pose proof (stepped_state _ _ _ _ Hc Hc1 Hst ltac:(by rewrite Hs)) as Hs1.
    assert (step_loop (S n) e = step_loop n e1) as ->.
    { cbn [step_loop]. erewrite bind_Ret by reflexivity. rewrite bool_decide_true by done.
      cbn [negb]. erewrite bind_Ret by by apply poll_quiet. erewrite bind_Ret by reflexivity.
      rewrite bool_decide_true by done. cbn [negb]. erewrite bind_Ret by exact E1.
      by erewrite bind_Ret by by apply poll_quiet. }
    destruct (cPower (spec_step c)) eqn:Hp1.
    + apply IH; [done..| |done]. by rewrite Hs1.
    + exists e1. destruct Hs1 as [Hs1 Hr1]. split.
      { destruct n; [done|]. cbn [step_loop]. erewrite bind_Ret by reflexivity.
        by rewrite bool_decide_false by (rewrite Hs1; done). }
      destruct n; cbn [spec_run]; rewrite ?Hp1; by rewrite ?Hp1.
    + exists e1. destruct Hs1 as [Hs1 Hr1]. split.
      { destruct n; [done|]. cbn [step_loop]. erewrite bind_Ret by reflexivity.
        by rewrite bool_decide_false by (rewrite Hs1; done). }
      destruct n; cbn [spec_run]; rewrite ?Hp1; by rewrite ?Hp1.
Qed.

(** An instance on its own: plain memory once the accessors are refreshed, no
    JIT, nothing watching, no callbacks. *)
Record stand_alone (e : rk65c02emu) : Prop := {
  sa_direct : accessors_for e = mem_direct;
  sa_jit : jit e = None;
  sa_bps : bps_head e = [];
  sa_disasm : runtime_disassembly e = false;
  sa_trace : trace e = false;
  sa_tick : tick e = None;
  sa_stop : on_stop e = None;
  sa_idle : idle_wait e = None
}.

(** What [rk65c02_step] and [rk65c02_start] do before they run. *)
Definition prepared (s : emu_state_t) (e : rk65c02emu) : rk65c02emu :=
  set_state s (refreshed (set_tick_countdown (tick_interval e) (set_stop_requested false e))).

Lemma prepared_bare s e : stand_alone e → mmu_fault_reexec e = false → bare (prepared s e).
Proof. by intros [Hd] Hx. Qed.
Lemma prepared_quiet s e : stand_alone e → quiet (prepared s e).
Proof. by intros []. Qed.

Lemma represents_power e c s w : represents e c →
  power_of (prepared s e) = w → represents (prepared s e) (with_Power w c).
Proof. intros [Hr Hm <-] <-. by split. Qed.

Lemma on_stop_none e : on_stop e = None → rk65c02_maybe_call_on_stop e = (Ret tt, e).
Proof.
  intros H. unfold rk65c02_maybe_call_on_stop. erewrite bind_Ret by reflexivity. by rewrite H.
Qed.

(** The instance at the end of a run: the registers, memory and interrupt line
    of [c], stopped for the reason [last], or for that of the processor's
    halt. *)
Record ended (last : emu_stop_reason_t) (e : rk65c02emu) (c : cpu) : Prop := {
  ended_state : state e = STOPPED;
  ended_reason : stopreason e = run_reason last c;
  ended_rep : represents e (with_Power (power_of e) c)
}.

Lemma represents_ended last e c : represents e c → state e = STOPPED →
  stopreason e = run_reason last c → ended last e c.
Proof. intros [Hr Hm Hc] Hs Hx. split; [done..|]. split; [done..|]. by rewrite <- Hc. Qed.

(** C5: [rk65c02_step] executes the given number of instructions.  On flat RAM
    and an instance on its own (MMU off or identity, no JIT backend, no
    breakpoints, tracing or disassembly, no callbacks) that has no re-execution
    pending it returns, with the registers and memory of [spec_run], stopped:
    with reason STEPPED when the processor is still running, and early with STP
    or WAI when it halted. *)
Theorem step_refines_isa e c steps :
  stand_alone e → mmu_fault_reexec e = false → represents e c →
  ∃ e', rk65c02_step steps e = (Ret tt, e') ∧
    ended STEPPED e' (spec_run (Z.to_nat steps) (with_Power Running c)).
Proof.
  intros Ha Hx Hc. set (c0 := with_Power Running c). set (n := Z.to_nat steps).
  destruct (step_loop_refines n (prepared STEPPING e) c0) as (e1&E1&Hc1&_&Hq1&Hp1).
  { by apply prepared_bare. } { by apply prepared_quiet. } { done. } { by apply represents_power. }
  unfold rk65c02_step. rewrite refresh_modify. do 4 erewrite bind_Ret by reflexivity. fold n.
  erewrite bind_Ret by exact E1. erewrite bind_Ret by by apply poll_quiet.
  erewrite bind_Ret by reflexivity. destruct (cPower (spec_run n c0)) eqn:Hpw.
  - rewrite bool_decide_true by done.
    exists (set_stopreason STEPPED (set_state STOPPED e1)). split.
    { do 2 erewrite bind_Ret by reflexivity. rewrite bool_decide_true by done.
      apply on_stop_none. by destruct Hq1. }
    split; [done| |]; simpl; [unfold run_reason; by rewrite Hpw|].
    destruct Hc1 as [Hr Hm Hcp]. split; [done..|]. by rewrite <- Hcp.
  - destruct Hp1 as [Hs1 Hr1]. rewrite bool_decide_false by (rewrite Hs1; done).
    exists e1. split; [|by apply represents_ended].
    do 2 erewrite bind_Ret by reflexivity. rewrite bool_decide_true by done.
    apply on_stop_none. by destruct Hq1.
  - destruct Hp1 as [Hs1 Hr1]. rewrite bool_decide_false by (rewrite Hs1; done).
    exists e1. split; [|by apply represents_ended].
    do 2 erewrite bind_Ret by reflexivity. rewrite bool_decide_true by done.
    apply on_stop_none. by destruct Hq1.
Qed.

(** The interpreter loop: out of fuel while the processor runs, and otherwise
    back with its final state. *)
Definition loop_result (n : nat) (c : cpu) (res : outcome unit * rk65c02emu) : Prop :=
  match cPower (spec_run n c) with
  | Running => res.1 = NoFuel
  | _ => ∃ e', res = (Ret tt, e') ∧ represents e' (spec_run n c) ∧ quiet e' ∧
      state e' = STOPPED ∧ ∀ last, stopreason e' = run_reason last (spec_run n c)
  end.

Lemma wait_none e : idle_wait e = None → rk65c02_maybe_wait_on_idle e = (Ret false, e).
Proof.
  intros H. unfold rk65c02_maybe_wait_on_idle. erewrite bind_Ret by reflexivity. by rewrite H.
Qed.

(** One iteration of the loop on an instance on its own. *)
Lemma interp_loop_S n e e1 : quiet e → state e = RUNNING → rk65c02_exec e = (Ret tt, e1) → quiet e1 →
  interp_loop (S n) e = if is_running e1 then interp_loop n e1 else (Ret tt, e1).
Proof.
  intros Hq Hs E Hq1.
  assert (is_running e = true) as Hr by (unfold is_running; by rewrite Hs).
  cbn [interp_loop]. erewrite bind_Ret by reflexivity. rewrite Hr. cbn [negb].
  erewrite bind_Ret by by apply poll_quiet. erewrite bind_Ret by reflexivity. rewrite Hr. cbn [negb].
  erewrite bind_Ret by exact E. erewrite bind_Ret by by apply poll_quiet.
  erewrite bind_Ret by reflexivity. destruct (is_running e1) eqn:Hr1; cbn [negb]; [done|].
  erewrite bind_Ret by by apply wait_none, quiet_idle. by erewrite bind_Ret by reflexivity.
Qed.

Lemma represents_running e c : represents e c → state e ≠ STOPPED → cPower c = Running.
Proof. intros [_ _ <-] Hs. simpl. unfold power_of. by destruct (state e). Qed.

Lemma interp_loop_refines n e c :
  bare e → quiet e → state e = RUNNING → represents e c → loop_result n c (interp_loop n e).
Proof.
  revert e c. induction n as [|n IH]; intros e c Hb Hq Hs Hc; unfold loop_result;
    pose proof (represents_running e c Hc ltac:(by rewrite Hs)) as Hp; cbn [spec_run]; rewrite Hp.
  { done. }
  destruct (exec_refines e c Hb Hc) as (e1&E1&Hc1&Hst).
  pose proof (stepped_bare _ _ Hb Hst) as Hb1. pose proof (stepped_quiet _ _ Hq Hst) as Hq1.
  pose proof (stepped_state _ _ _ _ Hc Hc1 Hst ltac:(by rewrite Hs)) as Hs1.
  rewrite (interp_loop_S n e e1) by done.
  destruct (cPower (spec_step c)) eqn:Hp1.
  - assert (is_running e1 = true) as -> by (unfold is_running; by rewrite Hs1, Hs).
    apply IH; try done. by rewrite Hs1.
  - destruct Hs1 as [Hs1 Hr1].
    assert (is_running e1 = false) as -> by (unfold is_running; by rewrite Hs1).
    assert (spec_run n (spec_step c) = spec_step c) as -> by (destruct n; simpl; by rewrite ?Hp1).
    rewrite Hp1. by exists e1.
  - destruct Hs1 as [Hs1 Hr1].
    assert (is_running e1 = false) as -> by (unfold is_running; by rewrite Hs1).
    assert (spec_run n (spec_step c) = spec_step c) as -> by (destruct n; simpl; by rewrite ?Hp1).
    rewrite Hp1. by exists e1.
Qed.

(** What follows the loop of [rk65c02_start]. *)
Definition start_epilogue : M unit :=
  rk65c02_poll_host_controls;;
  e ← get;
  if bool_decide (state e = STOPPED) then rk65c02_maybe_call_on_stop else mret tt.

Lemma epilogue_quiet e : quiet e → state e = STOPPED → start_epilogue e = (Ret tt, e).
Proof.
  intros Hq Hs. unfold start_epilogue. erewrite bind_Ret by by apply poll_quiet.
  erewrite bind_Ret by reflexivity. rewrite bool_decide_true by done. by apply on_stop_none, quiet_stop.
Qed.

(** Without a JIT, [rk65c02_start] is the interpreter loop between its
    prologue and epilogue. *)
Definition start_ready (e : rk65c02emu) : rk65c02emu :=
  prepared RUNNING (set_use_jit (jit_requested e) (set_mmu_fault_reexec false e)).

Lemma start_interp run_jit n e : jit e = None →
  rk65c02_start run_jit n e =
    (interp_loop n;; start_epilogue) (start_ready e).
Proof.
  intros Hj. unfold rk65c02_start. rewrite refresh_modify. do 6 erewrite bind_Ret by reflexivity.
  assert (∀ e', jit e' = None → rk65c02_can_use_jit e' = false) as ->; [|done|done].
  intros e' Hj'. unfold rk65c02_can_use_jit. rewrite Hj'.
  rewrite bool_decide_false by (by intros [? [=]]). by rewrite andb_false_r.
Qed.

(** How a run ends that has the specification's state [c'] when its loop is
    left, or is out of fuel. *)
Definition start_result (c' : cpu) (res : outcome unit * rk65c02emu) : Prop :=
  match cPower c' with
  | Running => res.1 = NoFuel
  | _ => ∃ e', res = (Ret tt, e') ∧ ended HOST e' c'
  end.

Lemma loop_start n c (loop : M unit) e : loop_result n c (loop e) →
  start_result (spec_run n c) ((loop;; start_epilogue) e).
Proof.
  unfold loop_result, start_result. intros Hl. destruct (cPower (spec_run n c)).
  { unfold mbind at 1, M_bind at 1. by destruct (loop e) as [[] ?]. }
  all: destruct Hl as (e'&E&Hc1&Hq1&Hs1&Hr1); exists e'; split; [|by apply represents_ended].
  all: erewrite bind_Ret by exact E; by apply epilogue_quiet.
Qed.

Lemma start_refines e c run_jit n : stand_alone e → represents e c →
  start_result (spec_run n (with_Power Running c)) (rk65c02_start run_jit n e).
Proof.
  intros Ha Hc.
  assert (stand_alone (set_use_jit (jit_requested e) (set_mmu_fault_reexec false e))) as Ha0
    by by destruct Ha.
  assert (represents (set_use_jit (jit_requested e) (set_mmu_fault_reexec false e)) c) as Hc0
    by by destruct Hc.
  rewrite start_interp by by apply sa_jit. apply loop_start.
  exact (interp_loop_refines n (start_ready e) (with_Power Running c)
    (prepared_bare _ _ Ha0 eq_refl) (prepared_quiet _ _ Ha0) eq_refl
    (represents_power _ _ RUNNING _ Hc0 eq_refl)).
Qed.

(** C4: [rk65c02_start] runs until the processor halts.  On flat RAM and an
    instance on its own (MMU off or identity, no JIT backend, no breakpoints,
    tracing or disassembly, no callbacks), started with fuel for [n]
    instructions, it returns exactly when the specification halts within [n]
    steps, and then with the halted state, stopped by STP or WAI; the fuel of
    the model runs out exactly when the processor is still running after [n]
    instructions. *)
Theorem start_refines_isa e c run_jit n (c' := spec_run n (with_Power Running c)) :
  stand_alone e → represents e c →
  match cPower c' with
  | Running => (rk65c02_start run_jit n e).1 = NoFuel
  | _ => ∃ e', rk65c02_start run_jit n e = (Ret tt, e') ∧ ended HOST e' c'
  end.
Proof. apply start_refines. Qed.

End RunRefine.
