(* ===== verification/Fuel.v ===== *)
(** The fuel of the loops is only a bound: more of it never changes a run that
    ends. *)
From stdpp Require Import base numbers list gmap strings.
From S2P Require Import Prelude Types Isa BusSpec State Interfaces Mmu Instruction Emulation.
From S2P Require Import Disasm Debug Exec.

(** ** Computations that differ in their fuel *)

Section Stable.
Context {SY : Sys}.

(** More fuel never changes an outcome. *)
Definition fuel_stable {T} (p q : M T) : Prop := ∀ e, (p e).1 ≠ NoFuel → q e = p e.

Lemma fuel_stable_refl {T} (p : M T) : fuel_stable p p.
Proof. done. Qed.

Lemma fuel_stable_bind {T U} (m m' : M T) (k k' : T → M U) :
  fuel_stable m m' → (∀ a, fuel_stable (k a) (k' a)) → fuel_stable (x ← m; k x) (x ← m'; k' x).
Proof.
  intros Hm H e. unfold mbind, M_bind. specialize (Hm e).
  destruct (m e) as [[a| | |] e1]; intros He; try done; rewrite Hm by done; try done. by apply H.
Qed.

Lemma fuel_stable_if {T} (b : bool) (p p' q q' : M T) :
  fuel_stable p p' → fuel_stable q q' → fuel_stable (if b then p else q) (if b then p' else q').
Proof. by destruct b. Qed.
End Stable.

Ltac fuel_steps :=
  repeat first [ assumption | apply fuel_stable_refl
               | apply fuel_stable_bind; [|intros ?] | apply fuel_stable_if ].

(** ** Runs *)

Section Fuel.
Context {SY : Sys} {SB : SysBus} {HO : HostOps} {JO : JitOps}.

Lemma interp_loop_stable n k : fuel_stable (interp_loop n) (interp_loop (n + k)).
Proof.
  induction n as [|n IH]; [by intros e|]. cbn [interp_loop Nat.add].
  fuel_steps.
Qed.

(** What [rk65c02_start] needs of the linked backend for its fuel to be only a
    bound. *)
Class FuelStable (run_jit : nat → M unit) : Prop :=
  run_jit_stable n k : fuel_stable (run_jit n) (run_jit (n + k)%nat).

#[export] Instance stub_stable : FuelStable stub_run_jit.
Proof. intros n k. pose proof (interp_loop_stable n k). unfold stub_run_jit. fuel_steps. Qed.

(** The fuel of the model is only a bound.  Whatever the callbacks do, a
    run of [rk65c02_start] that ends within some fuel ends in the same way with
    any larger amount, so that its outcome and final state do not depend on the
    fuel.  This holds for the stub and for the JIT backend of [jit.c]. *)
Theorem start_fuel_monotone run_jit {FS : FuelStable run_jit} n k e :
  (rk65c02_start run_jit n e).1 ≠ NoFuel →
  rk65c02_start run_jit (n + k) e = rk65c02_start run_jit n e.
Proof.
  revert e. change (fuel_stable (rk65c02_start run_jit n) (rk65c02_start run_jit (n + k))).
  pose proof (interp_loop_stable n k). pose proof (run_jit_stable n k). unfold rk65c02_start. fuel_steps.
Qed.

End Fuel.
