(* ===== verification/HostControl.v ===== *)
(** Control by the host: the polling points, stop requests, the tick callback,
    breakpoints, waking from WAI, and the fuel of the interpreter loop. *)
From stdpp Require Import base numbers list gmap strings.
From S2P Require Import Prelude Types Isa BusSpec State Interfaces Mmu Instruction Emulation.
From S2P Require Import Disasm Debug Exec IsaSpec Invariant Runs IsaArith Routines Refine.
From S2P Require Import RunRefine.

Section HostControl.
Context {SY : Sys} {SB : SysBus} {HO : HostOps} {JO : JitOps}.

(** ** Stop requests *)

(** The instance a stop request leads to. *)
Definition host_stopped (e : rk65c02emu) : rk65c02emu :=
  set_stop_requested false (set_stopreason HOST (set_state STOPPED e)).

Lemma apply_stop_requested e : stop_requested e = true →
  rk65c02_apply_host_stop_request e = (Ret tt, host_stopped e).
Proof.
  intros Hq. unfold rk65c02_apply_host_stop_request. erewrite bind_Ret by reflexivity.
  cbv beta. by rewrite Hq.
Qed.

Lemma maybe_tick_stopped e : state e = STOPPED → rk65c02_maybe_tick e = (Ret tt, e).
Proof.
  intros Hs. unfold rk65c02_maybe_tick. erewrite bind_Ret by reflexivity. rewrite Hs.
  by destruct (tick e).
Qed.

Lemma poll_requested e : stop_requested e = true →
  rk65c02_poll_host_controls e = (Ret tt, host_stopped e).
Proof.
  intros Hq. unfold rk65c02_poll_host_controls.
  erewrite bind_Ret by by apply apply_stop_requested.
  erewrite bind_Ret by by apply maybe_tick_stopped. by apply apply_stop_none.
Qed.

Lemma wait_other e : stopreason e ≠ WAI → rk65c02_maybe_wait_on_idle e = (Ret false, e).
Proof.
  intros H. unfold rk65c02_maybe_wait_on_idle. erewrite bind_Ret by reflexivity.
  destruct (idle_wait e); [|done]. destruct (idle_wait_enabled e); [|done].
  by rewrite (bool_decide_false (stopreason e = WAI)), andb_false_r.
Qed.

(** A stop request is honoured before the next instruction.  In either
    run loop, with any number of iterations left, an instance that is running
    with a stop requested is stopped with reason HOST, the request is cleared
    and no instruction is executed: registers and bus are those before. *)
Theorem stop_request_honoured n e : stop_requested e = true →
  (state e = RUNNING → interp_loop (S n) e = (Ret tt, host_stopped e)) ∧
  (state e = STEPPING → step_loop (S n) e = (Ret tt, host_stopped e)).
Proof.
  intros Hq. split; intros Hs.
  - assert (is_running e = true) as Hr by (unfold is_running; by rewrite Hs).
    cbn [interp_loop]. erewrite bind_Ret by reflexivity. rewrite Hr. cbn [negb].
    erewrite bind_Ret by by apply poll_requested.
    erewrite bind_Ret by reflexivity. change (is_running (host_stopped e)) with false. cbn [negb].
    by erewrite bind_Ret by by apply wait_other.
  - cbn [step_loop]. erewrite bind_Ret by reflexivity. rewrite bool_decide_true by done.
    cbn [negb]. by erewrite bind_Ret by by apply poll_requested.
Qed.

(** ** Ticks *)

Section Tick.
(** What the tick callback may do: anything that is counted by [calls] and
    leaves the tick settings and the run state alone, and requests no stop. *)
Context (cb : nat) (ctx interval : Z) (calls : rk65c02emu → Z).
Hypothesis interval_pos : 0 < interval.
Hypothesis tick_effect : ∀ e, ∃ e', host_tick cb ctx e = (Ret tt, e') ∧ calls e' = calls e + 1 ∧
  tick e' = tick e ∧ tick_ctx e' = tick_ctx e ∧ tick_interval e' = tick_interval e ∧
  state e' = state e ∧ stop_requested e' = stop_requested e.
Hypothesis calls_countdown : ∀ n e, calls (set_tick_countdown n e) = calls e.

(** The callback is registered and [passed] polls have passed since it ran. *)
Record ticking (passed : Z) (e : rk65c02emu) : Prop := {
  tk_cb : tick e = Some cb; tk_ctx : tick_ctx e = ctx; tk_interval : tick_interval e = interval;
  tk_active : is_active (state e) = true;
  tk_stop : stop_requested e = false;
  tk_count : tick_countdown e = interval - passed;
  tk_passed : 0 ≤ passed < interval
}.

(** The polling points that [n] iterations of a run loop pass. *)
Fixpoint polls (n : nat) : M unit :=
  match n with O => mret tt | S n' => rk65c02_poll_host_controls;; polls n' end.

Lemma maybe_tick_step passed e : ticking passed e →
  ∃ e', rk65c02_maybe_tick e = (Ret tt, e') ∧ ticking ((passed + 1) mod interval) e' ∧
    calls e' = calls e + (passed + 1) / interval.
Proof.
  intros [Hcb Hctx Hiv Hact Hq Hn Hp]. unfold rk65c02_maybe_tick. erewrite bind_Ret by reflexivity.
  rewrite Hcb, Hact, Hiv, Hctx, Hn. cbn [negb].
  rewrite (proj2 (Z.eqb_neq interval 0)) by lia.
  replace (interval - passed >? 0) with true by lia.
  do 2 erewrite bind_Ret by reflexivity. cbv beta. cbn [tick_countdown set_tick_countdown].
  destruct (Z.eqb_spec (interval - passed - 1) 0) as [Hz|Hz].
  - replace (passed + 1) with interval by lia.
    rewrite Z.mod_same, Z.div_same by lia.
    destruct (tick_effect (set_tick_countdown (interval - passed - 1) e))
      as (e1&E1&Hc1&Ht1&Hx1&Hi1&Hs1&Hq1).
    exists (set_tick_countdown interval e1). split.
    { erewrite bind_Ret by exact E1. unfold modify. by rewrite Hi1, <- Hiv. }
    split; [|by rewrite calls_countdown, Hc1, calls_countdown].
    cbn in Ht1, Hx1, Hi1, Hs1, Hq1. split; cbn; [congruence..|by rewrite Hs1|congruence|lia|lia].
  - rewrite Z.mod_small, Z.div_small by lia.
    exists (set_tick_countdown (interval - passed - 1) e). split; [done|].
    split; [|rewrite calls_countdown; lia]. split; cbn; try done; lia.
Qed.

(** A poll ticks once, between two looks at the stop request. *)
Lemma poll_step passed e : ticking passed e →
  ∃ e', rk65c02_poll_host_controls e = (Ret tt, e') ∧ ticking ((passed + 1) mod interval) e' ∧
    calls e' = calls e + (passed + 1) / interval.
Proof.
  intros He. destruct (maybe_tick_step passed e He) as (e'&E&He'&Hc). exists e'. split; [|done].
  unfold rk65c02_poll_host_controls. erewrite bind_Ret by (apply apply_stop_none, He).
  erewrite bind_Ret by exact E. apply apply_stop_none, He'.
Qed.

(** C24: the cadence of the tick callback.  Over [n] polls of an instance that
    is running or stepping, with a positive interval and the countdown at its
    start (right after the callback was set or called), the callback is called
    exactly once every [interval] polls: [n / interval] times.  This is for a
    callback that leaves the tick settings and the run state alone and requests
    no stop, whatever else it does. *)
Theorem tick_cadence n e : ticking 0 e →
  ∃ e', polls n e = (Ret tt, e') ∧ calls e' = calls e + Z.of_nat n / interval ∧
    ticking (Z.of_nat n mod interval) e'.
Proof.
  intros He. cut (∀ p, ticking p e → ∃ e', polls n e = (Ret tt, e') ∧
    calls e' = calls e + (p + Z.of_nat n) / interval ∧ ticking ((p + Z.of_nat n) mod interval) e').
  { intros H. destruct (H 0 He) as (e'&?&?&?). by exists e'. }
  clear He. revert e. induction n as [|n IH]; intros e p Hp.
  - exists e. pose proof (tk_passed p e Hp). rewrite Z.add_0_r, Z.div_small, Z.mod_small by lia.
    split; [done|]. split; [lia|done].
  - destruct (poll_step p e Hp) as (e1&E1&Hp1&Hc1). destruct (IH e1 _ Hp1) as (e2&E2&Hc2&Hp2).
    exists e2. split; [cbn [polls]; by erewrite bind_Ret by exact E1|].
    rewrite Hc2, Hc1. replace (p + Z.of_nat (S n)) with (p + 1 + Z.of_nat n) by lia.
    split; [|by rewrite Zplus_mod_idemp_l in Hp2].
    pose proof (Z.div_mod (p + 1) interval ltac:(lia)) as Hd.
    replace (p + 1 + Z.of_nat n) with
      ((p + 1) mod interval + Z.of_nat n + (p + 1) / interval * interval) by lia.
    rewrite Z.div_add by lia. lia.
Qed.
End Tick.

(** ** Breakpoints *)

Lemma is_breakpoint e : debug_PC_is_breakpoint e = (Ret (bool_decide (PC (regs e) ∈ bps_head e)), e).
Proof.
  unfold debug_PC_is_breakpoint. erewrite bind_Ret by reflexivity. do 2 f_equal.
  unfold mret, M_ret. do 2 f_equal. apply eq_bool_prop_intro.
  rewrite existb_True, bool_decide_spec, Exists_exists. split.
  - intros (x&Hx&Heq%Is_true_true). apply Z.eqb_eq in Heq. by subst.
  - intros H. eexists. split; [done|]. by rewrite Z.eqb_refl.
Qed.

(** A breakpoint stops before its instruction.  When no unmasked interrupt
    is pending and the program counter is at a breakpoint, [rk65c02_exec] stops
    with reason BREAKPOINT and does nothing else: no instruction is fetched,
    nothing is traced and no memory is read. *)
Theorem breakpoint_stops e :
  irq e && negb (ctrue (P (regs e) &&& P_IRQ_DISABLE)) = false → PC (regs e) ∈ bps_head e →
  rk65c02_exec e = (Ret tt, set_stopreason BREAKPOINT (set_state STOPPED e)).
Proof.
  intros Hi Hbp. unfold rk65c02_exec. do 2 erewrite bind_Ret by reflexivity. rewrite Hi.
  erewrite bind_Ret by reflexivity. erewrite bind_Ret by apply is_breakpoint.
  by rewrite bool_decide_true.
Qed.

(** The breakpoint list as a multiset. *)
Definition bp_count (a : Z) (l : list Z) : nat := length (filter (λ x, x = a) l).

Lemma bp_count_app a l1 l2 : bp_count a (l1 ++ l2) = (bp_count a l1 + bp_count a l2)%nat.
Proof. unfold bp_count. by rewrite filter_app, length_app. Qed.
Lemma bp_count_cons a x l : bp_count a (x :: l) = ((if decide (x = a) then 1 else 0) + bp_count a l)%nat.
Proof. unfold bp_count. rewrite filter_cons. by case_decide. Qed.

Lemma bp_delete_spec a l :
  match bp_delete a l with
  | Some l' => a ∈ l ∧ ∀ x, bp_count x l = (bp_count x l' + if decide (a = x) then 1 else 0)%nat
  | None => a ∉ l
  end.
Proof.
  induction l as [|b l IH]; simpl; [apply not_elem_of_nil|].
  destruct (Z.eqb_spec b a) as [->|Hne].
  - split; [left|]. intros x. rewrite bp_count_cons. lia.
  - destruct (bp_delete a l) as [l'|]; simpl.
    + destruct IH as [Hin Hc]. split; [by right|]. intros x. rewrite !bp_count_cons, Hc. lia.
    + rewrite not_elem_of_cons. auto.
Qed.

Lemma bp_count_pos a l : a ∈ l ↔ (0 < bp_count a l)%nat.
Proof.
  induction l as [|b l IH]; [split; [by intros ?%elem_of_nil|unfold bp_count; simpl; lia]|].
  rewrite bp_count_cons, elem_of_cons, IH. case_decide; [split; [lia|auto]|].
  split; [intros [?|?]; [congruence|lia]|right; lia].
Qed.

(** C27: adding and removing breakpoints.  Breakpoints count: each
    [debug_breakpoint_add] is undone by one [debug_breakpoint_remove] at the
    same address, other addresses are not affected, and removing where there is
    none fails and changes nothing. *)
Theorem breakpoint_multiset a e :
  (∀ x, bp_count x (bps_head (debug_breakpoint_add a e).2) =
          (bp_count x (bps_head e) + if decide (a = x) then 1 else 0)%nat) ∧
  (a ∈ bps_head e → ∃ l, debug_breakpoint_remove a e = (Ret true, set_bps_head l e) ∧
     ∀ x, bp_count x (bps_head e) = (bp_count x l + if decide (a = x) then 1 else 0)%nat) ∧
  (a ∉ bps_head e → debug_breakpoint_remove a e = (Ret false, e)).
Proof.
  pose proof (bp_delete_spec a (bps_head e)) as Hd. split_and!.
  - intros x. change (bps_head (debug_breakpoint_add a e).2) with (bps_head e ++ [a]).
    rewrite bp_count_app, bp_count_cons. change (bp_count x []) with 0%nat. lia.
  - intros Hin. unfold debug_breakpoint_remove. erewrite bind_Ret by reflexivity. cbv beta.
    destruct (bp_delete a (bps_head e)) as [l|]; [|done]. destruct Hd. by exists l.
  - intros Hn. unfold debug_breakpoint_remove. erewrite bind_Ret by reflexivity. cbv beta.
    destruct (bp_delete a (bps_head e)) as [l|]; [|done]. by destruct Hd.
Qed.

(** ** Waking up *)

(** C23: waiting for interrupts.  Without a tick callback, when the running
    program executes WAI and the host's idle-wait callback asserts the interrupt
    line, the interpreter loop goes on with the next iteration, running and with the interrupt
    pending; when the callback asks for a stop instead, the loop ends, stopped
    by the host. *)
Theorem idle_wait_resumes n e e1 cb :
  tick e = None → stop_requested e = false → state e = RUNNING →
  rk65c02_exec e = (Ret tt, e1) →
  tick e1 = None → stop_requested e1 = false → state e1 = STOPPED → stopreason e1 = WAI →
  idle_wait e1 = Some cb → idle_wait_enabled e1 = true →
  (host_idle_wait cb (idle_wait_ctx e1) e1 = rk65c02_assert_irq e1 →
     interp_loop (S n) e = interp_loop n (set_state RUNNING (set_irq true e1))) ∧
  (host_idle_wait cb (idle_wait_ctx e1) e1 = rk65c02_request_stop e1 →
     interp_loop (S n) e = (Ret tt, host_stopped e1)).
Proof.
  intros Ht Hq Hs E Ht1 Hq1 Hs1 Hw1 Hcb Hen.
  assert (∀ x, tick x = None → stop_requested x = false → rk65c02_poll_host_controls x = (Ret tt, x))
    as Hpoll.
  { intros x Hx Hx'. unfold rk65c02_poll_host_controls.
    erewrite bind_Ret by by apply apply_stop_none. erewrite bind_Ret by by apply maybe_tick_none.
    by apply apply_stop_none. }
  assert (is_running e = true) as Hr by (unfold is_running; by rewrite Hs).
  assert (is_running e1 = false) as Hr1 by (unfold is_running; by rewrite Hs1).
  assert (∀ e2, rk65c02_maybe_wait_on_idle e1 = (Ret true, e2) → interp_loop (S n) e =
    if is_running e2 then interp_loop n e2 else (Ret tt, e2)) as Hloop.
  { intros e2 E2. cbn [interp_loop]. erewrite bind_Ret by reflexivity. rewrite Hr. cbn [negb].
    erewrite bind_Ret by by apply Hpoll. erewrite bind_Ret by reflexivity. rewrite Hr. cbn [negb].
    erewrite bind_Ret by exact E. erewrite bind_Ret by by apply Hpoll.
    erewrite bind_Ret by reflexivity. rewrite Hr1. cbn [negb]. erewrite bind_Ret by exact E2.
    erewrite bind_Ret by reflexivity. by destruct (is_running e2). }
  assert (∀ e2 e3, host_idle_wait cb (idle_wait_ctx e1) e1 = (Ret tt, e2) →
    rk65c02_apply_host_stop_request e2 = (Ret tt, e3) →
    rk65c02_maybe_wait_on_idle e1 = (Ret true, e3)) as Hwait.
  { intros e2 e3 E2 E3. unfold rk65c02_maybe_wait_on_idle. erewrite bind_Ret by reflexivity.
    rewrite Hcb, Hen, !bool_decide_true by done. cbn [negb andb].
    erewrite bind_Ret by exact E2. by erewrite bind_Ret by exact E3. }
  split; intros Hh.
  - rewrite (Hloop (set_state RUNNING (set_irq true e1))); [done|].
    eapply Hwait; [rewrite Hh|by apply apply_stop_none]. unfold rk65c02_assert_irq.
    do 2 erewrite bind_Ret by reflexivity. by rewrite !bool_decide_true by done.
  - rewrite (Hloop (host_stopped e1)); [done|].
    eapply Hwait; [by rewrite Hh|]. exact (apply_stop_requested (set_stop_requested true e1) eq_refl).
Qed.

End HostControl.
