(* ===== verification/FetchFault.v ===== *)
(** What the interpreter makes of an instruction fetch that faults.

    [instruction_fetch_emu] does not look at the fault: the failed reads give
    0xFF, which is the opcode of BBS7, and the instruction is executed.  The
    page table is that of [MmuSpec], kept by a callback that looks at nothing of
    the instance but its bus. *)
From stdpp Require Import base numbers list gmap strings.
From S2P Require Import Prelude Types Isa BusSpec State Interfaces Mmu Instruction Emulation.
From S2P Require Import Disasm Debug Exec Invariant IsaSpec IsaArith MmuSpec RunRefine HostControl.

Section FetchFault.
Context {SY : Sys} {SB : SysBus} {HO : HostOps} {JO : JitOps}.
Context (pt : mapping).

(** The MMU is in use, the callback answers with [pt] as long as the bus is
    [b], and the host has installed nothing that reacts to faults. *)
Record paged (b : sys_bus) (e : rk65c02emu) : Prop := {
  pg_bus : bus e = b;
  pg_read : mem_read_1_fn e = mem_mmu;
  pg_callback : ∃ cb, mmu_translate e = Some cb ∧ ∀ v a e', bus e' = b →
    host_mmu_translate cb (mmu_translate_ctx e) v a e' = (Ret (pt v a), e');
  pg_coherent : coherent pt e;
  pg_native : in_jit_run e = false;
  pg_fault : mmu_fault e = None;
  pg_on_stop : on_stop e = None
}.
Context (Hst : page_stable pt) (Hty : mapping_typed pt).

Lemma paged_callback b e : paged b e → callback_is pt e.
Proof.
  intros [Hb _ (cb&Hcb&Hpt) _ _ _ _]. exists cb. split; [done|]. intros v a e' (t&h&n&->). by apply Hpt.
Qed.

(** A fault, whether or not another one has already stopped the emulator. *)
Lemma fault_recorded v a code e : in_jit_run e = false → mmu_fault e = None → on_stop e = None →
  rk65c02_mmu_fault v a code e = (Ret tt, faulted v a code e).
Proof.
  intros Hj Hf Ho. destruct (is_active (state e)) eqn:Ha; [by apply mmu_fault_interp|].
  unfold rk65c02_mmu_fault. do 6 erewrite bind_Ret by reflexivity.
  cbn [mmu_fault set_use_jit set_mmu_fault_reexec set_mmu_last_fault_code set_mmu_last_fault_access
    set_mmu_last_fault_addr]. rewrite Hf. erewrite bind_Ret by reflexivity.
  unfold emu_stop_error. do 5 erewrite bind_Ret by reflexivity. cbn [in_jit_run].
  cbv beta. cbn [in_jit_run set_stop_requested set_stopreason set_state set_use_jit set_mmu_fault_reexec
    set_mmu_last_fault_code set_mmu_last_fault_access set_mmu_last_fault_addr].
  rewrite Hj. erewrite bind_Ret by reflexivity. cbn [state set_use_jit set_mmu_fault_reexec
    set_mmu_last_fault_code set_mmu_last_fault_access set_mmu_last_fault_addr].
  rewrite Ha. by apply on_stop_none.
Qed.

(** Stopped by a fault at [v]. *)
Record halted (v code : Z) (e : rk65c02emu) : Prop := {
  ha_state : state e = STOPPED;
  ha_reason : stopreason e = EMUERROR;
  ha_reexec : mmu_fault_reexec e = true;
  ha_addr : mmu_last_fault_addr e = v;
  ha_code : mmu_last_fault_code e = code
}.

Lemma fetch_denied b e v code : paged b e → word v →
  translate_spec pt v RK65C02_MMU_FETCH RK65C02_MMU_PERM_X = Xfault code →
  ∃ e', rk65c02_mem_fetch_1 v e = (Ret 0xFF, e') ∧ paged b e' ∧ halted v code e' ∧
    regs e' = regs e ∧ trace e' = trace e.
Proof.
  intros He Hv Hx. pose proof He as [Hb Hr (cb&Hcb&Hpt) Hco Hj Hf Ho].
  destruct (translate_addr_spec pt e v RK65C02_MMU_FETCH RK65C02_MMU_PERM_X) as (e1&E1&Hco1&Ht1);
    [by eapply paged_callback|done..|].
  exists (faulted v RK65C02_MMU_FETCH code e1). destruct Ht1 as (t&h&n&->).
  split; [|split; [|by split; [split|]]].
  - unfold rk65c02_mem_fetch_1. erewrite bind_Ret by reflexivity. rewrite Hr. cbn [call_mem_read_fn].
    unfold rk65c02_mem_read_mmu. erewrite bind_Ret by exact E1. rewrite Hx.
    by erewrite bind_Ret by by apply fault_recorded.
  - split; try done. by exists cb.
Qed.

(** The instruction that a failed fetch gives. *)
Definition garbage : instruction_t := mkInstruction 0xFF 0xFF 0xFF.
Definition unfetchable (pc code : Z) : Prop :=
  (∃ c0, translate_spec pt pc RK65C02_MMU_FETCH RK65C02_MMU_PERM_X = Xfault c0) ∧
  (∃ c1, translate_spec pt (u16 (pc + 1)) RK65C02_MMU_FETCH RK65C02_MMU_PERM_X = Xfault c1) ∧
  translate_spec pt (u16 (pc + 2)) RK65C02_MMU_FETCH RK65C02_MMU_PERM_X = Xfault code.

Lemma fetch_garbage b e pc code : paged b e → word pc → unfetchable pc code →
  ∃ e', instruction_fetch_emu pc e = (Ret garbage, e') ∧ paged b e' ∧ halted (u16 (pc + 2)) code e' ∧
    regs e' = regs e ∧ trace e' = trace e.
Proof.
  intros He Hpc ([c0 H0]&[c1 H1]&H2).
  destruct (fetch_denied b e pc c0 He Hpc H0) as (e1&E1&He1&_&Hr1&Ht1).
  destruct (fetch_denied b e1 _ c1 He1 (u16_word _) H1) as (e2&E2&He2&_&Hr2&Ht2).
  destruct (fetch_denied b e2 _ code He2 (u16_word _) H2) as (e3&E3&He3&Hh&Hr3&Ht3).
  exists e3. split_and!; [|done|done|congruence|congruence].
  unfold instruction_fetch_emu. erewrite bind_Ret by exact E1.
  change (mode_operands (d_mode (instruction_decode 0xFF))) with 2%nat. cbv iota.
  erewrite bind_Ret by exact E2. by erewrite bind_Ret by exact E3.
Qed.

(** The byte BBS7 tests is at zero page address 0xFF; reading it has no side
    effect. *)
Definition zero_page_byte (b : sys_bus) (val : Z) : Prop :=
  ∃ p, translate_spec pt 0xFF RK65C02_MMU_READ RK65C02_MMU_PERM_R = Xok p ∧
    phys_read p b = (val, b) ∧ phys_host p b = None.

Lemma bbs7_read b e val : paged b e → zero_page_byte b val →
  ∃ e', instruction_data_read_1 (instruction_decode 0xFF) garbage e = (Ret val, e') ∧ tlb_only e e'.
Proof.
  intros He (p&Hx&Hv&Hh). pose proof He as [Hb Hr _ Hco _ _ _].
  destruct (mem_read_mmu_ok pt e 0xFF RK65C02_MMU_READ p) as (e1&Ht&_&E);
    [done|by eapply paged_callback|done|done|done|lia|done|].
  exists e1. split; [|done]. rewrite Hb, Hv, Hh in E.
  assert (set_bus b e1 = e1) as Ee by (destruct Ht as (t&h&n&->); rewrite <- Hb; by destruct e).
  cbn [fst snd] in E. rewrite Ee in E.
  change (instruction_data_read_1 (instruction_decode 0xFF) garbage) with (a ← mret 0xFF; rk65c02_mem_read_1 a).
  erewrite bind_Ret by reflexivity. unfold rk65c02_mem_read_1. erewrite bind_Ret by reflexivity. by rewrite Hr.
Qed.

(** C37: an instruction fetch that faults executes something else.  When the
    three bytes from the program counter on cannot be fetched, the interpreter
    executes the 0xFF the failed reads stand for, BBS7, and the program counter
    moves two or three bytes on, depending on a byte of the zero page: the
    emulator stops with EMUERROR, the fault on record is that of the third byte,
    and a restart does not re-execute the instruction that could not be
    fetched. *)
Theorem fetch_fault_moves_on b e code val : paged b e → regs_ok (regs e) → unfetchable (PC (regs e)) code →
  zero_page_byte b val →
  irq e && negb (ctrue (P (regs e) &&& P_IRQ_DISABLE)) = false → PC (regs e) ∉ bps_head e →
  runtime_disassembly e = false → trace e = false →
  ∃ e', rk65c02_exec e = (Ret tt, e') ∧ state e' = STOPPED ∧ stopreason e' = EMUERROR ∧
    mmu_last_fault_addr e' = u16 (PC (regs e) + 2) ∧ mmu_last_fault_code e' = code ∧
    mmu_fault_reexec e' = false ∧ bus e' = bus e ∧
    regs e' = regs_PC (u16 (PC (regs e) + (if Z.testbit val 7 then 2 else 3))) (regs e).
Proof.
  intros He Hok Hu Hz Hi Hbp Hrd Htr.
  destruct (fetch_garbage b e (PC (regs e)) code He) as (e1&E1&He1&[Hs Hw Hx Ha Hc]&Hr&Ht); [by destruct Hok|done|].
  destruct (bbs7_read b e1 val He1 Hz) as (e2&E2&(t&h&n&->)).
  set (e2 := set_mmu_tlb t (set_mmu_tlb_hits h (set_mmu_tlb_misses n e1))) in *.
  set (pc := u16 (PC (regs e) + (if Z.testbit val 7 then 2 else 3))).
  exists (set_mmu_fault_reexec false (set_regs (regs_PC pc (regs e2)) e2)).
  split; [|split_and!; cbn; try done; [by destruct He1, He; congruence|by rewrite Hr]].
  unfold rk65c02_exec. do 2 erewrite bind_Ret by reflexivity. rewrite Hi.
  erewrite bind_Ret by reflexivity. erewrite bind_Ret by apply is_breakpoint.
  rewrite (bool_decide_false _ Hbp). erewrite bind_Ret by reflexivity. rewrite Hrd.
  do 2 erewrite bind_Ret by reflexivity. erewrite bind_Ret by exact E1. cbv zeta.
  change (instruction_decode (i_opcode garbage)) with (instruction_decode 0xFF).
  assert (call_emul (d_emul (instruction_decode 0xFF)) (instruction_decode 0xFF) garbage e1 =
    (Ret tt, set_regs (regs_PC pc (regs e2)) e2)) as Ee.
  { change (call_emul (d_emul (instruction_decode 0xFF)) (instruction_decode 0xFF) garbage) with
      (emul_bbs 7 (instruction_decode 0xFF) garbage). unfold emul_bbs. erewrite bind_Ret by exact E2.
    rewrite bit_true by lia. unfold bit, pc. rewrite <- Hr. by destruct (Z.testbit val 7). }
  erewrite bind_Ret by exact Ee. unfold finish_instruction.
  rewrite bind_assoc. erewrite bind_Ret by reflexivity. cbv beta.
  change (state (set_regs _ e2)) with (state e1). change (mmu_fault_reexec (set_regs _ e2)) with (mmu_fault_reexec e1).
  rewrite Hs, Hx. do 2 erewrite bind_Ret by reflexivity.
  change (trace (set_mmu_fault_reexec _ _)) with (trace e1). by rewrite Ht, Htr.
Qed.
End FetchFault.
