(* ===== verification/CallSpec.v ===== *)
(** Calls and interrupts come back: JSR with RTS, an interrupt with RTI. *)
From stdpp Require Import base numbers list gmap strings.
From S2P Require Import Prelude Types Isa BusSpec State Interfaces Mmu Instruction Emulation.
From S2P Require Import IsaSpec Invariant Runs IsaArith Routines.

Section CallSpec.
Context {SY : Sys} {SB : SysBus} {BL : BusLaws sys_bus} {HO : HostOps} {JO : JitOps}.

(** The stack pointer after pushes and pops. *)
Lemma sp_up s k : byte s → u8 (u8 (s - k) + k) = s.
Proof. intros. rewrite u8_add_l. rewrite u8_small; lia. Qed.
Lemma sp_push s k : u8 (u8 (s - k) - 1) = u8 (s - (k + 1)).
Proof.
  rewrite <- (Z.add_opp_r (u8 (s - k)) 1), u8_add_l. f_equal. lia.
Qed.
Lemma sp_sub s j k : u8 (u8 (s - j) - k) = u8 (s - (j + k)).
Proof. rewrite <- (Z.add_opp_r (u8 (s - j)) k), u8_add_l. f_equal. lia. Qed.
Lemma sp_pop s k : u8 (u8 (s - (k + 1)) + 1) = u8 (s - k).
Proof. rewrite u8_add_l. f_equal. lia. Qed.

(** Distinct stack slots. *)
Lemma sp_ne s j k : 0 ≤ j < 256 → 0 ≤ k < 256 → j ≠ k → 0x100 + u8 (s - j) ≠ 0x100 + u8 (s - k).
Proof.
  intros Hj Hk Hne E. assert ((s - j) mod 256 = (s - k) mod 256) as Em by (unfold u8 in E; lia).
  assert ((k - j) mod 256 = 0) as Hz.
  { replace (k - j) with ((s - j) - (s - k)) by lia.
    rewrite Zminus_mod, Em, Z.sub_diag. done. }
  pose proof (Z.div_mod (k - j) 256). lia.
Qed.

Lemma upd_same m a v : upd m a v a = v.
Proof. unfold upd. by rewrite decide_True. Qed.
Lemma upd_other m a b v : a ≠ b → upd m a v b = m b.
Proof. intros. unfold upd. by rewrite decide_False. Qed.

(** Popping the word back. *)
Lemma runs_pop_word e w r m s : plain e → SP r = u8 (s - 2) → byte s → word w →
  m (0x100 + s) = w / 256 → m (0x100 + u8 (s - 1)) = u8 w →
  runs e (l ← stack_pop; h ← stack_pop; put_PC (u16 (l ||| (h ≪ 8)))) r m tt
    (regs_PC w (regs_SP s r)) m.
Proof.
  intros He Hs Hb Hw Hh Hl.
  eapply runs_bind; [by apply runs_pop|]. eapply runs_bind; [by apply runs_pop|].
  eapply runs_eq; [apply runs_put_PC|done| |done]. cbn [SP regs_SP]. rewrite Hs.
  change 2 with (1 + 1). rewrite !sp_pop.
  pose proof (sp_up s 1 Hb) as ->. rewrite Hl, Hh, <- shiftr8_div, lohi_split by done.
  by rewrite u16_small.
Qed.

Section Plain.
Context (e : rk65c02emu) (He : plain e).

(** Registers with the same specification state are the same. *)
Lemma regs_of_cpu r r' m m' q q' w : regs_ok r → regs_ok r' →
  cpu_of r m q w = cpu_of r' m' q' w → r = r' ∧ m = m'.
Proof.
  intros [] [] E. pose proof (f_equal cF E) as Hf. cbn [cF cpu_of] in Hf.
  assert (P r = P r') as HP.
  { by rewrite <- (status_flags (P r)), <- (status_flags (P r')), Hf by done. }
  pose proof (f_equal cA E). pose proof (f_equal cX E). pose proof (f_equal cY E).
  pose proof (f_equal cPC E). pose proof (f_equal cSP E). pose proof (f_equal cM E).
  destruct r, r'; simpl in *. by subst.
Qed.

(** C31: subroutines.  On plain memory, JSR followed by RTS continues after the
    JSR, with the stack pointer, the other registers and the flags as they were, for every
    stack pointer, also when the return address wraps around the stack page. *)
Theorem jsr_rts_roundtrip m i j id1 id2 :
  instruction_ok i → regs_ok (regs e) → holds (bus e) m → d_size id2 = 1 →
  ∃ e', (emul_jsr id1 i;; emul_rts id2 j;; program_counter_increment id2) e = (Ret tt, e') ∧
    regs e' = regs_PC (u16 (PC (regs e) + 3)) (regs e).
Proof.
  intros Hi Hr Hm Hs. set (r := regs e) in *. set (ret := u16 (PC r + 2)).
  assert (word ret) as Hret by apply u16_word. pose proof (ok_SP r Hr) as Hsp.
  destruct (refines_jsr e He r m false Running Hr id1 i Hi) as (r1&m1&Hj&Hc&Hr1).
  assert (r1 = regs_PC (word_of (i_op1 i) (i_op2 i)) (regs_SP (u8 (SP r - 2)) r) ∧
    m1 = upd (upd m (0x100 + SP r) (ret / 256)) (0x100 + u8 (SP r - 1)) (u8 ret)) as [-> ->].
  { apply (regs_of_cpu _ _ _ _ false false Running); [done| |rewrite Hc].
    - destruct Hr, (abs_word (i_op1 i) (i_op2 i)) as [_ Hw]; [apply Hi..|].
      split; simpl; try done. apply u8_byte.
    - pose proof (sp_push (SP r) 1) as Hp. change (1 + 1) with 2 in Hp. by rewrite <- Hp. }
  assert (runs e (emul_rts id2 j)
    (regs_PC (word_of (i_op1 i) (i_op2 i)) (regs_SP (u8 (SP r - 2)) r))
    (upd (upd m (0x100 + SP r) (ret / 256)) (0x100 + u8 (SP r - 1)) (u8 ret)) tt
    (regs_PC ret (regs_SP (SP r) r))
    (upd (upd m (0x100 + SP r) (ret / 256)) (0x100 + u8 (SP r - 1)) (u8 ret))) as Hrts.
  { eapply runs_eq; [apply (runs_pop_word e ret _ _ (SP r)); try done|done..].
    - pose proof (sp_ne (SP r) 1 0) as Hne. rewrite Z.sub_0_r, (u8_small (SP r)) in Hne by done.
      rewrite upd_other by (apply Hne; lia). apply upd_same.
    - apply upd_same. }
  assert (runs e (program_counter_increment id2) (regs_PC ret (regs_SP (SP r) r))
    (upd (upd m (0x100 + SP r) (ret / 256)) (0x100 + u8 (SP r - 1)) (u8 ret)) tt
    (regs_PC (u16 (PC r + 3)) r)
    (upd (upd m (0x100 + SP r) (ret / 256)) (0x100 + u8 (SP r - 1)) (u8 ret))) as Hinc.
  { eapply runs_bind; [apply runs_get_PC|]. eapply runs_eq; [apply runs_put_PC|done| |done].
    cbn [PC regs_PC]. rewrite Hs. unfold ret, u16. rewrite Zplus_mod_idemp_l.
    replace (PC r + 2 + 1) with (PC r + 3) by lia. by destruct r. }
  destruct (runs_bind e _ (λ _, emul_rts id2 j;; program_counter_increment id2) _ _ _ _ _ _ _ _ _ _
    Hj (runs_bind e _ _ _ _ _ _ _ _ _ _ _ _ Hrts Hinc) (bus e) Hm) as (b'&E&_).
  exists (core e (regs_PC (u16 (PC r + 3)) r) b'). by split.
Qed.

(** C32: interrupts.  On plain memory, an interrupt followed by RTI continues where
    it struck: program counter, stack pointer, A, X and Y are as before, and so are the
    flags, except that the stored status has the unused bit set and the break
    bit clear. *)
Theorem irq_rti_roundtrip m i id :
  regs_ok (regs e) → holds (bus e) m →
  ∃ e', (rk65c02_irq;; emul_rti id i) e = (Ret tt, e') ∧
    regs e' = regs_P (status_from_stack (P (regs e))) (regs e) ∧ irq e' = false.
Proof.
  intros Hr Hm. set (r := regs e) in *. pose proof (ok_SP r Hr) as Hsp.
  pose proof (holds_bytes _ _ Hm) as Hby.
  destruct (runs_irq e He r m (irq e) Running Hr Hby id i) as (r1&m1&Hrun&Hc&Hr1).
  pose proof (f_equal cM Hc) as Em. pose proof (f_equal cSP Hc) as Esp.
  pose proof (f_equal cA Hc) as EA. pose proof (f_equal cX Hc) as EX. pose proof (f_equal cY Hc) as EY.
  cbn in EA, EX, EY. change (cM (cpu_of r1 m1 false Running)) with m1 in Em.
  change (cSP (cpu_of r1 m1 false Running)) with (SP r1) in Esp.
  change (cSP (spec_interrupt _)) with (u8 (u8 (u8 (SP r - 1) - 1) - 1)) in Esp.
  change (cM (spec_interrupt _)) with (upd (upd (upd m (0x100 + SP r) (PC r / 256))
    (0x100 + u8 (SP r - 1)) (u8 (PC r))) (0x100 + u8 (u8 (SP r - 1) - 1))
    (status_of (flags_of (P r)))) in Em.
  rewrite !sp_sub in Esp. rewrite !sp_sub, status_flags in Em by by apply ok_P.
  change (1 + 1) with 2 in *. change (1 + 2) with 3 in *. change (2 + 1) with 3 in *.
  pose proof (sp_ne (SP r) 1 0) as H10. pose proof (sp_ne (SP r) 2 0) as H20.
  pose proof (sp_ne (SP r) 2 1 ltac:(lia) ltac:(lia) ltac:(lia)) as H21.
  rewrite Z.sub_0_r, (u8_small (SP r)) in H10, H20 by done.
  assert (m1 (0x100 + u8 (SP r - 2)) = P r) as HmP by (by rewrite Em, upd_same).
  assert (runs_to (set_irq false e) (emul_rti id i) r1 m1 tt (set_irq false e)
    (regs_P (status_from_stack (P r)) r) m1) as Hrti.
  { unfold emul_rti. assert (plain (set_irq false e)) as He' by by destruct He.
    eapply runs_bind; [by apply runs_pop|]. eapply runs_bind; [apply runs_put_P|].
    rewrite Esp. change (SP r - 3) with (SP r - (2 + 1)). rewrite sp_pop, HmP.
    eapply runs_eq; [apply (runs_pop_word (set_irq false e) (PC r) _ _ (SP r))|done| |done];
      try done; [by apply ok_PC| | |].
    - rewrite Em, !upd_other by (first [apply H20; lia|apply H10; lia|done]). apply upd_same.
    - rewrite Em, upd_other by done. apply upd_same.
    - unfold regs_PC, regs_SP, regs_P. simpl. by rewrite EA, EX, EY; destruct r. }
  destruct (runs_bind e _ (λ _, emul_rti id i) _ _ _ _ _ _ _ _ _ _ Hrun Hrti (bus e) Hm)
    as (b'&E&_).
  exists (core (set_irq false e) (regs_P (status_from_stack (P r)) r) b'). by split.
Qed.

End Plain.
End CallSpec.
