(* ===== verification/Frames.v ===== *)
(** Invariants the core keeps because it does not touch what they speak of.

    [Frame I]: [I] depends only on the program counter, the JIT backend's data
    and the loop budget of native code, and the callbacks and the backend keep
    it.  The memory accessors, the
    operands, the stack and every routine that does not load the program
    counter then keep [I]; when [I] does not depend on the program counter
    either ([FreePc]), so does all of the core. *)
From stdpp Require Import base numbers list gmap strings.
From S2P Require Import Prelude Types Isa BusSpec State Interfaces Mmu Instruction Emulation.
From S2P Require Import Disasm Debug Exec.

(** The routines that assign the program counter. *)
Definition loads_pc (f : emul_fn) : bool :=
  match f with
  | f_bbr0 | f_bbr1 | f_bbr2 | f_bbr3 | f_bbr4 | f_bbr5 | f_bbr6 | f_bbr7
  | f_bbs0 | f_bbs1 | f_bbs2 | f_bbs3 | f_bbs4 | f_bbs5 | f_bbs6 | f_bbs7
  | f_bcc | f_bcs | f_beq | f_bmi | f_bne | f_bpl | f_bra | f_bvc | f_bvs
  | f_brk | f_jmp | f_jsr | f_rti | f_rts => true
  | _ => false
  end.

(** The table's [modify_pc] column marks those, RTS apart: it pulls the address
    of the last byte of the JSR and relies on the increment to step over it. *)
Lemma table_modify_pc o : byte o →
  loads_pc (d_emul (instruction_decode o)) =
    instruction_modify_pc (instruction_decode o) ||
    bool_decide (d_emul (instruction_decode o) = f_rts).
Proof. revert o. apply byte_forall_eqb. vm_compute. reflexivity. Qed.

Section Frames.
Context {SY : Sys} {SB : SysBus} {HO : HostOps} {JO : JitOps}.

Class Frame (I : rk65c02emu → Prop) : Prop := {
  frame_only e e' : PC (regs e') = PC (regs e) → jit e' = jit e →
    jit_loop_budget e' = jit_loop_budget e → I e → I e';
  frame_translate cb ctx v a : keeps I (host_mmu_translate cb ctx v a) (λ _, True);
  frame_fault cb ctx v a c : keeps I (host_mmu_fault cb ctx v a c) (λ _, True);
  frame_on_stop cb ctx r : keeps I (host_on_stop cb ctx r) (λ _, True);
  frame_device_read f d off : keeps I (host_device_read f d off) (λ _, True);
  frame_device_write f d off v : keeps I (host_device_write f d off v) (λ _, True);
  frame_note a : keeps I (rk65c02_jit_note_guest_write a) (λ _, True)
}.

Section Keep.
Context (I : rk65c02emu → Prop) {FI : Frame I}.

Lemma frame_get : keeps I get (λ _, True).
Proof. intros e He. by split. Qed.
Lemma frame_gets {T} (f : rk65c02emu → T) : keeps I (gets f) (λ _, True).
Proof. by apply keeps_gets. Qed.
#[local] Hint Resolve frame_get frame_gets frame_translate frame_fault frame_on_stop
  frame_device_read frame_device_write frame_note : keeps.
Lemma frame_modify f : (∀ e, PC (regs (f e)) = PC (regs e)) → (∀ e, jit (f e) = jit e) →
  (∀ e, jit_loop_budget (f e) = jit_loop_budget e) → keeps I (modify f) (λ _, True).
Proof. intros H1 H2 H3. apply keeps_modify; [|done]. intros e. by apply frame_only. Qed.
#[local] Hint Extern 1 (keeps I (modify _) _) => apply frame_modify; done : keeps.

Lemma frame_device_read_opt d : keeps I (device_read d) (λ _, True).
Proof. unfold device_read. keeps_auto. Qed.
Lemma frame_bus_read a : keeps I (core_bus_read_1 a) (λ _, True).
Proof. unfold core_bus_read_1, device_read. keeps_auto. Qed.
Lemma frame_bus_read_phys a : keeps I (core_bus_read_1_phys a) (λ _, True).
Proof. unfold core_bus_read_1_phys, device_read. keeps_auto. Qed.
Lemma frame_bus_write a v : keeps I (core_bus_write_1 a v) (λ _, True).
Proof. unfold core_bus_write_1, device_write. keeps_auto. Qed.
Lemma frame_bus_write_phys a v : keeps I (core_bus_write_1_phys a v) (λ _, True).
Proof. unfold core_bus_write_1_phys, device_write. keeps_auto. Qed.
#[local] Hint Resolve frame_bus_read frame_bus_read_phys frame_bus_write frame_bus_write_phys : keeps.

Lemma frame_translate_addr v a p : keeps I (rk65c02_mmu_translate_addr v a p) (λ _, True).
Proof. unfold rk65c02_mmu_translate_addr. keeps_auto. Qed.
Lemma frame_stop_error : keeps I emu_stop_error (λ _, True).
Proof. unfold emu_stop_error, rk65c02_maybe_call_on_stop. keeps_auto. Qed.
#[local] Hint Resolve frame_translate_addr frame_stop_error : keeps.

Lemma frame_reads f a acc : keeps I (call_mem_read_fn f a acc) (λ _, True).
Proof.
  destruct f; simpl; unfold rk65c02_mem_read_direct, rk65c02_mem_read_mmu,
    rk65c02_mmu_fault; keeps_auto.
Qed.
Lemma frame_writes f a v acc : keeps I (call_mem_write_fn f a v acc) (λ _, True).
Proof.
  destruct f; simpl; unfold rk65c02_mem_write_direct, rk65c02_mem_write_mmu, rk65c02_mmu_fault;
    keeps_auto.
Qed.
#[local] Hint Resolve frame_reads frame_writes : keeps.

Lemma frame_fetch_1 a : keeps I (rk65c02_mem_fetch_1 a) (λ _, True).
Proof. unfold rk65c02_mem_fetch_1. keeps_auto. Qed.
Lemma frame_read_1 a : keeps I (rk65c02_mem_read_1 a) (λ _, True).
Proof. unfold rk65c02_mem_read_1. keeps_auto. Qed.
Lemma frame_write_1 a v : keeps I (rk65c02_mem_write_1 a v) (λ _, True).
Proof. unfold rk65c02_mem_write_1. keeps_auto. Qed.
#[local] Hint Resolve frame_fetch_1 frame_read_1 frame_write_1 : keeps.

Lemma frame_read_pointer lo hi : keeps I (read_pointer lo hi) (λ _, True).
Proof. unfold read_pointer. keeps_auto. Qed.
#[local] Hint Resolve frame_read_pointer : keeps.
Lemma frame_data_address id i : keeps I (instruction_data_address id i) (λ _, True).
Proof.
  unfold instruction_data_address, rk65c02_panic, get_X, get_Y. keeps_auto.
Qed.
#[local] Hint Resolve frame_data_address : keeps.
Lemma frame_data_read id i : keeps I (instruction_data_read_1 id i) (λ _, True).
Proof. unfold instruction_data_read_1, get_A. keeps_auto. Qed.
Lemma frame_data_write id i v : keeps I (instruction_data_write_1 id i v) (λ _, True).
Proof. unfold instruction_data_write_1, put_A, rk65c02_panic. keeps_auto. Qed.
Lemma frame_push v : keeps I (stack_push v) (λ _, True).
Proof. unfold stack_push, get_SP, put_SP. keeps_auto. Qed.
Lemma frame_pop : keeps I stack_pop (λ _, True).
Proof. unfold stack_pop, get_SP, put_SP. keeps_auto. Qed.
Lemma frame_P_put m b : keeps I (P_put m b) (λ _, True).
Proof. unfold P_put, P_set, P_clear, get_P, put_P. keeps_auto. Qed.
Lemma frame_P_test m : keeps I (P_test m) (λ _, True).
Proof. unfold P_test, get_P. keeps_auto. Qed.
#[local] Hint Resolve frame_data_read frame_data_write frame_push frame_pop frame_P_put frame_P_test : keeps.
Lemma frame_adjust_zn v : keeps I (adjust_zn v) (λ _, True).
Proof.
  unfold adjust_zn, instruction_status_adjust_zero, instruction_status_adjust_negative. keeps_auto.
Qed.
#[local] Hint Resolve frame_adjust_zn : keeps.

Lemma frame_call_emul f id i : loads_pc f = false → keeps I (call_emul f id i) (λ _, True).
Proof.
  destruct f; intros Hf; try discriminate Hf; clear Hf; cbn [call_emul];
    cbv delta [emul_adc emul_and emul_asl emul_bit emul_clc emul_cld emul_cli emul_clv
      compare_with emul_cmp emul_cpx emul_cpy emul_dec emul_dex emul_dey emul_eor emul_inc
      emul_inx emul_iny emul_lda emul_ldx emul_ldy emul_lsr emul_nop emul_ora emul_pha emul_php
      emul_phx emul_phy emul_pla status_from_stack emul_plp emul_plx emul_ply emul_rmb0 emul_rmb1
      emul_rmb2 emul_rmb3 emul_rmb4 emul_rmb5 emul_rmb6 emul_rmb7 emul_rmb emul_rol emul_ror
      emul_sbc emul_sed emul_sec emul_sei emul_smb0 emul_smb1 emul_smb2 emul_smb3 emul_smb4
      emul_smb5 emul_smb6 emul_smb7 emul_smb emul_stp emul_sta emul_stx emul_sty emul_stz emul_tax
      emul_tay emul_trb emul_tsb emul_tsx emul_txa emul_txs emul_tya emul_wai emul_invalid
      get_A get_X get_Y get_SP get_P put_A put_X put_Y put_SP put_P P_set P_clear];
    cbv beta zeta; keeps_auto.
Qed.

Lemma frame_fetch_emu a : keeps I (instruction_fetch_emu a) (λ _, True).
Proof. unfold instruction_fetch_emu. keeps_auto. Qed.

End Keep.

(** ** Invariants that do not depend on the program counter *)

Class FreePc (I : rk65c02emu → Prop) : Prop := {
  free_frame :: Frame I;
  free_only e e' : jit e' = jit e → jit_loop_budget e' = jit_loop_budget e → I e → I e';
  free_tick cb ctx : keeps I (host_tick cb ctx) (λ _, True);
  free_idle_wait cb ctx : keeps I (host_idle_wait cb ctx) (λ _, True)
}.

Section Free.
Context (I : rk65c02emu → Prop) {FP : FreePc I}.

Lemma free_modify f : (∀ e, jit (f e) = jit e) →
  (∀ e, jit_loop_budget (f e) = jit_loop_budget e) → keeps I (modify f) (λ _, True).
Proof. intros H1 H2. apply keeps_modify; [|done]. intros e. by apply free_only. Qed.
#[local] Hint Extern 1 (keeps I (modify _) _) => apply free_modify; done : keeps.
#[local] Hint Resolve frame_get frame_gets frame_fetch_1 frame_read_1 frame_write_1 frame_data_read
  frame_data_write frame_push frame_pop frame_P_put frame_P_test frame_adjust_zn frame_read_pointer
  free_tick free_idle_wait frame_fetch_emu frame_on_stop free_frame : keeps.

Lemma free_branch o : keeps I (program_counter_branch o) (λ _, True).
Proof. unfold program_counter_branch, get_PC, put_PC. keeps_auto. Qed.
Lemma free_increment id : keeps I (program_counter_increment id) (λ _, True).
Proof. unfold program_counter_increment, get_PC, put_PC. keeps_auto. Qed.
#[local] Hint Resolve free_branch free_increment : keeps.
Lemma free_bit_branch i : keeps I (bit_branch i) (λ _, True).
Proof. unfold bit_branch, get_PC, put_PC. keeps_auto. Qed.
#[local] Hint Resolve free_bit_branch : keeps.
Lemma free_irq : keeps I rk65c02_irq (λ _, True).
Proof. unfold rk65c02_irq, P_set, P_clear, get_PC, put_PC, get_P, put_P. keeps_auto. Qed.
#[local] Hint Resolve free_irq : keeps.

Lemma free_call_emul f id i : keeps I (call_emul f id i) (λ _, True).
Proof.
  destruct (loads_pc f) eqn:Hf; [|by apply frame_call_emul; [apply _|]].
  destruct f; try discriminate Hf; clear Hf; cbn [call_emul];
    cbv delta [emul_bbr0 emul_bbr1 emul_bbr2 emul_bbr3 emul_bbr4 emul_bbr5 emul_bbr6 emul_bbr7
      emul_bbs0 emul_bbs1 emul_bbs2 emul_bbs3 emul_bbs4 emul_bbs5 emul_bbs6 emul_bbs7 emul_bbr
      emul_bbs branch_if emul_bcc emul_bcs emul_beq emul_bmi emul_bne emul_bpl emul_bra emul_brk
      emul_bvc emul_bvs emul_jmp emul_jsr emul_rti emul_rts get_PC put_PC get_X get_P put_P
      P_set P_clear]; cbv beta zeta; keeps_auto; done.
Qed.
#[local] Hint Resolve free_call_emul : keeps.

Lemma free_finish id : keeps I (finish_instruction id) (λ _, True).
Proof. unfold finish_instruction. keeps_auto. Qed.
#[local] Hint Resolve free_finish : keeps.

Lemma free_disassemble a : keeps I (core_disassemble a) (λ _, True).
Proof.
  unfold core_disassemble. eapply keeps_bind; [apply frame_get|]. intros e _.
  destruct (disassemble (bus e) a) as [s b]. apply keeps_seq; [by apply free_modify|intros []].
  apply keeps_seq; [|intros []; by apply keeps_ret]. apply keeps_mfor. intros k _.
  apply frame_device_read_opt, free_frame.
Qed.
#[local] Hint Resolve free_disassemble : keeps.

Lemma free_is_breakpoint : keeps I debug_PC_is_breakpoint (λ _, True).
Proof. unfold debug_PC_is_breakpoint. keeps_auto. Qed.
#[local] Hint Resolve free_is_breakpoint : keeps.

Lemma free_exec : keeps I rk65c02_exec (λ _, True).
Proof. unfold rk65c02_exec, debug_trace_savestate, get_PC. keeps_auto. Qed.
#[local] Hint Resolve free_exec : keeps.

Lemma free_poll : keeps I rk65c02_poll_host_controls (λ _, True).
Proof.
  unfold rk65c02_poll_host_controls, rk65c02_maybe_tick, rk65c02_apply_host_stop_request. keeps_auto.
Qed.
Lemma free_wait : keeps I rk65c02_maybe_wait_on_idle (λ _, True).
Proof. unfold rk65c02_maybe_wait_on_idle, rk65c02_apply_host_stop_request. keeps_auto. Qed.
#[local] Hint Resolve free_poll free_wait : keeps.

Lemma free_interp_loop fuel : keeps I (interp_loop fuel) (λ _, True).
Proof. induction fuel as [|n IH]; cbn [interp_loop]; keeps_auto. Qed.

End Free.
End Frames.
