(* ===== verification/Faults.v ===== *)
(** Instructions that fault.

    An instruction whose data access faults stops the machine; the program
    counter then still names that instruction, so that [rk65c02_start] or
    [rk65c02_step] runs it again ([doc/MMU.md], 3.3 and 7).  This holds of every
    instruction that does not load the program counter itself. *)
From stdpp Require Import base numbers list gmap strings.
From S2P Require Import Prelude Types Isa BusSpec State Interfaces Mmu Instruction Emulation.
From S2P Require Import Disasm Debug Exec Frames.

Section Faults.
Context {SY : Sys} {SB : SysBus} {HO : HostOps} {JO : JitOps}.

Definition at_pc (pc : Z) (e : rk65c02emu) : Prop := PC (regs e) = pc.

(** The callbacks and the JIT's bookkeeping do not assign the program counter. *)
Class CallbacksKeepPc : Prop := callbacks_keep_pc : ∀ pc, Frame (at_pc pc).
Context {CP : CallbacksKeepPc}.

(** C14: the program counter after an instruction that does not load it.  When
    an access of the instruction faulted (the machine is then stopped with the
    re-execution mark set) the program counter still names the instruction and
    the mark is cleared, so that the next run executes it again; otherwise the
    program counter has advanced by the instruction's size. *)
Theorem fault_reexecutes e i e1 e2 (id := instruction_decode (i_opcode i))
    (faulted := bool_decide (state e2 = STOPPED) && mmu_fault_reexec e2) :
  instruction_fetch_emu (PC (regs e)) e = (Ret i, e1) → byte (i_opcode i) →
  loads_pc (d_emul id) = false → call_emul (d_emul id) id i e1 = (Ret tt, e2) →
  ∃ e', instruction_exec_one e = (Ret tt, e') ∧
    PC (regs e') = (if faulted then PC (regs e) else u16 (PC (regs e) + d_size id)) ∧
    mmu_fault_reexec e' = (if faulted then false else mmu_fault_reexec e2).
Proof.
  intros Hf Ho Hl Hc.
  assert (at_pc (PC (regs e)) e1) as H1.
  { pose proof (frame_fetch_emu (at_pc (PC (regs e))) (FI := CP _) (PC (regs e)) e eq_refl) as [H _].
    by rewrite Hf in H. }
  assert (at_pc (PC (regs e)) e2) as H2.
  { pose proof (frame_call_emul (at_pc (PC (regs e))) (FI := CP _) _ id i Hl e1 H1) as [H _]. by rewrite Hc in H. }
  unfold instruction_exec_one. erewrite bind_Ret by reflexivity. rewrite (bind_Ret _ _ _ _ _ Hf).
  fold id. rewrite (bind_Ret _ _ _ _ _ Hc). unfold finish_instruction.
  erewrite bind_Ret by reflexivity. fold faulted. destruct faulted.
  - eexists. split; [reflexivity|]. by split.
  - pose proof (table_modify_pc (i_opcode i) Ho) as Hm. fold id in Hm. rewrite Hl in Hm.
    symmetry in Hm. apply orb_false_elim in Hm as [Hm _]. rewrite Hm. simpl.
    eexists. split; [reflexivity|]. split; [|done]. simpl. by rewrite H2.
Qed.
End Faults.
