(* ===== verification/Decimal.v ===== *)
(** Decimal mode: BCD conversion, decimal addition and subtraction, and the
    helpers [rk65c02_do_adc_bcd] and [rk65c02_do_sbc_bcd] that compiled code
    calls instead of [emul_adc] and [emul_sbc]. *)
From stdpp Require Import base numbers list gmap strings.
From S2P Require Import Prelude Types Isa BusSpec State Interfaces Mmu Instruction Emulation.
From S2P Require Import IsaSpec Invariant Runs IsaArith.

(** Both digits are decimal. *)
Definition valid_bcd (v : Z) : Prop := byte v ∧ v / 16 ≤ 9 ∧ v mod 16 ≤ 9.

Lemma from_bcd_valid v : valid_bcd v → 0 ≤ from_bcd v ≤ 99.
Proof.
  intros (Hv&Hh&Hl). rewrite from_bcd_val by done. unfold bcd_value.
  pose proof (Z.mod_pos_bound v 16). pose proof (Z.div_pos v 16). lia.
Qed.

(** The loop of [to_bcd] has done all its work within the iterations the model
    gives it: any larger bound gives the same digits. *)
Lemma to_bcd_loop_done v n : byte v → to_bcd_loop (3 + n) v 0 0 = to_bcd_loop 3 v 0 0.
Proof.
  intros Hv. cbn [Nat.add to_bcd_loop].
  assert (v / 10 / 10 / 10 = 0) as Hz.
  { rewrite !Z.div_div by lia. apply Z.div_small. lia. }
  repeat case_match; try done. rewrite Hz. by destruct n.
Qed.

Lemma to_bcd_digits n : byte n →
  valid_bcd (to_bcd n) ∧ from_bcd (to_bcd n) = n mod 100.
Proof.
  intros Hn. pose proof (byte_forall (λ n, (0 <=? to_bcd n) && (to_bcd n <? 256) &&
    (to_bcd n / 16 <=? 9) && (to_bcd n mod 16 <=? 9) && (from_bcd (to_bcd n) =? n mod 100))
    ltac:(vm_compute; reflexivity) n Hn) as H. cbv beta in H. unfold valid_bcd. lia.
Qed.

Lemma bcd_from_to v : valid_bcd v → to_bcd (from_bcd v) = v.
Proof.
  intros (Hv&Hh&Hl). pose proof (byte_forall (λ v, (9 <? v / 16) || (9 <? v mod 16) ||
    (to_bcd (from_bcd v) =? v)) ltac:(vm_compute; reflexivity) v Hv) as H. cbv beta in H. lia.
Qed.

(** BCD conversion is a bijection between the numbers below 100 and the
    bytes with two decimal digits, and the loop of [to_bcd] needs at most three
    iterations for any byte. *)
Theorem bcd_roundtrip :
  (∀ v, valid_bcd v → to_bcd (from_bcd v) = v ∧ 0 ≤ from_bcd v < 100) ∧
  (∀ n, 0 ≤ n < 100 → from_bcd (to_bcd n) = n ∧ valid_bcd (to_bcd n)) ∧
  (∀ v k, byte v → to_bcd_loop (3 + k) v 0 0 = to_bcd v).
Proof.
  split_and!.
  - intros v Hv. split; [by apply bcd_from_to|]. pose proof (from_bcd_valid v Hv). lia.
  - intros n Hn. destruct (to_bcd_digits n) as [? E]; [lia|]. by rewrite E, Z.mod_small.
  - intros v k Hv. unfold to_bcd. rewrite u8_small by done. by apply to_bcd_loop_done.
Qed.

Section Decimal.
Context {SY : Sys} {SB : SysBus} {HO : HostOps} {JO : JitOps}.

(** The value of the carry flag. *)
Definition carry (e : rk65c02emu) : bool := ctrue (P (regs e) &&& P_CARRY).

(** The registers after an addition with this result. *)
Definition arith_regs (x : Z) (co ov : bool) (r : reg_state_t) : reg_state_t :=
  regs_P (flag_put P_NEGATIVE (ctrue (x &&& NEGATIVE)) (flag_put P_ZERO (x =? 0)
    (flag_put P_CARRY co (flag_put P_SIGN_OVERFLOW ov (P r))))) (regs_A x r).

Lemma P_put_eq k b e :
  P_put k b e = (Ret tt, set_regs (regs_P (flag_put k b (P (regs e))) (regs e)) e).
Proof. by destruct b. Qed.

Lemma adjust_zn_eq v e : adjust_zn v e = (Ret tt, set_regs (regs_P (flag_put P_NEGATIVE
  (ctrue (v &&& NEGATIVE)) (flag_put P_ZERO (v =? 0) (P (regs e)))) (regs e)) e).
Proof. unfold adjust_zn. erewrite bind_Ret by (apply P_put_eq). exact (P_put_eq _ _ _). Qed.

(** One step of a computation on the registers. *)
Ltac reg_step := first
  [ erewrite bind_Ret by (apply P_put_eq) | erewrite bind_Ret by reflexivity ].

Lemma do_adc_bcd_eq v e (s := from_bcd (A (regs e)) + from_bcd v + Z.b2z (carry e)) :
  byte (from_bcd (A (regs e))) → byte (from_bcd v) →
  rk65c02_do_adc_bcd v e = (Ret tt, set_regs (arith_regs (to_bcd (u8 s)) (s >? 99)
    (ctrue ((A (regs e) ^^^ s) &&& (v ^^^ s) &&& 0x80)) (regs e)) e).
Proof.
  intros Ha Hv. unfold rk65c02_do_adc_bcd. do 2 reg_step.
  cbv zeta. rewrite sum_val by done. fold (carry e). fold s.
  do 5 reg_step. rewrite adjust_zn_eq. done.
Qed.

Lemma do_sbc_bcd_eq v e (s := from_bcd (A (regs e)) - from_bcd v - (1 - Z.b2z (carry e))) :
  -200 ≤ s < 200 →
  rk65c02_do_sbc_bcd v e = (Ret tt, set_regs (arith_regs (sbc_bcd_result (s mod 65536))
    ((0 <=? s) && (s <=? 99))
    (ctrue ((A (regs e) ^^^ s mod 65536) &&& ((0xFF - v) ^^^ s mod 65536) &&& 0x80)) (regs e)) e).
Proof.
  intros Hs. unfold rk65c02_do_sbc_bcd. do 2 reg_step.
  cbv zeta. rewrite diff_val. fold (carry e). fold s. rewrite bcd_no_borrow by done.
  do 5 reg_step. rewrite adjust_zn_eq. done.
Qed.

Lemma arith_regs_carry x co ov e : carry (set_regs (arith_regs x co ov (regs e)) e) = co.
Proof.
  unfold carry. simpl. rewrite test_C. autorewrite with flags. reflexivity.
Qed.

(** Only the accumulator and the flags N, V, Z and C differ. *)
Definition arith_frame (e e' : rk65c02emu) : Prop :=
  ∃ a p, e' = set_regs (regs_P p (regs_A a (regs e))) e ∧
    fD (flags_of p) = fD (flags_of (P (regs e))) ∧ fI (flags_of p) = fI (flags_of (P (regs e))).

Lemma arith_regs_frame x co ov e : arith_frame e (set_regs (arith_regs x co ov (regs e)) e).
Proof. eexists _, _. split; [reflexivity|]. autorewrite with flags. done. Qed.

(** C33: decimal arithmetic on operands that are valid BCD.  The helpers return
    and change nothing but the accumulator and the flags.  After an addition
    the accumulator is valid BCD for the decimal sum modulo 100, and the carry
    is set exactly when the sum has a third digit; after a subtraction it is
    valid BCD for the decimal difference modulo 100, and the carry is clear
    exactly when a borrow was needed. *)
Theorem decimal_arithmetic v e (x := from_bcd (A (regs e))) (y := from_bcd v)
    (c := Z.b2z (carry e)) :
  valid_bcd (A (regs e)) → valid_bcd v →
  (∃ e', rk65c02_do_adc_bcd v e = (Ret tt, e') ∧ arith_frame e e' ∧
     valid_bcd (A (regs e')) ∧ from_bcd (A (regs e')) = (x + y + c) mod 100 ∧
     carry e' = (100 <=? x + y + c)) ∧
  (∃ e', rk65c02_do_sbc_bcd v e = (Ret tt, e') ∧ arith_frame e e' ∧
     valid_bcd (A (regs e')) ∧ from_bcd (A (regs e')) = (x - y - (1 - c)) mod 100 ∧
     carry e' = (0 <=? x - y - (1 - c))).
Proof.
  intros Hx Hy. pose proof (from_bcd_valid _ Hx) as Bx. pose proof (from_bcd_valid _ Hy) as By.
  assert (0 ≤ c ≤ 1) as Hc by (unfold c; destruct (carry e); simpl; lia).
  fold x in Bx. fold y in By. split.
  - rewrite do_adc_bcd_eq by (fold x y; lia). fold x y c. eexists.
    destruct (to_bcd_digits (u8 (x + y + c)) (u8_byte _)) as [Hd Hv].
    rewrite arith_regs_carry. rewrite u8_small in * by lia.
    split_and!; [done|apply arith_regs_frame|done|done|lia].
  - rewrite do_sbc_bcd_eq by (fold x y c; lia). fold x y c. eexists.
    pose proof (Z.mod_pos_bound (x - y - (1 - c)) 100). 
    destruct (to_bcd_digits ((x - y - (1 - c)) mod 100)) as [Hd Hv]; [lia|].
    rewrite arith_regs_carry, sbc_bcd_val by lia. rewrite to_bcd_val in * by lia.
    rewrite Z.mod_mod in Hv by lia.
    split_and!; [done|apply arith_regs_frame|done|done|lia].
Qed.

Lemma P_test_eq k e : P_test k e = (Ret (ctrue (P (regs e) &&& k)), e).
Proof. reflexivity. Qed.

(** Writing another flag does not disturb a later test of D. *)
Lemma P_put_D k b d e e' : k = P_SIGN_OVERFLOW ∨ k = P_CARRY → P_put k b e = (Ret tt, e') →
  P_test P_DECIMAL e = (Ret d, e) → P_test P_DECIMAL e' = (Ret d, e').
Proof.
  intros Hk Hp Hd. rewrite P_put_eq in Hp. simplify_eq. rewrite P_test_eq in *. f_equal.
  injection Hd as Hd. rewrite test_D in *.
  rewrite <- Hd. destruct Hk as [-> | ->]; cbn [regs set_regs P regs_P]; rewrite ?flags_put_V, ?flags_put_C; reflexivity.
Qed.

(** What [emul_adc] and [emul_sbc] do once the operand is read. *)
Definition adc_value (arg : Z) : M unit :=
  d ← P_test P_DECIMAL;
  a ← get_A;
  let res := if d : bool then u16 (from_bcd a + from_bcd arg) else u16 (a + arg) in
  c ← P_test P_CARRY;
  let res := if c : bool then u16 (res + 1) else res in
  a ← get_A;
  P_put P_SIGN_OVERFLOW (ctrue ((a ^^^ res) &&& (arg ^^^ res) &&& 0x80));;
  d ← P_test P_DECIMAL;
  (if d : bool then P_put P_CARRY (res >? 99) else P_put P_CARRY (res >? 0xFF));;
  d ← P_test P_DECIMAL;
  (if d : bool then put_A (to_bcd (u8 res)) else put_A (u8 res));;
  a ← get_A;
  adjust_zn a.
Definition sbc_value (arg : Z) : M unit :=
  d ← P_test P_DECIMAL;
  a ← get_A;
  let res := if d : bool then u16 (from_bcd a - from_bcd arg) else u16 (a - arg) in
  c ← P_test P_CARRY;
  let res := if c : bool then res else u16 (res - 1) in
  a ← get_A;
  P_put P_SIGN_OVERFLOW (ctrue ((a ^^^ res) &&& ((0xFF - arg) ^^^ res) &&& 0x80));;
  d ← P_test P_DECIMAL;
  (if d : bool then P_put P_CARRY (negb ((res >? 99) || ctrue (res &&& 0xFF00)))
   else P_put P_CARRY (negb (ctrue (res &&& 0xFF00))));;
  d ← P_test P_DECIMAL;
  (if d : bool then put_A (sbc_bcd_result res) else put_A (u8 res));;
  a ← get_A;
  adjust_zn a.

Lemma emul_adc_eq id i : emul_adc id i = (v ← instruction_data_read_1 id i; adc_value v).
Proof. reflexivity. Qed.
Lemma emul_sbc_eq id i : emul_sbc id i = (v ← instruction_data_read_1 id i; sbc_value v).
Proof. reflexivity. Qed.

(** Flags other than D written on the way do not change the mode. *)
Ltac same_mode HD :=
  erewrite (bind_Ret (P_put _ _)) by apply P_put_eq;
  erewrite (bind_Ret (P_test _)) by (eapply P_put_D; [|apply P_put_eq|exact HD]; auto);
  cbv iota; erewrite (bind_Ret (P_put _ _)) by apply P_put_eq;
  erewrite (bind_Ret (P_test _)) by
    (eapply P_put_D; [|apply P_put_eq|eapply P_put_D; [|apply P_put_eq|exact HD]; auto]; auto);
  cbv iota.

Lemma value_decimal v e : ctrue (P (regs e) &&& P_DECIMAL) = true →
  adc_value v e = rk65c02_do_adc_bcd v e ∧ sbc_value v e = rk65c02_do_sbc_bcd v e.
Proof.
  intros Hd. assert (P_test P_DECIMAL e = (Ret true, e)) as HD by (by rewrite P_test_eq, Hd).
  unfold adc_value, sbc_value, rk65c02_do_adc_bcd, rk65c02_do_sbc_bcd.
  split; erewrite bind_Ret by exact HD;
    do 3 erewrite bind_Ret by reflexivity; symmetry; do 3 erewrite bind_Ret by reflexivity;
    cbv zeta iota.
  all: symmetry; same_mode HD;
    symmetry; do 2 erewrite (bind_Ret (P_put _ _)) by apply P_put_eq; reflexivity.
Qed.

Lemma arith_regs_ok x co ov r : regs_ok r → byte x → regs_ok (arith_regs x co ov r).
Proof.
  intros [] Hx. split; simpl; try done. by repeat apply status_put_byte.
Qed.
Lemma do_bcd_regs v e : regs_ok (regs e) →
  (∃ r, regs_ok r ∧ rk65c02_do_adc_bcd v e = (Ret tt, set_regs r e)) ∧
  (∃ r, regs_ok r ∧ rk65c02_do_sbc_bcd v e = (Ret tt, set_regs r e)).
Proof.
  intros Hr. split.
  - unfold rk65c02_do_adc_bcd. do 7 reg_step. rewrite adjust_zn_eq. eexists. split; [|reflexivity].
    refine (arith_regs_ok _ _ _ _ Hr _). apply to_bcd_byte.
  - unfold rk65c02_do_sbc_bcd. do 7 reg_step. rewrite adjust_zn_eq. eexists. split; [|reflexivity].
    refine (arith_regs_ok _ _ _ _ Hr _). apply to_bcd_byte.
Qed.

(** Binary addition and subtraction. *)
Lemma adc_value_binary v e (s := A (regs e) + v + Z.b2z (carry e)) :
  ctrue (P (regs e) &&& P_DECIMAL) = false → byte (A (regs e)) → byte v →
  adc_value v e = (Ret tt, set_regs (arith_regs (u8 s) (s >? 0xFF)
    (ctrue ((A (regs e) ^^^ s) &&& (v ^^^ s) &&& 0x80)) (regs e)) e).
Proof.
  intros Hd Ha Hv. assert (P_test P_DECIMAL e = (Ret false, e)) as HD by (by rewrite P_test_eq, Hd).
  unfold adc_value. erewrite bind_Ret by exact HD. do 3 erewrite bind_Ret by reflexivity. cbv zeta iota.
  rewrite sum_val by done. fold (carry e). fold s. same_mode HD.
  do 2 reg_step. rewrite adjust_zn_eq. done.
Qed.
Lemma sbc_value_binary v e (s := A (regs e) - v - (1 - Z.b2z (carry e))) :
  ctrue (P (regs e) &&& P_DECIMAL) = false → byte (A (regs e)) → byte v →
  sbc_value v e = (Ret tt, set_regs (arith_regs (u8 s) (0 <=? s)
    (ctrue ((A (regs e) ^^^ s) &&& ((0xFF - v) ^^^ s) &&& 0x80)) (regs e)) e).
Proof.
  intros Hd Ha Hv. assert (P_test P_DECIMAL e = (Ret false, e)) as HD by (by rewrite P_test_eq, Hd).
  assert (0 ≤ Z.b2z (carry e) ≤ 1) by (destruct (carry e); simpl; lia).
  unfold sbc_value. erewrite bind_Ret by exact HD. do 3 erewrite bind_Ret by reflexivity. cbv zeta iota.
  rewrite diff_val. fold (carry e). fold s. same_mode HD.
  do 2 reg_step. rewrite adjust_zn_eq, no_borrow by lia.
  replace (u8 (s mod 65536)) with (u8 s) by (symmetry; apply mod65536_mod256).
  rewrite !overflow_bits, (bit7_mod (s mod 65536)), mod65536_mod256, <- bit7_mod. done.
Qed.

(** In decimal mode [emul_adc] and [emul_sbc] do exactly what the helpers
    that compiled code calls do with the operand that was read: the decimal
    arithmetic of the interpreter and of the JIT cannot diverge. *)
Theorem decimal_helpers_agree id i v e e1 :
  instruction_data_read_1 id i e = (Ret v, e1) → ctrue (P (regs e1) &&& P_DECIMAL) = true →
  emul_adc id i e = rk65c02_do_adc_bcd v e1 ∧ emul_sbc id i e = rk65c02_do_sbc_bcd v e1.
Proof.
  intros Hr Hd. rewrite emul_adc_eq, emul_sbc_eq. erewrite !bind_Ret by exact Hr.
  by apply value_decimal.
Qed.

End Decimal.
