(* ===== verification/TableSpec.v ===== *)
(** The instruction table, lookup by mnemonic, the assembler and the
    disassembler's text. *)
From stdpp Require Import base numbers list gmap strings.
From S2P Require Import Prelude Types Isa BusSpec Bus State Interfaces Mmu Instruction Disasm.
From S2P Require Import Assembler.

(** ** The opcode matrix

    The regular part of the 65C02's opcode map: an opcode is [aaabbbcc] in
    binary, [aaa] choosing the operation and [bbb] the addressing mode. *)

Definition row_of (o : Z) : emul_fn * addressing_t :=
  (d_emul (instruction_decode o), d_mode (instruction_decode o)).

Definition group1_op (a : Z) : emul_fn :=
  nth (Z.to_nat a) [f_ora; f_and; f_eor; f_adc; f_sta; f_lda; f_cmp; f_sbc] f_invalid.
Definition group1_mode (b : Z) : addressing_t :=
  nth (Z.to_nat b) [IZPX; ZP; IMMEDIATE; ABSOLUTE; IZPY; ZPX; ABSOLUTEY; ABSOLUTEX] IMPLIED.
Definition shift_op (a : Z) : emul_fn :=
  nth (Z.to_nat a) [f_asl; f_rol; f_lsr; f_ror] f_invalid.
Definition shift_mode (b : Z) : option addressing_t :=
  nth (Z.to_nat b) [None; Some ZP; Some ACCUMULATOR; Some ABSOLUTE; None; Some ZPX; None;
                    Some ABSOLUTEX] None.
Definition branch_op (a : Z) : emul_fn :=
  nth (Z.to_nat a) [f_bpl; f_bmi; f_bvc; f_bvs; f_bcc; f_bcs; f_bne; f_beq] f_invalid.
Definition bit_op (clear_ops set_ops : list emul_fn) (n : Z) : emul_fn :=
  nth (Z.to_nat n) (clear_ops ++ set_ops) f_invalid.

Definition rmb_ops := [f_rmb0; f_rmb1; f_rmb2; f_rmb3; f_rmb4; f_rmb5; f_rmb6; f_rmb7].
Definition smb_ops := [f_smb0; f_smb1; f_smb2; f_smb3; f_smb4; f_smb5; f_smb6; f_smb7].
Definition bbr_ops := [f_bbr0; f_bbr1; f_bbr2; f_bbr3; f_bbr4; f_bbr5; f_bbr6; f_bbr7].
Definition bbs_ops := [f_bbs0; f_bbs1; f_bbs2; f_bbs3; f_bbs4; f_bbs5; f_bbs6; f_bbs7].

Record matrix (o : Z) : Prop := {
  mx_opcode : d_opcode (instruction_decode o) = o;
  (** LDA and its like; STA #imm, which would be 0x89, is BIT #imm *)
  mx_group1 : o mod 4 = 1 → o ≠ 0x89 →
    row_of o = (group1_op (o / 32), group1_mode (o / 4 mod 8));
  (** the zero-page indirect mode the 65C02 added to them *)
  mx_izp : o mod 32 = 18 → row_of o = (group1_op (o / 32), IZP);
  mx_shift : o < 0x80 → o mod 4 = 2 → ∀ m, shift_mode (o / 4 mod 8) = Some m →
    row_of o = (shift_op (o / 32), m);
  mx_branch : o mod 32 = 16 → row_of o = (branch_op (o / 32), RELATIVE);
  mx_memory_bits : o mod 16 = 7 → row_of o = (bit_op rmb_ops smb_ops (o / 16), ZP);
  mx_bit_branch : o mod 16 = 15 → row_of o = (bit_op bbr_ops bbs_ops (o / 16), ZPR)
}.

Definition matrixb (o : Z) : bool :=
  (d_opcode (instruction_decode o) =? o) &&
  (negb (o mod 4 =? 1) || (o =? 0x89) ||
     bool_decide (row_of o = (group1_op (o / 32), group1_mode (o / 4 mod 8)))) &&
  (negb (o mod 32 =? 18) || bool_decide (row_of o = (group1_op (o / 32), IZP))) &&
  (negb (o <? 0x80) || negb (o mod 4 =? 2) ||
     match shift_mode (o / 4 mod 8) with
     | Some m => bool_decide (row_of o = (shift_op (o / 32), m))
     | None => true
     end) &&
  (negb (o mod 32 =? 16) || bool_decide (row_of o = (branch_op (o / 32), RELATIVE))) &&
  (negb (o mod 16 =? 7) || bool_decide (row_of o = (bit_op rmb_ops smb_ops (o / 16), ZP))) &&
  (negb (o mod 16 =? 15) || bool_decide (row_of o = (bit_op bbr_ops bbs_ops (o / 16), ZPR))).

(** C28: the instruction table is the 65C02's.  Every row sits at its own
    opcode, and the rows of the regular parts of the opcode map have the
    operation and addressing mode the opcode's bits call for. *)
Theorem table_matrix o : byte o → matrix o.
Proof.
  intros Ho. assert (matrixb o = true) as H.
  { revert o Ho. apply byte_forall. vm_compute. reflexivity. }
  unfold matrixb in H. rewrite !andb_true_iff in H.
  destruct H as [[[[[[H1 H2] H3] H4] H5] H6] H7].
  split.
  - lia.
  - intros E N. apply orb_true_iff in H2 as [H2|H2%bool_decide_eq_true]; [lia|done].
  - intros E. apply orb_true_iff in H3 as [H3|H3%bool_decide_eq_true]; [lia|done].
  - intros L E m Hm. rewrite Hm in H4.
    apply orb_true_iff in H4 as [H4|H4%bool_decide_eq_true]; [lia|done].
  - intros E. apply orb_true_iff in H5 as [H5|H5%bool_decide_eq_true]; [lia|done].
  - intros E. apply orb_true_iff in H6 as [H6|H6%bool_decide_eq_true]; [lia|done].
  - intros E. apply orb_true_iff in H7 as [H7|H7%bool_decide_eq_true]; [lia|done].
Qed.

(** ** Lookup by mnemonic *)

Definition row_matches (mnemonic : string) (mode : addressing_t) (o : Z) : Prop :=
  d_mnemonic (instruction_decode o) = mnemonic ∧ d_mode (instruction_decode o) = mode.

Lemma opcode_search_spec mn mode l :
  match opcode_search mn mode l with
  | Some (o, id) => id = instruction_decode o ∧ row_matches mn mode o ∧
      ∃ l1 l2, l = l1 ++ o :: l2 ∧ Forall (λ x, ¬ row_matches mn mode x) l1
  | None => Forall (λ x, ¬ row_matches mn mode x) l
  end.
Proof.
  induction l as [|x l IH]; [constructor|]. cbn [opcode_search].
  destruct (bool_decide (mn = d_mnemonic (instruction_decode x)) &&
            bool_decide (d_mode (instruction_decode x) = mode)) eqn:E.
  - rewrite andb_true_iff, !bool_decide_eq_true in E. destruct E as [-> E].
    split; [done|]. split; [done|]. exists [], l. by split.
  - assert (¬ row_matches mn mode x) as Hx.
    { intros [E1 E2]. by rewrite !bool_decide_true in E by auto. }
    destruct (opcode_search mn mode l) as [[o id]|]; [|by constructor].
    destruct IH as (?&?&l1&l2&->&?). split; [done|]. split; [done|].
    exists (x :: l1), l2. split; [done|]. by constructor.
Qed.

Lemma opcode_by_mnemonic_Some mn mode o id :
  instruction_opcode_by_mnemonic mn mode = Some (o, id) →
  byte o ∧ id = instruction_decode o ∧ row_matches mn mode o ∧
  ∀ o', 0 ≤ o' < o → ¬ row_matches mn mode o'.
Proof.
  intros H. unfold instruction_opcode_by_mnemonic in H.
  pose proof (opcode_search_spec mn mode (seqZ 0 256)) as Hs. rewrite H in Hs.
  destruct Hs as (->&Hm&l1&l2&E&Hl1).
  assert (o = Z.of_nat (length l1)) as ->.
  { assert (seqZ 0 256 !! length l1 = Some o) as Ho by (by rewrite E, list_lookup_middle).
    apply lookup_seqZ in Ho. lia. }
  assert (length l1 < 256)%nat as Hlt.
  { apply (f_equal length) in E. rewrite length_seqZ, length_app in E. simpl in E. lia. }
  split; [lia|]. split; [done|]. split; [done|]. intros o' Ho'.
  rewrite Forall_lookup in Hl1. apply (Hl1 (Z.to_nat o')).
  assert (seqZ 0 256 !! Z.to_nat o' = Some o') as Hx by (apply lookup_seqZ; lia).
  rewrite E, lookup_app_l in Hx by lia. done.
Qed.

(** Lookup by mnemonic.  [instruction_opcode_by_mnemonic] finds the lowest
    opcode with the mnemonic and mode, together with its definition, and fails
    exactly when the table has none. *)
Theorem opcode_by_mnemonic_lowest mn mode :
  match instruction_opcode_by_mnemonic mn mode with
  | Some (o, id) => byte o ∧ id = instruction_decode o ∧ row_matches mn mode o ∧
      ∀ o', 0 ≤ o' < o → ¬ row_matches mn mode o'
  | None => ∀ o, byte o → ¬ row_matches mn mode o
  end.
Proof.
  destruct (instruction_opcode_by_mnemonic mn mode) as [[o id]|] eqn:E.
  - by apply opcode_by_mnemonic_Some.
  - unfold instruction_opcode_by_mnemonic in E.
    pose proof (opcode_search_spec mn mode (seqZ 0 256)) as Hs. rewrite E, Forall_forall in Hs.
    intros o Ho. apply Hs, elem_of_seqZ. lia.
Qed.

(** ** The assembler *)

Section Assembler.
Context {DH : DeviceHost}.

Lemma table_size o : byte o →
  1 ≤ d_size (instruction_decode o) ≤ 3 ∧
  1 + Z.of_nat (mode_operands (d_mode (instruction_decode o))) ≤ d_size (instruction_decode o).
Proof.
  intros Ho. pose proof (byte_forall (λ o,
    (1 <=? d_size (instruction_decode o)) && (d_size (instruction_decode o) <=? 3) &&
    (1 + Z.of_nat (mode_operands (d_mode (instruction_decode o))) <=? d_size (instruction_decode o)))
    ltac:(vm_compute; reflexivity) o Ho) as H.
  cbv beta in H. lia.
Qed.

(** The bytes of an instruction: opcode first, then as many operands as the
    size leaves room for. *)
Lemma assemble_bytes mn mode op1 op2 buf : assemble_single_buf mn mode op1 op2 = Some buf →
  ∃ o, instruction_opcode_by_mnemonic mn mode = Some (o, instruction_decode o) ∧ byte o ∧
    row_matches mn mode o ∧ buf = take (Z.to_nat (d_size (instruction_decode o))) [o; op1; op2].
Proof.
  unfold assemble_single_buf.
  destruct (instruction_opcode_by_mnemonic mn mode) as [[o id]|] eqn:E; [|done].
  destruct (opcode_by_mnemonic_Some mn mode o id E) as (Ho&->&Hm&_). intros [= <-].
  exists o. split; [done|]. split; [done|]. split; [done|].
  destruct (table_size o Ho) as [Hs _].
  assert (d_size (instruction_decode o) = 1 ∨ d_size (instruction_decode o) = 2 ∨
          d_size (instruction_decode o) = 3) as [-> | [-> | ->]] by lia; reflexivity.
Qed.

End Assembler.
