(* ===== verification/AssemblerSpec.v ===== *)
(** What is assembled is what is fetched. *)
From stdpp Require Import base numbers list gmap strings.
From S2P Require Import Prelude Types Isa BusSpec Bus State Interfaces Mmu Instruction Disasm.
From S2P Require Import Assembler TableSpec.

Section AssemblerSpec.
(** An emulator attached to the bus of [bus.c], with any JIT and host data. *)
Context {DH : DeviceHost} (J H : Type).
#[local] Instance bus_sys : Sys := {| sys_bus := bus_t; sys_jit := J; sys_host := H |}.
#[local] Instance bus_sys_bus : SysBus := {| sys_bus_ops := bus_ops |}.
Context {HO : HostOps}.

(** The fetched instruction has the operands its mode uses. *)
Definition fetched (i : instruction_t) (o op1 op2 : Z) : Prop :=
  let n := mode_operands (d_mode (instruction_decode o)) in
  i_opcode i = o ∧ ((1 ≤ n)%nat → i_op1 i = op1) ∧ ((2 ≤ n)%nat → i_op2 i = op2).

Lemma fetch_bytes (t : bus_t) pc o op1 op2 :
  let n := mode_operands (d_mode (instruction_decode o)) in
  bus_read_1 t pc = (o, t) →
  ((1 ≤ n)%nat → bus_read_1 t (u16 (pc + 1)) = (op1, t)) →
  ((2 ≤ n)%nat → bus_read_1 t (u16 (pc + 2)) = (op2, t)) →
  ∃ i, instruction_fetch t pc = (i, t) ∧ fetched i o op1 op2.
Proof.
  intros n H0 H1 H2. unfold instruction_fetch, fetched. fold n.
  change (b_read t pc) with (bus_read_1 t pc). rewrite H0. fold n.
  destruct n as [|[|[|k]]] eqn:En.
  - eexists. split; [reflexivity|]. simpl. split; [done|]. lia.
  - change (b_read t (u16 (pc + 1))) with (bus_read_1 t (u16 (pc + 1))). rewrite H1 by lia.
    eexists. split; [reflexivity|]. simpl. split; [done|]. split; [done|lia].
  - change (b_read t (u16 (pc + 1))) with (bus_read_1 t (u16 (pc + 1))). rewrite H1 by lia.
    change (b_read t (u16 (pc + 2))) with (bus_read_1 t (u16 (pc + 2))). rewrite H2 by lia.
    by eexists.
  - exfalso. unfold n in En. by destruct (d_mode (instruction_decode o)).
Qed.

(** C29: assembling and fetching.  When the mnemonic exists in the mode and the
    instruction fits on distinct RAM addresses from the assembler's program
    counter on, [assemble_single] succeeds and advances the program counter by
    the instruction's size, and fetching at the old program counter gives an
    instruction that decodes to that mnemonic and mode with the given
    operands. *)
Theorem assemble_fetch_roundtrip a mn mode op1 op2 buf :
  assemble_single_buf mn mode op1 op2 = Some buf →
  word (asm_pc a) → asm_pc a + Z.of_nat (length buf) ≤ RK65C02_BUS_SIZE →
  (∀ k, (k < length buf)%nat → is_Some (ram_cell (asm_bus a) (asm_pc a + Z.of_nat k))) →
  (∀ j k, (j < length buf)%nat → (k < length buf)%nat →
     ram_cell (asm_bus a) (asm_pc a + Z.of_nat j) = ram_cell (asm_bus a) (asm_pc a + Z.of_nat k) →
     j = k) →
  ∃ a' i o, assemble_single a mn mode op1 op2 = Some (true, a') ∧
    asm_pc a' = u16 (asm_pc a + d_size (instruction_decode o)) ∧
    instruction_fetch (asm_bus a') (asm_pc a) = (i, asm_bus a') ∧
    row_matches mn mode o ∧ fetched i o op1 op2.
Proof.
  intros Hbuf Hpc Hfit Hram Hinj.
  destruct (assemble_bytes mn mode op1 op2 buf Hbuf) as (o&_&Ho&Hm&Eb).
  destruct (table_size o Ho) as [Hs Hops].
  assert (length buf = Z.to_nat (d_size (instruction_decode o))) as Hlen.
  { rewrite Eb, length_take. simpl. lia. }
  destruct (bus_load_buf_spec (asm_bus a) (asm_pc a) buf) as (t'&El&Hrd&_); try done.
  { intros ->. simpl in Hlen. lia. }
  assert (∀ k v, [o; op1; op2] !! k = Some v → (k < length buf)%nat →
    bus_read_1 t' (asm_pc a + Z.of_nat k) = (v, t')) as Hk.
  { intros k v Hv Hl. apply Hrd. rewrite Eb, lookup_take_lt by lia. done. }
  assert (∀ k, (k < length buf)%nat → u16 (asm_pc a + Z.of_nat k) = asm_pc a + Z.of_nat k) as Hu.
  { intros k Hl. unfold RK65C02_BUS_SIZE in Hfit. apply u16_small. lia. }
  destruct (fetch_bytes t' (asm_pc a) o op1 op2) as (i&Ei&Hi).
  - rewrite <- (Z.add_0_r (asm_pc a)). apply (Hk 0%nat); [done|lia].
  - intros Hn. change 1 with (Z.of_nat 1). rewrite Hu by lia. apply (Hk 1%nat); [done|lia].
  - intros Hn. change 2 with (Z.of_nat 2). rewrite Hu by lia. apply (Hk 2%nat); [done|lia].
  - eexists _, i, o. split; [unfold assemble_single; rewrite Hbuf, El; reflexivity|].
    split; [|done]. simpl. rewrite Hlen. f_equal. lia.
Qed.

End AssemblerSpec.
