(* ===== verification/TextSpec.v ===== *)
(** The strings the library prints fit the buffers it prints them into. *)
From stdpp Require Import base numbers list gmap strings.
From S2P Require Import Prelude Types Isa BusSpec State Interfaces Mmu Instruction Disasm.
From S2P Require Import Invariant.

Lemma length_string_app s t : String.length (s +:+ t) = (String.length s + String.length t)%nat.
Proof. induction s as [|c s IH]; [done|]. simpl. by rewrite IH. Qed.

Lemma substring_all n s : (String.length s ≤ n)%nat → String.substring 0 n s = s.
Proof.
  revert n. induction s as [|c s IH]; intros [|n] H; simpl in *; try done; try lia.
  f_equal. apply IH. lia.
Qed.

Lemma nth_all {T} (Q : T → Prop) n l d : Forall Q l → Q d → Q (nth n l d).
Proof. intros Hl. revert n. induction Hl; intros [|n]; simpl; auto. Qed.

Lemma hex_digit_length u d : (String.length (hex_digit u d) ≤ 1)%nat.
Proof.
  unfold hex_digit. apply (nth_all (λ s, (String.length s ≤ 1)%nat)).
  - repeat constructor.
  - apply (nth_all (λ s, (String.length s ≤ 1)%nat)); [|simpl; lia]. destruct u; repeat constructor.
Qed.

Lemma hex_digits_length u n v : (String.length (hex_digits u n v) ≤ n)%nat.
Proof.
  revert v. induction n as [|n IH]; intros v; [done|]. cbn [hex_digits].
  pose proof (hex_digit_length u v). pose proof (hex_digit_length u (v mod 16)).
  pose proof (IH (v / 16)). case_match; [lia|]. rewrite length_string_app. lia.
Qed.

Lemma fmt_alt02x_length v : (String.length (fmt_alt02x v) ≤ 4)%nat.
Proof.
  unfold fmt_alt02x. case_match; [simpl; lia|]. rewrite length_string_app.
  pose proof (hex_digits_length false 2 v). change (String.length "0x") with 2%nat. lia.
Qed.
Lemma fmt_02x_length v : (String.length (fmt_02x v) ≤ 2)%nat.
Proof.
  unfold fmt_02x. rewrite length_string_app. pose proof (hex_digit_length false (v / 16)).
  pose proof (hex_digit_length false (v mod 16)). lia.
Qed.

Lemma mnemonic_length o : byte o → (String.length (d_mnemonic (instruction_decode o)) ≤ 7)%nat.
Proof.
  intros Ho. pose proof (byte_forall
    (λ o, Nat.leb (String.length (d_mnemonic (instruction_decode o))) 7) eq_refl o Ho) as H.
  by apply Nat.leb_le in H.
Qed.

Lemma instruction_text_length i : byte (i_opcode i) →
  (String.length (instruction_text i) < INSTR_STR_LEN)%nat.
Proof.
  intros Ho. pose proof (mnemonic_length _ Ho). unfold instruction_text, INSTR_STR_LEN.
  pose proof (fmt_alt02x_length (i_op1 i)). pose proof (fmt_alt02x_length (i_op2 i)).
  pose proof (fmt_02x_length (i_op1 i)).
  destruct (d_mode (instruction_decode (i_opcode i))); rewrite ?length_string_app; simpl; lia.
Qed.

Lemma byte_hex_length v : byte v → (String.length (fmt_X v) ≤ 2)%nat.
Proof.
  intros Hv. pose proof (byte_forall (λ v, Nat.leb (String.length (fmt_X v)) 2) eq_refl v Hv) as H.
  by apply Nat.leb_le in H.
Qed.

Lemma flag_char_length p m c : String.length c = 1%nat → String.length (flag_char p m c) = 1%nat.
Proof. unfold flag_char. by case_match. Qed.

Lemma regs_text_length r : regs_ok r → (String.length (regs_text r) < REGS_STR_LEN)%nat.
Proof.
  intros []. pose proof (byte_hex_length (A r)). pose proof (byte_hex_length (X r)).
  pose proof (byte_hex_length (Y r)). pose proof (byte_hex_length (SP r)).
  pose proof (hex_digits_length true 4 (PC r)) as Hpc. fold (fmt_X (PC r)) in Hpc.
  unfold regs_text, REGS_STR_LEN. rewrite !length_string_app, !flag_char_length by done.
  simpl String.length. lia.
Qed.

(** No text is truncated.  The disassembly of every instruction and the
    text of every register file are shorter than the buffers [snprintf] is
    given (24 and 50 characters with the terminator), so the strings returned
    are the complete texts. *)
Theorem text_not_truncated i r : byte (i_opcode i) → regs_ok r →
  instruction_string_get i = instruction_text i ∧ rk65c02_regs_string_get r = regs_text r.
Proof.
  intros Ho Hr. pose proof (instruction_text_length i Ho). pose proof (regs_text_length r Hr).
  unfold instruction_string_get, rk65c02_regs_string_get, snprintf.
  split; apply substring_all; lia.
Qed.
