(* ===== verification/JitCache.v ===== *)
(** The block cache of the JIT backend: the data structures of [src/src/jit.c]
    and the functions on them that do not touch the emulator.

    A block's native code is produced by GNU lightning; what matters here is
    whether a block has code ([fn] and [lightning_state] not NULL) and which
    instructions it was generated from, so [fn] holds those.  The arrays of
    counters are maps from index to value, absent indexes holding the zero of
    [memset]. *)
From stdpp Require Import base numbers list gmap strings.
From S2P Require Import Prelude Types Isa.

Definition JIT_CACHE_SIZE : Z := 65536.
Definition JIT_BLOCK_MAX_INSNS : nat := 64.
Definition JIT_MAX_ACTIVE_BLOCKS : Z := 1024.
Definition JIT_MAX_INVALIDATIONS_PER_RUN : Z := 128.
Definition JIT_PAGE_INVALIDATION_THRESHOLD : Z := 4.
Definition JIT_LOOP_BUDGET : Z := 256.
Definition JIT_WRITE_EVENT_SLOTS : nat := 4.
Definition JIT_MAGIC : Z := 0x4a495431.

(** ** Arrays of counters *)

Abbreviation array := (gmap Z Z).
Definition arr_get (a : array) (i : Z) : Z := default 0 (a !! i).

(** [next = cell + delta; if (next < 0) next = 0; cell = (uint16_t) next;] *)
Definition refcnt_bump (delta cell : Z) : Z :=
  let next := cell + delta in
  let next := if next <? 0 then 0 else next in
  u16 next.
Definition arr_bump (delta : Z) (a : array) (i : Z) : array :=
  <[i := refcnt_bump delta (arr_get a i)]> a.
(** [cell++] on an [uint16_t] element. *)
Definition arr_incr (a : array) (i : Z) : array := <[i := u16 (arr_get a i + 1)]> a.

(** ** Data *)

Record jit_block_insn := mkBlockInsn { bi_i : instruction_t; bi_id : instrdef_t }.

Record rk65c02_jit_block := mkBlock {
  start_pc : Z;
  end_pc_exclusive : Z;
  mmu_phys_page_valid : bool;
  mmu_phys_page : Z;
  mmu_phys_byte_cov : bool;
  mmu_phys_start : Z;
  num_insns : Z;
  fn : option (list jit_block_insn);
  lightning_state : bool
}.

Record rk65c02_jit_stats_t := mkStats {
  st_write_events : Z;
  st_blocks_invalidated : Z;
  st_blocks_compiled : Z;
  st_blocks_executed : Z;
  st_pages_demoted : Z;
  st_run_jit_disables : Z;
  st_insns_executed : Z
}.
Definition stats_zero : rk65c02_jit_stats_t := mkStats 0 0 0 0 0 0 0.

(** One slot of [pending_write_addr], [pending_write_phys_valid] and
    [pending_write_phys_addr]; the first [pending_writes] slots are a list. *)
Record pending_write_t := mkPending { pw_addr : Z; pw_phys_valid : bool; pw_phys_addr : Z }.

Record rk65c02_jit := mkJit {
  magic : Z;
  active_blocks : Z;
  needs_flush : bool;
  pending_write : list pending_write_t;
  pending_write_overflow : bool;
  invalidation_events_this_run : Z;
  stats : rk65c02_jit_stats_t;
  compiled_page_refcnt : array;
  compiled_phys_page_refcnt : array;
  covered_phys_addr_refcnt : array;
  compiled_phys_refs_total : Z;
  compiled_code_page_refcnt : array;
  covered_addr_refcnt : array;
  page_invalidation_events : array;
  mutable_code_page : gset Z;
  blocks : gmap Z rk65c02_jit_block
}.

(** The record rebuilt field by field; the setters replace one field of it. *)
Definition jit_eta (j : rk65c02_jit) : rk65c02_jit :=
  mkJit (j.(magic)) (j.(active_blocks)) (j.(needs_flush)) (j.(pending_write)) (j.(pending_write_overflow)) (j.(invalidation_events_this_run)) (j.(stats)) (j.(compiled_page_refcnt)) (j.(compiled_phys_page_refcnt)) (j.(covered_phys_addr_refcnt)) (j.(compiled_phys_refs_total)) (j.(compiled_code_page_refcnt)) (j.(covered_addr_refcnt)) (j.(page_invalidation_events)) (j.(mutable_code_page)) (j.(blocks)).

Ltac replace_jit_field j f v :=
  let b := eval cbv beta delta [jit_eta] in (jit_eta j) in
  match b with context C [f j] => let b' := context C [v] in exact b' end.

Definition put_magic (v : Z) (j : rk65c02_jit) : rk65c02_jit :=
  ltac:(replace_jit_field j magic v).
Definition put_active_blocks (v : Z) (j : rk65c02_jit) : rk65c02_jit :=
  ltac:(replace_jit_field j active_blocks v).
Definition put_needs_flush (v : bool) (j : rk65c02_jit) : rk65c02_jit :=
  ltac:(replace_jit_field j needs_flush v).
Definition put_pending_write (v : list pending_write_t) (j : rk65c02_jit) : rk65c02_jit :=
  ltac:(replace_jit_field j pending_write v).
Definition put_pending_write_overflow (v : bool) (j : rk65c02_jit) : rk65c02_jit :=
  ltac:(replace_jit_field j pending_write_overflow v).
Definition put_invalidation_events_this_run (v : Z) (j : rk65c02_jit) : rk65c02_jit :=
  ltac:(replace_jit_field j invalidation_events_this_run v).
Definition put_stats (v : rk65c02_jit_stats_t) (j : rk65c02_jit) : rk65c02_jit :=
  ltac:(replace_jit_field j stats v).
Definition put_compiled_page_refcnt (v : array) (j : rk65c02_jit) : rk65c02_jit :=
  ltac:(replace_jit_field j compiled_page_refcnt v).
Definition put_compiled_phys_page_refcnt (v : array) (j : rk65c02_jit) : rk65c02_jit :=
  ltac:(replace_jit_field j compiled_phys_page_refcnt v).
Definition put_covered_phys_addr_refcnt (v : array) (j : rk65c02_jit) : rk65c02_jit :=
  ltac:(replace_jit_field j covered_phys_addr_refcnt v).
Definition put_compiled_phys_refs_total (v : Z) (j : rk65c02_jit) : rk65c02_jit :=
  ltac:(replace_jit_field j compiled_phys_refs_total v).
Definition put_compiled_code_page_refcnt (v : array) (j : rk65c02_jit) : rk65c02_jit :=
  ltac:(replace_jit_field j compiled_code_page_refcnt v).
Definition put_covered_addr_refcnt (v : array) (j : rk65c02_jit) : rk65c02_jit :=
  ltac:(replace_jit_field j covered_addr_refcnt v).
Definition put_page_invalidation_events (v : array) (j : rk65c02_jit) : rk65c02_jit :=
  ltac:(replace_jit_field j page_invalidation_events v).
Definition put_mutable_code_page (v : gset Z) (j : rk65c02_jit) : rk65c02_jit :=
  ltac:(replace_jit_field j mutable_code_page v).
Definition put_blocks (v : gmap Z rk65c02_jit_block) (j : rk65c02_jit) : rk65c02_jit :=
  ltac:(replace_jit_field j blocks v).

Definition put_fn_none (b : rk65c02_jit_block) : rk65c02_jit_block :=
  mkBlock (start_pc b) (end_pc_exclusive b) (mmu_phys_page_valid b) (mmu_phys_page b)
    (mmu_phys_byte_cov b) (mmu_phys_start b) (num_insns b) None false.

Definition stats_write_event (s : rk65c02_jit_stats_t) : rk65c02_jit_stats_t :=
  mkStats (u64 (st_write_events s + 1)) (st_blocks_invalidated s) (st_blocks_compiled s)
    (st_blocks_executed s) (st_pages_demoted s) (st_run_jit_disables s) (st_insns_executed s).
Definition stats_block_invalidated (s : rk65c02_jit_stats_t) : rk65c02_jit_stats_t :=
  mkStats (st_write_events s) (u64 (st_blocks_invalidated s + 1)) (st_blocks_compiled s)
    (st_blocks_executed s) (st_pages_demoted s) (st_run_jit_disables s) (st_insns_executed s).
Definition stats_block_compiled (s : rk65c02_jit_stats_t) : rk65c02_jit_stats_t :=
  mkStats (st_write_events s) (st_blocks_invalidated s) (u64 (st_blocks_compiled s + 1))
    (st_blocks_executed s) (st_pages_demoted s) (st_run_jit_disables s) (st_insns_executed s).
Definition stats_block_executed (n : Z) (s : rk65c02_jit_stats_t) : rk65c02_jit_stats_t :=
  mkStats (st_write_events s) (st_blocks_invalidated s) (st_blocks_compiled s)
    (u64 (st_blocks_executed s + 1)) (st_pages_demoted s) (st_run_jit_disables s)
    (u64 (st_insns_executed s + n)).
Definition stats_page_demoted (s : rk65c02_jit_stats_t) : rk65c02_jit_stats_t :=
  mkStats (st_write_events s) (st_blocks_invalidated s) (st_blocks_compiled s)
    (st_blocks_executed s) (u64 (st_pages_demoted s + 1)) (st_run_jit_disables s)
    (st_insns_executed s).
Definition stats_run_disabled (s : rk65c02_jit_stats_t) : rk65c02_jit_stats_t :=
  mkStats (st_write_events s) (st_blocks_invalidated s) (st_blocks_compiled s)
    (st_blocks_executed s) (st_pages_demoted s) (u64 (st_run_jit_disables s + 1))
    (st_insns_executed s).

(** ** Opcodes *)

Definition jit_opcode_is_cond_branch (op : Z) : bool :=
  bool_decide (op ∈ [0x10; 0x30; 0x50; 0x70; 0x90; 0xB0; 0xD0; 0xF0]).

(** ** Life of the cache *)

(** The values of a loop variable: [m], [m + 1], ... ([n] of them). *)
Fixpoint zseq (m : Z) (n : nat) : list Z :=
  match n with O => [] | S n' => m :: zseq (m + 1) n' end.

(** [for (i = 0; i < JIT_CACHE_SIZE; i++)] *)
Definition slots : list Z := zseq 0 (Z.to_nat JIT_CACHE_SIZE).

Definition jit_backend_create : rk65c02_jit :=
  mkJit JIT_MAGIC 0 false [] false 0 stats_zero ∅ ∅ ∅ 0 ∅ ∅ ∅ ∅ ∅.

Definition jit_find_block (j : rk65c02_jit) (pc : Z) : option rk65c02_jit_block :=
  if negb (magic j =? JIT_MAGIC) then None else blocks j !! pc.

(** [b != NULL && b->fn != NULL] *)
Definition live (b : rk65c02_jit_block) : bool := bool_decide (is_Some (fn b)).

(** ** Reference counts *)

(** The addresses of the block: the values of [addr] in the loop from
    [start_pc] up to [end_pc_exclusive], all of them when the two are equal. *)
Definition block_addrs (b : rk65c02_jit_block) : list Z :=
  if start_pc b =? end_pc_exclusive b then seqZ 0 65536
  else (λ k, u16 (start_pc b + k)) <$> seqZ 0 (u16 (end_pc_exclusive b - start_pc b)).

(** The pages marked in [seen]. *)
Definition block_pages (b : rk65c02_jit_block) : gset Z :=
  if start_pc b =? end_pc_exclusive b then list_to_set (seqZ 0 256)
  else list_to_set ((λ a, a ≫ 8) <$> block_addrs b).

(** The physical addresses of the byte tier: [len] is an [uint16_t]. *)
Definition block_phys_addrs (b : rk65c02_jit_block) : list Z :=
  (λ off, mmu_phys_start b + off) <$> seqZ 0 (u16 (end_pc_exclusive b - start_pc b)).

Definition jit_block_page_refs_update (j : rk65c02_jit) (b : rk65c02_jit_block) (add : bool)
    : rk65c02_jit :=
  let delta := if add then 1 else -1 in
  let j := put_covered_addr_refcnt
    (foldl (arr_bump delta) (covered_addr_refcnt j) (block_addrs b)) j in
  let j := put_compiled_page_refcnt
    (foldl (arr_bump delta) (compiled_page_refcnt j)
      (filter (λ p, p ∈ block_pages b) (seqZ 0 256))) j in
  let j :=
    if mmu_phys_page_valid b then
      let j :=
        if mmu_phys_byte_cov b then
          put_covered_phys_addr_refcnt
            (foldl (arr_bump delta) (covered_phys_addr_refcnt j) (block_phys_addrs b)) j
        else put_compiled_phys_page_refcnt
            (arr_bump delta (compiled_phys_page_refcnt j) (mmu_phys_page b)) j in
      if delta >? 0 then put_compiled_phys_refs_total (u32 (compiled_phys_refs_total j + 1)) j
      else if compiled_phys_refs_total j >? 0
      then put_compiled_phys_refs_total (compiled_phys_refs_total j - 1) j
      else j
    else j in
  put_compiled_code_page_refcnt
    (arr_bump delta (compiled_code_page_refcnt j) (u8 (start_pc b ≫ 8))) j.

(** The [for] over the cache of [jit_backend_flush]. *)
Definition flush_slot (j : rk65c02_jit) (i : Z) : rk65c02_jit :=
  match blocks j !! i with
  | None => j
  | Some b =>
      let j := if live b then jit_block_page_refs_update j b false else j in
      put_blocks (<[i := put_fn_none b]> (blocks j)) j
  end.

(** The assignments after the loop. *)
Definition flush_counters (j : rk65c02_jit) : rk65c02_jit :=
  let j := put_active_blocks 0 j in
  let j := put_needs_flush false j in
  let j := put_pending_write [] j in
  let j := put_pending_write_overflow false j in
  let j := put_compiled_page_refcnt ∅ j in
  let j := put_compiled_phys_page_refcnt ∅ j in
  let j := put_covered_phys_addr_refcnt ∅ j in
  let j := put_compiled_phys_refs_total 0 j in
  let j := put_compiled_code_page_refcnt ∅ j in
  let j := put_covered_addr_refcnt ∅ j in
  let j := put_page_invalidation_events ∅ j in
  put_mutable_code_page ∅ j.

Definition jit_backend_flush (j : rk65c02_jit) : rk65c02_jit :=
  flush_counters (foldl flush_slot j slots).

Definition jit_run_state_reset (j : rk65c02_jit) : rk65c02_jit :=
  let j := put_invalidation_events_this_run 0 j in
  let j := put_page_invalidation_events ∅ j in
  put_mutable_code_page ∅ j.

(** ** Invalidation *)

Definition jit_block_contains_addr (b : rk65c02_jit_block) (addr : Z) : bool :=
  let start := start_pc b in
  let ende := end_pc_exclusive b in
  if start <? ende then (addr >=? start) && (addr <? ende)
  else if start >? ende then (addr >=? start) || (addr <? ende)
  else true.

Definition jit_block_overlaps_page (b : rk65c02_jit_block) (page : Z) : bool :=
  let start := start_pc b in
  let ende := end_pc_exclusive b in
  let page_start := u16 (page ≪ 8) in
  let page_end := u16 (page_start + 0xFF) in
  if start =? ende then true
  else if start <? ende then negb ((ende <=? page_start) || (start >? page_end))
  else (start <=? page_end) || (ende >? page_start).

(** What the four invalidation loops do to a live block: destroy its code,
    drop its references, uncount it. *)
Definition invalidate_block (j : rk65c02_jit) (i : Z) (b : rk65c02_jit_block) : rk65c02_jit :=
  let j := jit_block_page_refs_update j b false in
  let j := put_blocks (<[i := put_fn_none b]> (blocks j)) j in
  let j := if active_blocks j >? 0 then put_active_blocks (active_blocks j - 1) j else j in
  put_stats (stats_block_invalidated (stats j)) j.

(** The loop over the cache, invalidating the live blocks that [sel] selects. *)
Definition invalidate_slot (sel : rk65c02_jit_block → bool) (j : rk65c02_jit) (i : Z) : rk65c02_jit :=
  match blocks j !! i with
  | None => j
  | Some b => if negb (live b) then j else if negb (sel b) then j else invalidate_block j i b
  end.
Definition invalidate_where (sel : rk65c02_jit_block → bool) (j : rk65c02_jit) : rk65c02_jit :=
  foldl (invalidate_slot sel) j slots.

Definition jit_invalidate_blocks_for_addr (j : rk65c02_jit) (addr : Z) : rk65c02_jit :=
  if negb (magic j =? JIT_MAGIC) then j
  else
    let j := put_invalidation_events_this_run (u64 (invalidation_events_this_run j + 1)) j in
    invalidate_where (λ b, jit_block_contains_addr b addr) j.

Definition jit_invalidate_blocks_for_page (j : rk65c02_jit) (page : Z) : rk65c02_jit :=
  if negb (magic j =? JIT_MAGIC) then j
  else invalidate_where (λ b, jit_block_overlaps_page b page) j.

Definition jit_invalidate_blocks_for_code_page (j : rk65c02_jit) (vpage : Z) : rk65c02_jit :=
  if negb (magic j =? JIT_MAGIC) then j
  else if arr_get (compiled_code_page_refcnt j) vpage =? 0 then j
  else invalidate_where (λ b, u8 (start_pc b ≫ 8) =? vpage) j.

(** The tests of [jit_invalidate_blocks_for_phys_addr]; the end of the range
    is computed in [uint16_t]. *)
Definition phys_match (paddr : Z) (b : rk65c02_jit_block) : bool :=
  if negb (mmu_phys_page_valid b) then false
  else if mmu_phys_byte_cov b then
    let len := u16 (end_pc_exclusive b - start_pc b) in
    negb ((paddr <? mmu_phys_start b) || (paddr >=? u16 (mmu_phys_start b + len)))
  else u8 (paddr ≫ 8) =? mmu_phys_page b.

Definition jit_invalidate_blocks_for_phys_addr (j : rk65c02_jit) (paddr : Z) : rk65c02_jit :=
  if negb (magic j =? JIT_MAGIC) then j
  else invalidate_where (phys_match paddr) j.

(** The demotion of a page whose code keeps being written, common to
    [rk65c02_jit_note_guest_write] and [jit_process_pending_writes]. *)
Definition count_page_write (j : rk65c02_jit) (page : Z) : rk65c02_jit :=
  let j := put_page_invalidation_events (arr_incr (page_invalidation_events j) page) j in
  if negb (bool_decide (page ∈ mutable_code_page j))
     && (arr_get (page_invalidation_events j) page >=? JIT_PAGE_INVALIDATION_THRESHOLD)
  then
    let j := put_mutable_code_page ({[page]} ∪ mutable_code_page j) j in
    let j := put_stats (stats_page_demoted (stats j)) j in
    jit_invalidate_blocks_for_page j page
  else j.

(** The invalidation one recorded or immediate guest store causes. *)
Definition apply_write (j : rk65c02_jit) (w : pending_write_t) : rk65c02_jit :=
  let j := jit_invalidate_blocks_for_addr j (pw_addr w) in
  let j := if pw_phys_valid w then jit_invalidate_blocks_for_phys_addr j (pw_phys_addr w) else j in
  count_page_write j (u8 (pw_addr w ≫ 8)).

(** More tracked stores than slots: give up on precision and flush. *)
Definition process_overflow (j : rk65c02_jit) : rk65c02_jit :=
  if pending_write_overflow j then
    let j := jit_backend_flush j in
    put_invalidation_events_this_run (u64 (invalidation_events_this_run j + 1)) j
  else j.

(** The result is whether the run's invalidation budget is exhausted.  The
    flush of the overflow case empties the list the loop then runs over. *)
Definition jit_process_pending_writes (j : rk65c02_jit) : bool * rk65c02_jit :=
  let j := process_overflow j in
  let j := foldl apply_write j (pending_write j) in
  let j := put_pending_write [] j in
  let j := put_pending_write_overflow false j in
  (invalidation_events_this_run j >=? JIT_MAX_INVALIDATIONS_PER_RUN, j).
