(* ===== verification/JitEmit.v ===== *)
(** Emission of native code: [jit_emit_insn] and its helpers of
    [src/src/jit.c].

    The emitter is a sequence of calls of GNU lightning's macros, each of which
    appends a node to the code of the block.  Here an emission function returns
    the list of the nodes it appends; the nodes are the constructors of
    [jit_node] and have the names of the macros.  The code between the labels
    of two instructions is one such list.

    A branch that C patches with [jit_patch] after emitting more nodes is
    [jit_branch c n], where [n] is the number of nodes it jumps over.  A branch
    given to [jit_ctx_add_bail] is [jit_bail c]: it goes to the [jit_ret] at
    the end of the block.  A jump put in [ctx->ijmps] is [jit_ijmp t]: it goes
    to [ctx->labels[t]]. *)
From stdpp Require Import base numbers list gmap strings.
From S2P Require Import Prelude Types Isa JitCache.

(** ** Lightning nodes *)

Inductive jit_reg := JIT_R0 | JIT_R1 | JIT_R2 | JIT_V0 | JIT_V1 | JIT_V2.

(** The fields of [struct rk65c02emu] that generated code accesses. *)
Inductive emu_field :=
  | OFFSET_E_STATE | OFFSET_E_USE_JIT | OFFSET_E_IRQ | OFFSET_E_STOP_REQUESTED
  | OFFSET_E_LOOP_BUDGET
  | OFFSET_E_PC | OFFSET_E_P | OFFSET_E_A | OFFSET_E_X | OFFSET_E_Y | OFFSET_E_SP.

(** The value of an enumerator. *)
Definition emu_state_value (s : emu_state_t) : Z :=
  match s with STOPPED => 0 | RUNNING => 1 | STEPPING => 2 end.

(** The C functions that generated code calls. *)
Inductive jit_callee :=
  | call_mem_read_1 | call_bus_write_1 | call_do_adc_bcd | call_do_sbc_bcd | call_exec_fallback.

(** When a branch is taken: [jit_bmci] and [jit_bmsi] test whether the bits of
    a mask are all clear or some are set, [jit_blei] is signed, [jit_bltr_u]
    unsigned, [jit_jmpi] always jumps. *)
Inductive jit_cond :=
  | jit_beqi (r : jit_reg) (imm : Z) | jit_bnei (r : jit_reg) (imm : Z)
  | jit_bmci (r : jit_reg) (imm : Z) | jit_bmsi (r : jit_reg) (imm : Z)
  | jit_blei (r : jit_reg) (imm : Z) | jit_bltr_u (r s : jit_reg)
  | jit_jmpi.

Inductive jit_node :=
  | jit_movr (d s : jit_reg)
  | jit_movi (d : jit_reg) (imm : Z)
  (** [jit_movi] of the address of [ctx->j->stats.insns_executed] *)
  | jit_movi_insns_executed (d : jit_reg)
  | jit_ldr (d s : jit_reg)
  | jit_str (d s : jit_reg)
  | jit_ldxi_uc (d s : jit_reg) (off : emu_field)
  | jit_ldxi_us (d s : jit_reg) (off : emu_field)
  | jit_ldxi_i (d s : jit_reg) (off : emu_field)
  | jit_stxi_c (off : emu_field) (d s : jit_reg)
  | jit_stxi_s (off : emu_field) (d s : jit_reg)
  | jit_stxi_i (off : emu_field) (d s : jit_reg)
  | jit_addi (d s : jit_reg) (imm : Z)
  | jit_addr (d s t : jit_reg)
  | jit_subi (d s : jit_reg) (imm : Z)
  | jit_subr (d s t : jit_reg)
  | jit_andi (d s : jit_reg) (imm : Z)
  | jit_andr (d s t : jit_reg)
  | jit_ori (d s : jit_reg) (imm : Z)
  | jit_orr (d s t : jit_reg)
  | jit_xori (d s : jit_reg) (imm : Z)
  | jit_xorr (d s t : jit_reg)
  | jit_lshi (d s : jit_reg) (imm : Z)
  | jit_rshi_u (d s : jit_reg) (imm : Z)
  | jit_eqi (d s : jit_reg) (imm : Z)
  | jit_prepare
  | jit_pushargr (r : jit_reg)
  | jit_pushargi (imm : Z)
  | jit_finishi (f : jit_callee)
  | jit_retval (r : jit_reg)
  | jit_branch (c : jit_cond) (n : nat)
  | jit_bail (c : jit_cond)
  | jit_ijmp (t : nat).

(** [n = <branch>; body; jit_patch(n);] *)
Definition jit_skip (c : jit_cond) (body : list jit_node) : list jit_node :=
  jit_branch c (length body) :: body.

(** [n = <branch>; other; done = jit_jmpi(); jit_patch(n); taken; jit_patch(done);] *)
Definition jit_either (c : jit_cond) (other taken : list jit_node) : list jit_node :=
  jit_branch c (S (length other)) :: other ++ jit_branch jit_jmpi (length taken) :: taken.

(** ** Helpers *)

Definition jit_emit_advance_pc (size : Z) : list jit_node :=
  [ jit_ldxi_us JIT_R1 JIT_R0 OFFSET_E_PC;
    jit_addi JIT_R1 JIT_R1 size;
    jit_stxi_s OFFSET_E_PC JIT_R0 JIT_R1 ].

Definition jit_emit_update_zn : list jit_node :=
  [ jit_ldxi_uc JIT_R2 JIT_R0 OFFSET_E_P;
    jit_andi JIT_R2 JIT_R2 (!~ (P_ZERO ||| P_NEGATIVE)) ]
  ++ jit_skip (jit_bnei JIT_R1 0) [ jit_ori JIT_R2 JIT_R2 P_ZERO ]
  ++ jit_skip (jit_bmci JIT_R1 0x80) [ jit_ori JIT_R2 JIT_R2 P_NEGATIVE ]
  ++ [ jit_stxi_c OFFSET_E_P JIT_R0 JIT_R2 ].

Definition jit_emit_bus_read : list jit_node :=
  [ jit_prepare;
    jit_pushargr JIT_R0;
    jit_pushargr JIT_R1;
    jit_finishi call_mem_read_1;
    jit_retval JIT_R1;
    jit_andi JIT_R1 JIT_R1 0xFF;
    jit_movr JIT_R0 JIT_V0 ].

Definition jit_emit_bus_write : list jit_node :=
  [ jit_prepare;
    jit_pushargr JIT_R0;
    jit_pushargr JIT_R1;
    jit_pushargr JIT_R2;
    jit_finishi call_bus_write_1;
    jit_movr JIT_R0 JIT_V0 ].

Definition jit_emit_bail_if_jit_disabled : list jit_node :=
  [ jit_ldxi_uc JIT_R1 JIT_R0 OFFSET_E_USE_JIT;
    jit_bail (jit_beqi JIT_R1 0) ].

(** On a host with 64-bit pointers. *)
Definition jit_emit_backedge_guard (span_insns : Z) : list jit_node :=
  [ jit_ldxi_i JIT_R1 JIT_R0 OFFSET_E_LOOP_BUDGET;
    jit_subi JIT_R1 JIT_R1 1;
    jit_stxi_i OFFSET_E_LOOP_BUDGET JIT_R0 JIT_R1;
    jit_bail (jit_blei JIT_R1 0);
    jit_ldxi_uc JIT_R1 JIT_R0 OFFSET_E_STOP_REQUESTED;
    jit_bail (jit_bnei JIT_R1 0);
    jit_ldxi_uc JIT_R1 JIT_R0 OFFSET_E_IRQ;
    jit_bail (jit_bnei JIT_R1 0);
    jit_movi_insns_executed JIT_R2;
    jit_ldr JIT_R1 JIT_R2;
    jit_addi JIT_R1 JIT_R1 span_insns;
    jit_str JIT_R2 JIT_R1 ].

(** The addressing mode and operands of [bi->id] and [bi->i]; [None] is the
    result [false]. *)
Definition jit_emit_effaddr (bi : jit_block_insn) : option (list jit_node) :=
  let op1 := i_op1 (bi_i bi) in
  let op2 := i_op2 (bi_i bi) in
  match d_mode (bi_id bi) with
  | IMMEDIATE => Some [ jit_movi JIT_R1 op1 ]
  | ZP => Some [ jit_movi JIT_R1 op1 ]
  | ZPX => Some
      [ jit_ldxi_uc JIT_R1 JIT_R0 OFFSET_E_X;
        jit_addi JIT_R1 JIT_R1 op1;
        jit_andi JIT_R1 JIT_R1 0xFF ]
  | ZPY => Some
      [ jit_ldxi_uc JIT_R1 JIT_R0 OFFSET_E_Y;
        jit_addi JIT_R1 JIT_R1 op1;
        jit_andi JIT_R1 JIT_R1 0xFF ]
  | ABSOLUTE => Some [ jit_movi JIT_R1 (op1 ||| (op2 ≪ 8)) ]
  | ABSOLUTEX => Some
      [ jit_ldxi_uc JIT_R1 JIT_R0 OFFSET_E_X;
        jit_addi JIT_R1 JIT_R1 (op1 ||| (op2 ≪ 8)) ]
  | ABSOLUTEY => Some
      [ jit_ldxi_uc JIT_R1 JIT_R0 OFFSET_E_Y;
        jit_addi JIT_R1 JIT_R1 (op1 ||| (op2 ≪ 8)) ]
  | IZP => Some (
      [ jit_movi JIT_R1 op1 ] ++
      jit_emit_bus_read ++
      [ jit_movr JIT_V1 JIT_R1;
        jit_movi JIT_R1 (u8 (op1 + 1)) ] ++
      jit_emit_bus_read ++
      [ jit_lshi JIT_R1 JIT_R1 8;
        jit_orr JIT_R1 JIT_R1 JIT_V1 ])
  | IZPX => Some (
      [ jit_ldxi_uc JIT_R2 JIT_R0 OFFSET_E_X;
        jit_addi JIT_R2 JIT_R2 op1;
        jit_andi JIT_R2 JIT_R2 0xFF;
        jit_movr JIT_R1 JIT_R2 ] ++
      jit_emit_bus_read ++
      [ jit_movr JIT_V1 JIT_R1;
        jit_ldxi_uc JIT_R2 JIT_R0 OFFSET_E_X;
        jit_addi JIT_R2 JIT_R2 (op1 + 1);
        jit_andi JIT_R1 JIT_R2 0xFF ] ++
      jit_emit_bus_read ++
      [ jit_lshi JIT_R1 JIT_R1 8;
        jit_orr JIT_R1 JIT_R1 JIT_V1 ])
  | IZPY => Some (
      [ jit_movi JIT_R1 op1 ] ++
      jit_emit_bus_read ++
      [ jit_movr JIT_V1 JIT_R1;
        jit_movi JIT_R1 (u8 (op1 + 1)) ] ++
      jit_emit_bus_read ++
      [ jit_lshi JIT_R1 JIT_R1 8;
        jit_orr JIT_R1 JIT_R1 JIT_V1;
        jit_ldxi_uc JIT_R2 JIT_R0 OFFSET_E_Y;
        jit_addr JIT_R1 JIT_R1 JIT_R2 ])
  | ACCUMULATOR => Some []
  | _ => None
  end.

Definition jit_emit_load_operand (bi : jit_block_insn) : option (list jit_node) :=
  c ← jit_emit_effaddr bi;
  Some (c ++ if bool_decide (d_mode (bi_id bi) ≠ IMMEDIATE) then jit_emit_bus_read else []).

(** ** The cases of [jit_emit_insn]

    One definition for each group of [case] labels with a body of its own.
    [None] is the [break] that leads to the fallback. *)

(** The context of a block's emission: the addresses of its instructions. *)
Record jit_emit_ctx := mkCtx { insn_addr : list Z }.

Section Cases.
Context (bi : jit_block_insn).
#[local] Abbreviation op := (i_opcode (bi_i bi)).
#[local] Abbreviation op1 := (i_op1 (bi_i bi)).
#[local] Abbreviation op2 := (i_op2 (bi_i bi)).
#[local] Abbreviation size := (d_size (bi_id bi)).

(** CLC, CLI, CLV, CLD and SEC, SEI, SED *)
Definition emit_clear_flag (flag : Z) : list jit_node :=
  [ jit_ldxi_uc JIT_R1 JIT_R0 OFFSET_E_P;
    jit_andi JIT_R1 JIT_R1 (!~ flag);
    jit_stxi_c OFFSET_E_P JIT_R0 JIT_R1 ] ++
  jit_emit_advance_pc size.
Definition emit_set_flag (flag : Z) : list jit_node :=
  [ jit_ldxi_uc JIT_R1 JIT_R0 OFFSET_E_P;
    jit_ori JIT_R1 JIT_R1 flag;
    jit_stxi_c OFFSET_E_P JIT_R0 JIT_R1 ] ++
  jit_emit_advance_pc size.

(** TAX, TAY, TXA, TYA, TSX; TXS leaves the flags alone *)
Definition emit_transfer (from to : emu_field) : list jit_node :=
  [ jit_ldxi_uc JIT_R1 JIT_R0 from;
    jit_stxi_c to JIT_R0 JIT_R1 ] ++
  jit_emit_update_zn ++
  jit_emit_advance_pc size.
Definition emit_txs : list jit_node :=
  [ jit_ldxi_uc JIT_R1 JIT_R0 OFFSET_E_X;
    jit_stxi_c OFFSET_E_SP JIT_R0 JIT_R1 ] ++
  jit_emit_advance_pc size.

(** INX, INY, INC A and DEX, DEY, DEC A *)
Definition emit_increment (reg : emu_field) : list jit_node :=
  [ jit_ldxi_uc JIT_R1 JIT_R0 reg;
    jit_addi JIT_R1 JIT_R1 1;
    jit_andi JIT_R1 JIT_R1 0xFF;
    jit_stxi_c reg JIT_R0 JIT_R1 ] ++
  jit_emit_update_zn ++
  jit_emit_advance_pc size.
Definition emit_decrement (reg : emu_field) : list jit_node :=
  [ jit_ldxi_uc JIT_R1 JIT_R0 reg;
    jit_subi JIT_R1 JIT_R1 1;
    jit_andi JIT_R1 JIT_R1 0xFF;
    jit_stxi_c reg JIT_R0 JIT_R1 ] ++
  jit_emit_update_zn ++
  jit_emit_advance_pc size.

(** LDA, LDX, LDY *)
Definition emit_load (reg : emu_field) : option (list jit_node) :=
  load ← jit_emit_load_operand bi;
  Some (load ++
    [ jit_stxi_c reg JIT_R0 JIT_R1 ] ++
    jit_emit_update_zn ++
    jit_emit_advance_pc size).

(** STA, STX, STY and STZ *)
Definition emit_store (reg : emu_field) : option (list jit_node) :=
  addr ← jit_emit_effaddr bi;
  Some (addr ++
    [ jit_ldxi_uc JIT_R2 JIT_R0 reg ] ++
    jit_emit_bus_write ++
    jit_emit_advance_pc size ++
    jit_emit_bail_if_jit_disabled).
Definition emit_stz : option (list jit_node) :=
  addr ← jit_emit_effaddr bi;
  Some (addr ++
    [ jit_movi JIT_R2 0 ] ++
    jit_emit_bus_write ++
    jit_emit_advance_pc size ++
    jit_emit_bail_if_jit_disabled).

(** AND, ORA, EOR; [alu] is [jit_andr], [jit_orr] or [jit_xorr] *)
Definition emit_logic (alu : jit_reg → jit_reg → jit_reg → jit_node) : option (list jit_node) :=
  load ← jit_emit_load_operand bi;
  Some (load ++
    [ jit_ldxi_uc JIT_R2 JIT_R0 OFFSET_E_A;
      alu JIT_R1 JIT_R2 JIT_R1;
      jit_stxi_c OFFSET_E_A JIT_R0 JIT_R1 ] ++
    jit_emit_update_zn ++
    jit_emit_advance_pc size).

(** The decimal path of ADC and SBC. *)
Definition emit_bcd_call (helper : jit_callee) : list jit_node :=
  [ jit_prepare;
    jit_pushargr JIT_R0;
    jit_pushargr JIT_R1;
    jit_finishi helper;
    jit_movr JIT_R0 JIT_V0 ] ++
  jit_emit_advance_pc size.

(** The binary path from the operand, which SBC complements first, in
    [JIT_R1] on. *)
Definition emit_binary_sum : list jit_node :=
  [ jit_movr JIT_V1 JIT_R1;
    jit_ldxi_uc JIT_R2 JIT_R0 OFFSET_E_A;
    jit_movr JIT_V2 JIT_R2;
    jit_addr JIT_R1 JIT_R2 JIT_R1;
    jit_ldxi_uc JIT_R2 JIT_R0 OFFSET_E_P;
    jit_andi JIT_R2 JIT_R2 P_CARRY ] ++
  jit_skip (jit_beqi JIT_R2 0) [ jit_addi JIT_R1 JIT_R1 1 ] ++
  [ jit_movr JIT_R2 JIT_R1;
    jit_andi JIT_R2 JIT_R2 0x100;
    jit_andi JIT_R1 JIT_R1 0xFF;
    jit_xorr JIT_V2 JIT_V2 JIT_R1;
    jit_xorr JIT_V1 JIT_V1 JIT_R1;
    jit_andr JIT_V2 JIT_V2 JIT_V1;
    jit_andi JIT_V2 JIT_V2 0x80;
    jit_ldxi_uc JIT_V1 JIT_R0 OFFSET_E_P;
    jit_andi JIT_V1 JIT_V1 (!~ (P_CARRY ||| P_SIGN_OVERFLOW)) ] ++
  jit_skip (jit_beqi JIT_R2 0) [ jit_ori JIT_V1 JIT_V1 P_CARRY ] ++
  jit_skip (jit_beqi JIT_V2 0) [ jit_ori JIT_V1 JIT_V1 P_SIGN_OVERFLOW ] ++
  [ jit_stxi_c OFFSET_E_P JIT_R0 JIT_V1;
    jit_stxi_c OFFSET_E_A JIT_R0 JIT_R1 ] ++
  jit_emit_update_zn ++
  jit_emit_advance_pc size.

Definition emit_adc : option (list jit_node) :=
  load ← jit_emit_load_operand bi;
  Some (load ++
    [ jit_ldxi_uc JIT_R2 JIT_R0 OFFSET_E_P;
      jit_andi JIT_R2 JIT_R2 P_DECIMAL ] ++
    jit_either (jit_beqi JIT_R2 0) (emit_bcd_call call_do_adc_bcd) emit_binary_sum).

Definition emit_sbc : option (list jit_node) :=
  load ← jit_emit_load_operand bi;
  Some (load ++
    [ jit_ldxi_uc JIT_R2 JIT_R0 OFFSET_E_P;
      jit_andi JIT_R2 JIT_R2 P_DECIMAL ] ++
    jit_either (jit_beqi JIT_R2 0) (emit_bcd_call call_do_sbc_bcd)
      ([ jit_xori JIT_R1 JIT_R1 0xFF ] ++ emit_binary_sum)).

(** CMP, CPX, CPY *)
Definition emit_compare (reg : emu_field) : option (list jit_node) :=
  load ← jit_emit_load_operand bi;
  Some (load ++
    [ jit_ldxi_uc JIT_R2 JIT_R0 reg;
      jit_ldxi_uc JIT_V1 JIT_R0 OFFSET_E_P;
      jit_andi JIT_V1 JIT_V1 (!~ (P_CARRY ||| P_ZERO ||| P_NEGATIVE)) ] ++
    jit_skip (jit_bltr_u JIT_R2 JIT_R1) [ jit_ori JIT_V1 JIT_V1 P_CARRY ] ++
    [ jit_subr JIT_R1 JIT_R2 JIT_R1;
      jit_andi JIT_R1 JIT_R1 0xFF ] ++
    jit_skip (jit_bnei JIT_R1 0) [ jit_ori JIT_V1 JIT_V1 P_ZERO ] ++
    jit_skip (jit_bmci JIT_R1 0x80) [ jit_ori JIT_V1 JIT_V1 P_NEGATIVE ] ++
    [ jit_stxi_c OFFSET_E_P JIT_R0 JIT_V1 ] ++
    jit_emit_advance_pc size).

(** INC and DEC on memory; [alu] is [jit_addi] or [jit_subi] *)
Definition emit_inc_dec (alu : jit_reg → jit_reg → Z → jit_node) : option (list jit_node) :=
  addr ← jit_emit_effaddr bi;
  Some (addr ++
    [ jit_movr JIT_V1 JIT_R1 ] ++
    jit_emit_bus_read ++
    [ alu JIT_R1 JIT_R1 1;
      jit_andi JIT_R1 JIT_R1 0xFF;
      jit_movr JIT_V2 JIT_R1;
      jit_movr JIT_R2 JIT_R1;
      jit_movr JIT_R1 JIT_V1 ] ++
    jit_emit_bus_write ++
    [ jit_movr JIT_R1 JIT_V2 ] ++
    jit_emit_update_zn ++
    jit_emit_advance_pc size ++
    jit_emit_bail_if_jit_disabled).

(** The carry of a shift: bit [bit] of [JIT_R1] goes to the carry flag of
    [JIT_R2] and the status register. *)
Definition emit_shift_carry (bit : Z) : list jit_node :=
  jit_skip (jit_bmci JIT_R1 bit) [ jit_ori JIT_R2 JIT_R2 P_CARRY ] ++
  [ jit_stxi_c OFFSET_E_P JIT_R0 JIT_R2 ].

(** ASL, LSR, ROL and ROR on the accumulator *)
Definition emit_asl_a : list jit_node :=
  [ jit_ldxi_uc JIT_R1 JIT_R0 OFFSET_E_A;
    jit_ldxi_uc JIT_R2 JIT_R0 OFFSET_E_P;
    jit_andi JIT_R2 JIT_R2 (!~ P_CARRY) ] ++
  emit_shift_carry 0x80 ++
  [ jit_lshi JIT_R1 JIT_R1 1;
    jit_andi JIT_R1 JIT_R1 0xFF;
    jit_stxi_c OFFSET_E_A JIT_R0 JIT_R1 ] ++
  jit_emit_update_zn ++
  jit_emit_advance_pc size.

Definition emit_lsr_a : list jit_node :=
  [ jit_ldxi_uc JIT_R1 JIT_R0 OFFSET_E_A;
    jit_ldxi_uc JIT_R2 JIT_R0 OFFSET_E_P;
    jit_andi JIT_R2 JIT_R2 (!~ P_CARRY) ] ++
  emit_shift_carry 0x01 ++
  [ jit_rshi_u JIT_R1 JIT_R1 1;
    jit_stxi_c OFFSET_E_A JIT_R0 JIT_R1 ] ++
  jit_emit_update_zn ++
  jit_emit_advance_pc size.

Definition emit_rol_a : list jit_node :=
  [ jit_ldxi_uc JIT_R1 JIT_R0 OFFSET_E_A;
    jit_ldxi_uc JIT_R2 JIT_R0 OFFSET_E_P;
    jit_andi JIT_V1 JIT_R2 P_CARRY;
    jit_andi JIT_R2 JIT_R2 (!~ P_CARRY) ] ++
  emit_shift_carry 0x80 ++
  [ jit_lshi JIT_R1 JIT_R1 1;
    jit_orr JIT_R1 JIT_R1 JIT_V1;
    jit_andi JIT_R1 JIT_R1 0xFF;
    jit_stxi_c OFFSET_E_A JIT_R0 JIT_R1 ] ++
  jit_emit_update_zn ++
  jit_emit_advance_pc size.

Definition emit_ror_a : list jit_node :=
  [ jit_ldxi_uc JIT_R1 JIT_R0 OFFSET_E_A;
    jit_ldxi_uc JIT_R2 JIT_R0 OFFSET_E_P;
    jit_andi JIT_V1 JIT_R2 P_CARRY;
    jit_lshi JIT_V1 JIT_V1 7;
    jit_andi JIT_R2 JIT_R2 (!~ P_CARRY) ] ++
  emit_shift_carry 0x01 ++
  [ jit_rshi_u JIT_R1 JIT_R1 1;
    jit_orr JIT_R1 JIT_R1 JIT_V1;
    jit_stxi_c OFFSET_E_A JIT_R0 JIT_R1 ] ++
  jit_emit_update_zn ++
  jit_emit_advance_pc size.

(** The same on memory: the operand is read, shifted by [shift] into
    [JIT_R1] and [JIT_V2], and written back. *)
Definition emit_shift_mem (shift : list jit_node) : option (list jit_node) :=
  addr ← jit_emit_effaddr bi;
  Some (addr ++
    [ jit_movr JIT_V1 JIT_R1 ] ++
    jit_emit_bus_read ++
    shift ++
    [ jit_movr JIT_V2 JIT_R1 ] ++
    jit_emit_update_zn ++
    [ jit_movr JIT_R1 JIT_V1;
      jit_movr JIT_R2 JIT_V2 ] ++
    jit_emit_bus_write ++
    jit_emit_advance_pc size ++
    jit_emit_bail_if_jit_disabled).
Definition emit_asl_mem : option (list jit_node) := emit_shift_mem (
  [ jit_ldxi_uc JIT_R2 JIT_R0 OFFSET_E_P;
    jit_andi JIT_R2 JIT_R2 (!~ P_CARRY) ] ++
  emit_shift_carry 0x80 ++
  [ jit_lshi JIT_R1 JIT_R1 1;
    jit_andi JIT_R1 JIT_R1 0xFF ]).
Definition emit_lsr_mem : option (list jit_node) := emit_shift_mem (
  [ jit_ldxi_uc JIT_R2 JIT_R0 OFFSET_E_P;
    jit_andi JIT_R2 JIT_R2 (!~ P_CARRY) ] ++
  emit_shift_carry 0x01 ++
  [ jit_rshi_u JIT_R1 JIT_R1 1 ]).
Definition emit_rol_mem : option (list jit_node) := emit_shift_mem (
  [ jit_ldxi_uc JIT_R2 JIT_R0 OFFSET_E_P;
    jit_andi JIT_V2 JIT_R2 P_CARRY;
    jit_andi JIT_R2 JIT_R2 (!~ P_CARRY) ] ++
  emit_shift_carry 0x80 ++
  [ jit_lshi JIT_R1 JIT_R1 1;
    jit_orr JIT_R1 JIT_R1 JIT_V2;
    jit_andi JIT_R1 JIT_R1 0xFF ]).
Definition emit_ror_mem : option (list jit_node) := emit_shift_mem (
  [ jit_ldxi_uc JIT_R2 JIT_R0 OFFSET_E_P;
    jit_andi JIT_V2 JIT_R2 P_CARRY;
    jit_lshi JIT_V2 JIT_V2 7;
    jit_andi JIT_R2 JIT_R2 (!~ P_CARRY) ] ++
  emit_shift_carry 0x01 ++
  [ jit_rshi_u JIT_R1 JIT_R1 1;
    jit_orr JIT_R1 JIT_R1 JIT_V2 ]).

Definition emit_bit : option (list jit_node) :=
  load ← jit_emit_load_operand bi;
  Some (load ++
    [ jit_ldxi_uc JIT_R2 JIT_R0 OFFSET_E_A;
      jit_ldxi_uc JIT_V1 JIT_R0 OFFSET_E_P;
      jit_andi JIT_V1 JIT_V1 (if op =? 0x89 then u8 (!~ P_ZERO)
        else u8 (!~ (P_ZERO ||| P_NEGATIVE ||| P_SIGN_OVERFLOW)));
      jit_andr JIT_R2 JIT_R2 JIT_R1 ] ++
    jit_skip (jit_bnei JIT_R2 0) [ jit_ori JIT_V1 JIT_V1 P_ZERO ] ++
    (if negb (op =? 0x89) then
       jit_skip (jit_bmci JIT_R1 0x80) [ jit_ori JIT_V1 JIT_V1 P_NEGATIVE ] ++
       jit_skip (jit_bmci JIT_R1 0x40) [ jit_ori JIT_V1 JIT_V1 P_SIGN_OVERFLOW ]
     else []) ++
    [ jit_stxi_c OFFSET_E_P JIT_R0 JIT_V1 ] ++
    jit_emit_advance_pc size).

(** RMBx and SMBx; [alu] is [jit_andi] or [jit_ori] *)
Definition emit_memory_bit (alu : jit_reg → jit_reg → Z → jit_node) (mask : Z)
    : option (list jit_node) :=
  addr ← jit_emit_effaddr bi;
  Some (addr ++
    [ jit_movr JIT_V1 JIT_R1 ] ++
    jit_emit_bus_read ++
    [ alu JIT_R2 JIT_R1 mask;
      jit_movr JIT_R1 JIT_V1 ] ++
    jit_emit_bus_write ++
    jit_emit_advance_pc size ++
    jit_emit_bail_if_jit_disabled).
Definition emit_rmb : option (list jit_node) :=
  emit_memory_bit jit_andi (u8 (!~ (1 ≪ ((op ≫ 4) &&& 0x07)))).
Definition emit_smb : option (list jit_node) :=
  emit_memory_bit jit_ori (u8 (1 ≪ ((op ≫ 4) &&& 0x07))).

(** TRB and TSB *)
Definition emit_trb_tsb : option (list jit_node) :=
  let is_trb := (op =? 0x14) || (op =? 0x1C) in
  addr ← jit_emit_effaddr bi;
  Some (addr ++
    [ jit_movr JIT_V1 JIT_R1 ] ++
    jit_emit_bus_read ++
    [ jit_movr JIT_V2 JIT_R1;
      jit_ldxi_uc JIT_R2 JIT_R0 OFFSET_E_P;
      jit_andi JIT_R2 JIT_R2 (u8 (!~ P_ZERO));
      jit_ldxi_uc JIT_R1 JIT_R0 OFFSET_E_A;
      jit_andr JIT_R1 JIT_R1 JIT_V2 ] ++
    jit_skip (jit_bnei JIT_R1 0) [ jit_ori JIT_R2 JIT_R2 P_ZERO ] ++
    [ jit_stxi_c OFFSET_E_P JIT_R0 JIT_R2;
      jit_ldxi_uc JIT_R2 JIT_R0 OFFSET_E_A ] ++
    (if is_trb then
       [ jit_xori JIT_R2 JIT_R2 0xFF;
         jit_andr JIT_R2 JIT_V2 JIT_R2 ]
     else
       [ jit_orr JIT_R2 JIT_V2 JIT_R2 ]) ++
    [ jit_movr JIT_R1 JIT_V1 ] ++
    jit_emit_bus_write ++
    jit_emit_advance_pc size ++
    jit_emit_bail_if_jit_disabled).

(** The taken path of BRA, BBRx and BBSx. *)
Definition emit_relative (rel : Z) : list jit_node :=
  [ jit_ldxi_us JIT_R1 JIT_R0 OFFSET_E_PC;
    jit_addi JIT_R1 JIT_R1 (size + rel);
    jit_andi JIT_R1 JIT_R1 0xFFFF;
    jit_stxi_s OFFSET_E_PC JIT_R0 JIT_R1 ].

(** BBRx and BBSx *)
Definition emit_bit_branch : list jit_node :=
  let mask := u8 (1 ≪ ((op ≫ 4) &&& 0x07)) in
  let is_bbs := negb (op &&& 0x80 =? 0) in
  [ jit_movi JIT_R1 op1 ] ++
  jit_emit_bus_read ++
  jit_either (if is_bbs then jit_bmsi JIT_R1 mask else jit_bmci JIT_R1 mask)
    (jit_emit_advance_pc size) (emit_relative (s8 op2)).

(** [SP--] and [SP++] *)
Definition emit_sp_dec : list jit_node :=
  [ jit_ldxi_uc JIT_R1 JIT_R0 OFFSET_E_SP;
    jit_subi JIT_R1 JIT_R1 1;
    jit_andi JIT_R1 JIT_R1 0xFF;
    jit_stxi_c OFFSET_E_SP JIT_R0 JIT_R1 ].
Definition emit_sp_inc : list jit_node :=
  [ jit_ldxi_uc JIT_R1 JIT_R0 OFFSET_E_SP;
    jit_addi JIT_R1 JIT_R1 1;
    jit_andi JIT_R1 JIT_R1 0xFF;
    jit_stxi_c OFFSET_E_SP JIT_R0 JIT_R1 ].

(** PHA, PHX, PHY, PHP *)
Definition emit_push : list jit_node :=
  let reg_off :=
    if op =? 0x48 then OFFSET_E_A
    else if op =? 0xDA then OFFSET_E_X
    else if op =? 0x5A then OFFSET_E_Y
    else OFFSET_E_P in
  [ jit_ldxi_uc JIT_R2 JIT_R0 OFFSET_E_SP;
    jit_addi JIT_R1 JIT_R2 0x100;
    jit_ldxi_uc JIT_R2 JIT_R0 reg_off ] ++
  (if op =? 0x08 then [ jit_ori JIT_R2 JIT_R2 (P_BREAK ||| P_UNDEFINED) ] else []) ++
  jit_emit_bus_write ++
  emit_sp_dec ++
  jit_emit_advance_pc size ++
  jit_emit_bail_if_jit_disabled.

(** PLA, PLX, PLY *)
Definition emit_pull : list jit_node :=
  let reg_off :=
    if op =? 0x68 then OFFSET_E_A
    else if op =? 0xFA then OFFSET_E_X
    else OFFSET_E_Y in
  emit_sp_inc ++
  [ jit_addi JIT_R1 JIT_R1 0x100 ] ++
  jit_emit_bus_read ++
  [ jit_stxi_c reg_off JIT_R0 JIT_R1 ] ++
  jit_emit_update_zn ++
  jit_emit_advance_pc size.

Definition emit_plp : list jit_node :=
  emit_sp_inc ++
  [ jit_addi JIT_R1 JIT_R1 0x100 ] ++
  jit_emit_bus_read ++
  [ jit_ori JIT_R1 JIT_R1 P_UNDEFINED;
    jit_andi JIT_R1 JIT_R1 (!~ P_BREAK);
    jit_stxi_c OFFSET_E_P JIT_R0 JIT_R1 ] ++
  jit_emit_advance_pc size.

(** The condition under which a conditional branch is taken. *)
Definition branch_cond : jit_cond :=
  match op with
  | 0x90 => jit_bmci JIT_R1 P_CARRY
  | 0xB0 => jit_bmsi JIT_R1 P_CARRY
  | 0xF0 => jit_bmsi JIT_R1 P_ZERO
  | 0xD0 => jit_bmci JIT_R1 P_ZERO
  | 0x30 => jit_bmsi JIT_R1 P_NEGATIVE
  | 0x10 => jit_bmci JIT_R1 P_NEGATIVE
  | 0x70 => jit_bmsi JIT_R1 P_SIGN_OVERFLOW
  | _ => jit_bmci JIT_R1 P_SIGN_OVERFLOW
  end.

(** The target address of the branch with index [k], and [tidx]: the first
    instruction of the block at that address. *)
Definition branch_target (ctx : jit_emit_ctx) (k : nat) : Z :=
  u16 (default 0 (insn_addr ctx !! k) + size + s8 op1).
Definition target_index (ctx : jit_emit_ctx) (target : Z) : option nat :=
  fst <$> list_find (λ a, a = target) (insn_addr ctx).

(** BCC, BCS, BEQ, BNE, BMI, BPL, BVS, BVC *)
Definition emit_branch (ctx : jit_emit_ctx) (k : nat) : list jit_node :=
  let target := branch_target ctx k in
  [ jit_ldxi_uc JIT_R1 JIT_R0 OFFSET_E_P ] ++
  jit_either branch_cond
    (jit_emit_advance_pc size)
    ([ jit_movi JIT_R1 target;
       jit_stxi_s OFFSET_E_PC JIT_R0 JIT_R1 ] ++
     match target_index ctx target with
     | None => [ jit_bail jit_jmpi ]
     | Some t =>
         (if (t <=? k)%nat then jit_emit_backedge_guard (Z.of_nat (k - t + 1)) else []) ++
         [ jit_ijmp t ]
     end).

Definition emit_jmp : list jit_node :=
  [ jit_movi JIT_R1 (u16 (op1 ||| (op2 ≪ 8)));
    jit_stxi_s OFFSET_E_PC JIT_R0 JIT_R1 ].

Definition emit_jmp_indirect : list jit_node :=
  let iaddr := u16 (op1 ||| (op2 ≪ 8)) in
  let iaddr2 := u16 (iaddr + 1) in
  [ jit_movi JIT_R1 iaddr ] ++
  jit_emit_bus_read ++
  [ jit_movr JIT_V1 JIT_R1;
    jit_movi JIT_R1 iaddr2 ] ++
  jit_emit_bus_read ++
  [ jit_lshi JIT_R1 JIT_R1 8;
    jit_orr JIT_R1 JIT_R1 JIT_V1;
    jit_stxi_s OFFSET_E_PC JIT_R0 JIT_R1 ].

Definition emit_jsr : list jit_node :=
  let jumpaddr := u16 (op1 ||| (op2 ≪ 8)) in
  [ jit_ldxi_us JIT_R1 JIT_R0 OFFSET_E_PC;
    jit_addi JIT_R1 JIT_R1 2;
    jit_andi JIT_R1 JIT_R1 0xFFFF;
    jit_movr JIT_V2 JIT_R1;
    jit_ldxi_uc JIT_R2 JIT_R0 OFFSET_E_SP;
    jit_addi JIT_R1 JIT_R2 0x100;
    jit_rshi_u JIT_R2 JIT_V2 8 ] ++
  jit_emit_bus_write ++
  emit_sp_dec ++
  [ jit_addi JIT_R1 JIT_R1 0x100;
    jit_andi JIT_V2 JIT_V2 0xFF;
    jit_movr JIT_R2 JIT_V2 ] ++
  jit_emit_bus_write ++
  emit_sp_dec ++
  [ jit_movi JIT_R1 jumpaddr;
    jit_stxi_s OFFSET_E_PC JIT_R0 JIT_R1 ] ++
  jit_emit_bail_if_jit_disabled.

Definition emit_rts : list jit_node :=
  emit_sp_inc ++
  [ jit_addi JIT_R1 JIT_R1 0x100 ] ++
  jit_emit_bus_read ++
  [ jit_movr JIT_V1 JIT_R1 ] ++
  emit_sp_inc ++
  [ jit_addi JIT_R1 JIT_R1 0x100 ] ++
  jit_emit_bus_read ++
  [ jit_lshi JIT_R1 JIT_R1 8;
    jit_orr JIT_R1 JIT_R1 JIT_V1;
    jit_addi JIT_R1 JIT_R1 1;
    jit_andi JIT_R1 JIT_R1 0xFFFF;
    jit_stxi_s OFFSET_E_PC JIT_R0 JIT_R1 ].

(** The code after the [switch]: a call of the interpreter. *)
Definition emit_fallback : list jit_node :=
  [ jit_movr JIT_R0 JIT_V0;
    jit_prepare;
    jit_pushargr JIT_R0;
    jit_pushargi op;
    jit_finishi call_exec_fallback;
    jit_movr JIT_R0 JIT_V0 ] ++
  (if d_modify_pc (bi_id bi) then [ jit_bail jit_jmpi ]
   else
     [ jit_ldxi_i JIT_R1 JIT_R0 OFFSET_E_STATE;
       jit_eqi JIT_R1 JIT_R1 (emu_state_value RUNNING);
       jit_ldxi_uc JIT_R2 JIT_R0 OFFSET_E_USE_JIT;
       jit_andr JIT_R1 JIT_R1 JIT_R2;
       jit_bail (jit_beqi JIT_R1 0) ]).

(** The [switch] of [jit_emit_insn]. *)
Definition emit_switch (ctx : jit_emit_ctx) (k : nat) : option (list jit_node) :=
  match op with
  | 0xEA => Some (jit_emit_advance_pc size)
  | 0x18 => Some (emit_clear_flag P_CARRY)
  | 0x38 => Some (emit_set_flag P_CARRY)
  | 0x58 => Some (emit_clear_flag P_IRQ_DISABLE)
  | 0x78 => Some (emit_set_flag P_IRQ_DISABLE)
  | 0xB8 => Some (emit_clear_flag P_SIGN_OVERFLOW)
  | 0xD8 => Some (emit_clear_flag P_DECIMAL)
  | 0xF8 => Some (emit_set_flag P_DECIMAL)
  | 0xAA => Some (emit_transfer OFFSET_E_A OFFSET_E_X)
  | 0xA8 => Some (emit_transfer OFFSET_E_A OFFSET_E_Y)
  | 0x8A => Some (emit_transfer OFFSET_E_X OFFSET_E_A)
  | 0x98 => Some (emit_transfer OFFSET_E_Y OFFSET_E_A)
  | 0xBA => Some (emit_transfer OFFSET_E_SP OFFSET_E_X)
  | 0x9A => Some emit_txs
  | 0xE8 => Some (emit_increment OFFSET_E_X)
  | 0xCA => Some (emit_decrement OFFSET_E_X)
  | 0xC8 => Some (emit_increment OFFSET_E_Y)
  | 0x88 => Some (emit_decrement OFFSET_E_Y)
  | 0x1A => Some (emit_increment OFFSET_E_A)
  | 0x3A => Some (emit_decrement OFFSET_E_A)
  | 0xA9 | 0xA5 | 0xB5 | 0xAD | 0xBD | 0xB9 | 0xA1 | 0xB1 | 0xB2 => emit_load OFFSET_E_A
  | 0xA2 | 0xA6 | 0xB6 | 0xAE | 0xBE => emit_load OFFSET_E_X
  | 0xA0 | 0xA4 | 0xB4 | 0xAC | 0xBC => emit_load OFFSET_E_Y
  | 0x85 | 0x95 | 0x8D | 0x9D | 0x99 | 0x81 | 0x91 | 0x92 => emit_store OFFSET_E_A
  | 0x86 | 0x96 | 0x8E => emit_store OFFSET_E_X
  | 0x84 | 0x94 | 0x8C => emit_store OFFSET_E_Y
  | 0x64 | 0x74 | 0x9C | 0x9E => emit_stz
  | 0x29 | 0x25 | 0x35 | 0x2D | 0x3D | 0x39 | 0x21 | 0x31 | 0x32 => emit_logic jit_andr
  | 0x09 | 0x05 | 0x15 | 0x0D | 0x1D | 0x19 | 0x01 | 0x11 | 0x12 => emit_logic jit_orr
  | 0x49 | 0x45 | 0x55 | 0x4D | 0x5D | 0x59 | 0x41 | 0x51 | 0x52 => emit_logic jit_xorr
  | 0x69 | 0x65 | 0x75 | 0x6D | 0x7D | 0x79 | 0x61 | 0x71 | 0x72 => emit_adc
  | 0xC9 | 0xC5 | 0xD5 | 0xCD | 0xDD | 0xD9 | 0xC1 | 0xD1 | 0xD2 => emit_compare OFFSET_E_A
  | 0xE0 | 0xE4 | 0xEC => emit_compare OFFSET_E_X
  | 0xC0 | 0xC4 | 0xCC => emit_compare OFFSET_E_Y
  | 0xE9 | 0xE5 | 0xF5 | 0xED | 0xFD | 0xF9 | 0xE1 | 0xF1 | 0xF2 => emit_sbc
  | 0xE6 | 0xF6 | 0xEE | 0xFE => emit_inc_dec jit_addi
  | 0xC6 | 0xD6 | 0xCE | 0xDE => emit_inc_dec jit_subi
  | 0x0A => Some emit_asl_a
  | 0x4A => Some emit_lsr_a
  | 0x2A => Some emit_rol_a
  | 0x6A => Some emit_ror_a
  | 0x06 | 0x16 | 0x0E | 0x1E => emit_asl_mem
  | 0x46 | 0x56 | 0x4E | 0x5E => emit_lsr_mem
  | 0x26 | 0x36 | 0x2E | 0x3E => emit_rol_mem
  | 0x66 | 0x76 | 0x6E | 0x7E => emit_ror_mem
  | 0x89 | 0x24 | 0x34 | 0x2C | 0x3C => emit_bit
  | 0x07 | 0x17 | 0x27 | 0x37 | 0x47 | 0x57 | 0x67 | 0x77 => emit_rmb
  | 0x87 | 0x97 | 0xA7 | 0xB7 | 0xC7 | 0xD7 | 0xE7 | 0xF7 => emit_smb
  | 0x14 | 0x1C | 0x04 | 0x0C => emit_trb_tsb
  | 0x0F | 0x1F | 0x2F | 0x3F | 0x4F | 0x5F | 0x6F | 0x7F
  | 0x8F | 0x9F | 0xAF | 0xBF | 0xCF | 0xDF | 0xEF | 0xFF => Some emit_bit_branch
  | 0x48 | 0xDA | 0x5A | 0x08 => Some emit_push
  | 0x68 | 0xFA | 0x7A => Some emit_pull
  | 0x28 => Some emit_plp
  | 0x80 => Some (emit_relative (s8 op1))
  | 0x90 | 0xB0 | 0xF0 | 0xD0 | 0x30 | 0x10 | 0x70 | 0x50 => Some (emit_branch ctx k)
  | 0x4C => Some emit_jmp
  | 0x6C => Some emit_jmp_indirect
  | 0x20 => Some emit_jsr
  | 0x60 => Some emit_rts
  | _ => None
  end.

Definition jit_emit_insn (ctx : jit_emit_ctx) (k : nat) : list jit_node :=
  default emit_fallback (emit_switch ctx k).

End Cases.

(** ** The code of a block *)

(** [ctx.insn_addr] for a block at [a]. *)
Fixpoint insn_addrs (a : Z) (insns : list jit_block_insn) : list Z :=
  match insns with
  | [] => []
  | bi :: l => a :: insn_addrs (u16 (a + d_size (bi_id bi))) l
  end.

(** What [jit_compile_block] emits between the prolog and [jit_ret]: for every
    instruction the nodes from its label on. *)
Definition jit_emit_block (pc : Z) (insns : list jit_block_insn) : list (list jit_node) :=
  let ctx := mkCtx (insn_addrs pc insns) in
  imap (λ k bi, jit_emit_insn bi ctx k) insns.
