(* ===== verification/Jit.v ===== *)
(** The JIT backend: [src/src/jit.c] built with GNU lightning.

    Decoding of blocks, tracking of guest stores, compilation bookkeeping and
    the dispatcher [rk65c02_run_jit].  The code a block is compiled to is
    [JitEmit.jit_emit_block]; GNU lightning is the class [Lightning]: whether
    [jit_emit] turns that code into machine code, and what running it does.  A
    block pointer is the index of its slot in [blocks]. *)
From stdpp Require Import base numbers list gmap strings.
From S2P Require Import Prelude Types Isa BusSpec State Interfaces Mmu Instruction Emulation.
From S2P Require Import Disasm Debug Exec JitCache JitEmit.

Definition jit_sys (B H : Type) : Sys := {| sys_bus := B; sys_jit := rk65c02_jit; sys_host := H |}.

(** Lightning's [jit_emit] fails or gives a function, and calling it runs it. *)
Class Lightning {SY : Sys} := {
  jit_emit : list (list jit_node) → bool;
  native_exec : list (list jit_node) → M unit
}.

Section Jit.
Context (B H : Type).
#[local] Hint Extern 0 Sys => exact (jit_sys B H) : typeclass_instances.
Context {SB : SysBus} {HO : HostOps}.

(** An update of [*e->jit]. *)
Definition mod_jit (f : rk65c02_jit → rk65c02_jit) : M unit :=
  modify (λ e, set_jit (f <$> jit e) e).

Definition jit_translate_paddr (vaddr : Z) (access : rk65c02_mmu_access_t) : M (option Z) :=
  p ← rk65c02_mmu_translate_cached vaddr access;
  mret (match p with
        | None => None
        | Some paddr => if paddr >=? RK65C02_BUS_SIZE then None else Some (u16 paddr)
        end).

(** ** Guest stores *)

(** The physical address of the store when it hits the physical tracking. *)
Definition phys_hit (addr : Z) : M (option Z) :=
  j ← gets (λ e, jit e);
  match j with
  | None => mret None
  | Some j =>
      if compiled_phys_refs_total j =? 0 then mret None
      else
        p ← jit_translate_paddr addr RK65C02_MMU_WRITE;
        j ← gets (λ e, jit e);
        mret (match p, j with
              | Some paddr, Some j =>
                  if negb (arr_get (covered_phys_addr_refcnt j) paddr =? 0)
                     || negb (arr_get (compiled_phys_page_refcnt j) (paddr ≫ 8) =? 0)
                  then Some paddr else None
              | _, _ => None
              end)
  end.

(** A store noticed while a block runs: put off to the dispatcher. *)
Definition record_write (w : pending_write_t) (j : rk65c02_jit) : rk65c02_jit :=
  if (Z.of_nat (length (pending_write j)) <? Z.of_nat JIT_WRITE_EVENT_SLOTS)
  then put_pending_write (pending_write j ++ [w]) j
  else put_pending_write_overflow true j.

Definition note_guest_write (addr : Z) : M unit :=
  j ← gets (λ e, jit e);
  match j with
  | None => mret tt
  | Some j =>
      if negb (magic j =? JIT_MAGIC) || (active_blocks j =? 0) then mret tt
      else
        let covered_virt :=
          negb (arr_get (compiled_page_refcnt j) (addr ≫ 8) =? 0)
          && negb (arr_get (covered_addr_refcnt j) addr =? 0) in
        paddr ← phys_hit addr;
        let w := mkPending addr (bool_decide (is_Some paddr)) (default 0 paddr) in
        if negb covered_virt && negb (pw_phys_valid w) then mret tt
        else
          mod_jit (λ j, put_stats (stats_write_event (stats j)) j);;
          e ← get;
          if in_jit_run e then
            modify (set_use_jit false);;
            mod_jit (record_write w)
          else mod_jit (λ j, apply_write j w)
  end.

(** ** Invalidation by the host *)

Definition jit_invalidate_deferred : M bool :=
  e ← get;
  if negb (in_jit_run e) then mret false
  else
    mod_jit (put_needs_flush true);;
    modify (set_use_jit false);;
    mret true.

(** The public entry points: nothing without a backend, put off while a block
    runs. *)
Definition invalidate_with (f : rk65c02_jit → rk65c02_jit) : M unit :=
  j ← gets (λ e, jit e);
  match j with
  | None => mret tt
  | Some _ =>
      d ← jit_invalidate_deferred;
      if d : bool then mret tt else mod_jit f
  end.

Definition when_magic (m : M unit) : M unit :=
  j ← gets (λ e, jit e);
  match j with
  | None => mret tt
  | Some j => if negb (magic j =? JIT_MAGIC) then mret tt else m
  end.

Definition lightning_flush : M unit := invalidate_with jit_backend_flush.
Definition lightning_invalidate_all : M unit := invalidate_with jit_backend_flush.
Definition lightning_invalidate_code_vpage (vpage : Z) : M unit :=
  when_magic (invalidate_with (λ j, jit_invalidate_blocks_for_code_page j vpage)).
#[global] Arguments lightning_flush /.
#[global] Arguments lightning_invalidate_all /.
#[global] Arguments lightning_invalidate_code_vpage vpage /.

#[export] Instance lightning_jit : JitOps := {|
  rk65c02_jit_note_guest_write := note_guest_write;
  rk65c02_jit_flush := lightning_flush;
  rk65c02_jit_invalidate_all := lightning_invalidate_all;
  rk65c02_jit_invalidate_code_vpage := lightning_invalidate_code_vpage
|}.

Definition rk65c02_jit_invalidate_vpage (vpage : Z) : M unit :=
  when_magic (invalidate_with (λ j, jit_invalidate_blocks_for_page j vpage)).

Definition rk65c02_jit_enable (enable : bool) : M unit :=
  if enable then
    j ← gets (λ e, jit e);
    (match j with
     | None => modify (set_jit (Some jit_backend_create))
     | Some _ => mret tt
     end);;
    modify (set_jit_requested true);;
    modify (set_use_jit true)
  else
    modify (set_jit_requested false);;
    modify (set_use_jit false).

(** The result, and [*out] for an [out] that is not NULL. *)
Definition rk65c02_jit_stats_get : M (bool * rk65c02_jit_stats_t) :=
  j ← gets (λ e, jit e);
  mret (match j with
        | Some j => if magic j =? JIT_MAGIC then (true, stats j) else (false, stats_zero)
        | None => (false, stats_zero)
        end).

Definition rk65c02_jit_stats_reset : M unit := when_magic (mod_jit (put_stats stats_zero)).

(** ** Helpers native code calls *)

Definition jit_mem_read_1 (addr : Z) : M Z := rk65c02_mem_read_1 addr.
Definition jit_bus_write_1 (addr val : Z) : M unit := rk65c02_mem_write_1 addr val.
Definition jit_exec_fallback (opcode : Z) : M unit := rk65c02_exec.

(** ** Building and compiling blocks *)

(** The [while] of [jit_build_block_insns] at address [pc], with room for [n]
    more instructions. *)
Fixpoint build_loop (n : nat) (start_pc pc : Z) : M (list jit_block_insn) :=
  match n with
  | O => mret []
  | S n' =>
      if negb (pc ≫ 8 =? start_pc ≫ 8) then mret []
      else
        i ← instruction_fetch_emu pc;
        s ← gets (λ e, state e);
        if negb (bool_decide (s = RUNNING)) then mret []
        else
          let id := instruction_decode (i_opcode i) in
          if negb (u16 (pc + d_size id - 1) ≫ 8 =? start_pc ≫ 8) then mret []
          else
            let bi := mkBlockInsn i id in
            if jit_opcode_is_cond_branch (i_opcode i) then
              rest ← build_loop n' start_pc (u16 (pc + d_size id)); mret (bi :: rest)
            else if instruction_modify_pc id || (i_opcode i =? 0x60) then mret [bi]
            else if (i_opcode i =? 0xDB) || (i_opcode i =? 0xCB) then mret [bi]
            else rest ← build_loop n' start_pc (u16 (pc + d_size id)); mret (bi :: rest)
  end.

Definition jit_build_block_insns (start_pc : Z) (max_insns : nat) : M (list jit_block_insn) :=
  build_loop max_insns start_pc start_pc.

Definition block_end_of (pc : Z) (insns : list jit_block_insn) : Z :=
  foldl (λ a bi, u16 (a + d_size (bi_id bi))) pc insns.

Definition new_block (pc : Z) : rk65c02_jit_block := mkBlock pc pc false 0 false 0 0 None false.

(** The physical tags of a block: page and start, and whether the block's
    bytes are contiguous in physical memory. *)
Definition phys_tags (pc block_end : Z) : M (option (Z * bool)) :=
  e ← get;
  if mmu_enabled e && negb (mmu_identity_active e) then
    p ← jit_translate_paddr pc RK65C02_MMU_FETCH;
    match p with
    | None => mret None
    | Some phys_start =>
        if ((phys_start &&& 0xFF) =? (pc &&& 0xFF)) && negb (block_end =? pc) then
          q ← jit_translate_paddr (u16 (block_end - 1)) RK65C02_MMU_FETCH;
          mret (Some (phys_start, match q with
            | Some phys_last => phys_last =? u16 (phys_start + u16 (block_end - pc) - 1)
            | None => false
            end))
        else mret (Some (phys_start, false))
    end
  else mret None.

Context {LI : Lightning}.

(** [b] with its span and tags set and code emitted for [insns]. *)
Definition emitted (b : rk65c02_jit_block) (pc block_end : Z) (tags : option (Z * bool))
    (insns : list jit_block_insn) : rk65c02_jit_block :=
  let ok := jit_emit (jit_emit_block pc insns) in
  mkBlock (start_pc b) block_end
    (bool_decide (is_Some tags))
    (match tags with Some (ps, _) => u8 (ps ≫ 8) | None => mmu_phys_page b end)
    (match tags with Some (_, cov) => cov | None => false end)
    (match tags with Some (ps, _) => ps | None => 0 end)
    (if ok then u8 (Z.of_nat (length insns)) else num_insns b)
    (if ok then Some insns else None) true.

(** Put the block in its slot, counted when it has code. *)
Definition install (pc : Z) (b : rk65c02_jit_block) (j : rk65c02_jit) : rk65c02_jit :=
  let j := put_blocks (<[pc := b]> (blocks j)) j in
  if live b then
    let j := jit_block_page_refs_update j b true in
    let j := put_active_blocks (active_blocks j + 1) j in
    put_stats (stats_block_compiled (stats j)) j
  else j.

(** [Some pc] is the block in slot [pc], [None] is NULL. *)
Definition jit_compile_block (pc : Z) : M (option Z) :=
  j ← gets (λ e, jit e);
  match j with
  | None => mret None
  | Some j =>
      if negb (magic j =? JIT_MAGIC) then mret None
      else
        (match blocks j !! pc with
         | None => mod_jit (λ j, put_blocks (<[pc := new_block pc]> (blocks j)) j)
         | Some _ => mret tt
         end);;
        if match blocks j !! pc with Some b => live b | None => false end then mret (Some pc)
        else
          insns ← jit_build_block_insns pc JIT_BLOCK_MAX_INSNS;
          match insns with
          | [] => mret None
          | _ =>
              let block_end := block_end_of pc insns in
              tags ← phys_tags pc block_end;
              mod_jit (λ j, install pc
                (emitted (default (new_block pc) (blocks j !! pc)) pc block_end tags insns) j);;
              mret (Some pc)
          end
  end.

(** ** The dispatcher *)

(** [setjmp]: whether [m] was left by a [longjmp]. *)
Definition catch (m : M unit) : M bool := λ e,
  match m e with
  | (Ret _, e') => (Ret false, e')
  | (Longjmp, e') => (Ret true, e')
  | (AssertFail, e') => (AssertFail, e')
  | (NoFuel, e') => (NoFuel, e')
  end.

Definition live_at (j : option rk65c02_jit) (pc : Z) : bool :=
  match j with
  | None => false
  | Some j => match jit_find_block j pc with Some b => live b | None => false end
  end.

(** Write events recorded by the block are processed; the result is the new
    [disable_jit_for_run]. *)
Definition process_writes (disable : bool) : M bool :=
  j ← gets (λ e, jit e);
  match j with
  | None => mret disable
  | Some j =>
      if negb (bool_decide (pending_write j = [])) || pending_write_overflow j then
        let '(exhausted, j') := jit_process_pending_writes j in
        modify (set_jit (Some j'));;
        (if exhausted && negb disable
         then mod_jit (λ j, put_stats (stats_run_disabled (stats j)) j) else mret tt);;
        let disable := disable || exhausted in
        modify (λ e, set_use_jit (if disable then false else jit_requested e) e);;
        mret disable
      else mret disable
  end.

Definition process_flush (disable : bool) : M unit :=
  j ← gets (λ e, jit e);
  match j with
  | None => mret tt
  | Some j =>
      if needs_flush j then
        mod_jit jit_backend_flush;;
        modify (λ e, set_use_jit (if disable then false else jit_requested e) e)
      else mret tt
  end.

(** The call through [b->fn]; a NULL [fn] would crash. *)
Definition call_block (pc : Z) : M unit :=
  j ← gets (λ e, jit e);
  match j with
  | None => assert_fail
  | Some j =>
      match blocks j !! pc with
      | Some b =>
          mod_jit (λ j, put_stats (stats_block_executed (num_insns b) (stats j)) j);;
          modify (set_jit_loop_budget JIT_LOOP_BUDGET);;
          modify (set_in_jit_run true);;
          match fn b with
          | Some insns => native_exec (jit_emit_block (start_pc b) insns)
          | None => assert_fail
          end;;
          modify (set_in_jit_run false)
      | None => assert_fail
      end
  end.

(** Does the block's page still have the physical page it was compiled for? *)
Definition mapping_current (pc : Z) : M bool :=
  j ← gets (λ e, jit e);
  match j with
  | None => mret true
  | Some j =>
      match blocks j !! pc with
      | None => mret true
      | Some b =>
          if negb (mmu_phys_page_valid b) then mret true
          else
            p ← jit_translate_paddr pc RK65C02_MMU_FETCH;
            mret (match p with
                  | Some cur => u8 (cur ≫ 8) =? mmu_phys_page b
                  | None => false
                  end)
      end
  end.

(** Make room for a block and compile it. *)
Definition compile_capped (pc : Z) : M (option Z) :=
  j ← gets (λ e, jit e);
  (if match j with Some j => active_blocks j >=? JIT_MAX_ACTIVE_BLOCKS | None => false end
   then mod_jit jit_backend_flush else mret tt);;
  jit_compile_block pc.

(** [b != NULL && b->fn != NULL] *)
Definition runnable (b : option Z) (e : rk65c02emu) : bool :=
  match b with None => false | Some pc => live_at (jit e) pc end.

(** The main [while] of [rk65c02_run_jit], one unit of fuel per iteration. *)
Fixpoint jit_loop (fuel : nat) (disable : bool) : M unit :=
  match fuel with
  | O => no_fuel
  | S fuel' =>
      r ← gets is_running;
      if negb r then mret tt
      else
        rk65c02_poll_host_controls;;
        r ← gets is_running;
        if negb r then
          w ← rk65c02_maybe_wait_on_idle;
          if w : bool then jit_loop fuel' disable else mret tt
        else
          e ← get;
          if trace e || runtime_disassembly e || negb (bool_decide (bps_head e = [])) then mret tt
          else if negb (use_jit e) || bool_decide (jit e = None) then interp_loop fuel'
          else if irq e && negb (ctrue (P (regs e) &&& P_IRQ_DISABLE)) then
            rk65c02_exec;; jit_loop fuel' disable
          else
            let pc := PC (regs e) in
            if match jit e with
               | Some j => bool_decide (pc ≫ 8 ∈ mutable_code_page j)
               | None => false
               end
            then rk65c02_exec;; jit_loop fuel' disable
            else
              had ← gets (λ e, live_at (jit e) pc);
              b ← (if had : bool then mret (Some pc) else compile_capped pc);
              r ← gets is_running;
              if negb had && negb r then mret tt
              else
                ok ← gets (runnable b);
                if negb ok then
                  rk65c02_exec;;
                  r ← gets is_running;
                  if negb r then mret tt else jit_loop fuel' disable
                else
                  cur ← mapping_current pc;
                  if negb cur then
                    mod_jit (λ j, jit_invalidate_blocks_for_page j (u8 (pc ≫ 8)));;
                    jit_loop fuel' disable
                  else
                    faulted ← catch (call_block pc);
                    disable ← process_writes disable;
                    if faulted : bool then jit_loop fuel' disable
                    else
                      process_flush disable;;
                      rk65c02_poll_host_controls;;
                      r ← gets is_running;
                      if negb r then
                        w ← rk65c02_maybe_wait_on_idle;
                        r ← gets is_running;
                        if (w : bool) && r then jit_loop fuel' disable else mret tt
                      else jit_loop fuel' disable
  end.

Definition rk65c02_run_jit (fuel : nat) : M unit :=
  e ← get;
  if negb (use_jit e) || bool_decide (jit e = None) || trace e || runtime_disassembly e
     || negb (bool_decide (bps_head e = []))
  then modify (set_state RUNNING);; interp_loop fuel
  else
    modify (set_state RUNNING);;
    mod_jit jit_run_state_reset;;
    jit_loop fuel false.

End Jit.

(** The statistics of [jit_stub.c]: the result, and [*out] for an [out] that is
    not NULL. *)
Definition stub_jit_stats_get : bool * rk65c02_jit_stats_t := (false, stats_zero).
Definition stub_jit_stats_reset {SY : Sys} : M unit := mret tt.
