(* ===== verification/Remap.v ===== *)
(** Hosts that change the mapping while the emulator runs.

    The hosts under [src/examples] tell the library about a new mapping page by
    page: [begin_update], [mark_changed_vpage] for each page, [end_update].
    [remap] is that sequence, [remap_spec] what it does to the TLB and what it
    leaves alone.  Mappings whose answers depend on the host's own data are not
    cached at all ([no_fill_tlb]); [translate_uncached] says that such a page is
    always answered by the callback itself. *)
From stdpp Require Import base numbers list gmap strings.
From S2P Require Import Prelude Types Isa BusSpec State Interfaces Mmu Invariant MmuSpec.
From S2P Require Import JitCache Jit.

Section Remap.
Context {SY : Sys} {SB : SysBus} {HO : HostOps} {JO : JitOps}.

Definition remap (pages : list Z) : M unit :=
  rk65c02_mmu_begin_update;;
  mfor pages rk65c02_mmu_mark_changed_vpage;;
  rk65c02_mmu_end_update.

(** The access an instruction makes through the MMU. *)
Definition attempt (a : rk65c02_mmu_access_t) (v val : Z) : M unit :=
  match a with
  | RK65C02_MMU_WRITE => rk65c02_mem_write_mmu v val a
  | _ => rk65c02_mem_read_mmu v a;; mret tt
  end.

Lemma remap_one p e : remap [p] e =
  (rk65c02_mmu_begin_update;; rk65c02_mmu_mark_changed_vpage p;; rk65c02_mmu_end_update) e.
Proof.
  unfold remap. change (mfor [p] rk65c02_mmu_mark_changed_vpage) with
    (rk65c02_mmu_mark_changed_vpage p;; mret tt). unfold mbind, M_bind, mret, M_ret.
  destruct (rk65c02_mmu_begin_update e) as [[] e1]; [|done..].
  by destruct (rk65c02_mmu_mark_changed_vpage p e1) as [[[]| | |] e2].
Qed.

(** What an update of the mapping leaves alone. *)
Record remap_keeps (e e' : rk65c02emu) : Prop := {
  rk_bus : bus e' = bus e;
  rk_regs : regs e' = regs e;
  rk_state : state e' = state e;
  rk_stopreason : stopreason e' = stopreason e;
  rk_irq : irq e' = irq e;
  rk_host : host e' = host e;
  rk_enabled : mmu_enabled e' = mmu_enabled e;
  rk_tlb_enabled : mmu_tlb_enabled e' = mmu_tlb_enabled e;
  rk_translate : mmu_translate e' = mmu_translate e;
  rk_translate_ctx : mmu_translate_ctx e' = mmu_translate_ctx e;
  rk_fault : mmu_fault e' = mmu_fault e;
  rk_fault_ctx : mmu_fault_ctx e' = mmu_fault_ctx e;
  rk_in_jit : in_jit_run e' = in_jit_run e
}.

Lemma remap_keeps_refl e : remap_keeps e e.
Proof. by split. Qed.
Lemma remap_keeps_trans e e1 e2 : remap_keeps e e1 → remap_keeps e1 e2 → remap_keeps e e2.
Proof. intros [] []. split; congruence. Qed.

Context {JK : JitKeepsMmu}.

Lemma jit_only_keeps e e' : jit_only e e' → remap_keeps e e'.
Proof. intros (j&u&->). by split. Qed.

#[local] Hint Extern 1 (keeps (remap_keeps _) (modify _) _) =>
  apply (keeps_modify _ _ (λ _, True)); [|exact I]; intros ? []; by split : keeps.
#[local] Hint Extern 1 (keeps (remap_keeps _) (gets _) _) =>
  apply (keeps_gets _ _ (λ _, True)); done : keeps.

Lemma keeps_invalidate_all e0 : keeps (remap_keeps e0) rk65c02_jit_invalidate_all (λ _, True).
Proof.
  intros e He. destruct (invalidate_all_only e) as (e'&->&Hj). split; [|done].
  by eapply remap_keeps_trans, jit_only_keeps.
Qed.
Lemma keeps_invalidate_vpage e0 p :
  keeps (remap_keeps e0) (rk65c02_jit_invalidate_code_vpage p) (λ _, True).
Proof.
  intros e He. destruct (invalidate_code_vpage_only p e) as (e'&->&Hj). split; [|done].
  by eapply remap_keeps_trans, jit_only_keeps.
Qed.
#[local] Hint Resolve keeps_invalidate_all keeps_invalidate_vpage : keeps.

Lemma remap_keeps_refresh e0 : keeps (remap_keeps e0) rk65c02_mmu_refresh_accessors (λ _, True).
Proof. rewrite refresh_modify. apply keeps_modify; [|done]. intros e []. by split. Qed.
#[local] Hint Resolve remap_keeps_refresh : keeps.

Lemma remap_keeps_end_update e0 : keeps (remap_keeps e0) rk65c02_mmu_end_update (λ _, True).
Proof.
  unfold rk65c02_mmu_end_update, mmu_epoch_bump, rk65c02_mmu_tlb_flush, rk65c02_mmu_tlb_flush_vpage, when_jit.
  keeps_auto.
Qed.

(** Marking pages: they are remembered, and the TLB is as it was. *)
Lemma mark_pages_spec l e : mmu_enabled e = true →
  ∃ e', mfor l rk65c02_mmu_mark_changed_vpage e = (Ret tt, e') ∧ remap_keeps e e' ∧ same_mmu e e' ∧
    mmu_changed_all e' = mmu_changed_all e ∧ mmu_changed_vpage e' = list_to_set l ∪ mmu_changed_vpage e ∧
    (mmu_update_pending e = true → mmu_update_pending e' = true).
Proof.
  revert e. induction l as [|p l IH]; intros e He.
  - exists e. split_and!; [done|apply remap_keeps_refl|done|done|set_solver|done].
  - set (e1 := refreshed (set_mmu_identity_active false (set_mmu_changed_vpage
      ({[p]} ∪ mmu_changed_vpage e) (set_mmu_update_pending true e)))).
    assert (rk65c02_mmu_mark_changed_vpage p e = (Ret tt, e1)) as E1.
    { unfold rk65c02_mmu_mark_changed_vpage. rewrite refresh_modify. erewrite bind_Ret by reflexivity.
      cbv beta. by rewrite He. }
    destruct (IH e1 He) as (e'&E&Hk&Hs&Ha&Hc&Hp). exists e'.
    split; [change (mfor (p :: l) rk65c02_mmu_mark_changed_vpage) with
      (rk65c02_mmu_mark_changed_vpage p;; mfor l rk65c02_mmu_mark_changed_vpage);
      by erewrite bind_Ret by exact E1|].
    split; [eapply remap_keeps_trans; [|exact Hk]; by split|].
    split_and!; [exact Hs|exact Ha|rewrite Hc; cbn; set_solver|by intros _; apply Hp].
Qed.

(** After [remap] no page of the list is cached, and what is still cached was
    before. *)
Lemma remap_spec l e : mmu_enabled e = true → Forall (λ p, byte p) l →
  ∃ e', remap l e = (Ret tt, e') ∧ remap_keeps e e' ∧ hits_within e e' (λ p, p ∈ l) ∧
    mmu_changed_all e' = false ∧ mmu_changed_vpage e' = ∅.
Proof.
  intros He Hl. unfold remap.
  set (e1 := set_mmu_changed_vpage ∅ (set_mmu_changed_all false (set_mmu_update_pending true e))).
  assert (rk65c02_mmu_begin_update e = (Ret tt, e1)) as E1.
  { unfold rk65c02_mmu_begin_update. erewrite bind_Ret by reflexivity. cbv beta. by rewrite He. }
  erewrite bind_Ret by exact E1.
  destruct (mark_pages_spec l e1 He) as (e2&E2&Hk2&Hs2&Ha2&Hc2&Hp2). erewrite bind_Ret by exact E2.
  specialize (Hp2 eq_refl). assert (remap_keeps e e1) as Hk1 by by split.
  pose proof (remap_keeps_trans _ _ _ Hk1 Hk2) as Hk. destruct (remap_keeps_end_update e e2 Hk) as [Hk3 _].
  revert Hk3. unfold rk65c02_mmu_end_update. rewrite refresh_modify.
  erewrite bind_Ret by reflexivity. cbv beta. rewrite (rk_enabled _ _ Hk), He. cbn [negb].
  erewrite bind_Ret by reflexivity. cbv beta. rewrite Hp2. cbn [negb].
  erewrite bind_Ret by reflexivity. erewrite bind_Ret by reflexivity. cbv beta.
  cbn [mmu_changed_all set_mmu_update_pending]. rewrite Ha2. cbn [mmu_changed_all e1 set_mmu_changed_vpage].
  set (e3 := set_mmu_update_pending false e2).
  assert (hits_within e e3 (λ _, False)) as H0.
  { intros p Hp. destruct (same_mmu_hit e1 e2 p Hs2) as [Hh Ht].
    change (tlb_hit e3 p) with (tlb_hit e2 p) in Hp. change (tlb_entry e3 p) with (tlb_entry e2 p).
    rewrite Hh in Hp. rewrite Ht. by split_and!; auto. }
  destruct (flush_loop_spec (seqZ 0 256) e e3 _ H0) as (e4&E4&Hc4&H4). 
  change (mmu_changed_vpage e3) with (mmu_changed_vpage e2) in H4. rewrite Hc2 in H4.
  erewrite bind_Ret by exact E4. do 2 erewrite bind_Ret by reflexivity. intros Hk3. eexists.
  split; [reflexivity|]. split; [exact Hk3|]. split; [|done].
  intros p Hp. destruct (H4 p Hp) as (?&?&Hn). split_and!; [done..|]. intros Hin. apply Hn. right.
  split; [|set_solver]. rewrite Forall_forall in Hl. specialize (Hl p Hin). apply elem_of_seqZ. lia.
Qed.

(** A remapped TLB is coherent with any mapping that differs only there. *)
Lemma remap_coherent pt pt' l e : mmu_enabled e = true → Forall (λ p, byte p) l → coherent pt e →
  (∀ p, byte p → p ∉ l → same_on pt pt' p) →
  ∃ e', remap l e = (Ret tt, e') ∧ remap_keeps e e' ∧ coherent pt' e'.
Proof.
  intros He Hl Hco Hsame. destruct (remap_spec l e He Hl) as (e'&E&Hk&Hh&_). exists e'.
  split_and!; [done..|]. intros p Hp v a Hv Hpv. destruct (Hh p Hp) as (Hp0&Ee&Hn).
  assert (same_on pt pt' p) as Hs by (apply Hsame; [rewrite <- Hpv; apply page_byte|done]).
  rewrite <- (Hs v a Hv Hpv), Ee. by apply Hco.
Qed.

(** ** Pages that are not cached *)

(** The callback never lets page [p] be cached, and leaves the TLB alone. *)
Definition uncached (cb : nat) (ctx p : Z) : Prop := ∀ v a e, word v →
  ∃ r e', host_mmu_translate cb ctx v a e = (Ret r, e') ∧ same_mmu e e' ∧
    (page v = p → r_no_fill_tlb r = true).

(** A translation that misses the TLB and may not be cached is the callback's
    answer, with the callback's effects. *)
Lemma translate_uncached cb v a req e r e' :
  mmu_translate e = Some cb → tlb_hit e (page v) = false →
  host_mmu_translate cb (mmu_translate_ctx e) v a
    (set_mmu_tlb_misses (u64 (mmu_tlb_misses e + 1)) e) = (Ret r, e') →
  r_no_fill_tlb r = true →
  rk65c02_mmu_translate_addr v a req e = (Ret (answer r req), e').
Proof.
  intros Hcb Hh E Hn. unfold rk65c02_mmu_translate_addr, answer. erewrite bind_Ret by reflexivity.
  fold (page v). rewrite Hh. erewrite bind_Ret by reflexivity. rewrite Hcb. erewrite bind_Ret by exact E.
  destruct (r_ok r); [|done]. cbn [negb]. destruct (negb _); [done|]. rewrite Z.geb_leb.
  destruct (_ <=? _); [done|]. erewrite bind_Ret by reflexivity. rewrite Hn.
  by rewrite andb_false_r.
Qed.

(** No translation caches such a page. *)
Lemma uncached_stays cb p v a req e x e' :
  mmu_translate e = Some cb → uncached cb (mmu_translate_ctx e) p → word v → tlb_hit e p = false →
  rk65c02_mmu_translate_addr v a req e = (x, e') → tlb_hit e' p = false.
Proof.
  intros Hcb Hu Hv Hp E. unfold rk65c02_mmu_translate_addr in E. erewrite bind_Ret in E by reflexivity.
  fold (page v) in E. destruct (tlb_hit e (page v)).
  { erewrite bind_Ret in E by reflexivity. by destruct (negb _); injection E as <- <-. }
  erewrite bind_Ret in E by reflexivity. rewrite Hcb in E.
  destruct (Hu v a (set_mmu_tlb_misses (u64 (mmu_tlb_misses e + 1)) e) Hv) as (r&e1&E1&Hs&Hn).
  erewrite bind_Ret in E by exact E1.
  assert (tlb_hit e1 p = false) as Hp1.
  { destruct (same_mmu_hit _ _ p Hs) as [-> _]. exact Hp. }
  destruct (negb (r_ok r)); [by injection E as <- <-|]. destruct (negb _); [by injection E as <- <-|].
  destruct (_ >=? _); [by injection E as <- <-|]. erewrite bind_Ret in E by reflexivity.
  destruct (_ && _) eqn:Ef; [|by injection E as <- <-]. injection E as <- <-.
  rewrite !andb_true_iff, negb_true_iff in Ef. destruct (decide (page v = p)) as [Ev|Ev].
  - destruct Ef as [[_ Ef] _]. by rewrite Hn in Ef.
  - unfold tlb_hit, tlb_entry in *. cbn [mmu_tlb set_mmu_tlb mmu_tlb_enabled mmu_epoch].
    by rewrite lookup_insert_ne by done.
Qed.

End Remap.

(** The lightning backend, too, changes nothing but itself. *)
Lemma lightning_keeps_mmu B H {SB : @SysBus (jit_sys B H)} {HO : @HostOps (jit_sys B H)} :
  @JitKeepsMmu (jit_sys B H) (lightning_jit B H).
Proof.
  assert (∀ f (e : @rk65c02emu (jit_sys B H)), ∃ e', invalidate_with B H f e = (Ret tt, e') ∧ jit_only e e') as Hw.
  { intros f e. unfold invalidate_with. erewrite bind_Ret by reflexivity. cbv beta.
    destruct (jit e) as [j|] eqn:Ej; [|exists e; split; [done|apply jit_only_refl]].
    unfold jit_invalidate_deferred, get, mbind, M_bind. cbn. destruct (in_jit_run e); cbn.
    - eexists. split; [reflexivity|]. by eexists _, _.
    - eexists. split; [reflexivity|]. exists (f <$> jit e), (use_jit e). by destruct e. }
  split; [exact (Hw jit_backend_flush)|]. intros p e. cbn. unfold when_magic.
  erewrite bind_Ret by reflexivity. cbv beta.
  destruct (jit e) as [j|] eqn:Ej; [|exists e; split; [done|apply jit_only_refl]].
  destruct (negb _); [exists e; split; [done|apply jit_only_refl]|]. apply Hw.
Qed.
