(* ===== verification/JitNative.v ===== *)
(** Running the code that [JitEmit] emits.

    What the nodes do is documented in the manual of GNU lightning; [code_run]
    and [block_run] state it as an evaluator, for a host with 64-bit words and
    pointers, and the law [LightningLaws] says that generated machine code
    behaves so.

    A machine word is represented by any integer congruent to it modulo 2^64:
    sums, differences, left shifts and bit operations are those of the integers,
    and whatever looks at the value (comparisons, right shifts, stores,
    arguments) wraps it to the width it has there.  Pointers are symbolic, and
    [LJunk] is a word nothing is known of.  Using one of these as a number, or a
    number as a pointer, is a crash, as are the other undefined uses. *)
From stdpp Require Import base numbers list gmap strings.
From S2P Require Import Prelude Types Isa BusSpec State Interfaces Mmu Instruction Emulation.
From S2P Require Import Disasm Debug Exec JitCache JitEmit Jit.

(** ** Words and machine states *)

Definition s32 (x : Z) : Z := if u32 x <? 2147483648 then u32 x else u32 x - 4294967296.
Definition s64 (x : Z) : Z :=
  if u64 x <? 9223372036854775808 then u64 x else u64 x - 18446744073709551616.

Lemma s32_range x : -2147483648 ≤ s32 x < 2147483648.
Proof. unfold s32. pose proof (u32_range x). destruct (Z.ltb_spec (u32 x) 2147483648); lia. Qed.
Lemma s64_small x : -9223372036854775808 ≤ x < 9223372036854775808 → s64 x = x.
Proof.
  intros Hx. unfold s64, u64. pose proof (Z.div_mod x 18446744073709551616).
  pose proof (Z.mod_pos_bound x 18446744073709551616).
  destruct (Z.ltb_spec (x mod 18446744073709551616) 9223372036854775808); lia.
Qed.

Inductive jit_val :=
  | LInt (z : Z)
  (** the argument of the block, [rk65c02emu_t *e] *)
  | LEmu
  (** the address of [stats.insns_executed] *)
  | LStat
  | LJunk.

(** The registers, the arguments pushed so far and the value a call left. *)
Record jit_mach := mkMach {
  m_r0 : jit_val; m_r1 : jit_val; m_r2 : jit_val;
  m_v0 : jit_val; m_v1 : jit_val; m_v2 : jit_val;
  m_args : list jit_val; m_ret : jit_val
}.

Definition reg_get (r : jit_reg) (m : jit_mach) : jit_val :=
  match r with
  | JIT_R0 => m_r0 m | JIT_R1 => m_r1 m | JIT_R2 => m_r2 m
  | JIT_V0 => m_v0 m | JIT_V1 => m_v1 m | JIT_V2 => m_v2 m
  end.
Definition reg_set (r : jit_reg) (v : jit_val) (m : jit_mach) : jit_mach :=
  let '(mkMach r0 r1 r2 v0 v1 v2 a t) := m in
  match r with
  | JIT_R0 => mkMach v r1 r2 v0 v1 v2 a t
  | JIT_R1 => mkMach r0 v r2 v0 v1 v2 a t
  | JIT_R2 => mkMach r0 r1 v v0 v1 v2 a t
  | JIT_V0 => mkMach r0 r1 r2 v v1 v2 a t
  | JIT_V1 => mkMach r0 r1 r2 v0 v v2 a t
  | JIT_V2 => mkMach r0 r1 r2 v0 v1 v a t
  end.

(** [jit_prolog], [jit_getarg] and [jit_movr]: the state a block starts in. *)
Definition mach_entry : jit_mach := mkMach LEmu LJunk LJunk LEmu LJunk LJunk [] LJunk.

Definition word_op (f : Z → Z → Z) (a b : jit_val) : jit_val :=
  match a, b with LInt x, LInt y => LInt (f x y) | _, _ => LJunk end.

(** Is the branch taken?  [None] when that depends on a pointer or on junk. *)
Definition cond_holds (c : jit_cond) (m : jit_mach) : option bool :=
  let test (r : jit_reg) (f : Z → bool) :=
    match reg_get r m with LInt x => Some (f x) | _ => None end in
  match c with
  | jit_beqi r imm => test r (λ x, u64 x =? u64 imm)
  | jit_bnei r imm => test r (λ x, negb (u64 x =? u64 imm))
  | jit_bmci r imm => test r (λ x, u64 (x &&& imm) =? 0)
  | jit_bmsi r imm => test r (λ x, negb (u64 (x &&& imm) =? 0))
  | jit_blei r imm => test r (λ x, s64 x <=? s64 imm)
  | jit_bltr_u r s =>
      match reg_get r m, reg_get s m with
      | LInt x, LInt y => Some (u64 x <? u64 y)
      | _, _ => None
      end
  | jit_jmpi => Some true
  end.

Inductive jit_exit :=
  (** falls through into the code of the next instruction *)
  | Fall
  (** goes to [jit_ret] *)
  | Leave
  (** goes to the label of an instruction *)
  | Goto (t : nat).

Section Native.
Context (B H : Type).
#[local] Hint Extern 0 Sys => exact (jit_sys B H) : typeclass_instances.
Context {SB : SysBus} {HO : HostOps}.
#[local] Existing Instance lightning_jit.

(** ** The memory of the emulator *)

Definition load_uc (f : emu_field) (e : rk65c02emu) : option Z :=
  match f with
  | OFFSET_E_A => Some (A (regs e))
  | OFFSET_E_X => Some (X (regs e))
  | OFFSET_E_Y => Some (Y (regs e))
  | OFFSET_E_SP => Some (SP (regs e))
  | OFFSET_E_P => Some (P (regs e))
  | OFFSET_E_USE_JIT => Some (Z.b2z (use_jit e))
  | OFFSET_E_IRQ => Some (Z.b2z (irq e))
  | OFFSET_E_STOP_REQUESTED => Some (Z.b2z (stop_requested e))
  | _ => None
  end.
Definition load_us (f : emu_field) (e : rk65c02emu) : option Z :=
  match f with OFFSET_E_PC => Some (PC (regs e)) | _ => None end.
(** [jit_ldxi_i] extends the sign. *)
Definition load_i (f : emu_field) (e : rk65c02emu) : option Z :=
  match f with
  | OFFSET_E_STATE => Some (emu_state_value (state e))
  | OFFSET_E_LOOP_BUDGET => Some (s32 (jit_loop_budget e))
  | _ => None
  end.
Definition store_c (f : emu_field) (v : Z) : option (M unit) :=
  match f with
  | OFFSET_E_A => Some (put_A (u8 v))
  | OFFSET_E_X => Some (put_X (u8 v))
  | OFFSET_E_Y => Some (put_Y (u8 v))
  | OFFSET_E_SP => Some (put_SP (u8 v))
  | OFFSET_E_P => Some (put_P (u8 v))
  | _ => None
  end.
Definition store_s (f : emu_field) (v : Z) : option (M unit) :=
  match f with OFFSET_E_PC => Some (put_PC (u16 v)) | _ => None end.
Definition store_i (f : emu_field) (v : Z) : option (M unit) :=
  match f with
  | OFFSET_E_LOOP_BUDGET => Some (modify (set_jit_loop_budget (u32 v)))
  | _ => None
  end.

Definition put_insns_executed (v : Z) (j : rk65c02_jit) : rk65c02_jit :=
  let st := stats j in
  put_stats (mkStats (st_write_events st) (st_blocks_invalidated st) (st_blocks_compiled st)
    (st_blocks_executed st) (st_pages_demoted st) (st_run_jit_disables st) (u64 v)) j.

(** ** Calls

    Arguments are converted to the types of the parameters.  [upper] is what
    the bits above a returned byte hold. *)

Context (upper : rk65c02emu → Z).

Definition call (f : jit_callee) (args : list jit_val) : M jit_val :=
  match f, args with
  | call_mem_read_1, [LEmu; LInt addr] =>
      v ← jit_mem_read_1 B H (u16 addr); g ← gets upper; mret (LInt (v + 256 * g))
  | call_bus_write_1, [LEmu; LInt addr; LInt val] =>
      jit_bus_write_1 B H (u16 addr) (u8 val);; mret LJunk
  | call_do_adc_bcd, [LEmu; LInt operand] => rk65c02_do_adc_bcd (u8 operand);; mret LJunk
  | call_do_sbc_bcd, [LEmu; LInt operand] => rk65c02_do_sbc_bcd (u8 operand);; mret LJunk
  | call_exec_fallback, [LEmu; LInt opcode] => jit_exec_fallback B H (u8 opcode);; mret LJunk
  | _, _ => assert_fail
  end.

(** ** Nodes *)

(** A load or store relative to [e]. *)
Definition load_node (d s : jit_reg) (ld : rk65c02emu → option Z) (m : jit_mach) : M jit_mach :=
  match reg_get s m with
  | LEmu =>
      v ← gets ld;
      match v with Some z => mret (reg_set d (LInt z) m) | None => assert_fail end
  | _ => assert_fail
  end.
Definition store_node (d s : jit_reg) (st : Z → option (M unit)) (m : jit_mach) : M jit_mach :=
  match reg_get d m, reg_get s m with
  | LEmu, LInt z => match st z with Some w => w;; mret m | None => assert_fail end
  | _, _ => assert_fail
  end.

Definition alu (d s : jit_reg) (f : Z → Z → Z) (y : jit_val) (m : jit_mach) : M jit_mach :=
  mret (reg_set d (word_op f (reg_get s m) y) m).

(** A node that is not a jump.  A call destroys the [JIT_R] registers. *)
Definition node_step (n : jit_node) (m : jit_mach) : M jit_mach :=
  match n with
  | jit_movr d s => mret (reg_set d (reg_get s m) m)
  | jit_movi d imm => mret (reg_set d (LInt imm) m)
  | jit_movi_insns_executed d => mret (reg_set d LStat m)
  | jit_ldr d s =>
      match reg_get s m with
      | LStat =>
          j ← gets (λ e, jit e);
          match j with
          | Some j => mret (reg_set d (LInt (st_insns_executed (stats j))) m)
          | None => assert_fail
          end
      | _ => assert_fail
      end
  | jit_str d s =>
      match reg_get d m, reg_get s m with
      | LStat, LInt z => mod_jit B H (put_insns_executed z);; mret m
      | _, _ => assert_fail
      end
  | jit_ldxi_uc d s off => load_node d s (load_uc off) m
  | jit_ldxi_us d s off => load_node d s (load_us off) m
  | jit_ldxi_i d s off => load_node d s (load_i off) m
  | jit_stxi_c off d s => store_node d s (store_c off) m
  | jit_stxi_s off d s => store_node d s (store_s off) m
  | jit_stxi_i off d s => store_node d s (store_i off) m
  | jit_addi d s imm => alu d s Z.add (LInt imm) m
  | jit_addr d s t => alu d s Z.add (reg_get t m) m
  | jit_subi d s imm => alu d s Z.sub (LInt imm) m
  | jit_subr d s t => alu d s Z.sub (reg_get t m) m
  | jit_andi d s imm => alu d s Z.land (LInt imm) m
  | jit_andr d s t => alu d s Z.land (reg_get t m) m
  | jit_ori d s imm => alu d s Z.lor (LInt imm) m
  | jit_orr d s t => alu d s Z.lor (reg_get t m) m
  | jit_xori d s imm => alu d s Z.lxor (LInt imm) m
  | jit_xorr d s t => alu d s Z.lxor (reg_get t m) m
  | jit_lshi d s imm => alu d s Z.shiftl (LInt imm) m
  | jit_rshi_u d s imm => alu d s (λ x n, u64 x ≫ n) (LInt imm) m
  | jit_eqi d s imm => alu d s (λ x y, Z.b2z (u64 x =? u64 y)) (LInt imm) m
  | jit_prepare => mret (mkMach (m_r0 m) (m_r1 m) (m_r2 m) (m_v0 m) (m_v1 m) (m_v2 m) [] LJunk)
  | jit_pushargr r =>
      mret (mkMach (m_r0 m) (m_r1 m) (m_r2 m) (m_v0 m) (m_v1 m) (m_v2 m)
        (m_args m ++ [reg_get r m]) (m_ret m))
  | jit_pushargi imm =>
      mret (mkMach (m_r0 m) (m_r1 m) (m_r2 m) (m_v0 m) (m_v1 m) (m_v2 m)
        (m_args m ++ [LInt imm]) (m_ret m))
  | jit_finishi f =>
      v ← call f (m_args m);
      mret (mkMach LJunk LJunk LJunk (m_v0 m) (m_v1 m) (m_v2 m) [] v)
  | jit_retval r =>
      mret (reg_set r (m_ret m) (mkMach (m_r0 m) (m_r1 m) (m_r2 m) (m_v0 m) (m_v1 m) (m_v2 m) [] LJunk))
  | jit_branch _ _ | jit_bail _ | jit_ijmp _ => assert_fail
  end.

(** The code of one instruction; [skip] nodes are jumped over first. *)
Fixpoint code_run (skip : nat) (c : list jit_node) (m : jit_mach) : M (jit_exit * jit_mach) :=
  match c with
  | [] => match skip with O => mret (Fall, m) | S _ => assert_fail end
  | n :: c' =>
      match skip with
      | S s => code_run s c' m
      | O =>
          match n with
          | jit_branch cd d =>
              match cond_holds cd m with
              | Some b => if b then code_run d c' m else code_run 0 c' m
              | None => assert_fail
              end
          | jit_bail cd =>
              match cond_holds cd m with
              | Some b => if b then mret (Leave, m) else code_run 0 c' m
              | None => assert_fail
              end
          | jit_ijmp t => mret (Goto t, m)
          | _ => m' ← node_step n m; code_run 0 c' m'
          end
      end
  end.

(** A block from instruction [k] on; one unit of fuel per instruction.  The
    result says whether the block returned before the fuel was used up. *)
Fixpoint block_loop (fuel : nat) (code : list (list jit_node)) (k : nat) (m : jit_mach) : M bool :=
  match fuel with
  | O => mret false
  | S fuel' =>
      match code !! k with
      | None => mret true
      | Some c =>
          r ← code_run 0 c m;
          match r with
          | (Fall, m') => block_loop fuel' code (S k) m'
          | (Leave, _) => mret true
          | (Goto t, m') => block_loop fuel' code t m'
          end
      end
  end.

Definition block_run (fuel : nat) (code : list (list jit_node)) : M bool :=
  block_loop fuel code 0 mach_entry.

(** ** Equations of the evaluator *)

Lemma run_step n c m m' e e' :
  node_step n m e = (Ret m', e') → code_run 0 (n :: c) m e = code_run 0 c m' e'.
Proof. intros E. destruct n; try discriminate E; cbn [code_run]; by erewrite bind_Ret. Qed.

Lemma run_jumped l c m e : code_run (length l) (l ++ c) m e = code_run 0 c m e.
Proof. induction l; [done|assumption]. Qed.

Lemma run_skip cd b body c m e : cond_holds cd m = Some b →
  code_run 0 (jit_skip cd body ++ c) m e = if b then code_run 0 c m e else code_run 0 (body ++ c) m e.
Proof.
  intros E. unfold jit_skip. cbn [app code_run]. rewrite E. destruct b; [|done].
  apply run_jumped.
Qed.

Lemma run_either cd b l1 l2 c m e : cond_holds cd m = Some b →
  code_run 0 (jit_either cd l1 l2 ++ c) m e =
  if b then code_run 0 (l2 ++ c) m e
  else code_run 0 (l1 ++ jit_branch jit_jmpi (length l2) :: l2 ++ c) m e.
Proof.
  intros E. unfold jit_either. cbn [app code_run]. rewrite E, <- app_assoc. destruct b; [|done].
  replace (S (length l1)) with (length (l1 ++ [jit_branch jit_jmpi (length l2)]))
    by (rewrite length_app; simpl; lia).
  change (l1 ++ (jit_branch jit_jmpi (length l2) :: l2) ++ c)
    with (l1 ++ [jit_branch jit_jmpi (length l2)] ++ (l2 ++ c)).
  rewrite app_assoc. exact (run_jumped (l1 ++ [_]) (l2 ++ c) m e).
Qed.

Lemma run_jmp l c m e : code_run 0 (jit_branch jit_jmpi (length l) :: l ++ c) m e = code_run 0 c m e.
Proof. exact (run_jumped l c m e). Qed.

Lemma run_nil m e : code_run 0 [] m e = (Ret (Fall, m), e).
Proof. reflexivity. Qed.

Lemma run_bail_if cd b c m e : cond_holds cd m = Some b →
  code_run 0 (jit_bail cd :: c) m e = if b then (Ret (Leave, m), e) else code_run 0 c m e.
Proof. intros E. cbn [code_run]. rewrite E. by destruct b. Qed.

Lemma run_ijmp tgt c m e : code_run 0 (jit_ijmp tgt :: c) m e = (Ret (Goto tgt, m), e).
Proof. reflexivity. Qed.

End Native.

Arguments run_step {B H SB HO upper}.
Arguments run_jumped {B H SB HO upper}.
Arguments run_skip {B H SB HO upper}.
Arguments run_either {B H SB HO upper}.
Arguments run_jmp {B H SB HO upper}.
Arguments run_nil {B H SB HO upper}.
Arguments run_bail_if {B H SB HO upper}.
Arguments run_ijmp {B H SB HO upper}.

(** Instructions a block can execute before it returns: it is at most
    [JIT_BLOCK_MAX_INSNS] long and goes back at most [JIT_LOOP_BUDGET] times. *)
Definition JIT_NATIVE_BOUND : nat := (JIT_BLOCK_MAX_INSNS + 1) * S (Z.to_nat JIT_LOOP_BUDGET).

(** What generated machine code does: if the evaluation of its nodes ends within
    the bound, the code does the same. *)
Class LightningLaws (B H : Type) {SB : @SysBus (jit_sys B H)} {HO : @HostOps (jit_sys B H)}
    {LI : @Lightning (jit_sys B H)} : Prop := {
  native_runs : ∀ code, ∃ upper, ∀ e,
    (block_run B H upper JIT_NATIVE_BOUND code e).1 ≠ Ret false →
    native_exec code e = (_ ← block_run B H upper JIT_NATIVE_BOUND code; mret tt) e
}.
