(* ===== verification/JitSpec.v ===== *)
(** The block cache's bookkeeping is exact.

    [cache_ok]: every reference count is the number of live blocks it stands
    for, the number of active blocks is the number of live blocks, and every
    live block lies inside its page.  All operations on the cache keep it, so
    that the fast tests of [rk65c02_jit_note_guest_write] miss no store into
    compiled code. *)
From stdpp Require Import base numbers list gmap strings.
From S2P Require Import Prelude Types Isa JitCache.

Lemma elem_of_zseq m n x : x ∈ zseq m n ↔ m ≤ x < m + Z.of_nat n.
Proof.
  revert m. induction n as [|n IH]; intros m; cbn [zseq]; [rewrite elem_of_nil; lia|].
  rewrite elem_of_cons, IH. lia.
Qed.
Lemma elem_of_slots x : x ∈ slots ↔ word x.
Proof. unfold slots. rewrite elem_of_zseq, Z2Nat.id; unfold JIT_CACHE_SIZE; lia. Qed.
#[local] Opaque slots.

(** ** Counting blocks *)

Definition selected (f : rk65c02_jit_block → bool) (ib : Z * rk65c02_jit_block) : Prop :=
  live ib.2 = true ∧ f ib.2 = true.
#[export] Instance selected_dec f ib : Decision (selected f ib).
Proof. unfold selected. apply _. Defined.

(** How many live blocks satisfy [f]. *)
Definition count (f : rk65c02_jit_block → bool) (m : gmap Z rk65c02_jit_block) : Z :=
  Z.of_nat (size (filter (selected f) m)).

Lemma count_nonneg f m : 0 ≤ count f m.
Proof. unfold count. lia. Qed.

Lemma count_le f g m : (∀ b, f b = true → g b = true) → count f m ≤ count g m.
Proof.
  intros H. unfold count. apply inj_le. apply map_subseteq_size.
  apply map_filter_subseteq_ext. intros i b _ [Hl Hf]. split; auto.
Qed.

Lemma count_zero f m : count f m = 0 ↔ ∀ i b, m !! i = Some b → live b = true → f b = false.
Proof.
  unfold count. split.
  - intros Hz i b Hb Hl. destruct (f b) eqn:Hf; [|done].
    assert (filter (selected f) m = ∅) as He by (apply map_size_empty_inv; lia).
    assert (filter (selected f) m !! i = Some b) as Hi
      by (apply map_lookup_filter_Some; done).
    by rewrite He, lookup_empty in Hi.
  - intros H. replace (filter (selected f) m) with (∅ : gmap Z rk65c02_jit_block); [done|].
    symmetry. apply map_empty. intros i. apply map_lookup_filter_None. right.
    intros b Hb [Hl Hf]. simpl in *. rewrite (H i b Hb Hl) in Hf. done.
Qed.

Definition b2z (b : bool) : Z := if b then 1 else 0.

Lemma count_kill f m i b : m !! i = Some b → live b = true →
  count f (<[i := put_fn_none b]> m) = count f m - b2z (f b).
Proof.
  intros Hb Hl. unfold count. rewrite map_filter_insert_False by (by intros []).
  destruct (f b) eqn:Hf; simpl.
  - assert (filter (selected f) m !! i = Some b) as Hi by (by apply map_lookup_filter_Some).
    rewrite map_filter_delete, map_size_delete_Some by (by exists b).
    assert (size (filter (selected f) m) ≠ 0%nat); [|lia].
    intros Hz. apply map_size_empty_inv in Hz. by rewrite Hz, lookup_empty in Hi.
  - rewrite map_filter_delete_not; [lia|]. intros b' Hb'. simplify_eq. intros [_ ?]. simpl in *. congruence.
Qed.

Lemma count_install f m i b : (∀ b0, m !! i = Some b0 → live b0 = false) → live b = true →
  count f (<[i := b]> m) = count f m + b2z (f b).
Proof.
  intros Hd Hl. unfold count.
  assert (filter (selected f) m !! i = None) as Hn.
  { apply map_lookup_filter_None. right. intros b0 Hb0 [Hl0 _]. simpl in *. rewrite (Hd b0 Hb0) in Hl0. done. }
  destruct (f b) eqn:Hf; simpl.
  - rewrite map_filter_insert_True by done. rewrite map_size_insert_None by done. lia.
  - rewrite map_filter_insert_False by (intros [_ ?]; simpl in *; congruence).
    rewrite map_filter_delete_not; [lia|]. intros b' Hb' [Hl' _]. simpl in *.
    rewrite (Hd b' Hb') in Hl'. done.
Qed.

Lemma count_dead f m i b : (∀ b0, m !! i = Some b0 → live b0 = false) → live b = false →
  count f (<[i := b]> m) = count f m.
Proof.
  intros Hd Hl. unfold count. rewrite map_filter_insert_False by (intros [? _]; simpl in *; congruence).
  rewrite map_filter_delete_not; [done|]. intros b' Hb' [Hl' _]. simpl in *.
  rewrite (Hd b' Hb') in Hl'. done.
Qed.

(** ** Arrays of counters *)

Lemma arr_bump_get d a i k :
  arr_get (arr_bump d a i) k = if decide (k = i) then refcnt_bump d (arr_get a i) else arr_get a k.
Proof.
  unfold arr_bump, arr_get. case_decide as H.
  - subst. by rewrite lookup_insert_eq.
  - by rewrite lookup_insert_ne.
Qed.

Lemma foldl_bump d l a k : NoDup l →
  arr_get (foldl (arr_bump d) a l) k =
    if bool_decide (k ∈ l) then refcnt_bump d (arr_get a k) else arr_get a k.
Proof.
  intros Hnd. revert a. induction Hnd as [|x l Hx Hnd IH]; intros a; simpl; [done|].
  rewrite IH, arr_bump_get.
  destruct (decide (k = x)) as [->|Hne].
  - rewrite (bool_decide_false (x ∈ l)), bool_decide_true by (done || left). done.
  - destruct (bool_decide_reflect (k ∈ l)) as [Hk|Hk].
    + by rewrite bool_decide_true by by right.
    + rewrite bool_decide_false; [done|]. by intros [->|?]%elem_of_cons.
Qed.

(** [a] counts, for every index, the live blocks that [F] relates to it. *)
Definition tracks (a : array) (F : Z → rk65c02_jit_block → bool) (m : gmap Z rk65c02_jit_block) : Prop :=
  ∀ k, arr_get a k = count (F k) m.

Definition small (m : gmap Z rk65c02_jit_block) : Prop := count (λ _, true) m ≤ JIT_MAX_ACTIVE_BLOCKS.

Lemma count_small f m : small m → 0 ≤ count f m ≤ 1024.
Proof.
  intros Hs. split; [apply count_nonneg|]. etransitivity; [|exact Hs]. by apply count_le.
Qed.

Lemma bump_down x : 0 < x ≤ 1024 → refcnt_bump (-1) x = x - 1.
Proof.
  intros. unfold refcnt_bump. rewrite (proj2 (Z.ltb_ge _ _)) by lia. rewrite u16_small by lia. lia.
Qed.
Lemma bump_up x : 0 ≤ x ≤ 1024 → refcnt_bump 1 x = x + 1.
Proof. intros. unfold refcnt_bump. rewrite (proj2 (Z.ltb_ge _ _)) by lia. rewrite u16_small by lia. lia. Qed.

Lemma count_pos f m i b : m !! i = Some b → live b = true → f b = true → 0 < count f m.
Proof.
  intros Hb Hl Hf. pose proof (count_nonneg f m). destruct (decide (count f m = 0)) as [Hz|]; [|lia].
  rewrite (proj1 (count_zero f m) Hz i b Hb Hl) in Hf. done.
Qed.

Lemma tracks_kill a a' F m i b : tracks a F m → small m → m !! i = Some b → live b = true →
  (∀ k, arr_get a' k = if F k b then refcnt_bump (-1) (arr_get a k) else arr_get a k) →
  tracks a' F (<[i := put_fn_none b]> m).
Proof.
  intros Ht Hs Hb Hl Ha k. rewrite Ha, (count_kill _ _ _ _ Hb Hl). specialize (Ht k).
  destruct (F k b) eqn:Hf; simpl; [|lia]. rewrite Ht.
  pose proof (count_pos (F k) m i b Hb Hl Hf). pose proof (count_small (F k) m Hs).
  by rewrite bump_down by lia.
Qed.

Lemma tracks_install a a' F m i b : tracks a F m → small m →
  (∀ b0, m !! i = Some b0 → live b0 = false) → live b = true →
  (∀ k, arr_get a' k = if F k b then refcnt_bump 1 (arr_get a k) else arr_get a k) →
  tracks a' F (<[i := b]> m).
Proof.
  intros Ht Hs Hd Hl Ha k. rewrite Ha, (count_install _ _ _ _ Hd Hl). specialize (Ht k).
  pose proof (count_small (F k) m Hs). destruct (F k b); simpl; [|lia]. rewrite Ht. by rewrite bump_up by lia.
Qed.

(** ** What a block covers *)

Lemma NoDup_block_addrs b : NoDup (block_addrs b).
Proof.
  unfold block_addrs. case_match; [apply NoDup_seqZ|].
  apply NoDup_fmap_2_strong; [|apply NoDup_seqZ]. intros x y Hx%elem_of_seqZ Hy%elem_of_seqZ E.
  pose proof (u16_word (end_pc_exclusive b - start_pc b)). unfold u16 in E.
  pose proof (Z.div_mod (start_pc b + x) 65536). pose proof (Z.div_mod (start_pc b + y) 65536).
  assert ((start_pc b + x) / 65536 - (start_pc b + y) / 65536 = 0 ∨
          (start_pc b + x) / 65536 - (start_pc b + y) / 65536 ≠ 0) as [?|?] by lia; nia.
Qed.

Lemma NoDup_block_phys_addrs b : NoDup (block_phys_addrs b).
Proof. apply NoDup_fmap_2; [|apply NoDup_seqZ]. intros x y E. lia. Qed.

Definition page_list (b : rk65c02_jit_block) : list Z :=
  filter (λ p, p ∈ block_pages b) (seqZ 0 256).

Definition F_addr (k : Z) (b : rk65c02_jit_block) : bool := bool_decide (k ∈ block_addrs b).
Definition F_page (k : Z) (b : rk65c02_jit_block) : bool := bool_decide (k ∈ page_list b).
Definition F_paddr (k : Z) (b : rk65c02_jit_block) : bool :=
  mmu_phys_page_valid b && mmu_phys_byte_cov b && bool_decide (k ∈ block_phys_addrs b).
Definition F_ppage (k : Z) (b : rk65c02_jit_block) : bool :=
  mmu_phys_page_valid b && negb (mmu_phys_byte_cov b) && bool_decide (k = mmu_phys_page b).
Definition F_code (k : Z) (b : rk65c02_jit_block) : bool := bool_decide (k = u8 (start_pc b ≫ 8)).

(** The block's range as [jit_block_contains_addr] sees it is the set of
    addresses that are counted. *)
Lemma contains_addr_iff b a : word (start_pc b) → word (end_pc_exclusive b) → word a →
  jit_block_contains_addr b a = F_addr a b.
Proof.
  intros Hs He Ha. unfold jit_block_contains_addr, F_addr, block_addrs.
  destruct (Z.eqb_spec (start_pc b) (end_pc_exclusive b)) as [E|Hne].
  { rewrite (proj2 (Z.ltb_ge _ _)) by lia. replace (start_pc b >? end_pc_exclusive b) with false by lia.
    symmetry. apply bool_decide_true, elem_of_seqZ. lia. }
  assert (u16 (end_pc_exclusive b - start_pc b) =
    if start_pc b <? end_pc_exclusive b then end_pc_exclusive b - start_pc b
    else end_pc_exclusive b - start_pc b + 65536) as El.
  { unfold u16. destruct (Z.ltb_spec (start_pc b) (end_pc_exclusive b)); [apply Z.mod_small; lia|].
    rewrite <- (Z_mod_plus_full _ 1). apply Z.mod_small. lia. }
  symmetry. destruct (Z.ltb_spec (start_pc b) (end_pc_exclusive b)); rewrite El.
  - destruct ((a >=? start_pc b) && (a <? end_pc_exclusive b)) eqn:Hin.
    + apply bool_decide_true, list_elem_of_fmap. exists (a - start_pc b).
      split; [rewrite u16_small; lia|]. apply elem_of_seqZ. lia.
    + apply bool_decide_false. intros (k&->&Hk%elem_of_seqZ)%list_elem_of_fmap.
      rewrite u16_small in Hin by lia. lia.
  - replace (start_pc b >? end_pc_exclusive b) with true by lia.
    destruct ((a >=? start_pc b) || (a <? end_pc_exclusive b)) eqn:Hin.
    + apply bool_decide_true, list_elem_of_fmap. exists (u16 (a - start_pc b)).
      pose proof (u16_word (a - start_pc b)). unfold u16 in *. rewrite Zplus_mod_idemp_r.
      split; [rewrite Z.mod_small by lia; lia|]. apply elem_of_seqZ. split; [lia|].
      destruct (Z.le_gt_cases (start_pc b) a); [rewrite Z.mod_small; lia|].
      rewrite <- (Z_mod_plus_full _ 1), Z.mod_small; lia.
    + apply bool_decide_false. intros (k&->&Hk%elem_of_seqZ)%list_elem_of_fmap.
      unfold u16 in Hin. destruct (Z.lt_ge_cases (start_pc b + k) 65536).
      * rewrite Z.mod_small in Hin by lia. lia.
      * rewrite <- (Z_mod_plus_full _ (-1)), Z.mod_small in Hin by lia. lia.
Qed.

Lemma addr_page b a : word (start_pc b) → F_addr a b = true → F_page (a ≫ 8) b = true.
Proof.
  intros Hs Ha. apply bool_decide_eq_true in Ha. apply bool_decide_true.
  assert (word a) as Hw.
  { unfold block_addrs in Ha. case_match; [by apply elem_of_seqZ in Ha|].
    apply list_elem_of_fmap in Ha as (k&->&_). apply u16_word. }
  pose proof (shiftr8_byte a Hw). apply list_elem_of_filter. split; [|apply elem_of_seqZ; lia].
  unfold block_pages. case_match eqn:E; apply elem_of_list_to_set.
  - apply elem_of_seqZ. lia.
  - apply list_elem_of_fmap. by exists a.
Qed.

(** ** The effect of an update of the reference counts *)

Record refs_updated (d : Z) (b : rk65c02_jit_block) (j j' : rk65c02_jit) : Prop := {
  ru_addr : ∀ k, arr_get (covered_addr_refcnt j') k = if F_addr k b
    then refcnt_bump d (arr_get (covered_addr_refcnt j) k) else arr_get (covered_addr_refcnt j) k;
  ru_page : ∀ k, arr_get (compiled_page_refcnt j') k = if F_page k b
    then refcnt_bump d (arr_get (compiled_page_refcnt j) k) else arr_get (compiled_page_refcnt j) k;
  ru_paddr : ∀ k, arr_get (covered_phys_addr_refcnt j') k = if F_paddr k b
    then refcnt_bump d (arr_get (covered_phys_addr_refcnt j) k)
    else arr_get (covered_phys_addr_refcnt j) k;
  ru_ppage : ∀ k, arr_get (compiled_phys_page_refcnt j') k = if F_ppage k b
    then refcnt_bump d (arr_get (compiled_phys_page_refcnt j) k)
    else arr_get (compiled_phys_page_refcnt j) k;
  ru_code : ∀ k, arr_get (compiled_code_page_refcnt j') k = if F_code k b
    then refcnt_bump d (arr_get (compiled_code_page_refcnt j) k)
    else arr_get (compiled_code_page_refcnt j) k
}.

Lemma bump_one d a i k (f : bool) : f = bool_decide (k = i) →
  arr_get (arr_bump d a i) k = if f then refcnt_bump d (arr_get a k) else arr_get a k.
Proof. intros ->. rewrite arr_bump_get. case_decide as H; [subst|]; by case_bool_decide. Qed.

Lemma refs_update_counts j b (add : bool) :
  refs_updated (if add then 1 else -1) b j (jit_block_page_refs_update j b add).
Proof.
  split; intros k; unfold jit_block_page_refs_update.
  - transitivity (arr_get (foldl (arr_bump (if add then 1 else -1)) (covered_addr_refcnt j)
      (block_addrs b)) k); [repeat case_match; reflexivity|]. by apply foldl_bump, NoDup_block_addrs.
  - transitivity (arr_get (foldl (arr_bump (if add then 1 else -1)) (compiled_page_refcnt j)
      (page_list b)) k); [repeat case_match; reflexivity|]. apply foldl_bump, NoDup_filter, NoDup_seqZ.
  - unfold F_paddr. destruct (mmu_phys_page_valid b), (mmu_phys_byte_cov b); simpl;
      try (repeat case_match; reflexivity).
    transitivity (arr_get (foldl (arr_bump (if add then 1 else -1)) (covered_phys_addr_refcnt j)
      (block_phys_addrs b)) k); [repeat case_match; reflexivity|].
    apply foldl_bump, NoDup_block_phys_addrs.
  - unfold F_ppage. destruct (mmu_phys_page_valid b), (mmu_phys_byte_cov b); simpl;
      try (repeat case_match; reflexivity).
    transitivity (arr_get (arr_bump (if add then 1 else -1) (compiled_phys_page_refcnt j)
      (mmu_phys_page b)) k); [repeat case_match; reflexivity|]. by apply bump_one.
  - transitivity (arr_get (arr_bump (if add then 1 else -1) (compiled_code_page_refcnt j)
      (u8 (start_pc b ≫ 8))) k); [repeat case_match; reflexivity|]. by apply bump_one.
Qed.

(** The number of tagged blocks. *)
Lemma refs_update_total j b (add : bool) :
  compiled_phys_refs_total (jit_block_page_refs_update j b add) =
    if mmu_phys_page_valid b then
      if add then u32 (compiled_phys_refs_total j + 1)
      else if compiled_phys_refs_total j >? 0 then compiled_phys_refs_total j - 1
      else compiled_phys_refs_total j
    else compiled_phys_refs_total j.
Proof.
  unfold jit_block_page_refs_update.
  destruct (mmu_phys_page_valid b), (mmu_phys_byte_cov b), add; simpl; try done; by case_match.
Qed.

(** Everything but the reference counts and the blocks. *)
Record same_rest (j j' : rk65c02_jit) : Prop := {
  sr_magic : magic j' = magic j;
  sr_needs_flush : needs_flush j' = needs_flush j;
  sr_pending : pending_write j' = pending_write j;
  sr_overflow : pending_write_overflow j' = pending_write_overflow j;
  sr_events : invalidation_events_this_run j' = invalidation_events_this_run j;
  sr_page_events : page_invalidation_events j' = page_invalidation_events j;
  sr_mutable : mutable_code_page j' = mutable_code_page j
}.
#[export] Instance same_rest_preorder : PreOrder same_rest.
Proof. split; [by intros j|]. intros ? ? ? [] []. split; congruence. Qed.

Lemma refs_update_rest j b add (j' := jit_block_page_refs_update j b add) :
  same_rest j j' ∧ blocks j' = blocks j ∧ active_blocks j' = active_blocks j ∧ stats j' = stats j.
Proof.
  unfold j', jit_block_page_refs_update.
  destruct (mmu_phys_page_valid b), (mmu_phys_byte_cov b), add; simpl; try done;
    case_match; done.
Qed.

(** ** The invariant *)

(** A live block lies inside one page, and so does the physical range of a
    block that is tracked byte by byte. *)
(** A decoded instruction of a block. *)
Definition decoded (bi : jit_block_insn) : Prop :=
  bi_id bi = instruction_decode (i_opcode (bi_i bi)) ∧ instruction_ok (bi_i bi).

Record block_ok (b : rk65c02_jit_block) (len := u16 (end_pc_exclusive b - start_pc b)) : Prop := {
  bo_end : word (end_pc_exclusive b);
  bo_len : 0 < len ∧ start_pc b mod 256 + len ≤ 256;
  bo_phys : mmu_phys_page_valid b = true → mmu_phys_byte_cov b = true →
    word (mmu_phys_start b) ∧ mmu_phys_start b mod 256 = start_pc b mod 256;
  bo_code : ∀ insns, fn b = Some insns →
    (length insns ≤ JIT_BLOCK_MAX_INSNS)%nat ∧ Forall decoded insns
}.

Record cache_ok (j : rk65c02_jit) : Prop := {
  co_magic : magic j = JIT_MAGIC;
  co_slot : ∀ i b, blocks j !! i = Some b → start_pc b = i ∧ word i;
  co_block : ∀ i b, blocks j !! i = Some b → live b = true → block_ok b;
  co_active : active_blocks j = count (λ _, true) (blocks j);
  co_small : small (blocks j);
  co_total : compiled_phys_refs_total j = count mmu_phys_page_valid (blocks j);
  co_addr : tracks (covered_addr_refcnt j) F_addr (blocks j);
  co_page : tracks (compiled_page_refcnt j) F_page (blocks j);
  co_paddr : tracks (covered_phys_addr_refcnt j) F_paddr (blocks j);
  co_ppage : tracks (compiled_phys_page_refcnt j) F_ppage (blocks j);
  co_code : tracks (compiled_code_page_refcnt j) F_code (blocks j)
}.

(** The block without its code, if [sel] selects it. *)
Definition kill_if (sel : rk65c02_jit_block → bool) (b : rk65c02_jit_block) : rk65c02_jit_block :=
  if live b && sel b then put_fn_none b else b.

Lemma kill_if_idem sel b : kill_if sel (kill_if sel b) = kill_if sel b.
Proof. unfold kill_if. destruct (live b && sel b) eqn:E; simpl; by rewrite ?E. Qed.

Lemma invalidate_block_ok j i b : cache_ok j → blocks j !! i = Some b → live b = true →
  cache_ok (invalidate_block j i b) ∧ same_rest j (invalidate_block j i b) ∧
  blocks (invalidate_block j i b) = <[i := put_fn_none b]> (blocks j).
Proof.
  intros [Hm Hs Hb Ha Hc Ht H1 H2 H3 H4 H5] Hi Hl. unfold invalidate_block.
  set (j1 := jit_block_page_refs_update j b false).
  destruct (refs_update_rest j b false) as (Hr&Hbl&Hac&Hst). fold j1 in Hr, Hbl, Hac, Hst.
  pose proof (refs_update_counts j b false) as [U1 U2 U3 U4 U5]. fold j1 in U1, U2, U3, U4, U5.
  pose proof (refs_update_total j b false) as Hto. fold j1 in Hto. cbv iota in Hto.
  pose proof (count_pos (λ _, true) _ _ _ Hi Hl eq_refl) as Hp.
  cbn [put_blocks active_blocks blocks]. rewrite Hac, Ha, Hbl.
  replace (count (λ _, true) (blocks j) >? 0) with true by lia.
  split; [|split; [destruct Hr; by split|done]].
  split; cbn [magic blocks active_blocks compiled_phys_refs_total covered_addr_refcnt
    compiled_page_refcnt covered_phys_addr_refcnt compiled_phys_page_refcnt
    compiled_code_page_refcnt put_stats put_active_blocks put_blocks].
  - by destruct Hr as [-> _ _ _ _ _ _].
  - intros k bk Hk. destruct (decide (k = i)) as [->|].
    + rewrite lookup_insert_eq in Hk. simplify_eq. by apply (Hs i b).
    + rewrite lookup_insert_ne in Hk by done. by apply Hs.
  - intros k bk Hk Hlk. destruct (decide (k = i)) as [->|].
    + rewrite lookup_insert_eq in Hk. by simplify_eq.
    + rewrite lookup_insert_ne in Hk by done. by apply (Hb k).
  - rewrite (count_kill _ _ _ _ Hi Hl). simpl. lia.
  - unfold small in *. rewrite (count_kill _ _ _ _ Hi Hl). simpl. lia.
  - rewrite Hto, Ht, (count_kill _ _ _ _ Hi Hl). destruct (mmu_phys_page_valid b) eqn:Hv; simpl; [|lia].
    pose proof (count_pos mmu_phys_page_valid _ _ _ Hi Hl Hv).
    replace (count mmu_phys_page_valid (blocks j) >? 0) with true by lia. done.
  - by eapply tracks_kill.
  - by eapply tracks_kill.
  - by eapply tracks_kill.
  - by eapply tracks_kill.
  - by eapply tracks_kill.
Qed.

Lemma invalidate_slots_ok sel l j (j' := foldl (invalidate_slot sel) j l) : cache_ok j →
  cache_ok j' ∧ same_rest j j' ∧
  ∀ i, blocks j' !! i = if decide (i ∈ l) then kill_if sel <$> blocks j !! i else blocks j !! i.
Proof.
  unfold j'. clear j'. revert j. induction l as [|x l IH]; intros j Hj.
  { cbn [foldl]. split; [done|]. split; [done|]. intros i.
    by rewrite decide_False by by intros ?%elem_of_nil. }
  assert (cache_ok (invalidate_slot sel j x) ∧ same_rest j (invalidate_slot sel j x) ∧
    ∀ i, blocks (invalidate_slot sel j x) !! i =
      if decide (i = x) then kill_if sel <$> blocks j !! i else blocks j !! i) as (Hx&Hr&Hb).
  { unfold invalidate_slot, kill_if. destruct (blocks j !! x) as [b|] eqn:Ex.
    - destruct (live b) eqn:Hl; [destruct (sel b) eqn:Hs|]; cbn [negb].
      + destruct (invalidate_block_ok j x b Hj Ex Hl) as (?&?&Eb). split; [done|]. split; [done|].
        intros i. rewrite Eb. case_decide as E; [subst; rewrite lookup_insert_eq, Ex|by rewrite lookup_insert_ne].
        simpl. by rewrite Hl, Hs.
      + split; [done|]. split; [done|]. intros i. case_decide as E; [|done]. subst. rewrite Ex. simpl.
        by rewrite Hl, Hs.
      + split; [done|]. split; [done|]. intros i. case_decide as E; [|done]. subst. rewrite Ex. simpl.
        by rewrite Hl.
    - split; [done|]. split; [done|]. intros i. case_decide as E; [|done]. subst. by rewrite Ex. }
  destruct (IH _ Hx) as (H1&H2&H3). cbn [foldl]. split; [done|]. split; [by etransitivity|].
  intros i. rewrite H3, Hb. destruct (decide (i = x)) as [->|Hne].
  - rewrite (decide_True (P := x ∈ x :: l)) by left. case_decide; [|done].
    destruct (blocks j !! x); [|done]. simpl. by rewrite kill_if_idem.
  - destruct (decide (i ∈ l)); [by rewrite decide_True by by right|].
    by rewrite decide_False by by intros [|]%elem_of_cons.
Qed.

(** The invalidation loop removes the code of exactly the selected blocks. *)
Lemma invalidate_where_ok sel j (j' := invalidate_where sel j) : cache_ok j →
  cache_ok j' ∧ same_rest j j' ∧ blocks j' = kill_if sel <$> blocks j.
Proof.
  intros Hj. destruct (invalidate_slots_ok sel slots j Hj) as (H1&H2&H3).
  split; [done|]. split; [done|]. apply map_eq. intros i. unfold j', invalidate_where. rewrite H3, lookup_fmap.
  case_decide as Hin; [done|]. destruct (blocks j !! i) as [b|] eqn:E; [|done]. destruct Hin.
  apply elem_of_slots. by apply (co_slot j Hj) in E as [_ ?].
Qed.

Lemma cache_ok_rest j j' :
  cache_ok j → magic j' = magic j → blocks j' = blocks j → active_blocks j' = active_blocks j →
  compiled_phys_refs_total j' = compiled_phys_refs_total j →
  covered_addr_refcnt j' = covered_addr_refcnt j → compiled_page_refcnt j' = compiled_page_refcnt j →
  covered_phys_addr_refcnt j' = covered_phys_addr_refcnt j →
  compiled_phys_page_refcnt j' = compiled_phys_page_refcnt j →
  compiled_code_page_refcnt j' = compiled_code_page_refcnt j → cache_ok j'.
Proof.
  intros [Hm Hs Hb Ha Hc Ht H1 H2 H3 H4 H5] E1 E2 E3 E4 E5 E6 E7 E8 E9.
  split; rewrite ?E1, ?E2, ?E3, ?E4, ?E5, ?E6, ?E7, ?E8, ?E9; assumption.
Qed.

(** Close [cache_ok] of a cache that differs from [j] outside its counts. *)
Ltac same_cache j :=
  apply (cache_ok_rest j);
  [assumption|reflexivity|reflexivity|reflexivity|reflexivity|reflexivity|reflexivity|reflexivity
  |reflexivity|reflexivity].

(** *** Flushing *)

Lemma flush_slots l j i :
  blocks (foldl flush_slot j l) !! i =
    (if decide (i ∈ l) then put_fn_none <$> blocks j !! i else blocks j !! i) ∧
  magic (foldl flush_slot j l) = magic j.
Proof.
  revert j. induction l as [|x l IH]; intros j.
  { cbn [foldl]. by rewrite decide_False by by intros ?%elem_of_nil. }
  assert (blocks (flush_slot j x) !! i =
    (if decide (i = x) then put_fn_none <$> blocks j !! i else blocks j !! i) ∧
    magic (flush_slot j x) = magic j) as [Hx Hm].
  { unfold flush_slot. destruct (blocks j !! x) as [b|] eqn:Ex.
    - pose proof (refs_update_rest j b false) as ([Hm _ _ _ _ _ _]&Hb&_).
      destruct (live b); cbn [blocks magic put_blocks]; [rewrite Hb|]; (split; [|done]);
        (destruct (decide (i = x)) as [->|]; [by rewrite lookup_insert_eq, Ex|by rewrite lookup_insert_ne]).
    - split; [|done]. destruct (decide (i = x)) as [->|]; [by rewrite Ex|done]. }
  destruct (IH (flush_slot j x)) as [H1 H2]. cbn [foldl]. split; [|congruence].
  rewrite H1, Hx. destruct (decide (i = x)) as [->|Hne].
  - rewrite (decide_True (P := x ∈ x :: l)) by left. case_decide; [|done]. by destruct (blocks j !! x).
  - destruct (decide (i ∈ l)); [by rewrite decide_True by by right|].
    by rewrite decide_False by by intros [|]%elem_of_cons.
Qed.

(** A cache without live blocks. *)
Lemma cache_ok_empty j :
  magic j = JIT_MAGIC → (∀ i b, blocks j !! i = Some b → start_pc b = i ∧ word i) →
  (∀ i b, blocks j !! i = Some b → live b = false) → active_blocks j = 0 →
  compiled_phys_refs_total j = 0 → covered_addr_refcnt j = ∅ → compiled_page_refcnt j = ∅ →
  covered_phys_addr_refcnt j = ∅ → compiled_phys_page_refcnt j = ∅ →
  compiled_code_page_refcnt j = ∅ → cache_ok j.
Proof.
  intros Hm Hs Hd Ha Ht H1 H2 H3 H4 H5.
  assert (∀ f, count f (blocks j) = 0) as Hz.
  { intros f. apply count_zero. intros i b Hb Hl. by rewrite (Hd i b Hb) in Hl. }
  split; try done.
  - intros i b Hb Hl. by rewrite (Hd i b Hb) in Hl.
  - by rewrite Hz.
  - unfold small. by rewrite Hz.
  - by rewrite Hz.
  - intros k. by rewrite H1, Hz.
  - intros k. by rewrite H2, Hz.
  - intros k. by rewrite H3, Hz.
  - intros k. by rewrite H4, Hz.
  - intros k. by rewrite H5, Hz.
Qed.

Lemma backend_create_ok : cache_ok jit_backend_create.
Proof. by apply cache_ok_empty. Qed.

Lemma flush_all l j : (∀ i, is_Some (blocks j !! i) → i ∈ l) →
  blocks (foldl flush_slot j l) = put_fn_none <$> blocks j ∧ magic (foldl flush_slot j l) = magic j.
Proof.
  intros Hl. split; [|exact (proj2 (flush_slots l j 0))].
  apply map_eq. intros i. rewrite lookup_fmap, (proj1 (flush_slots l j i)).
  destruct (decide (i ∈ l)) as [|Hin]; [done|].
  destruct (blocks j !! i) as [b|] eqn:Eb; [|done]. destruct Hin. apply Hl. by rewrite Eb.
Qed.

Lemma flush_counters_ok j : magic j = JIT_MAGIC →
  (∀ i b, blocks j !! i = Some b → start_pc b = i ∧ word i ∧ live b = false) →
  cache_ok (flush_counters j).
Proof. intros Hm Hs. apply cache_ok_empty; try done; intros i b Hb; by destruct (Hs i b Hb) as (?&?&?). Qed.

Lemma backend_flush_ok j : magic j = JIT_MAGIC →
  (∀ i b, blocks j !! i = Some b → start_pc b = i ∧ word i) →
  cache_ok (jit_backend_flush j) ∧ blocks (jit_backend_flush j) = put_fn_none <$> blocks j.
Proof.
  intros Hm Hs. destruct (flush_all slots j) as [Eb Em].
  { intros i [b Hb]. apply elem_of_slots. by apply Hs in Hb as [_ ?]. }
  unfold jit_backend_flush. generalize dependent (foldl flush_slot j slots).
  intros jf Eb Em. split; [|exact Eb]. apply flush_counters_ok; [congruence|].
  intros i b. rewrite Eb. intros Hb. apply lookup_fmap_Some in Hb as (b0&<-&Hb0).
  destruct (Hs i b0 Hb0). split; [assumption|]. split; [assumption|reflexivity].
Qed.

Lemma flushed_fields j : needs_flush (jit_backend_flush j) = false ∧
  pending_write (jit_backend_flush j) = [] ∧ pending_write_overflow (jit_backend_flush j) = false.
Proof.
  unfold jit_backend_flush. set (jf := foldl _ _ _). by clearbody jf.
Qed.

#[local] Opaque jit_backend_flush invalidate_where.

(** *** Installing a block *)

Lemma install_counts_ok j i b : cache_ok j → active_blocks j < JIT_MAX_ACTIVE_BLOCKS →
  (∀ b0, blocks j !! i = Some b0 → live b0 = false) → live b = true →
  start_pc b = i → word i → block_ok b →
  cache_ok (put_active_blocks (active_blocks j + 1)
    (jit_block_page_refs_update (put_blocks (<[i := b]> (blocks j)) j) b true)).
Proof.
  intros [Hm Hs Hb Ha Hc Ht H1 H2 H3 H4 H5] Hlt Hd Hl Hsp Hw Hbo.
  set (j0 := put_blocks (<[i := b]> (blocks j)) j).
  destruct (refs_update_rest j0 b true) as (Hr&Hbl&Hac&Hst).
  pose proof (refs_update_counts j0 b true) as [U1 U2 U3 U4 U5].
  pose proof (refs_update_total j0 b true) as Hto. cbv iota in Hto.
  generalize dependent (jit_block_page_refs_update j0 b true).
  intros j1 Hr Hbl Hac Hst U1 U2 U3 U4 U5 Hto.
  change (blocks j0) with (<[i := b]> (blocks j)) in Hbl.
  split; cbn [magic blocks active_blocks compiled_phys_refs_total covered_addr_refcnt
    compiled_page_refcnt covered_phys_addr_refcnt compiled_phys_page_refcnt
    compiled_code_page_refcnt put_stats put_active_blocks put_blocks]; rewrite ?Hbl.
  - by destruct Hr as [-> _ _ _ _ _ _].
  - intros k bk Hk. destruct (decide (k = i)) as [->|].
    + rewrite lookup_insert_eq in Hk. by simplify_eq.
    + rewrite lookup_insert_ne in Hk by done. by apply Hs.
  - intros k bk Hk Hlk. destruct (decide (k = i)) as [->|].
    + rewrite lookup_insert_eq in Hk. by simplify_eq.
    + rewrite lookup_insert_ne in Hk by done. by apply (Hb k).
  - rewrite (count_install _ _ _ _ Hd Hl). simpl. lia.
  - unfold small in *. rewrite (count_install _ _ _ _ Hd Hl). simpl. lia.
  - rewrite Hto, (count_install _ _ _ _ Hd Hl).
    change (compiled_phys_refs_total j0) with (compiled_phys_refs_total j). rewrite Ht.
    pose proof (count_small mmu_phys_page_valid _ Hc).
    destruct (mmu_phys_page_valid b) eqn:Hv; simpl; [|lia]. by rewrite u32_small by lia.
  - by eapply tracks_install.
  - by eapply tracks_install.
  - by eapply tracks_install.
  - by eapply tracks_install.
  - by eapply tracks_install.
Qed.

(** ** Stores into compiled code *)

(** No live block of the cache satisfies [f]. *)
Definition no_block (f : rk65c02_jit_block → bool) (j : rk65c02_jit) : Prop :=
  ∀ i b, blocks j !! i = Some b → live b = true → f b = false.

Lemma no_block_killed f j m : blocks j = kill_if f <$> m → no_block f j.
Proof.
  intros E i b Hb Hl. rewrite E in Hb. apply lookup_fmap_Some in Hb as (b0&<-&_).
  unfold kill_if in *. destruct (live b0 && f b0) eqn:Eb; [done|].
  rewrite Hl in Eb. exact Eb.
Qed.

Lemma no_block_kept f g j m : no_block f j → blocks m = kill_if g <$> blocks j → no_block f m.
Proof.
  intros Hn E i b Hb Hl. rewrite E in Hb. apply lookup_fmap_Some in Hb as (b0&<-&Hb0).
  unfold kill_if in *. destruct (live b0 && g b0); [done|]. by apply (Hn i).
Qed.

Lemma invalidate_addr_eq j a : magic j = JIT_MAGIC →
  jit_invalidate_blocks_for_addr j a = invalidate_where (λ b, jit_block_contains_addr b a)
    (put_invalidation_events_this_run (u64 (invalidation_events_this_run j + 1)) j).
Proof. intros Hm. unfold jit_invalidate_blocks_for_addr. rewrite Hm, Z.eqb_refl. reflexivity. Qed.

Lemma invalidate_addr_ok j a : cache_ok j →
  cache_ok (jit_invalidate_blocks_for_addr j a) ∧
  blocks (jit_invalidate_blocks_for_addr j a) =
    kill_if (λ b, jit_block_contains_addr b a) <$> blocks j ∧
  pending_write (jit_invalidate_blocks_for_addr j a) = pending_write j ∧
  invalidation_events_this_run (jit_invalidate_blocks_for_addr j a) =
    u64 (invalidation_events_this_run j + 1).
Proof.
  intros Hj. rewrite (invalidate_addr_eq j a (co_magic j Hj)).
  set (j1 := put_invalidation_events_this_run _ j).
  assert (cache_ok j1) as Hj1 by same_cache j.
  destruct (invalidate_where_ok (λ b, jit_block_contains_addr b a) j1 Hj1) as (H1&[_ _ Hp _ He _ _]&H3).
  generalize dependent (invalidate_where (λ b, jit_block_contains_addr b a) j1).
  intros j2 H1 Hp He H3. split; [exact H1|]. split; [exact H3|]. split; [exact Hp|exact He].
Qed.

Lemma invalidate_phys_ok j p : cache_ok j →
  cache_ok (jit_invalidate_blocks_for_phys_addr j p) ∧
  blocks (jit_invalidate_blocks_for_phys_addr j p) = kill_if (phys_match p) <$> blocks j ∧
  same_rest j (jit_invalidate_blocks_for_phys_addr j p).
Proof.
  intros Hj. unfold jit_invalidate_blocks_for_phys_addr. rewrite (co_magic j Hj), Z.eqb_refl. cbn [negb].
  destruct (invalidate_where_ok (phys_match p) j Hj) as (H1&H2&H3).
  split; [exact H1|]. split; [exact H3|exact H2].
Qed.

Lemma invalidate_page_ok j p : cache_ok j →
  cache_ok (jit_invalidate_blocks_for_page j p) ∧
  blocks (jit_invalidate_blocks_for_page j p) =
    kill_if (λ b, jit_block_overlaps_page b p) <$> blocks j ∧
  same_rest j (jit_invalidate_blocks_for_page j p).
Proof.
  intros Hj. unfold jit_invalidate_blocks_for_page. rewrite (co_magic j Hj), Z.eqb_refl. cbn [negb].
  destruct (invalidate_where_ok (λ b, jit_block_overlaps_page b p) j Hj) as (H1&H2&H3).
  split; [exact H1|]. split; [exact H3|exact H2].
Qed.

Lemma invalidate_code_page_ok j p : cache_ok j →
  cache_ok (jit_invalidate_blocks_for_code_page j p) ∧
  no_block (λ b, u8 (start_pc b ≫ 8) =? p) (jit_invalidate_blocks_for_code_page j p).
Proof.
  intros Hj. unfold jit_invalidate_blocks_for_code_page. rewrite (co_magic j Hj), Z.eqb_refl. cbn [negb].
  destruct (Z.eqb_spec (arr_get (compiled_code_page_refcnt j) p) 0) as [Hz|_].
  - split; [done|]. rewrite (co_code j Hj) in Hz. intros i b Hb Hl.
    pose proof (proj1 (count_zero _ _) Hz i b Hb Hl) as Hf. apply bool_decide_eq_false in Hf.
    by apply Z.eqb_neq.
  - destruct (invalidate_where_ok (λ b, u8 (start_pc b ≫ 8) =? p) j Hj) as (H1&_&H3).
    split; [exact H1|]. exact (no_block_killed _ _ _ H3).
Qed.

(** The live blocks of [j'] are live blocks of [j]. *)
Definition fewer (j j' : rk65c02_jit) : Prop :=
  ∀ i b, blocks j' !! i = Some b → live b = true → blocks j !! i = Some b.
#[export] Instance fewer_preorder : PreOrder fewer.
Proof. split; [by intros j i b|]. intros j1 j2 j3 H1 H2 i b Hb Hl. auto. Qed.

Lemma fewer_killed g j j' : blocks j' = kill_if g <$> blocks j → fewer j j'.
Proof.
  intros E i b Hb Hl. rewrite E in Hb. apply lookup_fmap_Some in Hb as (b0&<-&Hb0).
  unfold kill_if in *. by destruct (live b0 && g b0).
Qed.

Lemma no_block_fewer f j j' : fewer j j' → no_block f j → no_block f j'.
Proof. intros Hf Hn i b Hb Hl. apply (Hn i b); auto. Qed.

Lemma count_page_write_ok j p : cache_ok j →
  cache_ok (count_page_write j p) ∧ fewer j (count_page_write j p) ∧
  pending_write (count_page_write j p) = pending_write j.
Proof.
  intros Hj. unfold count_page_write. cbv zeta.
  set (j1 := put_page_invalidation_events _ j).
  assert (cache_ok j1) as Hj1 by same_cache j.
  destruct (negb _ && _); [|split; [exact Hj1|split; [intros i b Hb _; exact Hb|reflexivity]]].
  set (j2 := put_stats _ (put_mutable_code_page _ j1)).
  assert (cache_ok j2) as Hj2 by same_cache j.
  destruct (invalidate_page_ok j2 p Hj2) as (H1&H2&[]).
  split; [exact H1|]. split; [exact (fewer_killed _ j _ H2)|assumption].
Qed.

(** One guest store: afterwards no live block covers its address, nor, for a
    store that hit the physical tracking, its physical address. *)
Lemma apply_write_ok j w : cache_ok j →
  cache_ok (apply_write j w) ∧ fewer j (apply_write j w) ∧
  pending_write (apply_write j w) = pending_write j ∧
  no_block (λ b, jit_block_contains_addr b (pw_addr w)) (apply_write j w) ∧
  (pw_phys_valid w = true → no_block (phys_match (pw_phys_addr w)) (apply_write j w)).
Proof.
  intros Hj. unfold apply_write. destruct (invalidate_addr_ok j (pw_addr w) Hj) as (H1&E1&P1&_).
  set (j1 := jit_invalidate_blocks_for_addr j (pw_addr w)) in *.
  set (j2 := if pw_phys_valid w then _ else j1).
  assert (cache_ok j2 ∧ fewer j1 j2 ∧ pending_write j2 = pending_write j1 ∧
    (pw_phys_valid w = true → no_block (phys_match (pw_phys_addr w)) j2)) as (H2&F2&P2&N2).
  { unfold j2. destruct (pw_phys_valid w); [|done].
    destruct (invalidate_phys_ok j1 (pw_phys_addr w) H1) as (Ha&Eb&[]).
    split; [exact Ha|]. split; [exact (fewer_killed _ _ _ Eb)|]. split; [assumption|].
    intros _. exact (no_block_killed _ _ _ Eb). }
  destruct (count_page_write_ok j2 (u8 (pw_addr w ≫ 8)) H2) as (H3&F3&P3).
  split; [exact H3|]. split; [|split; [congruence|split]].
  - etransitivity; [exact (fewer_killed _ _ _ E1)|]. etransitivity; [exact F2|exact F3].
  - apply (no_block_fewer _ _ _ F3), (no_block_fewer _ _ _ F2). exact (no_block_killed _ _ _ E1).
  - intros Hv. exact (no_block_fewer _ _ _ F3 (N2 Hv)).
Qed.

(** What must hold once the write [w] is dealt with. *)
Definition written (w : pending_write_t) (j : rk65c02_jit) : Prop :=
  no_block (λ b, jit_block_contains_addr b (pw_addr w)) j ∧
  (pw_phys_valid w = true → no_block (phys_match (pw_phys_addr w)) j).

Lemma apply_writes_ok l j : cache_ok j →
  cache_ok (foldl apply_write j l) ∧ fewer j (foldl apply_write j l) ∧
  Forall (λ w, written w (foldl apply_write j l)) l.
Proof.
  revert j. induction l as [|w l IH]; intros j Hj; cbn [foldl].
  { split; [done|]. split; [reflexivity|constructor]. }
  destruct (apply_write_ok j w Hj) as (H1&F1&_&Nv&Np). destruct (IH _ H1) as (H2&F2&Hl).
  split; [exact H2|]. split; [by etransitivity|]. constructor; [|exact Hl].
  split; [exact (no_block_fewer _ _ _ F2 Nv)|]. intros Hv. exact (no_block_fewer _ _ _ F2 (Np Hv)).
Qed.

Lemma flushed_no_block f j : cache_ok j → no_block f (jit_backend_flush j).
Proof.
  intros Hj i b Hb Hl. destruct (backend_flush_ok j (co_magic j Hj) (co_slot j Hj)) as [_ E].
  rewrite E in Hb. clear E. apply lookup_fmap_Some in Hb as (b0&<-&_). discriminate Hl.
Qed.

Lemma process_overflow_ok j : cache_ok j →
  cache_ok (process_overflow j) ∧
  (pending_write_overflow j = false → process_overflow j = j) ∧
  (pending_write_overflow j = true →
     pending_write (process_overflow j) = [] ∧ ∀ f, no_block f (process_overflow j)).
Proof.
  intros Hj. unfold process_overflow. destruct (pending_write_overflow j).
  - destruct (backend_flush_ok j (co_magic j Hj) (co_slot j Hj)) as [H _].
    pose proof (λ f, flushed_no_block f j Hj) as Hn. destruct (flushed_fields j) as (_&Hp&_).
    generalize dependent (jit_backend_flush j). intros jf H Hn Hp.
    split; [same_cache jf|]. split; [discriminate|]. intros _. split; [exact Hp|exact Hn].
  - split; [exact Hj|]. split; [reflexivity|discriminate].
Qed.

Lemma process_pending_ok j (j' := (jit_process_pending_writes j).2) : cache_ok j →
  cache_ok j' ∧ pending_write j' = [] ∧ pending_write_overflow j' = false ∧
  Forall (λ w, written w j') (pending_write j) ∧
  (pending_write_overflow j = true → ∀ f, no_block f j') ∧ (∀ f, no_block f j → no_block f j').
Proof.
  intros Hj. destruct (process_overflow_ok j Hj) as (H1&Hf&Ht).
  unfold j', jit_process_pending_writes. clear j'. cbn [snd].
  generalize dependent (process_overflow j). intros j1 H1 Hf Ht.
  destruct (apply_writes_ok (pending_write j1) j1 H1) as (H2&F2&Hl).
  generalize dependent (foldl apply_write j1 (pending_write j1)). intros j2 H2 F2 Hl.
  split; [same_cache j2|]. split; [reflexivity|]. split; [reflexivity|].
  destruct (pending_write_overflow j).
  - destruct (Ht eq_refl) as [Hp Hn]. assert (∀ f, no_block f j2) as Hn2.
    { intros f. exact (no_block_fewer _ _ _ F2 (Hn f)). }
    split; [|split; [intros _; exact Hn2|intros f _; apply Hn2]].
    apply Forall_forall. intros w _. split; [apply Hn2|]. intros _. apply Hn2.
  - rewrite (Hf eq_refl) in Hl, F2. split; [exact Hl|]. split; [discriminate|].
    intros f Hn. exact (no_block_fewer _ _ _ F2 Hn).
Qed.

Lemma process_pending_fewer j : cache_ok j → fewer j (jit_process_pending_writes j).2.
Proof.
  intros Hj. destruct (process_overflow_ok j Hj) as (H1&Hf&Ht). unfold jit_process_pending_writes. cbn [snd].
  destruct (apply_writes_ok (pending_write (process_overflow j)) (process_overflow j) H1) as (_&F2&_).
  etransitivity; [|exact F2]. destruct (pending_write_overflow j); [|by rewrite Hf].
  destruct (Ht eq_refl) as [_ Hn]. intros i b Hb Hl. discriminate (Hn (λ _, true) i b Hb Hl).
Qed.

(** ** The fast tests *)

(** A store to [a] that the two reference counts do not show is outside every
    live block. *)
Lemma uncovered_no_block j a : cache_ok j → word a →
  arr_get (compiled_page_refcnt j) (a ≫ 8) = 0 ∨ arr_get (covered_addr_refcnt j) a = 0 →
  no_block (λ b, jit_block_contains_addr b a) j.
Proof.
  intros Hj Ha Hz i b Hb Hl. destruct (co_slot j Hj i b Hb) as [Hs Hi].
  pose proof (co_block j Hj i b Hb Hl) as [He _ _].
  rewrite contains_addr_iff by (try done; lia). destruct (F_addr a b) eqn:Ef; [|done]. destruct Hz as [Hz|Hz].
  - rewrite (co_page j Hj) in Hz. pose proof (proj1 (count_zero _ _) Hz i b Hb Hl) as E.
    rewrite addr_page in E; [done|lia|done].
  - rewrite (co_addr j Hj) in Hz. pose proof (proj1 (count_zero _ _) Hz i b Hb Hl) as E. congruence.
Qed.

Lemma inactive_no_block f j : cache_ok j → active_blocks j = 0 → no_block f j.
Proof.
  intros Hj Hz i b Hb Hl. rewrite (co_active j Hj) in Hz.
  by pose proof (proj1 (count_zero _ _) Hz i b Hb Hl).
Qed.

(** *** Physical addresses *)

(** A store to physical address [p] concerns the blocks tagged with it. *)
Definition phys_tracked (p : Z) (b : rk65c02_jit_block) : bool := F_paddr p b || F_ppage (p ≫ 8) b.

(** The range test of the physical invalidation agrees with the tracking,
    unless the block ends at the very top of the 64K. *)
Lemma phys_match_tracked b p : block_ok b → word p →
  (mmu_phys_byte_cov b = true →
   mmu_phys_start b + u16 (end_pc_exclusive b - start_pc b) ≠ 65536) →
  phys_match p b = phys_tracked p b.
Proof.
  intros [_ [Hl1 Hl2] Hp] Hw Hne. unfold phys_match, phys_tracked, F_paddr, F_ppage.
  destruct (mmu_phys_page_valid b) eqn:Hv; [|done]. cbn [negb andb].
  destruct (mmu_phys_byte_cov b) eqn:Hc; cbn [negb andb orb].
  - rewrite orb_false_r. destruct (Hp eq_refl eq_refl) as [Hps Hmod]. specialize (Hne eq_refl).
    set (len := u16 (end_pc_exclusive b - start_pc b)) in *.
    pose proof (Z.div_mod (mmu_phys_start b) 256).
    pose proof (Z.mod_pos_bound (mmu_phys_start b) 256).
    rewrite u16_small by lia. unfold block_phys_addrs. fold len.
    destruct (negb ((p <? mmu_phys_start b) || (p >=? mmu_phys_start b + len))) eqn:E; symmetry.
    + apply bool_decide_true, list_elem_of_fmap. exists (p - mmu_phys_start b).
      split; [lia|]. apply elem_of_seqZ. lia.
    + apply bool_decide_false. intros (k&->&Hk%elem_of_seqZ)%list_elem_of_fmap. lia.
  - rewrite u8_small by by apply shiftr8_byte. by case_bool_decide; [apply Z.eqb_eq|apply Z.eqb_neq].
Qed.

(** For a block that does end there the test never holds. *)
Lemma phys_match_top b p : word p → mmu_phys_page_valid b = true → mmu_phys_byte_cov b = true →
  mmu_phys_start b + u16 (end_pc_exclusive b - start_pc b) = 65536 → phys_match p b = false.
Proof.
  intros Hp Hv Hc Ht. unfold phys_match. rewrite Hv, Hc, Ht. cbn [negb].
  change (u16 65536) with 0. replace (p >=? 0) with true by lia. by rewrite orb_true_r.
Qed.

Lemma untracked_no_block j p : cache_ok j →
  compiled_phys_refs_total j = 0 ∨
  (arr_get (covered_phys_addr_refcnt j) p = 0 ∧ arr_get (compiled_phys_page_refcnt j) (p ≫ 8) = 0) →
  no_block (phys_tracked p) j.
Proof.
  intros Hj Hz i b Hb Hl. unfold phys_tracked. destruct Hz as [Hz|[H1 H2]].
  - rewrite (co_total j Hj) in Hz. pose proof (proj1 (count_zero _ _) Hz i b Hb Hl) as E.
    unfold F_paddr, F_ppage. by rewrite E.
  - rewrite (co_paddr j Hj) in H1. rewrite (co_ppage j Hj) in H2.
    by rewrite (proj1 (count_zero _ _) H1 i b Hb Hl), (proj1 (count_zero _ _) H2 i b Hb Hl).
Qed.
