(* ===== verification/JitStores.v ===== *)
(** Stores into compiled code: what [rk65c02_jit_note_guest_write] achieves,
    at once when the interpreter stores and through the dispatcher when native
    code does. *)
From stdpp Require Import base numbers list gmap strings.
From S2P Require Import Prelude Types Isa BusSpec State Interfaces Mmu Instruction Emulation.
From S2P Require Import Disasm Debug Exec Invariant Frames JitCache Jit JitSpec.

(** A block tracked byte by byte whose last byte is physical address 0xFFFF. *)
Definition at_top (b : rk65c02_jit_block) : bool :=
  mmu_phys_byte_cov b &&
  (mmu_phys_start b + u16 (end_pc_exclusive b - start_pc b) =? 65536).

(** No live block spans the virtual address [addr], nor, when the physical
    lookup of the store answered [p], is tagged with [p] (blocks at the top
    excepted).  The lookup answers addresses below 64K only. *)
Definition clean (addr : Z) (p : option Z) (j : rk65c02_jit) : Prop :=
  no_block (λ b, jit_block_contains_addr b addr) j ∧
  ∀ q, p = Some q → no_block (λ b, phys_tracked q b && negb (at_top b)) j.

Lemma no_block_impl (f g : rk65c02_jit_block → bool) j :
  cache_ok j → (∀ b, block_ok b → g b = true → f b = true) → no_block f j → no_block g j.
Proof.
  intros Hj Hfg Hn i b Hb Hl. destruct (g b) eqn:Eg; [|done].
  pose proof (Hn i b Hb Hl) as E. by rewrite (Hfg b (co_block j Hj i b Hb Hl) Eg) in E.
Qed.

Lemma phys_clean j p : cache_ok j → word p → no_block (phys_match p) j →
  no_block (λ b, phys_tracked p b && negb (at_top b)) j.
Proof.
  intros Hj Hp. apply no_block_impl; [done|]. intros b Hb [Ht Ha]%andb_true_iff.
  rewrite phys_match_tracked; [done|done|done|]. intros Hc E. unfold at_top in Ha.
  by rewrite Hc, E in Ha.
Qed.

Lemma written_clean j w p : cache_ok j → word (pw_phys_addr w) → written w j →
  p = (if pw_phys_valid w then Some (pw_phys_addr w) else None) → clean (pw_addr w) p j.
Proof.
  intros Hj Hw [Hv Hp] ->. split; [exact Hv|]. intros q Hq. destruct (pw_phys_valid w); [|done].
  injection Hq as <-. apply phys_clean; auto.
Qed.

Lemma clean_kept addr p j j' : (∀ f, no_block f j → no_block f j') → clean addr p j → clean addr p j'.
Proof. intros Hk [H1 H2]. split; [by apply Hk|]. intros q Hq. by apply Hk, H2. Qed.

Lemma record_write_ok w j : cache_ok j → cache_ok (record_write w j) ∧ fewer j (record_write w j).
Proof.
  intros Hj. unfold record_write. case_match; (split; [same_cache j|]); by intros i b.
Qed.

Section Stores.
Context (B H : Type).
#[local] Hint Extern 0 Sys => exact (jit_sys B H) : typeclass_instances.
Context {SB : SysBus} {HO : HostOps}.

(** The cache the dispatcher goes on with: after a store by native code the
    recorded writes are processed when the block returns. *)
Definition settled (in_run : bool) (j : rk65c02_jit) : rk65c02_jit :=
  if in_run then (jit_process_pending_writes j).2 else j.

Section Store.
(** The physical lookup of the store answers [p] and leaves the backend alone. *)
Context (addr : Z) (e : rk65c02emu) (j : rk65c02_jit) (p : option Z) (e1 : rk65c02emu).
Hypothesis Haddr : word addr.
Hypothesis Hjit : jit e = Some j.
Hypothesis Hok : cache_ok j.
Hypothesis Hlookup : jit_translate_paddr B H addr RK65C02_MMU_WRITE e = (Ret p, e1).
Hypothesis Hjit1 : jit e1 = Some j.
Hypothesis Hrun1 : in_jit_run e1 = in_jit_run e.

(** The address [phys_hit] answers, and that the others need no action. *)
Lemma phys_hit_spec : ∃ h e2, phys_hit B H addr e = (Ret h, e2) ∧ jit e2 = Some j ∧
  in_jit_run e2 = in_jit_run e ∧ (h = None ∨ h = p) ∧
  (h = None → ∀ q, p = Some q → no_block (phys_tracked q) j).
Proof.
  unfold phys_hit. erewrite bind_Ret by reflexivity. cbv beta. rewrite Hjit.
  destruct (Z.eqb_spec (compiled_phys_refs_total j) 0) as [Hz|_].
  - exists None, e. split; [done|]. split; [done|]. split; [done|]. split; [by left|].
    intros _ q _. apply untracked_no_block; auto.
  - erewrite bind_Ret by exact Hlookup. erewrite bind_Ret by reflexivity. cbv beta. rewrite Hjit1.
    eexists _, e1. split; [reflexivity|]. split; [done|]. split; [done|].
    destruct p as [q|]; [|by split; [left|]].
    destruct (negb _ || negb _) eqn:E; [by split; [right|]|]. split; [by left|].
    intros _ q' [= <-]. apply untracked_no_block; [done|]. right.
    apply orb_false_iff in E as [E1 E2]. rewrite negb_false_iff, Z.eqb_eq in E1, E2. done.
Qed.

Lemma lookup_word q : p = Some q → word q.
Proof.
  intros ->. revert Hlookup. unfold jit_translate_paddr, mbind, M_bind, mret, M_ret.
  destruct (@rk65c02_mmu_translate_cached _ _ _ _ _) as [[r| | |] e']; try discriminate. intros E. injection E as E _. destruct r as [a|]; [|done].
  destruct (a >=? RK65C02_BUS_SIZE); [done|]. injection E as <-. apply u16_word.
Qed.

(** What [note_guest_write] records or applies for the answer [h]. *)
Definition write_of (h : option Z) : pending_write_t :=
  mkPending addr (bool_decide (is_Some h)) (default 0 h).

Lemma written_all_clean h J : (h = None ∨ h = p) →
  (h = None → ∀ q, p = Some q → no_block (phys_tracked q) j) →
  cache_ok J → written (write_of h) J → (∀ f, no_block f j → no_block f J) → clean addr p J.
Proof.
  intros Hh Hn HJ Hw Hk. destruct h as [q|].
  - destruct Hh as [|Hq]; [done|]. apply (written_clean J (write_of (Some q))); try done.
    exact (lookup_word q (eq_sym Hq)).
  - split; [exact (proj1 Hw)|]. intros q Hq. apply (no_block_impl (phys_tracked q)); [done| |].
    + intros b _ [E _]%andb_true_iff. exact E.
    + apply Hk. by apply Hn.
Qed.

Lemma settled_kept b J : cache_ok J → ∀ f, no_block f J → no_block f (settled b J).
Proof.
  intros HJ f Hf. unfold settled. destruct b; [|done].
  destruct (process_pending_ok J HJ) as (_&_&_&_&_&Hk). by apply Hk.
Qed.

Lemma settled_ok b J : cache_ok J → cache_ok (settled b J).
Proof.
  intros HJ. unfold settled. destruct b; [|done]. by destruct (process_pending_ok J HJ).
Qed.

Lemma settled_fewer b J : cache_ok J → fewer J (settled b J).
Proof. intros HJ. unfold settled. destruct b; [by apply process_pending_fewer|reflexivity]. Qed.

(** A store that is recorded is dealt with when the writes are processed. *)
Lemma recorded_written w J : cache_ok J → written w (jit_process_pending_writes (record_write w J)).2.
Proof.
  intros HJ. assert (cache_ok (record_write w J)) as Hr.
  { unfold record_write. case_match; same_cache J. }
  destruct (process_pending_ok _ Hr) as (_&_&_&Hl&Ho&_). unfold record_write in *.
  destruct (_ <? _); [|by split; [apply Ho|intros _; apply Ho]].
  apply (proj1 (Forall_forall _ _) Hl). cbn. apply elem_of_app. right. by left.
Qed.

(** What the note leaves, in terms of spans and tags. *)
Lemma note_clean :
  ∃ e' j', note_guest_write B H addr e = (Ret tt, e') ∧ jit e' = Some j' ∧
    in_jit_run e' = in_jit_run e ∧ fewer j (settled (in_jit_run e) j') ∧
    cache_ok (settled (in_jit_run e) j') ∧ clean addr p (settled (in_jit_run e) j').
Proof.
  unfold note_guest_write. erewrite bind_Ret by reflexivity. cbv beta. rewrite Hjit.
  rewrite (co_magic j Hok), Z.eqb_refl. cbn [negb orb].
  destruct (Z.eqb_spec (active_blocks j) 0) as [Hz|_].
  { exists e, j. do 3 (split; [done|]). split; [by apply settled_fewer|]. split; [by apply settled_ok|].
    apply (clean_kept _ _ j); [by apply settled_kept|].
    split; [by apply inactive_no_block|]. intros q _. by apply inactive_no_block. }
  cbv zeta. destruct phys_hit_spec as (h&e2&E2&Hj2&Hr2&Hh&Hn). erewrite bind_Ret by exact E2.
  fold (write_of h). destruct (negb _ && negb _) eqn:Eskip.
  { exists e2, j. do 3 (split; [done|]). split; [by apply settled_fewer|]. split; [by apply settled_ok|].
    apply (clean_kept _ _ j); [by apply settled_kept|].
    rewrite andb_true_iff, !negb_true_iff, andb_false_iff, !negb_false_iff, !Z.eqb_eq in Eskip.
    destruct Eskip as [Ev Ep]. cbn in Ep. apply bool_decide_eq_false in Ep.
    split; [by apply uncovered_no_block|]. intros q Hq. apply (no_block_impl (phys_tracked q)); [done| |].
    - intros b _ [E _]%andb_true_iff. exact E.
    - apply Hn; [|done]. destruct h; [|done]. by destruct Ep. }
  set (j1 := put_stats (stats_write_event (stats j)) j).
  assert (cache_ok j1) as Hj1 by same_cache j.
  set (e3 := set_jit (SY := jit_sys B H) (Some j1) e2 : rk65c02emu).
  assert (mod_jit B H (λ j, put_stats (stats_write_event (stats j)) j) e2 = (Ret tt, e3)) as E3.
  { unfold mod_jit, modify. by rewrite Hj2. }
  assert (jit e3 = Some j1 ∧ in_jit_run e3 = in_jit_run e) as [Hj3 Hr3] by (by split).
  erewrite bind_Ret by exact E3. clearbody e3. erewrite bind_Ret by reflexivity.
  rewrite Hr3. destruct (in_jit_run e) eqn:Er.
  - erewrite bind_Ret by reflexivity.
    exists (set_jit (SY := jit_sys B H) (Some (record_write (write_of h) j1)) (set_use_jit false e3)),
      (record_write (write_of h) j1).
    destruct (record_write_ok (write_of h) j1 Hj1) as [Hw Hf].
    split; [unfold mod_jit, modify; cbn [jit set_use_jit]; by rewrite Hj3|].
    split; [reflexivity|]. split; [exact Hr3|].
    split; [etransitivity; [exact Hf|by apply settled_fewer]|].
    split; [by apply settled_ok|]. cbn [settled].
    destruct (process_pending_ok _ Hw) as (Hc&_&_&_&_&Hk).
    apply (written_all_clean h); [done|done|exact Hc|by apply recorded_written|].
    intros f Hnb. apply Hk. exact (no_block_fewer f _ _ Hf Hnb).
  - destruct (apply_write_ok j1 (write_of h) Hj1) as (Hc&Hf&_&Hv&Hp).
    exists (set_jit (SY := jit_sys B H) (Some (apply_write j1 (write_of h))) e3), (apply_write j1 (write_of h)).
    split; [unfold mod_jit, modify; by rewrite Hj3|].
    split; [reflexivity|]. split; [exact Hr3|]. split; [exact Hf|].
    split; [exact Hc|]. apply (written_all_clean h); [done|done|exact Hc|by split|].
    intros f Hnb. exact (no_block_fewer f _ _ Hf Hnb).
Qed.

(** The physical address a byte of code is fetched from, where the blocks are
    tagged with it ([JitAlias.emitted_tracked]). *)
Context (code_phys : Z → option Z).
Definition tagged (b : rk65c02_jit_block) : Prop :=
  ∀ a q, a ∈ block_addrs b → code_phys a = Some q → phys_tracked q b = true.
Hypothesis Htags : ∀ i b, blocks j !! i = Some b → live b = true → tagged b.

(** C7: self-modifying code.  After a guest store to [addr], made by the
    interpreter or by native code whose recorded stores the dispatcher then
    processes, no live block has code at [addr], and no live block has code at
    the physical address the store went to, whatever virtual address that code
    is at.  The second holds for stores below 64K, which are the ones whose
    physical address is looked up, for blocks that are tagged with the physical
    addresses of their code, and except for a block that ends at the top of the
    64K; [JitAlias] has what becomes of the others.  The reference counts stay
    exact, and no block is added. *)
Theorem guest_store_invalidates :
  ∃ e' j' (J := settled (in_jit_run e) j'), note_guest_write B H addr e = (Ret tt, e') ∧
    jit e' = Some j' ∧ in_jit_run e' = in_jit_run e ∧ fewer j J ∧ cache_ok J ∧
    ∀ i b, blocks J !! i = Some b → live b = true →
      (addr ∉ block_addrs b) ∧
      (∀ a q, p = Some q → at_top b = false → a ∈ block_addrs b → code_phys a ≠ Some q).
Proof.
  destruct note_clean as (e'&j'&E&Hj'&Hr&Hf&Hc&[Hv Hp]). exists e', j'. cbv zeta.
  split_and!; try done. intros i b Hb Hl. pose proof (Hf i b Hb Hl) as Hb0.
  pose proof (Hv i b Hb Hl) as Hvb. destruct (co_slot j Hok i b Hb0) as [Hs Hw].
  pose proof (co_block j Hok i b Hb0 Hl) as [He _ _ _]. split.
  - cbv beta in Hvb. rewrite contains_addr_iff in Hvb by (by rewrite ?Hs). by apply bool_decide_eq_false in Hvb.
  - intros a q Hq Ht Ha Hcp. pose proof (Hp q Hq i b Hb Hl) as Hpb. cbv beta in Hpb.
    by rewrite (Htags i b Hb0 Hl a q Ha Hcp), Ht in Hpb.
Qed.

End Store.
End Stores.
