(* ===== verification/JitAlias.v ===== *)
(** Aliases of compiled code: what the physical tags of blocks cover, and the
    blocks that a store through another virtual address leaves stale.

    Behind an MMU the code of a block may be written through any virtual address
    of the same physical byte.  [emitted_tracked]: a block compiled from a page
    that may be cached and lies below 64K is tagged with the physical addresses
    of all its bytes, which is what [JitStores.guest_store_invalidates] needs.
    [stale_block]: a block that has no tag for the byte, or none that matches,
    stays in the cache when the byte changes.  There are two kinds: code in
    extended memory, which is never tagged, and code that ends at physical
    address 0xFFFF, whose tag never matches. *)
From stdpp Require Import base numbers list gmap strings.
From S2P Require Import Prelude Types Isa BusSpec State Interfaces Mmu Instruction Emulation.
From S2P Require Import Disasm Debug Exec Invariant MmuSpec Frames JitCache JitEmit Jit JitSpec.
From S2P Require Import JitStores.

(** ** Blocks and pages *)

Lemma block_end b : word (start_pc b) → block_ok b → let len := u16 (end_pc_exclusive b - start_pc b) in
  0 < len ∧ start_pc b mod 256 + len ≤ 256 ∧
  (end_pc_exclusive b = start_pc b + len ∨ end_pc_exclusive b = 0 ∧ start_pc b + len = 65536).
Proof.
  intros Hs [He [Hl Hp] _ _]. cbv zeta. split; [done|]. split; [done|].
  pose proof (u16_word (end_pc_exclusive b - start_pc b)). unfold u16 in *.
  pose proof (Z.div_mod (end_pc_exclusive b - start_pc b) 65536).
  pose proof (Z.div_mod (start_pc b) 256). pose proof (Z.mod_pos_bound (start_pc b) 256). lia.
Qed.

(** A block lies within the page of its first byte. *)
Lemma other_page b w : word (start_pc b) → block_ok b → word w → page w ≠ page (start_pc b) →
  jit_block_contains_addr b w = false ∧ jit_block_overlaps_page b (page w) = false.
Proof.
  intros Hs Hb Hw Hne. destruct (block_end b Hs Hb) as (Hl&Hp&He).
  pose proof (page_split w Hw) as Ew. pose proof (page_split (start_pc b) Hs) as Es.
  pose proof (u8_byte w). pose proof (u8_byte (start_pc b)). pose proof (page_byte w).
  pose proof (page_byte (start_pc b)). fold (u8 (start_pc b)) in Hp.
  unfold jit_block_contains_addr, jit_block_overlaps_page.
  rewrite Z.shiftl_mul_pow2 by lia. change (2 ^ 8) with 256. rewrite (u16_small (page w * 256)) by lia.
  rewrite u16_small by lia.
  set (len := u16 (end_pc_exclusive b - start_pc b)) in *. clearbody len.
  generalize dependent (page w). intros pw. generalize dependent (page (start_pc b)). intros ps.
  generalize dependent (u8 w). intros ow. generalize dependent (u8 (start_pc b)). intros os.
  intros. destruct He as [He|[He He']]; rewrite He.
  - replace (start_pc b <? start_pc b + len) with true by lia.
    replace (start_pc b =? start_pc b + len) with false by lia. split; lia.
  - replace (start_pc b <? 0) with false by lia. replace (start_pc b >? 0) with true by lia.
    replace (start_pc b =? 0) with false by lia. split; lia.
Qed.

(** ** Invalidation spares what it does not select *)

Lemma killed_spares g j j' i b : blocks j' = kill_if g <$> blocks j → blocks j !! i = Some b →
  g b = false → blocks j' !! i = Some b.
Proof. intros E Hb Hg. rewrite E, lookup_fmap, Hb. cbn. unfold kill_if. by rewrite Hg, andb_false_r. Qed.

Lemma count_page_spares j p i b : cache_ok j → blocks j !! i = Some b →
  jit_block_overlaps_page b p = false → blocks (count_page_write j p) !! i = Some b.
Proof.
  intros Hj Hb Ho. unfold count_page_write. cbv zeta. set (j1 := put_page_invalidation_events _ j).
  destruct (negb _ && _); [|exact Hb]. set (j2 := put_stats _ (put_mutable_code_page _ j1)).
  assert (cache_ok j2) as Hj2 by same_cache j. destruct (invalidate_page_ok j2 p Hj2) as (_&E&_).
  exact (killed_spares _ j _ i b E Hb Ho).
Qed.

Lemma apply_write_spares j w i b : cache_ok j → blocks j !! i = Some b →
  jit_block_contains_addr b (pw_addr w) = false →
  (pw_phys_valid w = true → phys_match (pw_phys_addr w) b = false) →
  jit_block_overlaps_page b (u8 (pw_addr w ≫ 8)) = false → blocks (apply_write j w) !! i = Some b.
Proof.
  intros Hj Hb Hv Hp Ho. unfold apply_write. cbv zeta.
  destruct (invalidate_addr_ok j (pw_addr w) Hj) as (H1&E1&_).
  pose proof (killed_spares _ j _ i b E1 Hb Hv) as Hb1.
  destruct (pw_phys_valid w); [|by apply count_page_spares].
  destruct (invalidate_phys_ok _ (pw_phys_addr w) H1) as (H2&E2&_).
  apply count_page_spares; [exact H2| |done]. exact (killed_spares _ _ _ i b E2 Hb1 (Hp eq_refl)).
Qed.

Section Alias.
Context (B H : Type).
#[local] Hint Extern 0 Sys => exact (jit_sys B H) : typeclass_instances.
Context {SB : SysBus} {BL : BusLaws sys_bus} {HO : HostOps}.
#[local] Existing Instance lightning_jit.

(** ** The host's mapping *)

(** The MMU is in use with a callback that always answers with [pt], a mapping
    that keeps the contract of the TLB. *)
Context (pt : mapping) (Hst : page_stable pt) (Hty : mapping_typed pt).
Record mapped (e : rk65c02emu) : Prop := {
  mp_enabled : mmu_enabled e = true;
  mp_identity : mmu_identity_active e = false;
  mp_read : mem_read_1_fn e = mem_mmu;
  mp_write : mem_write_1_fn e = mem_mmu;
  mp_callback : ∃ cb, mmu_translate e = Some cb ∧ ∀ v a x,
    host_mmu_translate cb (mmu_translate_ctx e) v a x = (Ret (pt v a), x);
  mp_coherent : coherent pt e
}.

Lemma mapped_callback e : mapped e → callback_is pt e.
Proof. intros [_ _ _ _ (cb&Hcb&Hpt) _]. exists cb. auto. Qed.
Lemma mapped_tlb e e' : mapped e → tlb_only e e' → coherent pt e' → mapped e'.
Proof. by intros [? ? ? ? ? _] (t&h&n&->) Hc. Qed.
Lemma mapped_bus e b : mapped e → mapped (set_bus b e).
Proof. by intros []. Qed.
Lemma mapped_jit e e' : mapped e → jit_only e e' → mapped e'.
Proof. by intros [] (j&u&->). Qed.

(** What the physical lookup of the JIT makes of a translation. *)
Definition low (x : xlate) : option Z :=
  match x with Xok p => if p >=? RK65C02_BUS_SIZE then None else Some p | Xfault _ => None end.

Lemma translate_paddr_spec v a e : mapped e → word v →
  ∃ e1, jit_translate_paddr B H v a e = (Ret (low (translate_spec pt v a (req_perm_cached a))), e1) ∧
    tlb_only e e1 ∧ mapped e1.
Proof.
  intros He Hv. destruct (translate_addr_spec pt e v a (req_perm_cached a)) as (e1&E1&Hc1&Ht1);
    [by apply mapped_callback|done|done|apply He|done|].
  exists e1. split; [|split; [done|by apply (mapped_tlb e)]].
  unfold jit_translate_paddr, rk65c02_mmu_translate_cached. rewrite bind_assoc.
  erewrite bind_Ret by reflexivity. rewrite (mp_enabled e He), (mp_identity e He). cbn [negb orb].
  rewrite bind_assoc. erewrite bind_Ret by exact E1. erewrite bind_Ret by reflexivity.
  destruct (translate_spec pt v a (req_perm_cached a)) as [p|] eqn:Ex; [|done].
  apply translate_spec_ok in Ex as (_&_&_&Hp); [|done..]. cbn [low].
  destruct (Z.geb_spec p RK65C02_BUS_SIZE) as [|Hl]; [done|].
  rewrite u16_small; [done|]. unfold RK65C02_BUS_SIZE in Hl. lia.
Qed.

(** ** Tags *)

(** Code of a page that is mapped below 64K and may be cached is tagged byte
    by byte, contiguously from the physical address of its first byte. *)
Definition cacheable (v : Z) (p : Z) : Prop :=
  translate_spec pt v RK65C02_MMU_FETCH RK65C02_MMU_PERM_X = Xok p ∧
  r_no_fill_tlb (pt v RK65C02_MMU_FETCH) = false ∧ u8 p = u8 v.

Lemma cacheable_next v p k : cacheable v p → word v → 0 ≤ k → v mod 256 + k < 256 → 
  p + k < RK65C02_PHYS_MAX →
  translate_spec pt (u16 (v + k)) RK65C02_MMU_FETCH RK65C02_MMU_PERM_X = Xok (p + k).
Proof.
  intros (Hx&Hn&Hl) Hv Hk Hlt Hmax. pose proof (translate_spec_ok _ _ _ _ _ Hty Hv Hx) as (Ho&Hpe&Hp&_).
  fold (u8 v) in Hlt. pose proof (page_split v Hv). pose proof (u8_byte v). pose proof (page_byte v).
  assert (u16 (v + k) = v + k) as Eu by (apply u16_small; lia).
  assert (page (v + k) = page v ∧ u8 (v + k) = u8 v + k) as [Epg Eu8].
  { pose proof (page_split (v + k) ltac:(lia)). pose proof (u8_byte (v + k)). lia. }
  destruct (Hst v RK65C02_MMU_FETCH Hv Ho Hn ltac:(by rewrite <- Hp) (v + k) RK65C02_MMU_FETCH)
    as (Ho'&Hpe'&Hp'); [lia|done|].
  unfold translate_spec, answer. rewrite Eu, Ho', Hpe', Hpe, Hp', <- Hp, Eu8, Z.eqb_refl. cbn [negb].
  replace (p - u8 v + (u8 v + k)) with (p + k) by lia. by rewrite (proj2 (Z.leb_gt _ _)) by lia.
Qed.

Lemma tags_contiguous pc len p e : mapped e → word pc → cacheable pc p → p < RK65C02_BUS_SIZE →
  0 < len → pc mod 256 + len ≤ 256 →
  ∃ e1, phys_tags B H pc (u16 (pc + len)) e = (Ret (Some (p, true)), e1).
Proof.
  intros He Hpc Hc Hp Hl Hle. pose proof Hc as (Hx&_&Hlow).
  pose proof (translate_spec_ok _ _ _ _ _ Hty Hpc Hx) as (_&_&_&Hp0).
  unfold phys_tags. erewrite bind_Ret by reflexivity. rewrite (mp_enabled e He), (mp_identity e He). cbn [negb andb].
  destruct (translate_paddr_spec pc RK65C02_MMU_FETCH e He Hpc) as (e1&E1&_&He1).
  cbn [req_perm_cached] in E1. rewrite Hx in E1. cbn [low] in E1.
  replace (p >=? RK65C02_BUS_SIZE) with false in E1 by lia.
  erewrite bind_Ret by exact E1. rewrite !land_255, Hlow, Z.eqb_refl. cbn [andb].
  fold (u8 pc) in Hle. pose proof (page_split pc Hpc). pose proof (u8_byte pc). pose proof (page_byte pc).
  assert (p + len ≤ 65536) as Hfit.
  { unfold RK65C02_BUS_SIZE in Hp. pose proof (page_split p ltac:(lia)). pose proof (page_byte p). lia. }
  assert (u16 (u16 (pc + len) - pc) = len) as El.
  { unfold u16. rewrite Zminus_mod_idemp_l. replace (pc + len - pc) with len by lia. apply Z.mod_small. lia. }
  assert (u16 (u16 (pc + len) - 1) = u16 (pc + (len - 1))) as Ee.
  { unfold u16. rewrite Zminus_mod_idemp_l. f_equal. lia. }
  destruct (Z.eqb_spec (u16 (pc + len)) pc) as [E|_].
  { rewrite E in El. unfold u16 in El. rewrite Z.sub_diag, Z.mod_0_l in El by lia. lia. }
  cbn [negb]. rewrite El, Ee.
  destruct (translate_paddr_spec (u16 (pc + (len - 1))) RK65C02_MMU_FETCH e1 He1 (u16_word _)) as (e2&E2&_).
  cbn [req_perm_cached] in E2.
  rewrite (cacheable_next pc p (len - 1)) in E2 by (done || lia || (unfold RK65C02_PHYS_MAX; fold (u8 pc); lia)).
  cbn [low] in E2. replace (p + (len - 1) >=? RK65C02_BUS_SIZE) with false in E2 by (unfold RK65C02_BUS_SIZE; lia).
  exists e2. erewrite bind_Ret by exact E2. unfold mret, M_ret. do 3 f_equal.
  rewrite u16_small by lia. do 2 f_equal. lia.
Qed.

(** The physical addresses of a block's bytes are among its tags. *)
Lemma emitted_tracked {LI : Lightning} b0 pc len p insns e :
  mapped e → word pc → cacheable pc p → p < RK65C02_BUS_SIZE → 0 < len → pc mod 256 + len ≤ 256 →
  start_pc b0 = pc →
  ∃ tags e1, phys_tags B H pc (u16 (pc + len)) e = (Ret tags, e1) ∧
    let b := emitted B H b0 pc (u16 (pc + len)) tags insns in
    ∀ k, 0 ≤ k < len →
      translate_spec pt (u16 (pc + k)) RK65C02_MMU_FETCH RK65C02_MMU_PERM_X = Xok (p + k) ∧
      phys_tracked (p + k) b = true.
Proof.
  intros He Hpc Hc Hp Hl Hle Hs. destruct (tags_contiguous pc len p e) as (e1&E1); [done..|].
  exists (Some (p, true)), e1. split; [done|]. intros b k Hk. pose proof Hc as (Hx&_).
  pose proof (translate_spec_ok _ _ _ _ _ Hty Hpc Hx) as (_&_&_&Hp0).
  pose proof (Z.mod_pos_bound pc 256). split.
  - apply cacheable_next; [done|done|lia|lia|]. unfold RK65C02_PHYS_MAX, RK65C02_BUS_SIZE in *. lia.
  - unfold phys_tracked, F_paddr, b, emitted, block_phys_addrs.
    cbn [mmu_phys_page_valid mmu_phys_byte_cov mmu_phys_start end_pc_exclusive start_pc].
    rewrite bool_decide_true by eauto. cbn [andb]. apply orb_true_iff. left. apply bool_decide_true.
    apply list_elem_of_fmap. exists k. split; [done|]. apply elem_of_seqZ. rewrite Hs.
    unfold u16. rewrite Zminus_mod_idemp_l. replace (pc + len - pc) with len by lia.
    rewrite Z.mod_small by lia. lia.
Qed.
(** ** Blocks a store leaves *)

Lemma phys_hit_mapped w e : mapped e → word w →
  ∃ h e1, phys_hit B H w e = (Ret h, e1) ∧ tlb_only e e1 ∧ mapped e1 ∧
    (h = None ∨ h = low (translate_spec pt w RK65C02_MMU_WRITE RK65C02_MMU_PERM_W)).
Proof.
  intros He Hw. unfold phys_hit. erewrite bind_Ret by reflexivity. cbv beta.
  destruct (jit e) as [j|] eqn:Ej; [|exists None, e; split_and!; auto using tlb_only_refl].
  destruct (_ =? 0); [exists None, e; split_and!; auto using tlb_only_refl|].
  destruct (translate_paddr_spec w RK65C02_MMU_WRITE e He Hw) as (e1&E1&Ht1&He1).
  erewrite bind_Ret by exact E1. erewrite bind_Ret by reflexivity. eexists _, e1.
  split; [reflexivity|]. split_and!; [done..|]. cbn [req_perm_cached].
  destruct (low _); [|by left]. destruct (jit e1); [|by left]. destruct (_ || _); [by right|by left].
Qed.

Section Stale.
(** The store at [w], made by the interpreter, and a block [b] on another page
    whose tags do not match the physical address it goes to. *)
Context (w val p : Z) (c : nat * Z) (e : rk65c02emu) (j : rk65c02_jit) (i : Z) (b : rk65c02_jit_block).
Context (He : mapped e) (Hw : word w).
Context (Hx : translate_spec pt w RK65C02_MMU_WRITE RK65C02_MMU_PERM_W = Xok p).
Context (Hc : phys_cell (bus e) p = Some c).
Context (Hjit : jit e = Some j) (Hok : cache_ok j) (Hrun : in_jit_run e = false).
Context (Hb : blocks j !! i = Some b) (Hlive : live b = true) (Hpage : page w ≠ page (start_pc b)).
Context (Hmatch : p < RK65C02_BUS_SIZE → phys_match p b = false).

Lemma note_spares e0 : mapped e0 → jit e0 = Some j → in_jit_run e0 = false →
  ∃ e' j', note_guest_write B H w e0 = (Ret tt, e') ∧ jit e' = Some j' ∧ blocks j' !! i = Some b ∧
    mapped e' ∧ bus e' = bus e0.
Proof.
  intros H0 Ej Hr. destruct (co_slot j Hok i b Hb) as [Hsl Hwi]. rewrite <- Hsl in Hwi.
  destruct (other_page b w Hwi (co_block j Hok i b Hb Hlive) Hw Hpage) as [Hv Ho].
  unfold note_guest_write. erewrite bind_Ret by reflexivity. cbv beta. rewrite Ej, (co_magic j Hok), Z.eqb_refl.
  cbn [negb orb]. destruct (_ =? 0); [by exists e0, j|]. cbv zeta.
  destruct (phys_hit_mapped w e0 H0 Hw) as (h&e1&E1&Ht1&H1&Hh). erewrite bind_Ret by exact E1.
  assert (jit e1 = Some j ∧ in_jit_run e1 = false ∧ bus e1 = bus e0) as (Ej1&Hr1&Hb1)
    by (by destruct Ht1 as (?&?&?&->)).
  destruct (negb _ && negb _); [by exists e1, j|].
  set (j1 := put_stats (stats_write_event (stats j)) j). set (pw := mkPending _ _ _).
  exists (set_jit (SY := jit_sys B H) (Some (apply_write j1 pw)) e1), (apply_write j1 pw).
  split; [|split; [done|split; [|split; [by destruct H1|done]]]].
  - unfold mod_jit, modify, get, mbind, M_bind. cbn. rewrite Ej1. cbn. by rewrite Hr1.
  - assert (cache_ok j1) as Hj1 by same_cache j. apply apply_write_spares; [done|done|done| |exact Ho].
    unfold pw. cbn. intros Hs%bool_decide_eq_true. rewrite Hx in Hh.
    destruct Hh as [-> | ->]; [by destruct Hs|]. cbn [low]. destruct (Z.geb_spec p RK65C02_BUS_SIZE) as [Hp|Hp].
    + cbn [low] in Hs. replace (p >=? RK65C02_BUS_SIZE) with true in Hs by lia. by destruct Hs.
    + apply Hmatch. lia.
Qed.

(** The byte has its new value wherever it is mapped, and the block is still in
    the cache with the code it was compiled from. *)
Lemma stale_block v : word v →
  translate_spec pt v RK65C02_MMU_FETCH RK65C02_MMU_PERM_X = Xok p →
  ∃ e' e2 j', rk65c02_mem_write_1 w val e = (Ret tt, e') ∧ jit e' = Some j' ∧ blocks j' !! i = Some b ∧
    rk65c02_mem_fetch_1 v e' = (Ret val, e2).
Proof.
  intros Hv Hxv. destruct (mem_write_mmu_ram pt e w val RK65C02_MMU_WRITE p c) as (e1&Ht1&Hc1&E1);
    [by apply mapped_callback|done|done|apply He|done..|].
  set (e1' := set_bus (phys_write p val (bus e)) e1).
  assert (mapped e1') as H1 by (by apply mapped_bus, (mapped_tlb e)).
  assert (jit e1' = Some j ∧ in_jit_run e1' = false) as [Ej1 Hr1] by (by destruct Ht1 as (?&?&?&->)).
  destruct (note_spares e1' H1 Ej1 Hr1) as (e'&j'&E'&Ej'&Hb'&He'&Hbus).
  destruct (mem_read_mmu_ram pt e' v RK65C02_MMU_FETCH p c) as (e2&_&_&E2);
    [done|by apply mapped_callback|done|done|apply He'|done|done| |].
  { rewrite Hbus. cbn. rewrite phys_write_cell; eauto. }
  exists e', e2, j'. split_and!; [|done|done|].
  - unfold rk65c02_mem_write_1. erewrite bind_Ret by reflexivity. cbv beta. rewrite (mp_write e He).
    cbn [call_mem_write_fn]. erewrite bind_Ret by exact E1. erewrite bind_Ret by reflexivity. cbv beta.
    fold e1'. rewrite Ej1. exact E'.
  - unfold rk65c02_mem_fetch_1. erewrite bind_Ret by reflexivity. cbv beta. rewrite (mp_read e' He').
    cbn [call_mem_read_fn]. rewrite E2. rewrite Hbus. cbn. by rewrite (phys_write_peek _ _ _ _ Hc).
Qed.
End Stale.

(** C26: code in extended memory is not tracked physically.  A block compiled
    from code at a physical address of 64K or more gets no physical tags, and
    stays in the cache when the interpreter stores to that code through a
    virtual address on another page: the byte that is fetched for the block's
    address has the new value, the block has the code compiled from the old one.
    This is for a mapping that keeps the contract of the TLB, and RAM. *)
Theorem extended_alias_stale {LI : Lightning} e0 pc ende tags e1 b0 insns w v val p c e j
    (b := emitted B H b0 pc ende tags insns) :
  (* the block was compiled from extended memory *)
  mapped e0 → word pc →
  (∃ q, translate_spec pt pc RK65C02_MMU_FETCH RK65C02_MMU_PERM_X = Xok q ∧ RK65C02_BUS_SIZE ≤ q) →
  phys_tags B H pc ende e0 = (Ret tags, e1) →
  (* it is in the cache *)
  mapped e → jit e = Some j → cache_ok j → in_jit_run e = false →
  blocks j !! pc = Some b → live b = true →
  (* a byte of the block is stored to through another page *)
  word v → v ∈ block_addrs b → translate_spec pt v RK65C02_MMU_FETCH RK65C02_MMU_PERM_X = Xok p →
  word w → page w ≠ page pc → translate_spec pt w RK65C02_MMU_WRITE RK65C02_MMU_PERM_W = Xok p →
  RK65C02_BUS_SIZE ≤ p → phys_cell (bus e) p = Some c →
  mmu_phys_page_valid b = false ∧
  ∃ e' e2 j', rk65c02_mem_write_1 w val e = (Ret tt, e') ∧ jit e' = Some j' ∧ blocks j' !! pc = Some b ∧
    rk65c02_mem_fetch_1 v e' = (Ret val, e2).
Proof.
  intros He0 Hpc (q&Hq&Hge) Htags He Hj Hok Hr Hb Hl Hv _ Hxv Hw Hpg Hxw Hp Hc.
  assert (tags = None) as ->.
  { unfold phys_tags in Htags. erewrite bind_Ret in Htags by reflexivity.
    rewrite (mp_enabled e0 He0), (mp_identity e0 He0) in Htags. cbn [negb andb] in Htags.
    destruct (translate_paddr_spec pc RK65C02_MMU_FETCH e0 He0 Hpc) as (x&E&_).
    cbn [req_perm_cached] in E. rewrite Hq in E. cbn [low] in E.
    replace (q >=? RK65C02_BUS_SIZE) with true in E by lia. erewrite bind_Ret in Htags by exact E.
    by injection Htags as <- _. }
  split; [done|]. destruct (co_slot j Hok pc b Hb) as [Hs _].
  eapply (stale_block w val p c e j pc b); try done; first [by rewrite Hs | lia].
Qed.

(** C39: code at the top of the 64K.  A block tagged byte by byte whose last
    byte is physical address 0xFFFF stays in the cache when the interpreter
    stores to a byte of it through a virtual address on another page: the end
    of its physical range is computed in 16 bits and is 0, so no address is in
    the range.  The byte that is fetched for the block has the new value, the
    block has the code compiled from the old one.  This is for a mapping that
    keeps the contract of the TLB, and RAM. *)
Theorem top_block_stale w v val p c e j i b :
  mapped e → jit e = Some j → cache_ok j → in_jit_run e = false →
  blocks j !! i = Some b → live b = true → mmu_phys_page_valid b = true → at_top b = true →
  word v → translate_spec pt v RK65C02_MMU_FETCH RK65C02_MMU_PERM_X = Xok p → p ∈ block_phys_addrs b →
  word w → page w ≠ page (start_pc b) →
  translate_spec pt w RK65C02_MMU_WRITE RK65C02_MMU_PERM_W = Xok p → phys_cell (bus e) p = Some c →
  ∃ e' e2 j', rk65c02_mem_write_1 w val e = (Ret tt, e') ∧ jit e' = Some j' ∧ blocks j' !! i = Some b ∧
    rk65c02_mem_fetch_1 v e' = (Ret val, e2).
Proof.
  intros He Hj Hok Hr Hb Hl Hpv [Hcov Htop%Z.eqb_eq]%andb_true_iff Hv Hxv _ Hw Hpg Hxw Hc.
  eapply (stale_block w val p c e j i b); try done. intros Hp. apply phys_match_top; try done.
  pose proof (translate_spec_ok _ _ _ _ _ Hty Hw Hxw) as (_&_&_&?). unfold RK65C02_BUS_SIZE in Hp. lia.
Qed.
End Alias.
