(* ===== verification/JitInvariant.v ===== *)
(** The JIT backend inside the emulator: its cache stays exact through guest
    stores, host invalidations, compilation and the dispatcher, and a store
    leaves no compiled code of the bytes it changed. *)
From stdpp Require Import base numbers list gmap strings.
From S2P Require Import Prelude Types Isa BusSpec State Interfaces Mmu Instruction Emulation.
From S2P Require Import Disasm Debug Exec Invariant Frames JitCache JitEmit Jit JitSpec JitStores.

Lemma count_fewer f j j' : fewer j j' → count f (blocks j') ≤ count f (blocks j).
Proof.
  intros Hf. unfold count. apply inj_le, map_subseteq_size, map_subseteq_spec.
  intros i b Hb. apply map_lookup_filter_Some in Hb as [Hb Hs].
  apply map_lookup_filter_Some. split; [|exact Hs]. apply Hf; [exact Hb|]. by destruct Hs.
Qed.

(** ** Blocks stay on their page *)

Definition span (insns : list jit_block_insn) : Z :=
  foldr (λ bi n, d_size (bi_id bi) + n) 0 insns.

Lemma size_bounds o : byte o → 1 ≤ d_size (instruction_decode o) ≤ 3.
Proof.
  intros Ho. pose proof (byte_forall (λ o, (1 <=? d_size (instruction_decode o)) &&
    (d_size (instruction_decode o) <=? 3)) ltac:(vm_compute; reflexivity) o Ho) as H.
  cbv beta in H. lia.
Qed.

Lemma block_end_span pc insns : block_end_of pc insns = match insns with [] => pc | _ => u16 (pc + span insns) end.
Proof.
  destruct insns as [|bi l]; [done|]. unfold block_end_of. cbn [foldl span foldr]. fold (span l).
  assert (∀ l a, foldl (λ a bi, u16 (a + d_size (bi_id bi))) (u16 a) l = u16 (a + span l)) as H.
  { clear. induction l as [|bi l IH]; intros a; cbn [foldl span foldr].
    - by rewrite Z.add_0_r.
    - fold (span l). replace (u16 (u16 a + d_size (bi_id bi))) with (u16 (a + d_size (bi_id bi)))
        by (unfold u16; by rewrite Zplus_mod_idemp_l).
      rewrite IH. f_equal. lia. }
  rewrite H. f_equal. lia.
Qed.

Lemma page_parts a : word a → a = 256 * (a ≫ 8) + a mod 256 ∧ byte (a ≫ 8) ∧ 0 ≤ a mod 256 < 256.
Proof.
  intros Ha. split; [|split; [by apply shiftr8_byte|apply Z.mod_pos_bound; lia]].
  rewrite shiftr8_div. apply Z.div_mod. lia.
Qed.

(** What [jit_build_block_insns] returns from [pc] on: instructions that fill
    a part of the page of [pc] and do not leave it. *)
Definition on_page (start_pc pc : Z) (insns : list jit_block_insn) : Prop :=
  insns = [] ∨ (pc ≫ 8 = start_pc ≫ 8 ∧ 1 ≤ span insns ∧ pc mod 256 + span insns ≤ 256).

Lemma on_page_cons start pc bi l : word pc → 1 ≤ d_size (bi_id bi) ≤ 3 → pc ≫ 8 = start ≫ 8 →
  u16 (pc + d_size (bi_id bi) - 1) ≫ 8 = start ≫ 8 →
  on_page start (u16 (pc + d_size (bi_id bi))) l → on_page start pc (bi :: l).
Proof.
  intros Hp Hz Hs Hl Hr. right. split; [done|]. cbn [span foldr]. fold (span l).
  destruct (page_parts pc Hp) as (E0&H0&M0).
  assert (pc mod 256 + d_size (bi_id bi) ≤ 256) as Hfit.
  { destruct (Z.lt_ge_cases (pc + d_size (bi_id bi) - 1) 65536) as [Hlt|Hge].
    - rewrite u16_small in Hl by lia.
      destruct (page_parts (pc + d_size (bi_id bi) - 1)) as (E1&H1&M1); [lia|]. lia.
    - unfold u16 in Hl. rewrite <- (Z_mod_plus_full _ (-1)), Z.mod_small in Hl by lia.
      destruct (page_parts (pc + d_size (bi_id bi) - 1 + -1 * 65536)) as (E1&H1&M1); [lia|]. lia. }
  destruct Hr as [->|(Hq&Hq1&Hq2)]; cbn [span foldr]; [lia|].
  destruct (page_parts (u16 (pc + d_size (bi_id bi))) (u16_word _)) as (E1&H1&M1).
  destruct (Z.lt_ge_cases (pc + d_size (bi_id bi)) 65536) as [Hlt|Hge].
  - rewrite u16_small in * by lia. lia.
  - exfalso. unfold u16 in Hq. rewrite <- (Z_mod_plus_full _ (-1)), Z.mod_small in Hq by lia.
    destruct (page_parts (pc + d_size (bi_id bi) + -1 * 65536)) as (E2&H2&M2); lia.
Qed.

Section JitInvariant.
Context (B H : Type).
#[local] Hint Extern 0 Sys => exact (jit_sys B H) : typeclass_instances.
Context {SB : SysBus} {BL : BusLaws sys_bus} {HO : HostOps} {HT : HostTyped}.
#[local] Existing Instance lightning_jit.

(** ** The typing invariant *)

Lemma keeps_mod_jit f : keeps emu_ok (mod_jit B H f) (λ _, True).
Proof. apply keeps_modify; [|done]. intros e []. by split. Qed.
#[local] Hint Resolve keeps_mod_jit keeps_translate_cached : keeps.

Lemma keeps_translate_paddr v a : word v →
  keeps emu_ok (jit_translate_paddr B H v a) (λ r, ∀ p, r = Some p → word p).
Proof.
  intros Hv. unfold jit_translate_paddr. eapply keeps_bind; [by apply keeps_translate_cached|].
  intros p _. apply keeps_ret. intros q. destruct p as [p|]; [|done]. case_match; [done|].
  intros [= <-]. apply u16_word.
Qed.

Lemma keeps_invalidate_with f : keeps emu_ok (invalidate_with B H f) (λ _, True).
Proof.
  unfold invalidate_with. eapply keeps_bind; [apply keeps_gets_any|]. intros j _.
  destruct j; [|by apply keeps_ret]. eapply (keeps_bind _ _ _ (λ _, True)).
  - unfold jit_invalidate_deferred. keeps_auto.
  - intros d _. keeps_auto.
Qed.
#[local] Hint Resolve keeps_invalidate_with : keeps.

#[export] Instance lightning_typed : JitTyped.
Proof.
  split; intros; cbn [rk65c02_jit_note_guest_write rk65c02_jit_flush rk65c02_jit_invalidate_all
    rk65c02_jit_invalidate_code_vpage lightning_jit lightning_flush lightning_invalidate_all
    lightning_invalidate_code_vpage]; try (unfold when_magic; keeps_auto; done).
  unfold note_guest_write. eapply keeps_bind; [apply keeps_gets_any|]. intros j _.
  destruct j as [j|]; [|by apply keeps_ret]. case_match; [by apply keeps_ret|].
  eapply (keeps_bind _ _ _ (λ _, True)).
  - unfold phys_hit. eapply keeps_bind; [apply keeps_gets_any|]. intros j' _.
    destruct j'; [|by apply keeps_ret]. case_match; [by apply keeps_ret|].
    eapply keeps_bind; [by apply keeps_translate_paddr|]. intros p _.
    eapply keeps_bind; [apply keeps_gets_any|]. intros j'' _. by apply keeps_ret.
  - intros p _. keeps_auto.
Qed.

(** ** The cache invariant *)

Definition jit_ok (e : rk65c02emu) : Prop := ∀ j, jit e = Some j → cache_ok j.

(** The cache is exact and its live blocks are among those of [J]. *)
Definition shrunk (J : option rk65c02_jit) (e : rk65c02emu) : Prop :=
  ∀ j, jit e = Some j → cache_ok j ∧ ∃ J0, J = Some J0 ∧ fewer J0 j.

Lemma shrunk_self e : jit_ok e → shrunk (jit e) e.
Proof. intros He j Hj. split; [by apply He|]. exists j. by split. Qed.
Lemma shrunk_ok J e : shrunk J e → jit_ok e.
Proof. intros He j Hj. by destruct (He j Hj). Qed.

(** What the callbacks may do to the backend: those called in the middle of
    memory accesses may invalidate but not compile; the tick and idle callbacks
    may do anything that leaves the cache exact. *)
Class JitHost : Prop := {
  jh_translate J cb ctx v a : keeps (shrunk J) (host_mmu_translate cb ctx v a) (λ _, True);
  jh_fault J cb ctx v a c : keeps (shrunk J) (host_mmu_fault cb ctx v a c) (λ _, True);
  jh_on_stop J cb ctx r : keeps (shrunk J) (host_on_stop cb ctx r) (λ _, True);
  jh_device_read J f d off : keeps (shrunk J) (host_device_read f d off) (λ _, True);
  jh_device_write J f d off v : keeps (shrunk J) (host_device_write f d off v) (λ _, True);
  jh_tick cb ctx : keeps jit_ok (host_tick cb ctx) (λ _, True);
  jh_idle_wait cb ctx : keeps jit_ok (host_idle_wait cb ctx) (λ _, True)
}.
Context {JH : JitHost}.

Lemma keeps_shrunk {T} (m : M T) :
  (∀ J, keeps (shrunk J) m (λ _, True)) → keeps jit_ok m (λ _, True).
Proof.
  intros Hm e He. destruct (Hm (jit e) e (shrunk_self e He)) as [Hs _].
  split; [by eapply shrunk_ok|done].
Qed.

Lemma shrunk_only J e e' : jit e' = jit e → shrunk J e → shrunk J e'.
Proof. intros E Hs j Hj. apply Hs. congruence. Qed.

Lemma shrunk_modify J f : (∀ e, jit (f e) = jit e) → keeps (shrunk J) (modify f) (λ _, True).
Proof. intros Hf. apply keeps_modify; [|done]. intros e. by apply shrunk_only. Qed.

Lemma shrunk_mod_jit J f :
  (∀ j, cache_ok j → cache_ok (f j) ∧ fewer j (f j)) → keeps (shrunk J) (mod_jit B H f) (λ _, True).
Proof.
  intros Hf. apply keeps_modify; [|done]. intros e He j. cbn. destruct (jit e) as [j0|] eqn:Ej; [|done].
  intros [= <-]. destruct (He j0 Ej) as (Hj0&J0&->&HJ). destruct (Hf j0 Hj0) as [H1 H2].
  split; [done|]. exists J0. split; [done|]. by etransitivity.
Qed.

Lemma shrunk_gets J {T} (f : rk65c02emu → T) : keeps (shrunk J) (gets f) (λ _, True).
Proof. by apply keeps_gets. Qed.
Lemma shrunk_get J : keeps (shrunk J) get (λ _, True).
Proof. intros e He. by split. Qed.
#[local] Hint Resolve shrunk_gets shrunk_get jh_translate : keeps.
#[local] Hint Extern 1 (keeps (shrunk _) (modify _) _) => apply shrunk_modify; done : keeps.

Lemma shrunk_translate_addr J v a p : keeps (shrunk J) (rk65c02_mmu_translate_addr v a p) (λ _, True).
Proof. unfold rk65c02_mmu_translate_addr. keeps_auto. Qed.
#[local] Hint Resolve shrunk_translate_addr : keeps.
Lemma shrunk_translate_paddr J v a : keeps (shrunk J) (jit_translate_paddr B H v a) (λ _, True).
Proof.
  unfold jit_translate_paddr. eapply (keeps_bind _ _ _ (λ _, True)); [|intros; by apply keeps_ret].
  unfold rk65c02_mmu_translate_cached. keeps_auto.
Qed.
#[local] Hint Resolve shrunk_translate_paddr : keeps.

Lemma shrunk_note J a : keeps (shrunk J) (note_guest_write B H a) (λ _, True).
Proof.
  unfold note_guest_write. eapply keeps_bind; [apply shrunk_gets|]. intros j _.
  destruct j as [j|]; [|by apply keeps_ret]. case_match; [by apply keeps_ret|].
  eapply (keeps_bind _ _ _ (λ _, True)).
  - unfold phys_hit. eapply keeps_bind; [apply shrunk_gets|]. intros j' _.
    destruct j'; [|by apply keeps_ret]. case_match; [by apply keeps_ret|].
    eapply keeps_bind; [apply shrunk_translate_paddr|]. intros p _.
    eapply keeps_bind; [apply shrunk_gets|]. intros j'' _. by apply keeps_ret.
  - intros p _. case_match; [by apply keeps_ret|].
    apply keeps_seq; [apply shrunk_mod_jit; intros j0 Hj0; split; [same_cache j0|by intros i b]|intros []].
    eapply keeps_bind; [apply shrunk_get|]. intros e _. case_match.
    + apply keeps_seq; [by apply shrunk_modify|intros []]. apply shrunk_mod_jit. intros j0 Hj0.
      by apply record_write_ok.
    + apply shrunk_mod_jit. intros j0 Hj0. by destruct (apply_write_ok j0
        (mkPending a (bool_decide (is_Some p)) (default 0 p)) Hj0) as (?&?&_).
Qed.

#[export] Instance shrunk_frame J : Frame (shrunk J).
Proof.
  split; [|apply jh_translate|apply jh_fault|apply jh_on_stop|apply jh_device_read
    |apply jh_device_write|apply shrunk_note].
  intros e e' _ E _. by apply shrunk_only.
Qed.

#[export] Instance jit_ok_free : FreePc jit_ok.
Proof.
  split; [split|..].
  - intros e e' _ E _ He j Hj. apply He. congruence.
  - intros. apply keeps_shrunk. intros. apply jh_translate.
  - intros. apply keeps_shrunk. intros. apply jh_fault.
  - intros. apply keeps_shrunk. intros. apply jh_on_stop.
  - intros. apply keeps_shrunk. intros. apply jh_device_read.
  - intros. apply keeps_shrunk. intros. apply jh_device_write.
  - intros. apply keeps_shrunk. intros. apply shrunk_note.
  - intros e e' E _ He j Hj. apply He. congruence.
  - apply jh_tick.
  - apply jh_idle_wait.
Qed.

Lemma shrunk_jit_modify f : (∀ e, jit (f e) = jit e) → keeps jit_ok (modify f) (λ _, True).
Proof. intros Hf. apply keeps_modify; [|done]. intros e He j Hj. apply He. by rewrite <- Hf. Qed.

(** ** Compilation *)

Definition inv (J : option rk65c02_jit) (e : rk65c02emu) : Prop := emu_ok e ∧ shrunk J e.

Lemma inv_gets J {T} (f : rk65c02emu → T) : keeps (inv J) (gets f) (λ _, True).
Proof. by apply keeps_gets. Qed.

Lemma inv_fetch J a : word a → keeps (inv J) (instruction_fetch_emu a) instruction_ok.
Proof.
  intros Ha. eapply keeps_weaken; [apply keeps_and; [by apply keeps_fetch_emu|
    apply (frame_fetch_emu (shrunk J))]|]. by intros i [].
Qed.

(** What [jit_build_block_insns] builds from [pc] on. *)
Definition built (n : nat) (start pc : Z) (insns : list jit_block_insn) : Prop :=
  on_page start pc insns ∧ (length insns ≤ n)%nat ∧ Forall decoded insns.

Lemma built_nil n start pc : built n start pc [].
Proof. split; [by left|]. split; [simpl; lia|constructor]. Qed.
#[local] Hint Resolve built_nil : core.

Lemma inv_build J n start pc : word pc →
  keeps (inv J) (build_loop B H n start pc) (built n start pc).
Proof.
  revert pc. induction n as [|n IH]; intros pc Hpc; cbn [build_loop]; [by apply keeps_ret|].
  destruct (Z.eqb_spec (pc ≫ 8) (start ≫ 8)) as [Es|_]; cbn [negb]; [|by apply keeps_ret].
  eapply keeps_bind; [by apply inv_fetch|]. intros i Hi. pose proof Hi as (Ho&_&_).
  eapply keeps_bind; [apply inv_gets|]. intros s _. case_match; [by apply keeps_ret|].
  pose proof (size_bounds _ Ho) as Hz. cbv zeta.
  destruct (Z.eqb_spec (u16 (pc + d_size (instruction_decode (i_opcode i)) - 1) ≫ 8) (start ≫ 8))
    as [El|_]; cbn [negb]; [|by apply keeps_ret].
  set (bi := mkBlockInsn i (instruction_decode (i_opcode i))).
  assert (decoded bi) as Hd by (by split).
  assert (∀ l, built n start (u16 (pc + d_size (bi_id bi))) l → built (S n) start pc (bi :: l)) as Hcons.
  { intros l (Hl&Hn&Hf). split; [by apply on_page_cons|]. split; [simpl; lia|by constructor]. }
  assert (keeps (inv J) (rest ← build_loop B H n start (u16 (pc + d_size (bi_id bi)));
    mret (bi :: rest)) (built (S n) start pc)) as Hmore.
  { eapply keeps_bind; [apply IH, u16_word|]. intros l Hl. apply keeps_ret. by apply Hcons. }
  assert (built (S n) start pc [bi]) as Hone by (by apply Hcons).
  repeat case_match; try exact Hmore; by apply keeps_ret.
Qed.

Lemma inv_translate_paddr J v a : word v →
  keeps (inv J) (jit_translate_paddr B H v a) (λ r, ∀ p, r = Some p → word p).
Proof.
  intros Hv. eapply keeps_weaken;
    [apply keeps_and; [by apply keeps_translate_paddr|apply shrunk_translate_paddr]|]. by intros r [].
Qed.

(** The tags name physical addresses below 64K; byte tracking needs the
    mapping to keep the offset in the page. *)
Definition tags_ok (pc : Z) (tags : option (Z * bool)) : Prop :=
  ∀ ps cov, tags = Some (ps, cov) → word ps ∧ (cov = true → ps mod 256 = pc mod 256).

Lemma inv_phys_tags J pc block_end : word pc → keeps (inv J) (phys_tags B H pc block_end) (tags_ok pc).
Proof.
  intros Hpc. unfold phys_tags. eapply (keeps_bind _ _ _ (λ _, True)); [by intros e He|].
  intros e _. case_match; [|by apply keeps_ret].
  eapply keeps_bind; [by apply inv_translate_paddr|]. intros p Hp.
  destruct p as [ps|]; [|by apply keeps_ret]. specialize (Hp ps eq_refl).
  case_match eqn:E; [|apply keeps_ret; by intros ? ? [= <- <-]].
  eapply keeps_bind; [apply inv_translate_paddr, u16_word|]. intros q _. apply keeps_ret.
  intros ps' cov [= <- _]. split; [done|]. intros _.
  rewrite !land_255 in E. unfold u8 in E. lia.
Qed.

Context {LI : Lightning}.

Lemma emitted_ok b pc insns tags : start_pc b = pc → word pc →
  built JIT_BLOCK_MAX_INSNS pc pc insns → insns ≠ [] →
  tags_ok pc tags → block_ok (emitted B H b pc (block_end_of pc insns) tags insns).
Proof.
  intros Hs Hpc ([Hn|(_&H1&H2)]&Hl&Hf) Hne Ht; [done|]. rewrite block_end_span.
  destruct insns as [|bi l]; [done|]. set (n := span (bi :: l)) in *.
  assert (u16 (u16 (pc + n) - pc) = n) as El.
  { unfold u16. rewrite Zminus_mod_idemp_l. replace (pc + n - pc) with n by lia.
    apply Z.mod_small. pose proof (Z.mod_pos_bound pc 256). lia. }
  split; cbn [emitted end_pc_exclusive start_pc mmu_phys_page_valid mmu_phys_byte_cov mmu_phys_start];
    rewrite ?Hs.
  - apply u16_word.
  - rewrite El. lia.
  - destruct tags as [[ps cov]|]; [|done]. intros _ Hcov. destruct (Ht ps cov eq_refl) as [? Hm].
    split; [done|auto].
  - intros l0. cbn [fn emitted]. destruct (jit_emit _); [|done]. intros [= <-]. by split.
Qed.

(** A block without code in a slot without code counts for nothing. *)
Lemma put_dead_ok pc b j : cache_ok j → (∀ b0, blocks j !! pc = Some b0 → live b0 = false) →
  live b = false → start_pc b = pc → word pc →
  cache_ok (put_blocks (<[pc := b]> (blocks j)) j) ∧ fewer j (put_blocks (<[pc := b]> (blocks j)) j).
Proof.
  intros [Hm Hsl Hbl Ha Hc Ht H1 H2 H3 H4 H5] Hd Hl Hs Hw.
  assert (∀ f, count f (<[pc := b]> (blocks j)) = count f (blocks j)) as Hcnt
    by (intros f; by apply count_dead).
  split.
  - split; cbn [magic blocks active_blocks compiled_phys_refs_total covered_addr_refcnt
      compiled_page_refcnt covered_phys_addr_refcnt compiled_phys_page_refcnt
      compiled_code_page_refcnt put_blocks]; try done; unfold small, tracks;
      try setoid_rewrite Hcnt; try done; intros i b0 Hi; destruct (decide (i = pc)) as [->|].
    + rewrite lookup_insert_eq in Hi. by simplify_eq.
    + rewrite lookup_insert_ne in Hi by done. by apply Hsl.
    + rewrite lookup_insert_eq in Hi. intros Hl0. simplify_eq. congruence.
    + rewrite lookup_insert_ne in Hi by done. by apply (Hbl i).
  - intros i b0 Hi Hl0. cbn in Hi. destruct (decide (i = pc)) as [->|].
    + rewrite lookup_insert_eq in Hi. simplify_eq. congruence.
    + by rewrite lookup_insert_ne in Hi by done.
Qed.

Lemma install_ok pc b j : cache_ok j → active_blocks j < JIT_MAX_ACTIVE_BLOCKS →
  (∀ b0, blocks j !! pc = Some b0 → live b0 = false) → start_pc b = pc → word pc → block_ok b →
  cache_ok (install pc b j).
Proof.
  intros Hj Hlt Hd Hs Hw Hb. unfold install. destruct (live b) eqn:Hl.
  - pose proof (install_counts_ok j pc b Hj Hlt Hd Hl Hs Hw Hb) as Hc.
    destruct (refs_update_rest (put_blocks (<[pc := b]> (blocks j)) j) b true) as (_&_&Ha&_).
    cbv zeta. rewrite Ha.
    generalize dependent (jit_block_page_refs_update (put_blocks (<[pc:=b]> (blocks j)) j) b true).
    intros j1 Hc _. eapply (cache_ok_rest _ _ Hc); reflexivity.
  - by apply put_dead_ok.
Qed.

(** A state in which the slot of [pc] holds no code and there is room. *)
Definition vacant (pc : Z) (j : rk65c02_jit) : Prop :=
  (∀ b, blocks j !! pc = Some b → live b = false) ∧ active_blocks j < JIT_MAX_ACTIVE_BLOCKS.

Lemma vacant_fewer pc j j' : cache_ok j → cache_ok j' → fewer j j' → vacant pc j → vacant pc j'.
Proof.
  intros Hj Hj' Hf [Hd Hlt]. split.
  - intros b Hb. destruct (live b) eqn:Hl; [|done]. rewrite (Hd b) in Hl; [done|]. by apply Hf.
  - rewrite (co_active j' Hj'). rewrite (co_active j Hj) in Hlt. pose proof (count_fewer (λ _, true) j j' Hf). lia.
Qed.

(** The state of the emulator between dispatches. *)
Definition ready (e : rk65c02emu) : Prop := emu_ok e ∧ jit_ok e.

Lemma inv_ready J e : inv J e → ready e.
Proof. intros [He Hs]. split; [done|by eapply shrunk_ok]. Qed.

Lemma ready_mod_jit f : (∀ j, cache_ok j → cache_ok (f j)) → keeps ready (mod_jit B H f) (λ _, True).
Proof.
  intros Hf. apply keeps_modify; [|done]. intros e [[] Hj]. split; [by split|].
  intros j. cbn. destruct (jit e) as [j0|] eqn:Ej; [|done]. intros [= <-]. by apply Hf, Hj.
Qed.

(** Decoding, tagging and installing, from a cache with a vacant slot. *)
Lemma ready_build_install pc j e : word pc → cache_ok j → vacant pc j → inv (Some j) e →
  ready ((insns ← jit_build_block_insns B H pc JIT_BLOCK_MAX_INSNS;
    match insns with
    | [] => mret None
    | _ =>
        let block_end := block_end_of pc insns in
        tags ← phys_tags B H pc block_end;
        mod_jit B H (λ j, install pc
          (emitted B H (default (new_block pc) (blocks j !! pc)) pc block_end tags insns) j);;
        mret (Some pc)
    end) e).2.
Proof.
  intros Hpc Hj Hv He. eapply (keeps_then (inv (Some j)) ready); [by apply inv_build| |..|done].
  { intros e' He'. by eapply inv_ready. }
  clear e He. intros insns e Hi He. destruct insns as [|bi l]; [by eapply inv_ready|].
  cbv zeta. eapply (keeps_then (inv (Some j)) ready); [by apply inv_phys_tags| |..|done].
  { intros e' He'. by eapply inv_ready. }
  clear e He. intros tags e Ht [He Hs].
  match goal with |- context [mod_jit B H ?f] => set (g := f) end.
  change (ready (set_jit (g <$> jit e) e)). split; [by destruct He; split|].
  intros j' Ej'. cbn [jit set_jit] in Ej'. destruct (jit e) as [j0|] eqn:Ej; [|done].
  injection Ej' as <-.
  destruct (Hs j0 Ej) as (Hj0&J0&[= <-]&Hf).
  destruct (vacant_fewer pc j j0 Hj Hj0 Hf Hv) as [Hd Hlt].
  assert (start_pc (default (new_block pc) (blocks j0 !! pc)) = pc) as Hsp.
  { destruct (blocks j0 !! pc) as [b|] eqn:Eb; [|done]. by apply (co_slot j0 Hj0). }
  apply install_ok; try done. by apply emitted_ok.
Qed.

Lemma ready_compile_block pc e : word pc → ready e →
  (∀ j, jit e = Some j → vacant pc j) → ready (jit_compile_block B H pc e).2.
Proof.
  intros Hpc [He Hj] Hv. unfold jit_compile_block. erewrite bind_Ret by reflexivity. cbv beta.
  destruct (jit e) as [j|] eqn:Ej; [|by split].
  pose proof (Hv j eq_refl) as Hvac. pose proof Hvac as [Hd Hlt]. pose proof (Hj j Ej) as Hjok.
  rewrite (co_magic j Hjok), Z.eqb_refl. cbn [negb].
  replace (match blocks j !! pc with Some b => live b | None => false end) with false
    by (destruct (blocks j !! pc) as [b|]; [by rewrite (Hd b)|done]).
  destruct (blocks j !! pc) as [b|] eqn:Eb.
  - erewrite bind_Ret by reflexivity. apply (ready_build_install pc j e Hpc Hjok Hvac).
    split; [exact He|]. intros j' Ej'. rewrite Ej in Ej'. injection Ej' as <-.
    split; [exact Hjok|]. eexists. split; reflexivity.
  - destruct (put_dead_ok pc (new_block pc) j Hjok) as [H1 H2]; try done; [by rewrite Eb|].
    erewrite bind_Ret by reflexivity.
    apply (ready_build_install pc (put_blocks (<[pc := new_block pc]> (blocks j)) j)); try done.
    + eapply vacant_fewer; [exact Hjok|exact H1|exact H2|exact Hvac].
    + split; [by destruct He; split|]. intros j' Ej'. cbn [jit set_jit] in Ej'. rewrite Ej in Ej'. injection Ej' as <-.
      split; [exact H1|]. eexists. split; reflexivity.
Qed.

(** ** The dispatcher *)

(** Running the native code of a block, with the stores and callbacks it makes,
    leaves the emulator well-formed. *)
Class NativeOk : Prop :=
  native_ok pc insns e : (length insns ≤ JIT_BLOCK_MAX_INSNS)%nat → Forall decoded insns →
    jit_loop_budget e = JIT_LOOP_BUDGET → ready e → ready (native_exec (jit_emit_block pc insns) e).2.
Context {NO : NativeOk}.

Lemma ready_both {T} (m : M T) :
  keeps emu_ok m (λ _, True) → keeps jit_ok m (λ _, True) → keeps ready m (λ _, True).
Proof. intros H1 H2. eapply keeps_weaken; [by apply keeps_and|done]. Qed.

Lemma ready_get : keeps ready get ready.
Proof. intros e He. split; [done|]. by intros ? [= <-]. Qed.
Lemma ready_gets {T} (f : rk65c02emu → T) : keeps ready (gets f) (λ _, True).
Proof. by apply keeps_gets. Qed.
Lemma ready_exec : keeps ready rk65c02_exec (λ _, True).
Proof. apply ready_both; [apply keeps_exec|apply free_exec; apply _]. Qed.
Lemma ready_poll : keeps ready rk65c02_poll_host_controls (λ _, True).
Proof. apply ready_both; [apply keeps_poll|apply free_poll; apply _]. Qed.
Lemma ready_wait : keeps ready rk65c02_maybe_wait_on_idle (λ _, True).
Proof. apply ready_both; [apply keeps_wait_on_idle|apply free_wait; apply _]. Qed.
Lemma ready_interp fuel : keeps ready (interp_loop fuel) (λ _, True).
Proof. apply ready_both; [apply keeps_interp_loop|apply free_interp_loop; apply _]. Qed.
#[local] Hint Resolve ready_get ready_gets ready_exec ready_poll ready_wait ready_interp : keeps.
#[local] Hint Extern 1 (keeps ready (modify _) _) =>
  apply ready_both; [keeps_field|by refine (shrunk_jit_modify _ _)] : keeps.

Lemma ready_stats f : keeps ready (mod_jit B H (λ j, put_stats (f (stats j)) j)) (λ _, True).
Proof. apply ready_mod_jit. intros j Hj. same_cache j. Qed.
Lemma flush_ok j : cache_ok j → cache_ok (jit_backend_flush j).
Proof. intros Hj. by destruct (backend_flush_ok j (co_magic j Hj) (co_slot j Hj)). Qed.
Lemma ready_flush : keeps ready (mod_jit B H jit_backend_flush) (λ _, True).
Proof. apply ready_mod_jit, flush_ok. Qed.
Lemma ready_page p : keeps ready (mod_jit B H (λ j, jit_invalidate_blocks_for_page j p)) (λ _, True).
Proof. apply ready_mod_jit. intros j Hj. by destruct (invalidate_page_ok j p Hj). Qed.
#[local] Hint Extern 1 (keeps ready (mod_jit _ _ jit_backend_flush) _) => apply ready_flush : keeps.
#[local] Hint Extern 1 (keeps ready (mod_jit _ _ (λ j, put_stats _ j)) _) => apply ready_stats : keeps.
#[local] Hint Extern 1 (keeps ready (mod_jit _ _ (λ j, jit_invalidate_blocks_for_page j _)) _) =>
  apply ready_page : keeps.

Lemma ready_use_jit f : keeps ready (modify (λ e, set_use_jit (f e) e)) (λ _, True).
Proof. apply ready_both; [keeps_field|by refine (shrunk_jit_modify _ _)]. Qed.
#[local] Hint Resolve ready_use_jit : keeps.

Lemma ready_after_writes (d x : bool) : keeps ready
  ((if x && negb d then mod_jit B H (λ j, put_stats (stats_run_disabled (stats j)) j) else mret tt);;
   modify (λ e, set_use_jit (if d || x then false else jit_requested e) e);; mret (d || x)) (λ _, True).
Proof. keeps_auto. Qed.

Lemma ready_process_writes d : keeps ready (process_writes B H d) (λ _, True).
Proof.
  unfold process_writes. intros e [He Hj]. erewrite bind_Ret by reflexivity. cbv beta.
  destruct (jit e) as [j|] eqn:Ej; [|by split; [split|]]. case_match; [|by split; [split|]].
  pose proof (process_pending_ok j (Hj j Ej)) as (Hok&_).
  destruct (jit_process_pending_writes j) as [x j'] eqn:Ep. cbn [snd] in Hok.
  erewrite bind_Ret by reflexivity.
  assert (ready (set_jit (Some j') e)) as He'.
  { split; [by destruct He; split|]. intros j0. cbn. by intros [= <-]. }
  exact (ready_after_writes d x _ He').
Qed.
#[local] Hint Resolve ready_process_writes : keeps.

Lemma ready_process_flush d : keeps ready (process_flush B H d) (λ _, True).
Proof. unfold process_flush. keeps_auto. Qed.

Lemma ready_fn pc b j e : cache_ok j → blocks j !! pc = Some b →
  jit_loop_budget e = JIT_LOOP_BUDGET → ready e →
  ready (match fn b with
         | Some insns => native_exec (jit_emit_block (start_pc b) insns)
         | None => assert_fail
         end e).2.
Proof.
  intros Hj Hb He Hr. destruct (fn b) as [insns|] eqn:Ef; [|done].
  destruct (bo_code b) with (insns := insns) as [Hl Hd]; [|done|by apply native_ok].
  apply (co_block j Hj pc b Hb). unfold live. by rewrite Ef.
Qed.

Lemma ready_after {T} (m : M T) (k : T → M unit) e : ready (m e).2 →
  (∀ a, keeps ready (k a) (λ _, True)) → ready ((x ← m; k x) e).2.
Proof.
  intros Hm Hk. unfold mbind, M_bind. destruct (m e) as [[a| | |] e']; try done.
  by destruct (Hk a e' Hm).
Qed.

Lemma ready_call_block pc : keeps ready (call_block B H pc) (λ _, True).
Proof.
  unfold call_block. intros e He. erewrite bind_Ret by reflexivity. cbv beta.
  destruct (jit e) as [j|] eqn:Ej; [|by split]. destruct (blocks j !! pc) as [b|] eqn:Eb; [|by split].
  destruct (ready_stats (stats_block_executed (num_insns b)) e He) as [He1 _].
  do 3 (erewrite bind_Ret by reflexivity). split; [|done].
  apply ready_after; [|intros _; keeps_auto].
  apply (ready_fn pc b j); [by apply He|done|done|]. destruct He1 as [[] ?]. by split.
Qed.

Lemma ready_catch m : keeps ready m (λ _, True) → keeps ready (catch B H m) (λ _, True).
Proof.
  intros Hm e He. destruct (Hm e He) as [He' _]. unfold catch. by destruct (m e) as [[] ?].
Qed.

Lemma ready_mapping_current pc : word pc → keeps ready (mapping_current B H pc) (λ _, True).
Proof.
  intros Hpc. unfold mapping_current. eapply keeps_bind; [apply ready_gets|]. intros j _.
  destruct j as [j|]; [|by apply keeps_ret]. case_match; [|by apply keeps_ret].
  case_match; [by apply keeps_ret|]. eapply (keeps_bind _ _ _ (λ _, True)); [|intros; by apply keeps_ret].
  apply ready_both; [eapply keeps_weaken; [by apply keeps_translate_paddr|done]|].
  apply keeps_shrunk. intros. apply shrunk_translate_paddr.
Qed.
#[local] Hint Resolve ready_process_flush ready_call_block ready_catch ready_mapping_current : keeps.

Lemma flushed_vacant pc j : cache_ok j → vacant pc (jit_backend_flush j).
Proof.
  intros Hj. split.
  - intros b Hb. destruct (live b) eqn:Hl; [|done].
    by pose proof (flushed_no_block (λ _, true) j Hj pc b Hb Hl).
  - rewrite (co_active _ (flush_ok j Hj)).
    rewrite (proj2 (count_zero _ _)); [done|]. exact (flushed_no_block (λ _, true) j Hj).
Qed.

Lemma ready_compile_capped pc e : word pc → ready e → live_at (jit e) pc = false →
  ready (compile_capped B H pc e).2.
Proof.
  intros Hpc He Hlv. unfold compile_capped. erewrite bind_Ret by reflexivity. cbv beta.
  destruct (jit e) as [j|] eqn:Ej.
  - pose proof (proj2 He j Ej) as Hj. destruct (active_blocks j >=? JIT_MAX_ACTIVE_BLOCKS) eqn:Ea.
    + erewrite bind_Ret by reflexivity. apply ready_compile_block; [done| |].
      * by destruct (ready_flush e He).
      * intros j' Ej'. cbn [jit set_jit] in Ej'. rewrite Ej in Ej'. injection Ej' as <-.
        by apply flushed_vacant.
    + erewrite bind_Ret by reflexivity. apply ready_compile_block; [done|done|].
      intros j' Ej'. rewrite Ej in Ej'. injection Ej' as <-. split; [|lia].
      intros b Hb. unfold live_at, jit_find_block in Hlv.
      by rewrite (co_magic j Hj), Z.eqb_refl, Hb in Hlv.
  - erewrite bind_Ret by reflexivity. apply ready_compile_block; [done|done|]. by rewrite Ej.
Qed.

Lemma ready_find pc {T} (k : bool → option Z → M T) Q : word pc →
  (∀ had b, keeps ready (k had b) Q) →
  keeps ready (had ← gets (λ e, live_at (jit e) pc);
    b ← (if had : bool then mret (Some pc) else compile_capped B H pc); k had b) Q.
Proof.
  intros Hpc Hk e He. erewrite bind_Ret by reflexivity. cbv beta.
  destruct (live_at (jit e) pc) eqn:El; [by apply Hk|].
  pose proof (ready_compile_capped pc e Hpc He El) as Hc. unfold mbind, M_bind.
  destruct (compile_capped B H pc e) as [[b| | |] e']; cbn [snd] in Hc; [by apply Hk|..];
    by split.
Qed.

Lemma ready_jit_loop fuel d : keeps ready (jit_loop B H fuel d) (λ _, True).
Proof.
  revert d. induction fuel as [|n IH]; intros d; cbn [jit_loop]; [by apply keeps_no_fuel|].
  eapply keeps_bind; [apply ready_gets|]. intros r _. destruct r; cbn [negb]; [|by apply keeps_ret].
  apply keeps_seq; [apply ready_poll|intros []].
  eapply keeps_bind; [apply ready_gets|]. intros r _. destruct r; cbn [negb]; [|keeps_auto].
  eapply keeps_bind; [apply ready_get|]. intros e [[[_ _ _ Hpc _ _] _ _ _ _ _ _] _].
  cbv zeta. do 4 (match goal with |- keeps _ (if ?c then _ else _) _ => destruct c end; [keeps_auto|]).
  apply ready_find; [done|]. intros had b.
  eapply keeps_bind; [apply ready_gets|]. intros r _. case_match; [keeps_auto|]. keeps_auto.
Qed.

Lemma ready_run_jit fuel : keeps ready (rk65c02_run_jit B H fuel) (λ _, True).
Proof.
  unfold rk65c02_run_jit. eapply keeps_bind; [apply ready_get|]. intros e0 _.
  case_match; [keeps_auto|]. apply keeps_seq; [keeps_auto|intros []].
  apply keeps_seq; [|intros []; apply ready_jit_loop]. apply ready_mod_jit. intros j Hj0. same_cache j.
Qed.

(** The bookkeeping of the JIT backend is exact throughout a run.  From an
    exact cache, [rk65c02_run_jit] ends with one, whatever its outcome. *)
Theorem run_jit_cache_exact fuel e :
  emu_ok e → jit_ok e →
  emu_ok (rk65c02_run_jit B H fuel e).2 ∧ jit_ok (rk65c02_run_jit B H fuel e).2.
Proof. intros He Hj. exact (proj1 (ready_run_jit fuel e (conj He Hj))). Qed.

End JitInvariant.
