(* ===== verification/JitExact.v ===== *)
(** Native code does what the interpreter does.

    [interp_step] states what the code of one instruction of a block has to do,
    in terms of the interpreter's routines; [native_insn_exact] proves that the
    nodes [jit_emit_insn] emits do exactly that, on any bus, behind any MMU and
    with any callbacks that leave the registers alone, faults included.  The
    code for BIT reads a memory operand once where [emul_bit] reads it twice;
    [insn_step] is the step with one read, which the emitted code has without
    a condition on the operand. *)
From stdpp Require Import base numbers list gmap strings.
From S2P Require Import Prelude Types Isa BusSpec State Interfaces Mmu Instruction Emulation.
From S2P Require Import Disasm Debug Exec IsaSpec Invariant Runs IsaArith Decimal.
From S2P Require Import JitCache JitEmit Jit JitSpec JitInvariant JitNative.

Section Exact.
Context (B H : Type).
#[local] Hint Extern 0 Sys => exact (jit_sys B H) : typeclass_instances.
Context {SB : SysBus} {BL : BusLaws sys_bus} {HO : HostOps} {HT : HostTyped}.
#[local] Existing Instance lightning_jit.

(** ** States in which native code runs *)

(** What a memory access inside a block leaves alone. *)
Record undisturbed (e0 e : rk65c02emu) : Prop := {
  un_regs : regs e = regs e0;
  un_in_jit : in_jit_run e = in_jit_run e0;
  un_reexec : mmu_fault_reexec e = mmu_fault_reexec e0;
  un_jit : is_Some (jit e0) → is_Some (jit e)
}.

(** The host's page tables are looked up, and its devices run, without touching
    the processor, and a fault handler does not pretend that no block is
    running. *)
Class NativeHost : Prop := {
  nh_translate cb ctx v a e0 :
    keeps (undisturbed e0) (host_mmu_translate cb ctx v a) (λ _, True);
  nh_device_read f d off e0 : keeps (undisturbed e0) (host_device_read f d off) (λ _, True);
  nh_device_write f d off v e0 : keeps (undisturbed e0) (host_device_write f d off v) (λ _, True);
  nh_fault cb ctx v a c : keeps (λ e, in_jit_run e = true) (host_mmu_fault cb ctx v a c) (λ _, True)
}.
Context {NH : NativeHost}.

Record native_ready (e : rk65c02emu) : Prop := {
  nr_ok : emu_ok e;
  nr_in_jit : in_jit_run e = true;
  nr_reexec : mmu_fault_reexec e = false;
  nr_jit : is_Some (jit e)
}.

Lemma undisturbed_refl e : undisturbed e e.
Proof. by split. Qed.
Lemma undisturbed_ready e0 e : native_ready e0 → undisturbed e0 e → emu_ok e → native_ready e.
Proof. intros [] [] He. split; try congruence; auto. Qed.
Lemma ready_regs e r : native_ready e → regs_ok r → native_ready (set_regs r e).
Proof. intros [[] ? ? ?] Hr. by split. Qed.
Lemma ready_byte_regs e : native_ready e → regs_ok (regs e).
Proof. intros [[] ? ? ?]. done. Qed.

#[local] Hint Extern 1 (keeps (undisturbed _) (modify _) _) =>
  apply (keeps_modify _ _ (λ _, True)); [|exact I]; intros ? []; by split : keeps.
#[local] Hint Extern 1 (keeps (undisturbed _) (gets _) _) =>
  apply (keeps_gets _ _ (λ _, True)); done : keeps.
#[local] Hint Extern 1 (keeps (undisturbed _) get _) =>
  (intros ? ?; split; [assumption|]; intros; exact I) : keeps.
#[local] Hint Resolve nh_translate nh_device_read nh_device_write : keeps.

Lemma undisturbed_bus_read e0 a : keeps (undisturbed e0) (core_bus_read_1 a) (λ _, True).
Proof. unfold core_bus_read_1, device_read. keeps_auto. Qed.
Lemma undisturbed_bus_read_phys e0 a : keeps (undisturbed e0) (core_bus_read_1_phys a) (λ _, True).
Proof. unfold core_bus_read_1_phys, device_read. keeps_auto. Qed.
Lemma undisturbed_bus_write e0 a v : keeps (undisturbed e0) (core_bus_write_1 a v) (λ _, True).
Proof. unfold core_bus_write_1, device_write. keeps_auto. Qed.
Lemma undisturbed_bus_write_phys e0 a v :
  keeps (undisturbed e0) (core_bus_write_1_phys a v) (λ _, True).
Proof. unfold core_bus_write_1_phys, device_write. keeps_auto. Qed.

(** Computations that disturb nothing, by the result they end with. *)
Lemma undisturbed_end {T} (p : M T) e0 e x e1 :
  keeps (undisturbed e0) p (λ _, True) → undisturbed e0 e → p e = (Ret x, e1) → undisturbed e0 e1.
Proof. intros Hp He E. destruct (Hp e He) as [Hu _]. by rewrite E in Hu. Qed.

Lemma undisturbed_translate e0 v a p :
  keeps (undisturbed e0) (rk65c02_mmu_translate_addr v a p) (λ _, True).
Proof. unfold rk65c02_mmu_translate_addr. keeps_auto. Qed.

(** A fault inside a block leaves it. *)
Lemma fault_longjmps v a c e : in_jit_run e = true →
  ∀ x e1, rk65c02_mmu_fault v a c e ≠ (Ret x, e1).
Proof.
  intros He x e1 E. unfold rk65c02_mmu_fault in E.
  do 6 erewrite bind_Ret in E by reflexivity. cbv beta in E.
  apply bind_Ret_inv in E as (u&e2&E&E2).
  assert (in_jit_run e2 = true) as Hin.
  { change (snd (Ret u, e2 : rk65c02emu)) with e2.
    match type of E with ?p = (Ret u, e2) => change e2 with (snd (Ret u, e2)); rewrite <- E end.
    case_match; [|done]. apply nh_fault. done. }
  unfold emu_stop_error in E2. do 5 erewrite bind_Ret in E2 by reflexivity. cbv beta in E2.
  cbn [in_jit_run set_state set_stopreason set_stop_requested] in E2. by rewrite Hin in E2.
Qed.

Lemma native_read a e v e1 : native_ready e → word a → rk65c02_mem_read_1 a e = (Ret v, e1) →
  native_ready e1 ∧ regs e1 = regs e ∧ byte v.
Proof.
  intros He Ha E. destruct (keeps_read a Ha e (nr_ok e He)) as [Hok Hv]. rewrite E in Hok, Hv.
  cbn [fst snd] in Hok, Hv. specialize (Hv v eq_refl).
  assert (undisturbed e e1) as Hu; [|split; [by eapply undisturbed_ready|split; [by destruct Hu|done]]].
  unfold rk65c02_mem_read_1 in E. erewrite bind_Ret in E by reflexivity. cbv beta in E.
  destruct (mem_read_1_fn e); cbn [call_mem_read_fn] in E.
  - refine (undisturbed_end _ _ _ _ _ (undisturbed_bus_read e a) (undisturbed_refl e) E).
  - unfold rk65c02_mem_read_mmu in E. apply bind_Ret_inv in E as (x&e2&E&E2).
    pose proof (undisturbed_end _ _ _ _ _ (undisturbed_translate e a _ _) (undisturbed_refl e) E) as Hu.
    destruct x as [paddr|code].
    + destruct (paddr <? RK65C02_BUS_SIZE);
        eapply undisturbed_end; [apply undisturbed_bus_read|exact Hu|exact E2
          |apply undisturbed_bus_read_phys|exact Hu|exact E2].
    + exfalso. apply bind_Ret_inv in E2 as (y&e3&E2&_). refine (fault_longjmps _ _ _ e2 _ _ _ E2).
      destruct Hu as [_ -> _ _]. apply He.
Qed.

Lemma undisturbed_mod_jit e0 f : keeps (undisturbed e0) (mod_jit B H f) (λ _, True).
Proof.
  apply keeps_modify; [|done]. intros e []. split; try done. cbn. intros Hj. apply fmap_is_Some. auto.
Qed.
#[local] Hint Resolve undisturbed_translate undisturbed_mod_jit : keeps.

Lemma undisturbed_cached e0 v a :
  keeps (undisturbed e0) (rk65c02_mmu_translate_cached v a) (λ _, True).
Proof. unfold rk65c02_mmu_translate_cached. keeps_auto. Qed.
#[local] Hint Resolve undisturbed_cached : keeps.
Lemma undisturbed_paddr e0 v a : keeps (undisturbed e0) (jit_translate_paddr B H v a) (λ _, True).
Proof. unfold jit_translate_paddr. keeps_auto. Qed.
#[local] Hint Resolve undisturbed_paddr : keeps.
Lemma undisturbed_phys_hit e0 a : keeps (undisturbed e0) (phys_hit B H a) (λ _, True).
Proof. unfold phys_hit. keeps_auto. Qed.
#[local] Hint Resolve undisturbed_phys_hit : keeps.
Lemma undisturbed_note e0 a : keeps (undisturbed e0) (note_guest_write B H a) (λ _, True).
Proof. unfold note_guest_write. keeps_auto. Qed.

Lemma native_write a v e u e1 : native_ready e → word a → byte v →
  rk65c02_mem_write_1 a v e = (Ret u, e1) → native_ready e1 ∧ regs e1 = regs e.
Proof.
  intros He Ha Hv E. destruct (keeps_write a v Ha Hv e (nr_ok e He)) as [Hok _]. rewrite E in Hok.
  cbn [snd] in Hok.
  assert (undisturbed e e1) as Hu; [|split; [by eapply undisturbed_ready|by destruct Hu]].
  unfold rk65c02_mem_write_1 in E. erewrite bind_Ret in E by reflexivity. cbv beta in E.
  apply bind_Ret_inv in E as (x&e2&E&E2).
  assert (undisturbed e e2) as Hu.
  { clear E2. destruct (mem_write_1_fn e); cbn [call_mem_write_fn] in E.
    - refine (undisturbed_end _ _ _ _ _ (undisturbed_bus_write e a v) (undisturbed_refl e) E).
    - unfold rk65c02_mem_write_mmu in E. apply bind_Ret_inv in E as (y&e3&E&E3).
      pose proof (undisturbed_end _ _ _ _ _ (undisturbed_translate e a _ _) (undisturbed_refl e) E) as Hu.
      destruct y as [paddr|code].
      + destruct (paddr <? RK65C02_BUS_SIZE);
          eapply undisturbed_end; [apply undisturbed_bus_write|exact Hu|exact E3
            |apply undisturbed_bus_write_phys|exact Hu|exact E3].
      + exfalso. refine (fault_longjmps _ _ _ e3 _ _ _ E3). destruct Hu as [_ -> _ _]. apply He. }
  erewrite bind_Ret in E2 by reflexivity. cbv beta in E2. destruct (jit e2); [|by injection E2 as <- <-].
  destruct (undisturbed_note e a e2 Hu) as [Hn _].
  change (snd (note_guest_write B H a e2)) with (snd (rk65c02_jit_note_guest_write a e2)) in Hn.
  by rewrite E2 in Hn.
Qed.

(** ** What the code of an instruction has to do *)

(** What is emitted for BIT: [emul_bit] with one access to its operand. *)
Definition emul_bit_once (id : instrdef_t) (i : instruction_t) : M unit :=
  mem ← instruction_data_read_1 id i;
  a ← get_A;
  P_put P_ZERO (negb (ctrue (a &&& mem)));;
  if bool_decide (d_mode id ≠ IMMEDIATE) then
    P_put P_SIGN_OVERFLOW (ctrue (BIT mem 6));;
    P_put P_NEGATIVE (ctrue (BIT mem 7))
  else mret tt.

Definition native_emul (f : emul_fn) : instrdef_t → instruction_t → M unit :=
  match f with f_bit => emul_bit_once | _ => call_emul f end.

(** The instructions that are left to the interpreter. *)
Definition falls_back (id : instrdef_t) : bool :=
  match d_emul id with
  | f_brk | f_rti | f_stp | f_wai | f_invalid => true
  | f_jmp => bool_decide (d_mode id = IABSOLUTEX)
  | _ => false
  end.

(** The instructions after which the code checks whether a store hit compiled
    code: those that store to memory. *)
Definition stores (id : instrdef_t) : bool :=
  match d_emul id with
  | f_sta | f_stx | f_sty | f_stz | f_trb | f_tsb | f_pha | f_phx | f_phy | f_php | f_jsr
  | f_rmb0 | f_rmb1 | f_rmb2 | f_rmb3 | f_rmb4 | f_rmb5 | f_rmb6 | f_rmb7
  | f_smb0 | f_smb1 | f_smb2 | f_smb3 | f_smb4 | f_smb5 | f_smb6 | f_smb7 => true
  | f_inc | f_dec | f_asl | f_lsr | f_rol | f_ror => bool_decide (d_mode id ≠ ACCUMULATOR)
  | _ => false
  end.

(** Is the conditional branch taken when the status register is [p]? *)
Definition branch_taken (f : emul_fn) (p : Z) : bool :=
  match f with
  | f_bcc => negb (ctrue (p &&& P_CARRY))
  | f_bcs => ctrue (p &&& P_CARRY)
  | f_bne => negb (ctrue (p &&& P_ZERO))
  | f_beq => ctrue (p &&& P_ZERO)
  | f_bpl => negb (ctrue (p &&& P_NEGATIVE))
  | f_bmi => ctrue (p &&& P_NEGATIVE)
  | f_bvc => negb (ctrue (p &&& P_SIGN_OVERFLOW))
  | f_bvs => ctrue (p &&& P_SIGN_OVERFLOW)
  | _ => false
  end.

(** May a loop go round natively?  Counts its instructions when it may. *)
Definition loop_guard (span : Z) : M bool :=
  b ← gets (λ e, jit_loop_budget e);
  modify (set_jit_loop_budget (u32 (b - 1)));;
  e ← get;
  if s32 b - 1 <=? 0 then mret false
  else if stop_requested e || irq e then mret false
  else
    mod_jit B H (λ j, put_insns_executed (st_insns_executed (stats j) + span) j);;
    mret true.

(** The code of instruction [k] with the routines [emul]: fallbacks are
    instructions of the interpreter, after which the block goes on if the
    emulator runs and no compiled code was overwritten; the others are the
    routine and the update of the program counter. *)
Definition step_with (emul : emul_fn → instrdef_t → instruction_t → M unit)
    (ctx : jit_emit_ctx) (k : nat) (bi : jit_block_insn) : M jit_exit :=
  let id := bi_id bi in
  let i := bi_i bi in
  if falls_back id then
    rk65c02_exec;;
    e ← get;
    mret (if negb (d_modify_pc id) && is_running e && use_jit e then Fall else Leave)
  else
    p ← get_P;
    emul (d_emul id) id i;;
    finish_instruction id;;
    if branch_taken (d_emul id) p then
      match target_index ctx (branch_target bi ctx k) with
      | None => mret Leave
      | Some t =>
          if (t <=? k)%nat then
            g ← loop_guard (Z.of_nat (k - t + 1)); mret (if g : bool then Goto t else Leave)
          else mret (Goto t)
      end
    else if stores id then u ← gets (λ e, use_jit e); mret (if u : bool then Fall else Leave)
    else mret Fall.

(** With the interpreter's routines, and with those of the emitted code. *)
Definition interp_step : jit_emit_ctx → nat → jit_block_insn → M jit_exit := step_with call_emul.
Definition insn_step : jit_emit_ctx → nat → jit_block_insn → M jit_exit := step_with native_emul.

(** A second read of the operand, after a change of the flags, gives the value
    of the first and changes nothing. *)
Definition reads_alike (id : instrdef_t) (i : instruction_t) (e : rk65c02emu) : Prop :=
  ∀ v e1 p, instruction_data_read_1 id i e = (Ret v, e1) →
    let e2 := set_regs (regs_P p (regs e1)) e1 in
    instruction_data_read_1 id i e2 = (Ret v, e2).

Lemma P_put_run f b e : ∃ p, P_put f b e = (Ret tt, set_regs (regs_P p (regs e)) e).
Proof. unfold P_put. destruct b; by eexists. Qed.

Lemma bit_once_alike id i e : (d_mode id ≠ IMMEDIATE → reads_alike id i e) →
  emul_bit_once id i e = emul_bit id i e.
Proof.
  intros Hr. unfold emul_bit_once, emul_bit.
  destruct (instruction_data_read_1 id i e) as [[v| | |] e1] eqn:E.
  2-4: by unfold mbind, M_bind; rewrite E.
  do 2 erewrite (bind_Ret (instruction_data_read_1 id i)) by exact E.
  do 2 erewrite (bind_Ret get_A) by reflexivity. cbv beta.
  destruct (P_put_run P_ZERO (negb (ctrue (A (regs e1) &&& v))) e1) as [p Ep].
  do 2 erewrite bind_Ret by exact Ep. case_bool_decide as Hm; [|done].
  by erewrite (bind_Ret (instruction_data_read_1 id i)) by exact (Hr Hm v e1 p E).
Qed.

Lemma interp_step_native ctx k bi e :
  (d_emul (bi_id bi) = f_bit → d_mode (bi_id bi) ≠ IMMEDIATE → reads_alike (bi_id bi) (bi_i bi) e) →
  insn_step ctx k bi e = interp_step ctx k bi e.
Proof.
  intros Hr. unfold insn_step, interp_step, step_with. destruct (falls_back _); [done|].
  erewrite !bind_Ret by reflexivity.
  assert (native_emul (d_emul (bi_id bi)) (bi_id bi) (bi_i bi) e =
    call_emul (d_emul (bi_id bi)) (bi_id bi) (bi_i bi) e) as E.
  { destruct (d_emul (bi_id bi)); try done. by apply bit_once_alike, Hr. }
  unfold mbind, M_bind. by rewrite E.
Qed.

(** ** Agreement *)

(** Both base registers hold the emulator between instructions. *)
Definition based (m : jit_mach) : Prop := m_r0 m = LEmu ∧ m_v0 m = LEmu.

Definition agrees (r : outcome (jit_exit * jit_mach) * rk65c02emu) (s : outcome jit_exit * rk65c02emu)
    : Prop :=
  match r with
  | (Ret (x, m), e) => s = (Ret x, e) ∧ based m
  | (Longjmp, e) => s = (Longjmp, e)
  | (AssertFail, e) => s = (AssertFail, e)
  | (NoFuel, e) => s = (NoFuel, e)
  end.

Context (upper : rk65c02emu → Z).
#[local] Abbreviation code_run := (code_run B H upper 0).
#[local] Abbreviation mach r1 r2 v1 v2 a t := (mkMach LEmu r1 r2 LEmu v1 v2 a t).

Lemma agrees_ret x m e : based m → agrees (Ret (x, m), e) (Ret x, e).
Proof. by split. Qed.

(** A shared first step. *)
Lemma agrees_bind {T} (p : M T) (f : T → M (jit_exit * jit_mach)) (g : T → M jit_exit) e :
  (∀ a e1, p e = (Ret a, e1) → agrees (f a e1) (g a e1)) →
  agrees ((x ← p; f x) e) ((x ← p; g x) e).
Proof.
  intros Hk. unfold mbind, M_bind. destruct (p e) as [[a| | |] e1]; [by apply Hk|done..].
Qed.

(** ** The helpers of the emitter *)

Lemma reg_set_same r m : reg_set r (reg_get r m) m = m.
Proof. by destruct m, r. Qed.

(** The nodes that set a flag unless a branch jumps over them. *)
Lemma run_flag cd b r k x c m e : cond_holds cd m = Some b → reg_get r m = LInt x →
  code_run (jit_skip cd [jit_ori r r k] ++ c) m e =
  code_run c (reg_set r (LInt (if b then x else x ||| k)) m) e.
Proof.
  intros Eb Ex. rewrite (run_skip _ _ _ _ _ _ Eb). destruct b.
  - by rewrite <- Ex, reg_set_same.
  - cbn [app]. apply run_step. cbn [node_step]. unfold alu, word_op. by rewrite Ex.
Qed.

(** Runs the nodes at the head of the code that need no case analysis. *)
Ltac eval_mach t := eval cbv [node_step load_node store_node alu word_op cond_holds reg_get reg_set
  m_r0 m_r1 m_r2 m_v0 m_v1 m_v2 m_args m_ret gets modify mbind M_bind mret M_ret load_uc load_us load_i
  store_c store_s store_i put_A put_X put_Y put_SP put_P put_PC app] in t.
Ltac node_run :=
  match goal with
  | |- context [JitNative.code_run B H upper 0 (jit_skip ?cd [jit_ori ?r ?r ?k] ++ ?c) ?m ?e] =>
      let b := eval_mach (cond_holds cd m) in
      let x := eval_mach (reg_get r m) in
      lazymatch b with Some ?b => lazymatch x with LInt ?x =>
        let m' := eval_mach (reg_set r (LInt (if b then x else x ||| k)) m) in
        rewrite (run_flag cd b r k x c m e eq_refl eq_refl : _ = code_run c m' e)
      end end
  | |- context [JitNative.code_run B H upper 0 (?n :: ?c) ?m ?e] =>
      let r := eval_mach (node_step B H upper n m e) in
      lazymatch r with
      | (Ret ?m', ?e') => rewrite (run_step n c m m' e e' eq_refl)
      end
  end.
Ltac nodes := cbn [app]; rewrite <- ?app_assoc; cbn [app]; rewrite <- ?app_assoc; repeat node_run.

(** The same on the interpreter's side. *)
Ltac routine_step :=
  match goal with
  | |- context [mbind _ (mbind _ _) _] => rewrite bind_assoc
  | |- context [mbind _ (mret _) _] => erewrite bind_Ret by reflexivity
  | |- context [mbind _ get _] => erewrite bind_Ret by reflexivity
  | |- context [mbind _ (gets _) _] => erewrite bind_Ret by reflexivity
  | |- context [mbind _ get_A _] => erewrite bind_Ret by reflexivity
  | |- context [mbind _ get_X _] => erewrite bind_Ret by reflexivity
  | |- context [mbind _ get_Y _] => erewrite bind_Ret by reflexivity
  | |- context [mbind _ get_SP _] => erewrite bind_Ret by reflexivity
  | |- context [mbind _ get_P _] => erewrite bind_Ret by reflexivity
  | |- context [mbind _ get_PC _] => erewrite bind_Ret by reflexivity
  | |- context [mbind _ (put_A _) _] => erewrite bind_Ret by reflexivity
  | |- context [mbind _ (put_X _) _] => erewrite bind_Ret by reflexivity
  | |- context [mbind _ (put_Y _) _] => erewrite bind_Ret by reflexivity
  | |- context [mbind _ (put_SP _) _] => erewrite bind_Ret by reflexivity
  | |- context [mbind _ (put_P _) _] => erewrite bind_Ret by reflexivity
  | |- context [mbind _ (put_PC _) _] => erewrite bind_Ret by reflexivity
  | |- context [mbind _ (P_test _) _] => erewrite bind_Ret by reflexivity
  | |- context [mbind _ (P_set _) _] => erewrite bind_Ret by reflexivity
  | |- context [mbind _ (P_clear _) _] => erewrite bind_Ret by reflexivity
  | |- context [mbind _ (P_put _ _) _] => erewrite bind_Ret by apply P_put_eq
  | |- context [mbind _ (adjust_zn _) _] => erewrite bind_Ret by apply adjust_zn_eq
  end.
Ltac routine := repeat routine_step.

Lemma run_advance_pc n c r1 r2 v1 v2 a t e :
  code_run (jit_emit_advance_pc n ++ c) (mach r1 r2 v1 v2 a t) e =
  code_run c (mach (LInt (PC (regs e) + n)) r2 v1 v2 a t)
    (set_regs (regs_PC (u16 (PC (regs e) + n)) (regs e)) e).
Proof. reflexivity. Qed.

Lemma run_bail c r1 r2 v1 v2 a t e :
  code_run (jit_emit_bail_if_jit_disabled ++ c) (mach r1 r2 v1 v2 a t) e =
  (if use_jit e then code_run c (mach (LInt 1) r2 v1 v2 a t) e
   else (Ret (Leave, mach (LInt 0) r2 v1 v2 a t), e)).
Proof. unfold jit_emit_bail_if_jit_disabled. nodes. by destruct (use_jit e). Qed.

(** The status byte with Z and N of [v]. *)
Definition zn (v p : Z) : Z :=
  flag_put P_NEGATIVE (ctrue (v &&& NEGATIVE)) (flag_put P_ZERO (v =? 0) p).

Lemma u64_small x : 0 ≤ x < 18446744073709551616 → u64 x = x.
Proof. intros. by apply Z.mod_small. Qed.
Lemma u64_byte x : byte x → u64 x = x.
Proof. intros. apply u64_small. lia. Qed.
Lemma mask_test x k : byte k → (u64 (x &&& k) =? 0) = negb (ctrue (x &&& k)).
Proof. intros. rewrite u64_byte by by apply land_byte_r. unfold ctrue. by rewrite negb_involutive. Qed.
Lemma zero_test x : byte x → (u64 x =? u64 0) = (x =? 0).
Proof. intros. by rewrite u64_byte. Qed.

(** Equations between status bytes, by evaluation. *)
Ltac status_eq :=
  repeat match goal with |- context [if ?b then _ else _] => destruct b end;
  apply byte_forall_eq; vm_compute; reflexivity.

Lemma zn_word v p : byte p →
  u8 (if negb (ctrue (v &&& NEGATIVE))
      then if negb (v =? 0) then p &&& !~ (P_ZERO ||| P_NEGATIVE)
           else (p &&& !~ (P_ZERO ||| P_NEGATIVE)) ||| P_ZERO
      else (if negb (v =? 0) then p &&& !~ (P_ZERO ||| P_NEGATIVE)
            else (p &&& !~ (P_ZERO ||| P_NEGATIVE)) ||| P_ZERO) ||| P_NEGATIVE) = zn v p.
Proof.
  unfold zn, flag_put. destruct (ctrue _), (v =? 0); cbn [negb]; revert p; status_eq.
Qed.

Lemma run_update_zn v c r2 v1 v2 a t e : byte v → byte (P (regs e)) →
  ∃ w, code_run (jit_emit_update_zn ++ c) (mach (LInt v) r2 v1 v2 a t) e =
  code_run c (mach (LInt v) w v1 v2 a t) (set_regs (regs_P (zn v (P (regs e))) (regs e)) e).
Proof.
  intros Hv Hp. unfold jit_emit_update_zn. rewrite <- !app_assoc. nodes. eexists.
  by rewrite (zero_test v), (mask_test v 0x80), (zn_word v) by (done || lia).
Qed.

(** ** Memory accesses *)

Lemma run_call f c m e :
  code_run (jit_finishi f :: c) m e =
  (v ← call B H upper f (m_args m);
   code_run c (mkMach LJunk LJunk LJunk (m_v0 m) (m_v1 m) (m_v2 m) [] v)) e.
Proof. cbn [JitNative.code_run node_step]. by rewrite bind_assoc. Qed.

Lemma agrees_read w addr c (g : Z → M jit_exit) r2 v1 v2 a t e : native_ready e → u16 w = addr →
  (∀ v e1, native_ready e1 → regs e1 = regs e → byte v →
     agrees (code_run c (mach (LInt v) LJunk v1 v2 [] LJunk) e1) (g v e1)) →
  agrees (code_run (jit_emit_bus_read ++ c) (mach (LInt w) r2 v1 v2 a t) e)
    ((v ← rk65c02_mem_read_1 addr; g v) e).
Proof.
  intros He <- Hk. unfold jit_emit_bus_read. nodes. rewrite run_call. cbn [call m_args].
  rewrite bind_assoc. unfold jit_mem_read_1. apply agrees_bind. intros v e1 E.
  destruct (native_read _ _ _ _ He (u16_word w) E) as (He1&Hr&Hv).
  erewrite bind_Ret by reflexivity. cbn [m_v0 m_v1 m_v2]. nodes.
  rewrite land_255. replace (u8 (v + 256 * upper e1)) with v; [by apply Hk|].
  unfold u8. rewrite (Z.mul_comm 256), Z.mod_add by lia. by rewrite Z.mod_small.
Qed.

Lemma agrees_write w x addr v c (g : M jit_exit) v1 v2 a t e : native_ready e →
  u16 w = addr → u8 x = v →
  (∀ e1, native_ready e1 → regs e1 = regs e →
     agrees (code_run c (mach LJunk LJunk v1 v2 [] LJunk) e1) (g e1)) →
  agrees (code_run (jit_emit_bus_write ++ c) (mach (LInt w) (LInt x) v1 v2 a t) e)
    ((rk65c02_mem_write_1 addr v;; g) e).
Proof.
  intros He <- <- Hk. unfold jit_emit_bus_write. nodes. rewrite run_call. cbn [call m_args].
  rewrite bind_assoc. unfold jit_bus_write_1. apply agrees_bind. intros [] e1 E.
  destruct (native_write _ _ _ _ _ He (u16_word w) (u8_byte x) E) as (He1&Hr).
  erewrite bind_Ret by reflexivity. cbn [m_v0 m_v1 m_v2]. nodes. by apply Hk.
Qed.

#[local] Opaque JitNative.code_run jit_emit_bus_read jit_emit_bus_write jit_emit_update_zn
  jit_emit_advance_pc jit_emit_bail_if_jit_disabled jit_skip jit_either.

(** ** Operands *)

Section Operand.
Context (bi : jit_block_insn) (Hi : instruction_ok (bi_i bi)).
#[local] Abbreviation id := (bi_id bi).
#[local] Abbreviation i := (bi_i bi).

Lemma agrees_pointer w lo hi c (g : Z → M jit_exit) r2 v1 v2 a t e : native_ready e →
  u16 w = lo → word hi →
  (∀ p e1 l, native_ready e1 → regs e1 = regs e → word p →
     agrees (code_run c (mach (LInt p) LJunk l v2 [] LJunk) e1) (g p e1)) →
  agrees (code_run (jit_emit_bus_read ++
      jit_movr JIT_V1 JIT_R1 :: jit_movi JIT_R1 hi :: jit_emit_bus_read ++
      jit_lshi JIT_R1 JIT_R1 8 :: jit_orr JIT_R1 JIT_R1 JIT_V1 :: c)
    (mach (LInt w) r2 v1 v2 a t) e)
    ((p ← read_pointer lo hi; g p) e).
Proof.
  intros He Hw Hh Hk. unfold read_pointer. rewrite bind_assoc. apply agrees_read; [done..|].
  intros l e1 He1 Hr1 Hl. rewrite bind_assoc. nodes.
  apply agrees_read; [done|by apply u16_small|]. intros h e2 He2 Hr2 Hh2.
  erewrite bind_Ret by reflexivity. nodes.
  rewrite Z.lor_comm. apply Hk; [done|congruence|by apply lohi_word].
Qed.

(** Does the emitter compute an address for the mode? *)
Definition addressed (mode : addressing_t) : bool :=
  match mode with
  | ZP | ZPX | ZPY | ABSOLUTE | ABSOLUTEX | ABSOLUTEY | IZP | IZPX | IZPY => true
  | _ => false
  end.

Lemma data_read_eq : addressed (d_mode id) = true →
  instruction_data_read_1 id i = (x ← instruction_data_address id i; rk65c02_mem_read_1 x).
Proof. unfold instruction_data_read_1. by destruct (d_mode id). Qed.
Lemma data_write_eq v : addressed (d_mode id) = true →
  instruction_data_write_1 id i v = (x ← instruction_data_address id i; rk65c02_mem_write_1 x v).
Proof. unfold instruction_data_write_1. by destruct (d_mode id). Qed.

Lemma agrees_effaddr ad c (g : Z → M jit_exit) r1 r2 v1 v2 a t e : native_ready e →
  jit_emit_effaddr bi = Some ad → addressed (d_mode id) = true →
  (∀ w x e1 r2' l a' t', native_ready e1 → regs e1 = regs e → u16 w = x →
     agrees (code_run c (mach (LInt w) r2' l v2 a' t') e1) (g x e1)) →
  agrees (code_run (ad ++ c) (mach r1 r2 v1 v2 a t) e)
    ((x ← instruction_data_address id i; g x) e).
Proof.
  intros He Ead Hm Hk. destruct Hi as (_&H1&H2). pose proof (ready_byte_regs e He) as [].
  pose proof (lohi_add _ _ H1 H2) as Eabs. unfold jit_emit_effaddr in Ead. unfold instruction_data_address.
  assert (i_op1 i + (i_op2 i ≪ 8) = i_op1 i ||| (i_op2 i ≪ 8)) as Ew
    by (rewrite Eabs, Z.shiftl_mul_pow2; lia).
  destruct (d_mode id); try discriminate Hm; injection Ead as <-; rewrite <- ?app_assoc.
  - routine. nodes. apply Hk; [done..|]. apply u16_small. lia.
  - routine. nodes. apply Hk; [done..|]. rewrite land_255, Z.add_comm. apply u16_small. crange.
  - routine. nodes. apply Hk; [done..|]. rewrite land_255, Z.add_comm. apply u16_small. crange.
  - nodes. apply agrees_pointer; [done|apply u16_small; lia|crange|].
    intros p e1 l He1 Hr1 Hp. apply Hk; [done..|]. by apply u16_small.
  - routine. nodes. apply agrees_read; [done|rewrite land_255, Z.add_comm; apply u16_small; crange|].
    intros l e1 He1 Hr1 Hl. routine. nodes.
    apply agrees_read; [done|rewrite land_255, u16_small by crange; f_equal; lia|].
    intros h e2 He2 Hr2 Hh. routine. nodes. rewrite Z.lor_comm.
    apply Hk; [done|congruence|]. by apply u16_small, lohi_word.
  - routine. nodes. apply agrees_pointer; [done|apply u16_small; lia|crange|].
    intros p e1 l He1 Hr1 Hp. routine. nodes. by apply Hk.
  - routine. nodes. apply Hk; [done..|]. by rewrite Ew.
  - routine. nodes. apply Hk; [done..|]. by rewrite Ew, Z.add_comm.
  - routine. nodes. apply Hk; [done..|]. by rewrite Ew, Z.add_comm.
Qed.

Lemma agrees_load ld c (g : Z → M jit_exit) r1 r2 v1 v2 a t e : native_ready e →
  jit_emit_load_operand bi = Some ld → d_mode id ≠ ACCUMULATOR →
  (∀ v e1 r2' l a' t', native_ready e1 → regs e1 = regs e → byte v →
     agrees (code_run c (mach (LInt v) r2' l v2 a' t') e1) (g v e1)) →
  agrees (code_run (ld ++ c) (mach r1 r2 v1 v2 a t) e)
    ((v ← instruction_data_read_1 id i; g v) e).
Proof.
  intros He El Hm Hk. unfold jit_emit_load_operand in El.
  destruct (jit_emit_effaddr bi) as [ad|] eqn:Ead; [|discriminate El]. injection El as <-.
  rewrite <- app_assoc. unfold instruction_data_read_1. destruct (decide (d_mode id = IMMEDIATE)) as [E|].
  - unfold jit_emit_effaddr in Ead. rewrite E in *. injection Ead as <-. routine. nodes.
    apply Hk; [done..|apply Hi].
  - rewrite bool_decide_eq_true_2 by done.
    assert (addressed (d_mode id) = true) as Ha by (unfold jit_emit_effaddr in Ead; by destruct (d_mode id)).
    change (agrees (code_run (ad ++ jit_emit_bus_read ++ c) (mach r1 r2 v1 v2 a t) e)
      ((v ← instruction_data_read_1 id i; g v) e)). rewrite data_read_eq by done.
    rewrite bind_assoc. apply agrees_effaddr; [done..|].
    intros w x e1 r2' l a' t' He1 Hr1 Hw. apply agrees_read; [done..|].
    intros v e2 He2 Hr2 Hv. apply Hk; [done|congruence|done].
Qed.

(** ** Ends of instructions *)

Lemma finish_eq e : mmu_fault_reexec e = false →
  finish_instruction id e = (Ret tt, if d_modify_pc id then e
    else set_regs (regs_PC (u16 (PC (regs e) + d_size id)) (regs e)) e).
Proof.
  intros Hr. unfold finish_instruction. erewrite bind_Ret by reflexivity. cbv beta.
  rewrite Hr, andb_false_r. unfold instruction_modify_pc. by destruct (d_modify_pc id).
Qed.

Definition then_fall : M jit_exit := finish_instruction id;; mret Fall.
Definition then_check : M jit_exit :=
  finish_instruction id;; u ← gets (λ e, use_jit e); mret (if u : bool then Fall else Leave).

Lemma agrees_fall r1 r2 v1 v2 a t e : native_ready e → d_modify_pc id = false →
  agrees (code_run (jit_emit_advance_pc (d_size id)) (mach r1 r2 v1 v2 a t) e) (then_fall e).
Proof.
  intros He Hm. unfold then_fall. erewrite bind_Ret by (apply finish_eq, He). rewrite Hm.
  rewrite <- (app_nil_r (jit_emit_advance_pc _)), run_advance_pc. by apply agrees_ret.
Qed.

Lemma agrees_check r1 r2 v1 v2 a t e : native_ready e → d_modify_pc id = false →
  agrees (code_run (jit_emit_advance_pc (d_size id) ++ jit_emit_bail_if_jit_disabled)
    (mach r1 r2 v1 v2 a t) e) (then_check e).
Proof.
  intros He Hm. unfold then_check. erewrite bind_Ret by (apply finish_eq, He). rewrite Hm.
  rewrite run_advance_pc, <- (app_nil_r jit_emit_bail_if_jit_disabled), run_bail.
  erewrite bind_Ret by reflexivity. cbn [use_jit set_regs]. destruct (use_jit e); by apply agrees_ret.
Qed.

Lemma agrees_zn_state v c r2 v1 v2 a t e R : native_ready e → byte v →
  (∀ w, agrees (code_run c (mach (LInt v) w v1 v2 a t)
     (set_regs (regs_P (zn v (P (regs e))) (regs e)) e)) R) →
  agrees (code_run (jit_emit_update_zn ++ c) (mach (LInt v) r2 v1 v2 a t) e) R.
Proof.
  intros He Hv Hk. pose proof (ready_byte_regs e He) as [].
  destruct (run_update_zn v c r2 v1 v2 a t e Hv ok_P) as (w&->). apply Hk.
Qed.

Lemma agrees_zn v c (g : M jit_exit) r2 v1 v2 a t e : native_ready e → byte v →
  (∀ w e1, native_ready e1 → agrees (code_run c (mach (LInt v) w v1 v2 a t) e1) (g e1)) →
  agrees (code_run (jit_emit_update_zn ++ c) (mach (LInt v) r2 v1 v2 a t) e) ((adjust_zn v;; g) e).
Proof.
  intros He Hv Hk. pose proof (ready_byte_regs e He) as [].
  apply agrees_zn_state; [done..|]. intros w.
  erewrite bind_Ret by apply adjust_zn_eq. apply Hk. apply ready_regs; [done|].
  split; simpl; try done. by repeat apply status_put_byte.
Qed.

(** ** Families of instructions *)

Lemma regs_set r e : regs (set_regs r e) = r.
Proof. done. Qed.
Lemma set_regs_set r r' e : set_regs r (set_regs r' e) = set_regs r e.
Proof. done. Qed.
#[local] Ltac calm := rewrite ?set_regs_set, ?regs_set.

(** Where the state differs in registers only. *)
#[local] Ltac ready :=
  lazymatch goal with He : native_ready ?e |- native_ready (set_regs _ ?e) =>
    apply ready_regs; [exact He|];
    pose proof (ready_byte_regs e He) as []; split; simpl;
    first [crange | unfold zn; repeat apply status_put_byte; first [done | vm_compute; by split]]
  end.

(** The byte registers as fields. *)
Definition field_get (reg : emu_field) (r : reg_state_t) : Z :=
  match reg with
  | OFFSET_E_A => A r | OFFSET_E_X => X r | OFFSET_E_Y => Y r | OFFSET_E_SP => SP r | _ => P r
  end.
Definition field_set (reg : emu_field) (v : Z) (r : reg_state_t) : reg_state_t :=
  match reg with
  | OFFSET_E_A => regs_A v r | OFFSET_E_X => regs_X v r | OFFSET_E_Y => regs_Y v r
  | OFFSET_E_SP => regs_SP v r | _ => regs_P v r
  end.
Definition is_byte_reg (reg : emu_field) : bool :=
  match reg with
  | OFFSET_E_A | OFFSET_E_X | OFFSET_E_Y | OFFSET_E_SP | OFFSET_E_P => true
  | _ => false
  end.
Definition get_field (reg : emu_field) : M Z := gets (λ e, field_get reg (regs e)).
Definition put_field (reg : emu_field) (v : Z) : M unit :=
  modify (λ e, set_regs (field_set reg v (regs e)) e).

Lemma run_load_field reg r c m e : is_byte_reg reg = true → m_r0 m = LEmu →
  code_run (jit_ldxi_uc r JIT_R0 reg :: c) m e =
  code_run c (reg_set r (LInt (field_get reg (regs e))) m) e.
Proof.
  intros Hr Hm. apply run_step. cbn [node_step]. unfold load_node. cbn [reg_get]. rewrite Hm.
  by destruct reg.
Qed.

Lemma run_store_field reg r v c m e : is_byte_reg reg = true → m_r0 m = LEmu →
  reg_get r m = LInt v →
  code_run (jit_stxi_c reg JIT_R0 r :: c) m e =
  code_run c m (set_regs (field_set reg (u8 v) (regs e)) e).
Proof.
  intros Hr Hm Hv. apply run_step. cbn [node_step]. unfold store_node. cbn [reg_get].
  rewrite Hm, Hv. by destruct reg.
Qed.

Lemma field_byte reg r : regs_ok r → byte (field_get reg r).
Proof. intros []. by destruct reg. Qed.
Lemma field_set_ok reg v r : regs_ok r → byte v → regs_ok (field_set reg v r).
Proof. intros [] Hv. by destruct reg. Qed.
Lemma field_get_set reg v r : field_get reg (field_set reg v r) = v.
Proof. by destruct reg. Qed.

Section Family.
Context (r1 r2 v1 v2 : jit_val) (a : list jit_val) (t : jit_val) (e : rk65c02emu).
Context (He : native_ready e).
#[local] Abbreviation runs_native code := (code_run code (mach r1 r2 v1 v2 a t) e).

(** A register is loaded with [v] and Z and N follow. *)
Lemma agrees_put_zn reg v l1 l2 l3 l4 l5 e1 : native_ready e1 → is_byte_reg reg = true →
  byte v → d_modify_pc id = false →
  agrees (code_run (jit_stxi_c reg JIT_R0 JIT_R1 :: jit_emit_update_zn ++
      jit_emit_advance_pc (d_size id)) (mach (LInt v) l1 l2 l3 l4 l5) e1)
    (((put_field reg v;; x ← get_field reg; adjust_zn x);; then_fall) e1).
Proof.
  intros He1 Hr Hv Hm. rewrite (run_store_field reg _ v) by done. rewrite (u8_small v) by done.
  rewrite bind_assoc. erewrite bind_Ret by reflexivity. rewrite bind_assoc. erewrite bind_Ret by reflexivity.
  rewrite regs_set, field_get_set.
  apply agrees_zn; [|done|intros; by apply agrees_fall].
  apply ready_regs; [done|]. apply field_set_ok; [|done]. by apply ready_byte_regs.
Qed.

Lemma agrees_load_reg reg code : emit_load bi reg = Some code → is_byte_reg reg = true →
  d_mode id ≠ ACCUMULATOR → d_modify_pc id = false →
  agrees (runs_native code)
    (((v ← instruction_data_read_1 id i; put_field reg v;; x ← get_field reg; adjust_zn x);; then_fall) e).
Proof.
  intros Ec Hr Hm Hp. unfold emit_load in Ec. destruct (jit_emit_load_operand bi) eqn:El; [|done].
  injection Ec as <-. rewrite bind_assoc. apply agrees_load; [done..|].
  intros v e1 x y a' t' He1 Hr1 Hv. nodes. by apply agrees_put_zn.
Qed.

Lemma agrees_flag_clear k : byte k → d_modify_pc id = false →
  agrees (runs_native (emit_clear_flag bi k)) ((P_clear k;; then_fall) e).
Proof.
  intros Hk Hm. unfold emit_clear_flag. nodes. routine. pose proof (ready_byte_regs e He) as [].
  rewrite (u8_small (_ &&& _)) by crange. apply agrees_fall; [ready|done].
Qed.
Lemma agrees_flag_set k : byte k → d_modify_pc id = false →
  agrees (runs_native (emit_set_flag bi k)) ((P_set k;; then_fall) e).
Proof.
  intros Hk Hm. unfold emit_set_flag. nodes. routine. pose proof (ready_byte_regs e He) as [].
  rewrite (u8_small (_ ||| _)) by crange. apply agrees_fall; [ready|done].
Qed.

Lemma agrees_transfer from to : is_byte_reg from = true → is_byte_reg to = true →
  d_modify_pc id = false →
  agrees (runs_native (emit_transfer bi from to))
    (((v ← get_field from; put_field to v;; x ← get_field to; adjust_zn x);; then_fall) e).
Proof.
  intros Hf Ht Hm. unfold emit_transfer. nodes. rewrite run_load_field by done. cbn [reg_set].
  rewrite bind_assoc. erewrite bind_Ret by reflexivity. apply agrees_put_zn; try done.
  apply field_byte, ready_byte_regs, He.
Qed.

Lemma agrees_txs : d_modify_pc id = false →
  agrees (runs_native (emit_txs bi)) (((x ← get_X; put_SP x);; then_fall) e).
Proof.
  intros Hm. unfold emit_txs. nodes. routine. pose proof (ready_byte_regs e He) as [].
  rewrite (u8_small (X _)) by done. apply agrees_fall; [ready|done].
Qed.

Lemma agrees_increment reg : is_byte_reg reg = true → d_modify_pc id = false →
  agrees (runs_native (emit_increment bi reg))
    (((v ← get_field reg; put_field reg (u8 (v + 1));; x ← get_field reg; adjust_zn x);; then_fall) e).
Proof.
  intros Hr Hm. unfold emit_increment. nodes. rewrite run_load_field by done. cbn [reg_set].
  rewrite bind_assoc. erewrite bind_Ret by reflexivity. nodes. rewrite land_255. apply agrees_put_zn; try done. apply u8_byte.
Qed.
Lemma agrees_decrement reg : is_byte_reg reg = true → d_modify_pc id = false →
  agrees (runs_native (emit_decrement bi reg))
    (((v ← get_field reg; put_field reg (u8 (v - 1));; x ← get_field reg; adjust_zn x);; then_fall) e).
Proof.
  intros Hr Hm. unfold emit_decrement. nodes. rewrite run_load_field by done. cbn [reg_set].
  rewrite bind_assoc. erewrite bind_Ret by reflexivity. nodes. rewrite land_255. apply agrees_put_zn; try done. apply u8_byte.
Qed.


(** Stores *)

Lemma agrees_store_value (ld : list jit_node) x code : addressed (d_mode id) = true → byte x →
  d_modify_pc id = false →
  (ad ← jit_emit_effaddr bi; Some (ad ++ ld ++ jit_emit_bus_write ++
     jit_emit_advance_pc (d_size id) ++ jit_emit_bail_if_jit_disabled)) = Some code →
  (∀ w y l a' t' e1 c, regs e1 = regs e → code_run (ld ++ c) (mach (LInt w) y l v2 a' t') e1 =
     code_run c (mach (LInt w) (LInt x) l v2 a' t') e1) →
  agrees (runs_native code) ((instruction_data_write_1 id i x;; then_check) e).
Proof.
  intros Hm Hx Hp Ec Hld. destruct (jit_emit_effaddr bi) as [ad|] eqn:El; [|done].
  injection Ec as <-. rewrite data_write_eq by done.
  rewrite bind_assoc. apply agrees_effaddr; [done..|].
  intros w y e1 z l a' t' He1 Hr1 Hw. rewrite Hld by done.
  apply agrees_write; [done|done|by apply u8_small|]. intros e2 He2 Hr2. by apply agrees_check.
Qed.

Lemma agrees_store_reg reg code : emit_store bi reg = Some code → is_byte_reg reg = true →
  addressed (d_mode id) = true → d_modify_pc id = false →
  agrees (runs_native code)
    (((v ← get_field reg; instruction_data_write_1 id i v);; then_check) e).
Proof.
  intros Ec Hr Hm Hp. rewrite bind_assoc. erewrite bind_Ret by reflexivity.
  apply (agrees_store_value [jit_ldxi_uc JIT_R2 JIT_R0 reg]);
    [done|apply field_byte, ready_byte_regs, He|done|exact Ec|].
  intros w y l a' t' e1 c E. nodes. rewrite run_load_field by done. by rewrite E.
Qed.

Lemma agrees_stz code : emit_stz bi = Some code → addressed (d_mode id) = true →
  d_modify_pc id = false →
  agrees (runs_native code) ((instruction_data_write_1 id i 0;; then_check) e).
Proof.
  intros Ec Hm Hp. apply (agrees_store_value [jit_movi JIT_R2 0]); [done|done|done|exact Ec|].
  intros. by nodes.
Qed.

(** Logic *)

Lemma agrees_logic alu (f : Z → Z → Z) code : emit_logic bi alu = Some code →
  (∀ x y l a' t' e1 c, code_run (alu JIT_R1 JIT_R2 JIT_R1 :: c) (mach (LInt y) (LInt x) l v2 a' t') e1 =
     code_run c (mach (LInt (f x y)) (LInt x) l v2 a' t') e1) →
  (∀ x y, byte x → byte y → byte (f x y)) → d_mode id ≠ ACCUMULATOR → d_modify_pc id = false →
  agrees (runs_native code)
    (((v ← instruction_data_read_1 id i; x ← get_A; put_A (f x v);; y ← get_A; adjust_zn y);;
      then_fall) e).
Proof.
  intros Ec Halu Hf Hm Hp. unfold emit_logic in Ec.
  destruct (jit_emit_load_operand bi) as [ld|] eqn:El; [|done]. injection Ec as <-.
  rewrite bind_assoc. apply agrees_load; [done..|]. intros v e1 x y a' t' He1 Hr1 Hv. nodes.
  rewrite Halu. rewrite bind_assoc. erewrite bind_Ret by reflexivity.
  apply (agrees_put_zn OFFSET_E_A (f (A (regs e1)) v)); try done.
  apply Hf; [|done]. by destruct (ready_byte_regs e1 He1).
Qed.

(** Addition and subtraction *)

Lemma carry_test s : 0 ≤ s < 512 → (u64 (s &&& 0x100) =? u64 0) = negb (s >? 0xFF).
Proof.
  intros Hs. assert (forallb (λ s, eqb (u64 (s &&& 0x100) =? u64 0) (negb (s >? 0xFF))) (seqZ 0 512) = true)
    as Hf by (vm_compute; reflexivity).
  rewrite forallb_forall in Hf. apply eqb_prop, Hf, list_elem_of_In, elem_of_seqZ. lia.
Qed.

Lemma overflow_test x y s :
  (u64 ((x ^^^ u8 s) &&& (y ^^^ u8 s) &&& 0x80) =? u64 0) =
  negb (ctrue ((x ^^^ s) &&& (y ^^^ s) &&& 0x80)).
Proof.
  change (u64 0) with 0. rewrite mask_test by lia. rewrite !overflow_bits, (bit7_mod (u8 s)).
  unfold u8. by rewrite Z.mod_mod, <- bit7_mod by lia.
Qed.

Lemma sum_flags p (c o : bool) : byte p →
  u8 (if negb o then if negb c then p &&& !~ (P_CARRY ||| P_SIGN_OVERFLOW)
                     else (p &&& !~ (P_CARRY ||| P_SIGN_OVERFLOW)) ||| P_CARRY
      else (if negb c then p &&& !~ (P_CARRY ||| P_SIGN_OVERFLOW)
            else (p &&& !~ (P_CARRY ||| P_SIGN_OVERFLOW)) ||| P_CARRY) ||| P_SIGN_OVERFLOW) =
  flag_put P_CARRY c (flag_put P_SIGN_OVERFLOW o p).
Proof. unfold flag_put. destruct c, o; cbn [negb]; revert p; status_eq. Qed.

(** The binary path once the carry is added. *)
Lemma agrees_sum_result m s x y l3 l4 e1 : native_ready e1 → 0 ≤ s < 512 →
  d_modify_pc id = false →
  agrees (code_run (
      [ jit_movr JIT_R2 JIT_R1;
        jit_andi JIT_R2 JIT_R2 0x100;
        jit_andi JIT_R1 JIT_R1 0xFF;
        jit_xorr JIT_V2 JIT_V2 JIT_R1;
        jit_xorr JIT_V1 JIT_V1 JIT_R1;
        jit_andr JIT_V2 JIT_V2 JIT_V1;
        jit_andi JIT_V2 JIT_V2 0x80;
        jit_ldxi_uc JIT_V1 JIT_R0 OFFSET_E_P;
        jit_andi JIT_V1 JIT_V1 (!~ (P_CARRY ||| P_SIGN_OVERFLOW)) ] ++
      jit_skip (jit_beqi JIT_R2 0) [ jit_ori JIT_V1 JIT_V1 P_CARRY ] ++
      jit_skip (jit_beqi JIT_V2 0) [ jit_ori JIT_V1 JIT_V1 P_SIGN_OVERFLOW ] ++
      [ jit_stxi_c OFFSET_E_P JIT_R0 JIT_V1;
        jit_stxi_c OFFSET_E_A JIT_R0 JIT_R1 ] ++
      jit_emit_update_zn ++
      jit_emit_advance_pc (d_size id)) (mach (LInt s) x (LInt m) (LInt y) l3 l4) e1)
    (then_fall (set_regs (arith_regs (u8 s) (s >? 0xFF)
       (ctrue ((y ^^^ s) &&& (m ^^^ s) &&& 0x80)) (regs e1)) e1)).
Proof.
  intros He1 Hs Hp. pose proof (ready_byte_regs e1 He1) as [].
  nodes. rewrite land_255, carry_test, overflow_test, sum_flags by done. calm.
  rewrite (u8_small (u8 s)) by apply u8_byte. pose proof (u8_byte s).
  apply agrees_zn_state; [ready|done|]. intros w. calm. apply agrees_fall; [ready|done].
Qed.

Lemma agrees_binary_sum m x l1 l2 l3 l4 e1 (s := A (regs e1) + m + Z.b2z (carry e1)) :
  native_ready e1 → byte m → d_modify_pc id = false →
  agrees (code_run (emit_binary_sum bi) (mach (LInt m) x l1 l2 l3 l4) e1)
    (then_fall (set_regs (arith_regs (u8 s) (s >? 0xFF)
       (ctrue ((A (regs e1) ^^^ s) &&& (m ^^^ s) &&& 0x80)) (regs e1)) e1)).
Proof.
  intros He1 Hb Hp. pose proof (ready_byte_regs e1 He1) as []. unfold emit_binary_sum. nodes.
  assert (0 ≤ s < 512) as Hs by (unfold s; destruct (carry e1); simpl; lia).
  erewrite run_skip by reflexivity. change (u64 0) with 0. rewrite mask_test by done.
  fold (carry e1). destruct (carry e1); cbn [negb]; unfold s in *; cbn [Z.b2z] in *.
  - cbn [app]. node_run. by apply (agrees_sum_result m).
  - rewrite Z.add_0_r in *. by apply (agrees_sum_result m).
Qed.

Lemma agrees_bcd_call f (p : Z → M unit) v c x l1 l2 l3 l4 e1 r : native_ready e1 → byte v →
  call B H upper f [LEmu; LInt v] = (p (u8 v);; mret LJunk) → d_modify_pc id = false →
  p v e1 = (Ret tt, set_regs r e1) →
  agrees (code_run (emit_bcd_call bi f ++ jit_branch jit_jmpi (length c) :: c ++ [])
    (mach (LInt v) x l1 l2 l3 l4) e1) (then_fall (set_regs r e1)).
Proof.
  intros He1 Hv Ef Hm Ep. unfold emit_bcd_call. nodes. rewrite run_call. cbn [m_args].
  rewrite Ef, u8_small by done. erewrite bind_Ret by (erewrite bind_Ret by exact Ep; reflexivity).
  cbn [m_v0 m_v1 m_v2]. nodes. rewrite run_advance_pc, run_jmp.
  unfold then_fall. erewrite bind_Ret by (apply finish_eq, He1). rewrite Hm.
  by apply agrees_ret.
Qed.

(** ADC and SBC once the operand is loaded: [binary] is the binary path. *)
Lemma agrees_arith f (helper value : Z → M unit) binary v x l1 l2 l3 l4 e1 : native_ready e1 → byte v →
  call B H upper f [LEmu; LInt v] = (helper (u8 v);; mret LJunk) → d_modify_pc id = false →
  (∃ r, regs_ok r ∧ helper v e1 = (Ret tt, set_regs r e1)) →
  (ctrue (P (regs e1) &&& P_DECIMAL) = true → value v e1 = helper v e1) →
  (∀ y, ctrue (P (regs e1) &&& P_DECIMAL) = false →
    agrees (code_run binary (mach (LInt v) y l1 l2 l3 l4) e1) ((value v;; then_fall) e1)) →
  agrees (code_run ([ jit_ldxi_uc JIT_R2 JIT_R0 OFFSET_E_P; jit_andi JIT_R2 JIT_R2 P_DECIMAL ] ++
      jit_either (jit_beqi JIT_R2 0) (emit_bcd_call bi f) binary) (mach (LInt v) x l1 l2 l3 l4) e1)
    ((value v;; then_fall) e1).
Proof.
  intros He1 Hv Ef Hp (r&Hr&Er) Hd Hb. nodes. rewrite <- (app_nil_r (jit_either _ _ _)).
  erewrite run_either by reflexivity. change (u64 0) with 0. rewrite mask_test by done.
  destruct (ctrue (P (regs e1) &&& P_DECIMAL)) eqn:Ed; cbn [negb].
  - erewrite bind_Ret by (rewrite Hd by done; exact Er). by apply (agrees_bcd_call f helper).
  - rewrite app_nil_r. by apply Hb.
Qed.

Lemma agrees_adc code : emit_adc bi = Some code → d_mode id ≠ ACCUMULATOR → d_modify_pc id = false →
  agrees (runs_native code) ((emul_adc id i;; then_fall) e).
Proof.
  intros Ec Hm Hp. unfold emit_adc in Ec.
  destruct (jit_emit_load_operand bi) as [ld|] eqn:El; [|done]. injection Ec as <-.
  rewrite emul_adc_eq, bind_assoc. apply agrees_load; [done..|].
  intros v e1 x y a' t' He1 Hr1 Hv. pose proof (ready_byte_regs e1 He1) as Hok.
  apply (agrees_arith call_do_adc_bcd rk65c02_do_adc_bcd); try done.
  - exact (proj1 (do_bcd_regs v e1 Hok)).
  - exact (λ Hd, proj1 (value_decimal v e1 Hd)).
  - intros z Hd. erewrite bind_Ret by (apply adc_value_binary; [done|apply Hok|done]).
    by apply agrees_binary_sum.
Qed.

Lemma agrees_sbc code : emit_sbc bi = Some code → d_mode id ≠ ACCUMULATOR → d_modify_pc id = false →
  agrees (runs_native code) ((emul_sbc id i;; then_fall) e).
Proof.
  intros Ec Hm Hp. unfold emit_sbc in Ec.
  destruct (jit_emit_load_operand bi) as [ld|] eqn:El; [|done]. injection Ec as <-.
  rewrite emul_sbc_eq, bind_assoc. apply agrees_load; [done..|].
  intros v e1 x y a' t' He1 Hr1 Hv. pose proof (ready_byte_regs e1 He1) as Hok.
  apply (agrees_arith call_do_sbc_bcd rk65c02_do_sbc_bcd); try done.
  - exact (proj2 (do_bcd_regs v e1 Hok)).
  - exact (λ Hd, proj2 (value_decimal v e1 Hd)).
  - intros z Hd. erewrite bind_Ret by (apply sbc_value_binary; [done|apply Hok|done]).
    cbn [app]. node_run.
    assert (v ^^^ 0xFF = 0xFF - v) as -> by (revert v Hv; apply byte_forall_eq; vm_compute; reflexivity).
    pose proof (agrees_binary_sum (0xFF - v) z y v2 a' t' e1 He1 ltac:(lia) Hp) as Hs.
    set (c := Z.b2z (carry e1)) in *.
    replace (A (regs e1) + (0xFF - v) + c) with (A (regs e1) - v - (1 - c) + 1 * 256) in Hs by lia.
    rewrite !overflow_bits, !(bit7_mod (_ + 1 * 256)), Z_mod_plus_full, <- !bit7_mod in Hs.
    rewrite !overflow_bits. unfold u8 in *. rewrite Z_mod_plus_full in Hs.
    replace (A (regs e1) - v - (1 - c) + 1 * 256 >? 255) with (0 <=? A (regs e1) - v - (1 - c)) in Hs
      by (destruct (Z.leb_spec 0 (A (regs e1) - v - (1 - c))); symmetry;
          [apply Z.gtb_lt | rewrite Z.gtb_ltb; apply Z.ltb_ge]; lia).
    exact Hs.
Qed.

(** Comparison *)

Lemma compare_flags p (lt nz nn : bool) : byte p →
  u8 (if nn then if nz then if lt then p &&& !~ (P_CARRY ||| P_ZERO ||| P_NEGATIVE)
                            else (p &&& !~ (P_CARRY ||| P_ZERO ||| P_NEGATIVE)) ||| P_CARRY
                 else (if lt then p &&& !~ (P_CARRY ||| P_ZERO ||| P_NEGATIVE)
                       else (p &&& !~ (P_CARRY ||| P_ZERO ||| P_NEGATIVE)) ||| P_CARRY) ||| P_ZERO
      else (if nz then if lt then p &&& !~ (P_CARRY ||| P_ZERO ||| P_NEGATIVE)
                       else (p &&& !~ (P_CARRY ||| P_ZERO ||| P_NEGATIVE)) ||| P_CARRY
            else (if lt then p &&& !~ (P_CARRY ||| P_ZERO ||| P_NEGATIVE)
                  else (p &&& !~ (P_CARRY ||| P_ZERO ||| P_NEGATIVE)) ||| P_CARRY) ||| P_ZERO)
           ||| P_NEGATIVE) =
  flag_put P_CARRY (negb lt) (flag_put P_NEGATIVE (negb nn) (flag_put P_ZERO (negb nz) p)).
Proof. unfold flag_put. destruct lt, nz, nn; cbn [negb]; revert p; status_eq. Qed.

Lemma agrees_compare reg code : emit_compare bi reg = Some code → is_byte_reg reg = true →
  reg ≠ OFFSET_E_P → d_mode id ≠ ACCUMULATOR → d_modify_pc id = false →
  agrees (runs_native code) ((compare_with (get_field reg) id i;; then_fall) e).
Proof.
  intros Ec Hr Hn Hm Hp. unfold emit_compare in Ec.
  destruct (jit_emit_load_operand bi) as [ld|] eqn:El; [|done]. injection Ec as <-.
  unfold compare_with. rewrite bind_assoc. apply agrees_load; [done..|].
  intros v e1 x y a' t' He1 Hr1 Hv. nodes. rewrite run_load_field by done. cbn [reg_set]. nodes.
  pose proof (ready_byte_regs e1 He1) as Hok. pose proof (field_byte reg _ Hok) as Hb.
  rewrite !land_255, !mask_test by lia. rewrite (zero_test (u8 _)) by apply u8_byte.
  rewrite !u64_byte, compare_flags by (done || by destruct Hok).
  rewrite bind_assoc. erewrite bind_Ret by reflexivity. routine.
  erewrite bind_Ret by reflexivity. routine. calm. rewrite !negb_involutive.
  cbn [P regs_P]. rewrite regs_P_idem.
  replace (field_get reg (regs_P _ (regs e1))) with (field_get reg (regs e1)) by by destruct reg.
  destruct Hok. apply agrees_fall; [ready|done].
Qed.

(** Read, modify, write *)

Definition rmw_mode (mode : addressing_t) : bool :=
  match mode with ZP | ZPX | ABSOLUTE | ABSOLUTEX => true | _ => false end.

Lemma rmw_address ad : jit_emit_effaddr bi = Some ad → rmw_mode (d_mode id) = true →
  ∃ w, (∀ c, runs_native (ad ++ c) = code_run c (mach (LInt w) r2 v1 v2 a t) e) ∧
    ∀ e1, X (regs e1) = X (regs e) → instruction_data_address id i e1 = (Ret (u16 w), e1).
Proof.
  intros Ead Hm. destruct Hi as (_&H1&H2). pose proof (ready_byte_regs e He) as [].
  unfold jit_emit_effaddr in Ead. unfold instruction_data_address, get_X, gets, mbind, M_bind, mret, M_ret.
  assert (i_op1 i + (i_op2 i ≪ 8) = i_op1 i ||| (i_op2 i ≪ 8)) as Ew
    by (rewrite lohi_add, Z.shiftl_mul_pow2 by lia; lia).
  destruct (d_mode id); try discriminate Hm; injection Ead as <-.
  all: eexists; split; [intros c; by nodes|]; intros e1 E; rewrite ?E, ?Ew.
  - by rewrite u16_small by lia.
  - by rewrite land_255, u16_small, Z.add_comm by crange.
  - done.
  - by rewrite Z.add_comm.
Qed.

Lemma agrees_rmw ad c (g : Z → M jit_exit) : jit_emit_effaddr bi = Some ad →
  rmw_mode (d_mode id) = true →
  (∀ v w e1, native_ready e1 → byte v →
     (∀ x e2, X (regs e2) = X (regs e1) →
        instruction_data_write_1 id i x e2 = rk65c02_mem_write_1 (u16 w) x e2) →
     agrees (code_run c (mach (LInt v) LJunk (LInt w) v2 [] LJunk) e1) (g v e1)) →
  agrees (runs_native (ad ++ jit_movr JIT_V1 JIT_R1 :: jit_emit_bus_read ++ c))
    ((v ← instruction_data_read_1 id i; g v) e).
Proof.
  intros Ead Hm Hk. assert (addressed (d_mode id) = true) as Ha by by destruct (d_mode id).
  destruct (rmw_address ad Ead Hm) as (w&Hr&Hw). rewrite data_read_eq by done. rewrite bind_assoc.
  erewrite bind_Ret by by apply Hw. rewrite Hr. nodes. apply agrees_read; [done..|].
  intros v e1 He1 Hr1 Hv. apply Hk; [done..|]. intros x e2 Hx. rewrite data_write_eq by done.
  erewrite bind_Ret; [done|]. apply Hw. congruence.
Qed.

(** The write of a read-modify-write instruction. *)
Lemma agrees_write_back w x v c (g : M jit_exit) l1 l2 l3 l4 e1 : native_ready e1 →
  (∀ x e2, X (regs e2) = X (regs e1) →
     instruction_data_write_1 id i x e2 = rk65c02_mem_write_1 (u16 w) x e2) → u8 x = v →
  (∀ e2, native_ready e2 → agrees (code_run c (mach LJunk LJunk l1 l2 [] LJunk) e2) (g e2)) →
  agrees (code_run (jit_emit_bus_write ++ c) (mach (LInt w) (LInt x) l1 l2 l3 l4) e1)
    ((instruction_data_write_1 id i v;; g) e1).
Proof.
  intros He1 Hw Hx Hk. unfold mbind, M_bind. rewrite Hw by done.
  change (agrees (code_run (jit_emit_bus_write ++ c) (mach (LInt w) (LInt x) l1 l2 l3 l4) e1)
    ((rk65c02_mem_write_1 (u16 w) v;; g) e1)).
  apply agrees_write; [done..|]. intros e2 He2 _. by apply Hk.
Qed.

Lemma agrees_inc_dec alu (f : Z → Z) code : emit_inc_dec bi alu = Some code →
  (∀ x l l' a' t' e1 c, code_run (alu JIT_R1 JIT_R1 1 :: c) (mach (LInt x) l l' v2 a' t') e1 =
     code_run c (mach (LInt (f x)) l l' v2 a' t') e1) →
  rmw_mode (d_mode id) = true → d_modify_pc id = false →
  agrees (runs_native code)
    (((v ← instruction_data_read_1 id i;
       let val := u8 (f v) in
       instruction_data_write_1 id i val;; adjust_zn val);; then_check) e).
Proof.
  intros Ec Halu Hm Hp. unfold emit_inc_dec in Ec.
  destruct (jit_emit_effaddr bi) as [ad|] eqn:El; [|done]. injection Ec as <-. nodes.
  rewrite bind_assoc. apply agrees_rmw; [done..|]. intros v w e1 He1 Hv Hw. cbv zeta.
  rewrite Halu. nodes. rewrite land_255, bind_assoc. pose proof (u8_byte (f v)).
  apply agrees_write_back; [done..|by apply u8_small|]. intros e2 He2. nodes.
  apply agrees_zn; [done..|]. intros. by apply agrees_check.
Qed.

(** Shifts and rotations: the shifted value, from the operand and the carry,
    and the carry out. *)

Definition asl_of (v : Z) (c : bool) : Z := u8 (v ≪ 1).
Definition lsr_of (v : Z) (c : bool) : Z := u8 (v ≫ 1).
Definition rol_of (v : Z) (c : bool) : Z :=
  let val := u8 (v ≪ 1) in if c then val ||| 0x1 else val &&& !~ 0x1.
Definition ror_of (v : Z) (c : bool) : Z :=
  let val := u8 (v ≫ 1) in if c then val ||| 0x80 else val &&& !~ 0x80.

Lemma carry_word p : byte p → p &&& P_CARRY = Z.b2z (ctrue (p &&& P_CARRY)).
Proof. revert p. apply byte_forall_eq. vm_compute. reflexivity. Qed.
Lemma shift_flags p (b : bool) : byte p →
  u8 (if negb b then p &&& !~ P_CARRY else (p &&& !~ P_CARRY) ||| P_CARRY) = flag_put P_CARRY b p.
Proof. unfold flag_put. destruct b; cbn [negb]; revert p; status_eq. Qed.
Lemma lsr_word v : byte v → u64 v ≫ 1 = u8 (v ≫ 1).
Proof. revert v. apply byte_forall_eq. vm_compute. reflexivity. Qed.
Lemma rol_word v c : byte v → u8 ((v ≪ 1) ||| Z.b2z c) = rol_of v c.
Proof. unfold rol_of. destruct c; revert v; apply byte_forall_eq; vm_compute; reflexivity. Qed.
Lemma ror_word v c : byte v → (u64 v ≫ 1) ||| (Z.b2z c ≪ 7) = ror_of v c.
Proof. unfold ror_of. destruct c; revert v; apply byte_forall_eq; vm_compute; reflexivity. Qed.
Lemma rol_of_byte v c : byte (rol_of v c).
Proof. unfold rol_of. pose proof (u8_byte (v ≪ 1)). destruct c; crange. Qed.
Lemma ror_of_byte v c : byte (ror_of v c).
Proof. unfold ror_of. pose proof (u8_byte (v ≫ 1)). destruct c; crange. Qed.

Lemma agrees_shift_mem shift (f : Z → bool → Z) (bit : Z) code : emit_shift_mem bi shift = Some code →
  (∀ v w e1 c, native_ready e1 → byte v → ∃ y z,
     code_run (shift ++ c) (mach (LInt v) LJunk (LInt w) v2 [] LJunk) e1 =
     code_run c (mach (LInt (f v (carry e1))) y (LInt w) z [] LJunk)
       (set_regs (regs_P (flag_put P_CARRY (ctrue (v &&& bit)) (P (regs e1))) (regs e1)) e1)) →
  (∀ v c, byte (f v c)) → rmw_mode (d_mode id) = true → d_modify_pc id = false →
  agrees (runs_native code)
    (((v ← instruction_data_read_1 id i;
       c ← P_test P_CARRY;
       P_put P_CARRY (ctrue (v &&& bit));;
       adjust_zn (f v c);;
       instruction_data_write_1 id i (f v c));; then_check) e).
Proof.
  intros Ec Hsh Hf Hm Hp. unfold emit_shift_mem in Ec.
  destruct (jit_emit_effaddr bi) as [ad|] eqn:El; [|done]. injection Ec as <-. nodes.
  rewrite bind_assoc. apply agrees_rmw; [done..|]. intros v w e1 He1 Hv Hw.
  pose proof (ready_byte_regs e1 He1) as Hok.
  rewrite bind_assoc. erewrite bind_Ret by reflexivity. fold (carry e1).
  rewrite bind_assoc. erewrite bind_Ret by apply P_put_eq. rewrite bind_assoc.
  destruct (Hsh v w e1 (jit_movr JIT_V2 JIT_R1 :: jit_emit_update_zn ++ jit_movr JIT_R1 JIT_V1 ::
    jit_movr JIT_R2 JIT_V2 :: jit_emit_bus_write ++ jit_emit_advance_pc (d_size id) ++
    jit_emit_bail_if_jit_disabled) He1 Hv) as (y&z&->). nodes.
  erewrite bind_Ret by apply adjust_zn_eq. 
  apply agrees_zn_state; [ready|apply Hf|]. intros y'. nodes. calm.
  apply agrees_write_back; [ready|intros; by apply Hw|apply u8_small, Hf|].
  intros e2 He2. by apply agrees_check.
Qed.

Lemma agrees_asl_mem code : emit_asl_mem bi = Some code →
  rmw_mode (d_mode id) = true → d_modify_pc id = false →
  agrees (runs_native code) ((emul_asl id i;; then_check) e).
Proof.
  intros Ec Hm Hp. refine (agrees_shift_mem _ asl_of 0x80 code Ec _ _ Hm Hp).
  - intros v w e1 c He1 Hv. destruct (ready_byte_regs e1 He1). eexists _, _. unfold emit_shift_carry.
    nodes. by rewrite land_255, mask_test, shift_flags by done.
  - intros. apply u8_byte.
Qed.
Lemma agrees_lsr_mem code : emit_lsr_mem bi = Some code →
  rmw_mode (d_mode id) = true → d_modify_pc id = false →
  agrees (runs_native code) ((emul_lsr id i;; then_check) e).
Proof.
  intros Ec Hm Hp. refine (agrees_shift_mem _ lsr_of 0x01 code Ec _ _ Hm Hp).
  - intros v w e1 c He1 Hv. destruct (ready_byte_regs e1 He1). eexists _, _. unfold emit_shift_carry.
    nodes. by rewrite lsr_word, mask_test, shift_flags by done.
  - intros. apply u8_byte.
Qed.
Lemma agrees_rol_mem code : emit_rol_mem bi = Some code →
  rmw_mode (d_mode id) = true → d_modify_pc id = false →
  agrees (runs_native code) ((emul_rol id i;; then_check) e).
Proof.
  intros Ec Hm Hp. refine (agrees_shift_mem _ rol_of 0x80 code Ec _ rol_of_byte Hm Hp).
  intros v w e1 c He1 Hv. destruct (ready_byte_regs e1 He1). eexists _, _. unfold emit_shift_carry.
  nodes. by rewrite land_255, mask_test, shift_flags, carry_word, rol_word by done.
Qed.
Lemma agrees_ror_mem code : emit_ror_mem bi = Some code →
  rmw_mode (d_mode id) = true → d_modify_pc id = false →
  agrees (runs_native code) ((emul_ror id i;; then_check) e).
Proof.
  intros Ec Hm Hp. refine (agrees_shift_mem _ ror_of 0x01 code Ec _ ror_of_byte Hm Hp).
  intros v w e1 c He1 Hv. destruct (ready_byte_regs e1 He1). eexists _, _. unfold emit_shift_carry.
  nodes. by rewrite mask_test, shift_flags, carry_word, ror_word by done.
Qed.

(** The same on the accumulator: [pre] brings the shifted value to [JIT_R1]. *)
Lemma agrees_shift_acc pre (f : Z → bool → Z) (bit : Z) : d_mode id = ACCUMULATOR →
  (∀ c, ∃ y z z', runs_native (pre ++ c) =
     code_run c (mach (LInt (f (A (regs e)) (carry e))) y z z' a t)
       (set_regs (regs_P (flag_put P_CARRY (ctrue (A (regs e) &&& bit)) (P (regs e))) (regs e)) e)) →
  (∀ v c, byte (f v c)) → d_modify_pc id = false →
  agrees (runs_native (pre ++ jit_stxi_c OFFSET_E_A JIT_R0 JIT_R1 :: jit_emit_update_zn ++
      jit_emit_advance_pc (d_size id)))
    (((v ← instruction_data_read_1 id i;
       c ← P_test P_CARRY;
       P_put P_CARRY (ctrue (v &&& bit));;
       adjust_zn (f v c);;
       instruction_data_write_1 id i (f v c));; then_fall) e).
Proof.
  intros Hm Hpre Hf Hp. unfold instruction_data_read_1, instruction_data_write_1. rewrite Hm.
  edestruct (Hpre (jit_stxi_c OFFSET_E_A JIT_R0 JIT_R1 :: jit_emit_update_zn ++
    jit_emit_advance_pc (d_size id))) as (y&z&z'&->). nodes. routine. calm.
  rewrite (u8_small (f _ _)) by apply Hf. fold (carry e). pose proof (Hf (A (regs e)) (carry e)).
  apply agrees_zn_state; [ready|apply Hf|]. intros w. calm. apply agrees_fall; [ready|done].
Qed.

Lemma agrees_asl_a : d_mode id = ACCUMULATOR → d_modify_pc id = false →
  agrees (runs_native (emit_asl_a bi)) ((emul_asl id i;; then_fall) e).
Proof.
  intros Hm Hp. pose proof (ready_byte_regs e He) as [].
  refine (agrees_shift_acc ([ jit_ldxi_uc JIT_R1 JIT_R0 OFFSET_E_A;
    jit_ldxi_uc JIT_R2 JIT_R0 OFFSET_E_P;
    jit_andi JIT_R2 JIT_R2 (!~ P_CARRY) ] ++ emit_shift_carry 0x80 ++
    [ jit_lshi JIT_R1 JIT_R1 1; jit_andi JIT_R1 JIT_R1 0xFF ]) asl_of 0x80 Hm _ _ Hp);
    [|intros; apply u8_byte].
  intros c. eexists _, _, _. unfold emit_shift_carry. nodes.
  by rewrite land_255, mask_test, shift_flags by done.
Qed.
Lemma agrees_lsr_a : d_mode id = ACCUMULATOR → d_modify_pc id = false →
  agrees (runs_native (emit_lsr_a bi)) ((emul_lsr id i;; then_fall) e).
Proof.
  intros Hm Hp. pose proof (ready_byte_regs e He) as [].
  refine (agrees_shift_acc ([ jit_ldxi_uc JIT_R1 JIT_R0 OFFSET_E_A;
    jit_ldxi_uc JIT_R2 JIT_R0 OFFSET_E_P;
    jit_andi JIT_R2 JIT_R2 (!~ P_CARRY) ] ++ emit_shift_carry 0x01 ++
    [ jit_rshi_u JIT_R1 JIT_R1 1 ]) lsr_of 0x01 Hm _ _ Hp); [|intros; apply u8_byte].
  intros c. eexists _, _, _. unfold emit_shift_carry. nodes.
  by rewrite lsr_word, mask_test, shift_flags by done.
Qed.
Lemma agrees_rol_a : d_mode id = ACCUMULATOR → d_modify_pc id = false →
  agrees (runs_native (emit_rol_a bi)) ((emul_rol id i;; then_fall) e).
Proof.
  intros Hm Hp. pose proof (ready_byte_regs e He) as [].
  refine (agrees_shift_acc ([ jit_ldxi_uc JIT_R1 JIT_R0 OFFSET_E_A;
    jit_ldxi_uc JIT_R2 JIT_R0 OFFSET_E_P;
    jit_andi JIT_V1 JIT_R2 P_CARRY;
    jit_andi JIT_R2 JIT_R2 (!~ P_CARRY) ] ++ emit_shift_carry 0x80 ++
    [ jit_lshi JIT_R1 JIT_R1 1; jit_orr JIT_R1 JIT_R1 JIT_V1; jit_andi JIT_R1 JIT_R1 0xFF ])
    rol_of 0x80 Hm _ rol_of_byte Hp).
  intros c. eexists _, _, _. unfold emit_shift_carry. nodes.
  by rewrite land_255, mask_test, shift_flags, carry_word, rol_word by done.
Qed.
Lemma agrees_ror_a : d_mode id = ACCUMULATOR → d_modify_pc id = false →
  agrees (runs_native (emit_ror_a bi)) ((emul_ror id i;; then_fall) e).
Proof.
  intros Hm Hp. pose proof (ready_byte_regs e He) as [].
  refine (agrees_shift_acc ([ jit_ldxi_uc JIT_R1 JIT_R0 OFFSET_E_A;
    jit_ldxi_uc JIT_R2 JIT_R0 OFFSET_E_P;
    jit_andi JIT_V1 JIT_R2 P_CARRY;
    jit_lshi JIT_V1 JIT_V1 7;
    jit_andi JIT_R2 JIT_R2 (!~ P_CARRY) ] ++ emit_shift_carry 0x01 ++
    [ jit_rshi_u JIT_R1 JIT_R1 1; jit_orr JIT_R1 JIT_R1 JIT_V1 ]) ror_of 0x01 Hm _ ror_of_byte Hp).
  intros c. eexists _, _, _. unfold emit_shift_carry. nodes.
  by rewrite mask_test, shift_flags, carry_word, ror_word by done.
Qed.

(** INC A and DEC A *)
Lemma agrees_inc_a : d_mode id = ACCUMULATOR → d_modify_pc id = false →
  agrees (runs_native (emit_increment bi OFFSET_E_A)) ((emul_inc id i;; then_fall) e).
Proof.
  intros Hm Hp. unfold emul_inc, instruction_data_read_1, instruction_data_write_1. rewrite Hm.
  exact (agrees_increment OFFSET_E_A eq_refl Hp).
Qed.
Lemma agrees_dec_a : d_mode id = ACCUMULATOR → d_modify_pc id = false →
  agrees (runs_native (emit_decrement bi OFFSET_E_A)) ((emul_dec id i;; then_fall) e).
Proof.
  intros Hm Hp. unfold emul_dec, instruction_data_read_1, instruction_data_write_1. rewrite Hm.
  exact (agrees_decrement OFFSET_E_A eq_refl Hp).
Qed.

(** Bits *)

Lemma bit_word x p : byte p →
  u8 (if negb (x =? 0) then p &&& u8 (!~ P_ZERO) else (p &&& u8 (!~ P_ZERO)) ||| P_ZERO) =
  flag_put P_ZERO (negb (ctrue x)) p.
Proof.
  unfold flag_put, ctrue. rewrite negb_involutive. destruct (x =? 0); cbn [negb]; revert p; status_eq.
Qed.
Lemma bit_flags p (nz nn nv : bool) : byte p →
  u8 (if nv then if nn then if nz then p &&& u8 (!~ (P_ZERO ||| P_NEGATIVE ||| P_SIGN_OVERFLOW))
            else (p &&& u8 (!~ (P_ZERO ||| P_NEGATIVE ||| P_SIGN_OVERFLOW))) ||| P_ZERO
         else (if nz then p &&& u8 (!~ (P_ZERO ||| P_NEGATIVE ||| P_SIGN_OVERFLOW))
            else (p &&& u8 (!~ (P_ZERO ||| P_NEGATIVE ||| P_SIGN_OVERFLOW))) ||| P_ZERO) ||| P_NEGATIVE
      else (if nn then if nz then p &&& u8 (!~ (P_ZERO ||| P_NEGATIVE ||| P_SIGN_OVERFLOW))
            else (p &&& u8 (!~ (P_ZERO ||| P_NEGATIVE ||| P_SIGN_OVERFLOW))) ||| P_ZERO
         else (if nz then p &&& u8 (!~ (P_ZERO ||| P_NEGATIVE ||| P_SIGN_OVERFLOW))
            else (p &&& u8 (!~ (P_ZERO ||| P_NEGATIVE ||| P_SIGN_OVERFLOW))) ||| P_ZERO) ||| P_NEGATIVE)
        ||| P_SIGN_OVERFLOW) =
  flag_put P_NEGATIVE (negb nn) (flag_put P_SIGN_OVERFLOW (negb nv) (flag_put P_ZERO (negb nz) p)).
Proof. unfold flag_put. destruct nz, nn, nv; cbn [negb]; revert p; status_eq. Qed.

Lemma agrees_bit code : emit_bit bi = Some code → d_mode id ≠ ACCUMULATOR →
  (i_opcode i =? 0x89) = bool_decide (d_mode id = IMMEDIATE) → d_modify_pc id = false →
  agrees (runs_native code) ((emul_bit_once id i;; then_fall) e).
Proof.
  intros Ec Hm Hop Hp. unfold emit_bit in Ec.
  destruct (jit_emit_load_operand bi) as [ld|] eqn:El; [|done]. injection Ec as <-.
  unfold emul_bit_once. rewrite bind_assoc. apply agrees_load; [done..|].
  intros v e1 x y a' t' He1 Hr1 Hv. pose proof (ready_byte_regs e1 He1) as [].
  assert (byte (A (regs e1) &&& v)) as Hb by crange.
  rewrite bool_decide_not, <- Hop. routine. destruct (i_opcode i =? 0x89); cbn [negb]; nodes.
  - rewrite (zero_test (A (regs e1) &&& v)), bit_word by done. routine. apply agrees_fall; [ready|done].
  - rewrite (zero_test (A (regs e1) &&& v)), !mask_test, bit_flags by done. routine. calm.
    rewrite !negb_involutive. cbn [P regs_P]. rewrite !regs_P_idem.
    replace (negb (ctrue (A (regs e1) &&& v))) with (A (regs e1) &&& v =? 0)
      by (unfold ctrue; by rewrite negb_involutive).
    apply agrees_fall; [ready|done].
Qed.

Lemma agrees_memory_bit alu mask (f g : Z → Z) code : emit_memory_bit bi alu mask = Some code →
  (∀ x l l' a' t' e1 c, code_run (alu JIT_R2 JIT_R1 mask :: c) (mach (LInt x) l l' v2 a' t') e1 =
     code_run c (mach (LInt x) (LInt (f x)) l' v2 a' t') e1) → (∀ v, u8 (f v) = g v) →
  rmw_mode (d_mode id) = true → d_modify_pc id = false →
  agrees (runs_native code)
    (((v ← instruction_data_read_1 id i; instruction_data_write_1 id i (g v));; then_check) e).
Proof.
  intros Ec Halu Hfg Hm Hp. unfold emit_memory_bit in Ec.
  destruct (jit_emit_effaddr bi) as [ad|] eqn:El; [|done]. injection Ec as <-. nodes.
  rewrite bind_assoc. apply agrees_rmw; [done..|]. intros v w e1 He1 Hv Hw. rewrite Halu. nodes.
  apply agrees_write_back; [done..|]. intros e2 He2. by apply agrees_check.
Qed.

(** The number of the bit that RMBx and SMBx name. *)
#[local] Abbreviation bit_number := ((i_opcode i ≫ 4) &&& 0x07).

Lemma agrees_rmb code : emit_rmb bi = Some code → rmw_mode (d_mode id) = true →
  d_modify_pc id = false → agrees (runs_native code) ((emul_rmb bit_number id i;; then_check) e).
Proof.
  intros Ec Hm Hp. refine (agrees_memory_bit _ _ (λ v, v &&& u8 (!~ (1 ≪ bit_number)))
    (λ v, u8 (v &&& !~ (1 ≪ bit_number))) code Ec _ _ Hm Hp); [intros; by nodes|]. intros v.
  rewrite <- !land_255. by rewrite <- Z.land_assoc, <- Z.land_assoc, Z.land_diag, Z.land_assoc.
Qed.
Lemma agrees_smb code : emit_smb bi = Some code → rmw_mode (d_mode id) = true →
  d_modify_pc id = false → agrees (runs_native code) ((emul_smb bit_number id i;; then_check) e).
Proof.
  intros Ec Hm Hp. refine (agrees_memory_bit _ _ (λ v, v ||| u8 (1 ≪ bit_number))
    (λ v, u8 (v ||| (1 ≪ bit_number))) code Ec _ _ Hm Hp); [intros; by nodes|]. intros v.
  rewrite <- !land_255, !Z.land_lor_distr_l. by rewrite <- Z.land_assoc, Z.land_diag.
Qed.

Lemma agrees_trb_tsb (trb : bool) code : emit_trb_tsb bi = Some code →
  (i_opcode i =? 0x14) || (i_opcode i =? 0x1C) = trb →
  rmw_mode (d_mode id) = true → d_modify_pc id = false →
  agrees (runs_native code) (((if trb then emul_trb id i else emul_tsb id i);; then_check) e).
Proof.
  intros Ec Ht Hm Hp. unfold emit_trb_tsb in Ec.
  destruct (jit_emit_effaddr bi) as [ad|] eqn:El; [|done]. injection Ec as <-. rewrite Ht. nodes.
  unfold emul_trb, emul_tsb. destruct trb; rewrite bind_assoc; (apply agrees_rmw; [done..|]);
    intros v w e1 He1 Hv Hw; pose proof (ready_byte_regs e1 He1) as []; nodes;
    rewrite (zero_test (A (regs e1) &&& v)), bit_word by crange; routine; calm;
    (apply agrees_write_back; [ready|intros; by apply Hw|apply u8_small; simpl; crange|]);
    intros e2 He2; by apply agrees_check.
Qed.

(** Branches on bits *)

Lemma agrees_modified x m e1 : native_ready e1 → d_modify_pc id = true → based m →
  agrees (Ret (x, m), e1) ((finish_instruction id;; mret x) e1).
Proof. intros He1 Hm Hb. erewrite bind_Ret by (apply finish_eq, He1). rewrite Hm. by apply agrees_ret. Qed.

Lemma land_65535 x : x &&& 0xFFFF = u16 x.
Proof. change 0xFFFF with (Z.ones 16). by rewrite Z.land_ones by lia. Qed.
Lemma relative_word w : u16 (w &&& 0xFFFF) = u16 w.
Proof. rewrite land_65535. apply u16_small, u16_word. Qed.

Lemma run_relative rel c x l1 l2 l3 l4 l5 e1 : word (PC (regs e1)) → d_size id = 3 ∨ d_size id = 2 →
  ∃ y, code_run (emit_relative bi rel ++ c) (mach x l1 l2 l3 l4 l5) e1 =
    code_run c (mach y l1 l2 l3 l4 l5)
      (set_regs (regs_PC (u16 (PC (regs e1) + (rel + d_size id))) (regs e1)) e1).
Proof.
  intros Hw Hs. unfold emit_relative. nodes. eexists. rewrite relative_word.
  by rewrite (Z.add_comm rel).
Qed.

Lemma mask_bit v n : 0 ≤ n < 8 → v &&& u8 (1 ≪ n) = BIT v n.
Proof.
  intros Hn. unfold BIT. f_equal. apply u8_small. rewrite Z.shiftl_mul_pow2, Z.mul_1_l by lia.
  split; [lia|]. apply (Z.pow_lt_mono_r 2 n 8); lia.
Qed.

Lemma agrees_bit_branch (bbs : bool) : negb (i_opcode i &&& 0x80 =? 0) = bbs →
  d_mode id = ZPR → d_size id = 3 → d_modify_pc id = true →
  agrees (runs_native (emit_bit_branch bi))
    (((if bbs then emul_bbs bit_number id i else emul_bbr bit_number id i);;
      finish_instruction id;; mret Fall) e).
Proof.
  intros Hb Hm Hs Hp. destruct Hi as (H0&H1&H2). unfold emit_bit_branch. rewrite Hb. cbn zeta.
  assert (0 ≤ bit_number < 8) as Hn by (rewrite Z.land_comm; apply (land_range 7 _ 3); lia).
  assert (instruction_data_read_1 id i = (x ← mret (i_op1 i); rk65c02_mem_read_1 x)) as Er
    by (unfold instruction_data_read_1, instruction_data_address; by rewrite Hm).
  rewrite <- (app_nil_r (jit_either _ _ _)). nodes.
  destruct bbs; [unfold emul_bbs | unfold emul_bbr]; rewrite bind_assoc, Er, bind_assoc;
    erewrite bind_Ret by reflexivity;
    (apply agrees_read; [done|apply u16_small; lia|]; intros v e1 He1 Hr1 Hv);
    pose proof (ready_byte_regs e1 He1) as [];
    (erewrite run_either by reflexivity); rewrite ?mask_test, ?negb_involutive by apply u8_byte;
    rewrite mask_bit by done; (destruct (ctrue (BIT v bit_number)); cbn [negb]).
  1, 4: destruct (run_relative (s8 (i_op2 i)) [] (LInt v) LJunk v1 v2 [] LJunk e1 ok_PC (or_introl Hs))
      as (y&->); rewrite Hs; unfold bit_branch; routine; rewrite run_nil;
      apply agrees_modified; [ready|done..].
  all: rewrite run_advance_pc, run_jmp, run_nil; unfold program_counter_increment; routine;
    apply agrees_modified; [ready|done..].
Qed.

(** The stack *)

Lemma run_sp_dec c x l1 l2 l3 l4 l5 e1 (sp := u8 (SP (regs e1) - 1)) :
  code_run (emit_sp_dec ++ c) (mach x l1 l2 l3 l4 l5) e1 =
  code_run c (mach (LInt sp) l1 l2 l3 l4 l5) (set_regs (regs_SP sp (regs e1)) e1).
Proof. unfold emit_sp_dec. nodes. by rewrite land_255, (u8_small (u8 _)) by apply u8_byte. Qed.
Lemma run_sp_inc c x l1 l2 l3 l4 l5 e1 (sp := u8 (SP (regs e1) + 1)) :
  code_run (emit_sp_inc ++ c) (mach x l1 l2 l3 l4 l5) e1 =
  code_run c (mach (LInt sp) l1 l2 l3 l4 l5) (set_regs (regs_SP sp (regs e1)) e1).
Proof. unfold emit_sp_inc. nodes. by rewrite land_255, (u8_small (u8 _)) by apply u8_byte. Qed.

Lemma agrees_push w x v c l1 l2 l3 l4 (g : M jit_exit) e1 : native_ready e1 → u8 x = v →
  w = SP (regs e1) + 0x100 →
  (∀ e2, native_ready e2 →
     agrees (code_run c (mach (LInt (SP (regs e2))) LJunk l1 l2 [] LJunk) e2) (g e2)) →
  agrees (code_run (jit_emit_bus_write ++ emit_sp_dec ++ c) (mach (LInt w) (LInt x) l1 l2 l3 l4) e1)
    ((stack_push v;; g) e1).
Proof.
  intros He1 Hx -> Hk. unfold stack_push. routine. pose proof (ready_byte_regs e1 He1) as [].
  unfold STACK_START. rewrite (Z.add_comm 0x100).
  apply agrees_write; [done|apply u16_small; lia|done|]. intros e2 He2 Hr2. routine.
  rewrite run_sp_dec. pose proof (u8_byte (SP (regs e2) - 1)).
  refine (Hk (set_regs (regs_SP (u8 (SP (regs e2) - 1)) (regs e2)) e2) _). ready.
Qed.

Lemma agrees_pop c (g : Z → M jit_exit) x l1 l2 l3 l4 l5 e1 : native_ready e1 →
  (∀ v e2, native_ready e2 → byte v →
     agrees (code_run c (mach (LInt v) LJunk l2 l3 [] LJunk) e2) (g v e2)) →
  agrees (code_run (emit_sp_inc ++ jit_addi JIT_R1 JIT_R1 0x100 :: jit_emit_bus_read ++ c)
      (mach x l1 l2 l3 l4 l5) e1)
    ((v ← stack_pop; g v) e1).
Proof.
  intros He1 Hk. unfold stack_pop. routine. rewrite run_sp_inc. nodes. calm.
  pose proof (u8_byte (SP (regs e1) + 1)).
  apply agrees_read; [ready|unfold STACK_START; rewrite Z.add_comm; apply u16_small; simpl; lia|].
  intros v e2 He2 _ Hv. by apply Hk.
Qed.

(** The register a push or pull opcode names. *)
Lemma agrees_push_reg reg : is_byte_reg reg = true → d_modify_pc id = false →
  i_opcode i ≠ 0x08 →
  (if i_opcode i =? 0x48 then OFFSET_E_A else if i_opcode i =? 0xDA then OFFSET_E_X
   else if i_opcode i =? 0x5A then OFFSET_E_Y else OFFSET_E_P) = reg →
  agrees (runs_native (emit_push bi)) (((v ← get_field reg; stack_push v);; then_check) e).
Proof.
  intros Hr Hp Ho Hreg. unfold emit_push. rewrite Hreg, (proj2 (Z.eqb_neq _ _) Ho). nodes.
  rewrite run_load_field by done. cbn [reg_set]. rewrite bind_assoc. erewrite bind_Ret by reflexivity.
  pose proof (field_byte reg _ (ready_byte_regs e He)).
  apply agrees_push; [done|by apply u8_small|done|]. intros e2 He2. by apply agrees_check.
Qed.

Lemma agrees_php : d_modify_pc id = false → i_opcode i = 0x08 →
  agrees (runs_native (emit_push bi)) ((emul_php id i;; then_check) e).
Proof.
  intros Hp Ho. unfold emit_push, emul_php. rewrite Ho. cbn [Z.eqb Pos.eqb]. nodes. routine.
  pose proof (ready_byte_regs e He) as []. rewrite <- Z.lor_assoc.
  apply agrees_push; [done|apply u8_small; apply lor_byte; done|done|].
  intros e2 He2. by apply agrees_check.
Qed.

Lemma agrees_pull_reg reg : is_byte_reg reg = true → d_modify_pc id = false →
  (if i_opcode i =? 0x68 then OFFSET_E_A else if i_opcode i =? 0xFA then OFFSET_E_X
   else OFFSET_E_Y) = reg →
  agrees (runs_native (emit_pull bi))
    (((v ← stack_pop; put_field reg v;; x ← get_field reg; adjust_zn x);; then_fall) e).
Proof.
  intros Hr Hp Hreg. unfold emit_pull. rewrite Hreg. nodes. rewrite bind_assoc.
  apply agrees_pop; [done|]. intros v e2 He2 Hv. by apply agrees_put_zn.
Qed.

Lemma agrees_plp : d_modify_pc id = false →
  agrees (runs_native (emit_plp bi)) ((emul_plp id i;; then_fall) e).
Proof.
  intros Hp. unfold emit_plp, emul_plp. nodes. rewrite bind_assoc.
  apply agrees_pop; [done|]. intros v e2 He2 Hv. nodes. routine.
  assert (byte (status_from_stack v)) by (unfold status_from_stack; apply land_byte, lor_byte; done).
  change ((v ||| P_UNDEFINED) &&& !~ P_BREAK) with (status_from_stack v). rewrite u8_small by done.
  apply agrees_fall; [ready|done].
Qed.

(** Jumps *)

Lemma agrees_bra : d_size id = 2 → d_modify_pc id = true →
  agrees (runs_native (emit_relative bi (s8 (i_op1 i))))
    ((emul_bra id i;; finish_instruction id;; mret Fall) e).
Proof.
  intros Hs Hp. pose proof (ready_byte_regs e He) as []. rewrite <- (app_nil_r (emit_relative _ _)).
  destruct (run_relative (s8 (i_op1 i)) [] r1 r2 v1 v2 a t e ok_PC (or_intror Hs)) as (y&->).
  rewrite run_nil, Hs. unfold emul_bra, program_counter_branch. routine. rewrite <- Z.add_assoc.
  apply agrees_modified; [ready|done..].
Qed.

Lemma jump_word : u16 (i_op1 i + (i_op2 i ≪ 8)) = u16 (i_op1 i ||| (i_op2 i ≪ 8)).
Proof. destruct Hi as (_&?&?). by rewrite lohi_add, Z.shiftl_mul_pow2, (Z.mul_comm 256) by lia. Qed.

Lemma agrees_jmp : d_mode id = ABSOLUTE → d_modify_pc id = true →
  agrees (runs_native (emit_jmp bi)) ((emul_jmp id i;; finish_instruction id;; mret Fall) e).
Proof.
  intros Hm Hp. unfold emit_jmp, emul_jmp. rewrite Hm. nodes. routine. rewrite run_nil, jump_word.
  rewrite (u16_small (u16 _)) by apply u16_word. pose proof (u16_word (i_op1 i ||| (i_op2 i ≪ 8))).
  apply agrees_modified; [ready|done..].
Qed.

Lemma agrees_jmp_indirect : d_mode id = IABSOLUTE → d_modify_pc id = true →
  agrees (runs_native (emit_jmp_indirect bi)) ((emul_jmp id i;; finish_instruction id;; mret Fall) e).
Proof.
  intros Hm Hp. unfold emit_jmp_indirect, emul_jmp. rewrite Hm. nodes. rewrite !bind_assoc.
  rewrite jump_word. apply agrees_pointer; [done|apply u16_small, u16_word|apply u16_word|].
  intros p e1 l He1 Hr1 Hw. nodes. routine. rewrite run_nil, u16_small by done.
  apply agrees_modified; [ready|done..].
Qed.

Lemma agrees_jsr : d_modify_pc id = true →
  agrees (runs_native (emit_jsr bi))
    ((emul_jsr id i;; finish_instruction id;;
      u ← gets (λ e, use_jit e); mret (if u : bool then Fall else Leave)) e).
Proof.
  intros Hp. pose proof (ready_byte_regs e He) as []. unfold emit_jsr, emul_jsr. nodes. routine.
  rewrite land_65535. set (ret := u16 (PC (regs e) + 2)). assert (word ret) as Hret by apply u16_word.
  rewrite (u64_small ret) by lia.
  apply agrees_push; [done|by apply u8_small, shiftr8_byte|done|]. intros e2 He2. nodes. routine.
  apply agrees_push; [done|rewrite land_255; apply u8_small, u8_byte|done|]. intros e3 He3. nodes. routine.
  rewrite jump_word, (u16_small (u16 _)) by apply u16_word. pose proof (u16_word (i_op1 i ||| (i_op2 i ≪ 8))).
  rewrite <- (app_nil_r jit_emit_bail_if_jit_disabled), run_bail. 
  erewrite bind_Ret by (apply finish_eq; apply He3). rewrite Hp. erewrite bind_Ret by reflexivity.
  destruct (use_jit _); by apply agrees_ret.
Qed.

Lemma agrees_rts : d_size id = 1 → d_modify_pc id = false →
  agrees (runs_native emit_rts) ((emul_rts id i;; then_fall) e).
Proof.
  intros Hs Hp. unfold emit_rts, emul_rts. nodes. rewrite bind_assoc.
  apply agrees_pop; [done|]. intros l e1 He1 Hl. nodes. rewrite bind_assoc.
  apply agrees_pop; [done|]. intros h e2 He2 Hh. nodes. routine. rewrite run_nil.
  pose proof (lohi_word l h Hl Hh). rewrite Z.lor_comm, relative_word, (u16_small (l ||| _)) by done.
  unfold then_fall. erewrite bind_Ret by (apply finish_eq; apply He2). rewrite Hp, Hs.
  by apply agrees_ret.
Qed.

(** Conditional branches *)

Lemma u32_s32 x : u32 (s32 x - 1) = u32 (x - 1).
Proof.
  unfold s32, u32. destruct (_ <? _); rewrite Zminus_mod, ?Z.mod_mod, <- Zminus_mod by lia; [done|].
  rewrite <- (Z_mod_plus_full _ 1).
  replace (x mod 4294967296 - 4294967296 - 1 + 1 * 4294967296) with (x mod 4294967296 - 1) by lia.
  by rewrite Zminus_mod_idemp_l.
Qed.

Lemma agrees_guard span tgt x l1 l2 l3 l4 l5 e1 : native_ready e1 →
  agrees (code_run (jit_emit_backedge_guard span ++ [jit_ijmp tgt]) (mach x l1 l2 l3 l4 l5) e1)
    ((g ← loop_guard span; mret (if g : bool then Goto tgt else Leave)) e1).
Proof.
  intros He1. pose proof (s32_range (jit_loop_budget e1)). destruct (nr_jit e1 He1) as [j Ej].
  unfold jit_emit_backedge_guard, loop_guard. nodes.
  rewrite bind_assoc. erewrite bind_Ret by reflexivity.
  rewrite bind_assoc. erewrite bind_Ret by reflexivity.
  rewrite bind_assoc. erewrite bind_Ret by reflexivity. cbv beta. rewrite u32_s32.
  match goal with |- agrees (JitNative.code_run _ _ _ _ _ _ ?s) (_ ?s') => change s' with s;
    assert (jit s = Some j) as Ej2 by exact Ej; generalize dependent s end. intros e2 Ej2.
  erewrite run_bail_if by reflexivity. rewrite !s64_small by lia.
  destruct (_ - 1 <=? 0); [by apply agrees_ret|].
  nodes. erewrite run_bail_if by reflexivity.
  destruct (stop_requested e2) eqn:Es; cbn [Z.b2z]; [by apply agrees_ret|].
  change (negb (u64 0 =? u64 0)) with false. cbv iota. nodes. erewrite run_bail_if by reflexivity.
  destruct (irq e2) eqn:Eq; cbn [Z.b2z]; [by apply agrees_ret|].
  change (negb (u64 0 =? u64 0)) with false. cbv iota. cbn [orb]. nodes.
  erewrite run_step by (cbn [node_step reg_get m_r2]; erewrite bind_Ret by reflexivity;
    rewrite Ej2; reflexivity). nodes.
  erewrite run_step by reflexivity. rewrite run_ijmp. unfold mod_jit. rewrite bind_assoc.
  erewrite bind_Ret by reflexivity. erewrite bind_Ret by reflexivity. rewrite Ej2. by apply agrees_ret.
Qed.

Lemma agrees_branch ctx k (b : bool) : insn_addr ctx !! k = Some (PC (regs e)) →
  d_size id = 2 → d_modify_pc id = true →
  (∀ l1 l2 l3 l4 l5, cond_holds (branch_cond bi) (mach (LInt (P (regs e))) l1 l2 l3 l4 l5) = Some b) →
  agrees (runs_native (emit_branch bi ctx k))
    ((branch_if b id i;; finish_instruction id;;
      if b then
        match target_index ctx (branch_target bi ctx k) with
        | None => mret Leave
        | Some t =>
            if (t <=? k)%nat then
              g ← loop_guard (Z.of_nat (k - t + 1)); mret (if g : bool then Goto t else Leave)
            else mret (Goto t)
        end
      else mret Fall) e).
Proof.
  intros Hk Hs Hp Hc. pose proof (ready_byte_regs e He) as []. unfold emit_branch.
  rewrite <- (app_nil_r (jit_either _ _ _)). nodes. erewrite run_either by apply Hc.
  unfold branch_if. destruct b.
  - assert (branch_target bi ctx k = u16 (PC (regs e) + s8 (i_op1 i) + 2)) as Et
      by (unfold branch_target; rewrite Hk, Hs; cbn [default]; f_equal; simpl; lia).
    rewrite Et. unfold program_counter_branch. routine. nodes.
    pose proof (u16_word (PC (regs e) + s8 (i_op1 i) + 2)). rewrite (u16_small (u16 _)) by done.
    erewrite bind_Ret by (apply finish_eq; apply He). rewrite Hp.
    destruct (target_index _ _) as [tgt|]; [|by apply agrees_ret].
    destruct (tgt <=? k)%nat; rewrite ?app_nil_r; [apply agrees_guard; ready|].
    cbn [app]. rewrite run_ijmp. by apply agrees_ret.
  - rewrite run_advance_pc, run_jmp, run_nil. unfold program_counter_increment. routine.
    apply agrees_modified; [ready|done..].
Qed.

(** The fallback *)

Lemma agrees_fallback :
  agrees (runs_native (emit_fallback bi))
    ((rk65c02_exec;; e' ← get;
      mret (if negb (d_modify_pc id) && is_running e' && use_jit e' then Fall else Leave)) e).
Proof.
  unfold emit_fallback. nodes. rewrite run_call. cbn [call m_args]. unfold jit_exec_fallback.
  rewrite bind_assoc. apply agrees_bind. intros [] e1 _. erewrite bind_Ret by reflexivity.
  erewrite bind_Ret by reflexivity. cbn [m_v0 m_v1 m_v2]. nodes. destruct (d_modify_pc id); cbn [negb andb].
  - erewrite run_bail_if by reflexivity. by apply agrees_ret.
  - nodes. erewrite run_bail_if by reflexivity. unfold is_running.
    destruct (state e1), (use_jit e1); by apply agrees_ret.
Qed.

(** ** Every instruction *)

Section Cases.
Context (ctx : jit_emit_ctx) (k : nat).

Lemma case_fall code : emit_switch bi ctx k = Some code → falls_back id = false →
  (∀ p, branch_taken (d_emul id) p = false) → stores id = false →
  agrees (runs_native code) ((native_emul (d_emul id) id i;; then_fall) e) →
  agrees (runs_native (jit_emit_insn bi ctx k)) (insn_step ctx k bi e).
Proof.
  intros Ec Hf Hb Hs Ha. unfold jit_emit_insn, insn_step, step_with. rewrite Ec, Hf, Hs.
  erewrite bind_Ret by reflexivity. rewrite Hb. exact Ha.
Qed.
Lemma case_check code : emit_switch bi ctx k = Some code → falls_back id = false →
  (∀ p, branch_taken (d_emul id) p = false) → stores id = true →
  agrees (runs_native code) ((native_emul (d_emul id) id i;; then_check) e) →
  agrees (runs_native (jit_emit_insn bi ctx k)) (insn_step ctx k bi e).
Proof.
  intros Ec Hf Hb Hs Ha. unfold jit_emit_insn, insn_step, step_with. rewrite Ec, Hf, Hs.
  erewrite bind_Ret by reflexivity. rewrite Hb. exact Ha.
Qed.
Lemma case_branch b : emit_switch bi ctx k = Some (emit_branch bi ctx k) → falls_back id = false →
  branch_taken (d_emul id) (P (regs e)) = b → stores id = false →
  native_emul (d_emul id) id i e = branch_if b id i e →
  insn_addr ctx !! k = Some (PC (regs e)) → d_size id = 2 → d_modify_pc id = true →
  (∀ l1 l2 l3 l4 l5, cond_holds (branch_cond bi) (mach (LInt (P (regs e))) l1 l2 l3 l4 l5) = Some b) →
  agrees (runs_native (jit_emit_insn bi ctx k)) (insn_step ctx k bi e).
Proof.
  intros Ec Hf Hb Hs Hr Hk Hz Hp Hc. unfold jit_emit_insn, insn_step, step_with. rewrite Ec, Hf, Hs.
  erewrite bind_Ret by reflexivity. rewrite Hb. pose proof (agrees_branch ctx k b Hk Hz Hp Hc) as Ha.
  unfold mbind, M_bind in *. rewrite Hr. exact Ha.
Qed.
Lemma case_fallback : emit_switch bi ctx k = None → falls_back id = true →
  agrees (runs_native (jit_emit_insn bi ctx k)) (insn_step ctx k bi e).
Proof.
  intros Ec Hf. unfold jit_emit_insn, insn_step, step_with. rewrite Ec, Hf. exact agrees_fallback.
Qed.

End Cases.
End Family.
End Operand.

(** The lemma of each routine.  The side conditions are evaluated at the opcode
    at hand. *)
#[local] Ltac side :=
  first [ assumption | reflexivity | discriminate | intros; discriminate | intros; by nodes
        | intros; crange ].
#[local] Ltac fall := eapply case_fall;
  [reflexivity|reflexivity|intros ?; reflexivity|reflexivity|].
#[local] Ltac check := eapply case_check;
  [reflexivity|reflexivity|intros ?; reflexivity|reflexivity|].
#[local] Ltac branch := eapply case_branch;
  [ assumption | reflexivity | reflexivity | reflexivity | reflexivity | reflexivity | assumption
  | reflexivity | reflexivity
  | intros; cbn; f_equal; rewrite mask_test by done; rewrite ?negb_involutive; reflexivity ].
(** One member of each group of routines that are proved alike. *)
Definition routine_group (f : emul_fn) : emul_fn :=
  match f with
  | f_rmb1 | f_rmb2 | f_rmb3 | f_rmb4 | f_rmb5 | f_rmb6 | f_rmb7 => f_rmb0
  | f_smb1 | f_smb2 | f_smb3 | f_smb4 | f_smb5 | f_smb6 | f_smb7 => f_smb0
  | f_bbr1 | f_bbr2 | f_bbr3 | f_bbr4 | f_bbr5 | f_bbr6 | f_bbr7 => f_bbr0
  | f_bbs1 | f_bbs2 | f_bbs3 | f_bbs4 | f_bbs5 | f_bbs6 | f_bbs7 => f_bbs0
  | f_bcs | f_beq | f_bne | f_bmi | f_bpl | f_bvc | f_bvs => f_bcc
  | f_rti | f_stp | f_wai | f_invalid => f_brk
  | _ => f
  end.
#[local] Ltac by_routine rt mode :=
  lazymatch rt with
  | f_lda => fall; eapply agrees_load_reg with (reg := OFFSET_E_A); side
  | f_ldx => fall; eapply agrees_load_reg with (reg := OFFSET_E_X); side
  | f_ldy => fall; eapply agrees_load_reg with (reg := OFFSET_E_Y); side
  | f_sta => check; eapply agrees_store_reg with (reg := OFFSET_E_A); side
  | f_stx => check; eapply agrees_store_reg with (reg := OFFSET_E_X); side
  | f_sty => check; eapply agrees_store_reg with (reg := OFFSET_E_Y); side
  | f_stz => check; eapply agrees_stz; side
  | f_clc => fall; eapply agrees_flag_clear with (k := P_CARRY); side
  | f_cld => fall; eapply agrees_flag_clear with (k := P_DECIMAL); side
  | f_cli => fall; eapply agrees_flag_clear with (k := P_IRQ_DISABLE); side
  | f_clv => fall; eapply agrees_flag_clear with (k := P_SIGN_OVERFLOW); side
  | f_sec => fall; eapply agrees_flag_set with (k := P_CARRY); side
  | f_sed => fall; eapply agrees_flag_set with (k := P_DECIMAL); side
  | f_sei => fall; eapply agrees_flag_set with (k := P_IRQ_DISABLE); side
  | f_tax => fall; eapply agrees_transfer with (from := OFFSET_E_A) (to := OFFSET_E_X); side
  | f_tay => fall; eapply agrees_transfer with (from := OFFSET_E_A) (to := OFFSET_E_Y); side
  | f_txa => fall; eapply agrees_transfer with (from := OFFSET_E_X) (to := OFFSET_E_A); side
  | f_tya => fall; eapply agrees_transfer with (from := OFFSET_E_Y) (to := OFFSET_E_A); side
  | f_tsx => fall; eapply agrees_transfer with (from := OFFSET_E_SP) (to := OFFSET_E_X); side
  | f_txs => fall; eapply agrees_txs; side
  | f_inx => fall; eapply agrees_increment with (reg := OFFSET_E_X); side
  | f_iny => fall; eapply agrees_increment with (reg := OFFSET_E_Y); side
  | f_dex => fall; eapply agrees_decrement with (reg := OFFSET_E_X); side
  | f_dey => fall; eapply agrees_decrement with (reg := OFFSET_E_Y); side
  | f_and => fall; eapply agrees_logic with (alu := jit_andr) (f := Z.land); side
  | f_ora => fall; eapply agrees_logic with (alu := jit_orr) (f := Z.lor); side
  | f_eor => fall; eapply agrees_logic with (alu := jit_xorr) (f := Z.lxor); side
  | f_adc => fall; eapply agrees_adc; side
  | f_sbc => fall; eapply agrees_sbc; side
  | f_cmp => fall; eapply agrees_compare with (reg := OFFSET_E_A); side
  | f_cpx => fall; eapply agrees_compare with (reg := OFFSET_E_X); side
  | f_cpy => fall; eapply agrees_compare with (reg := OFFSET_E_Y); side
  | f_inc =>
      lazymatch mode with
      | ACCUMULATOR => fall; eapply agrees_inc_a; side
      | _ => check; eapply agrees_inc_dec with (alu := jit_addi) (f := λ v, v + 1); side
      end
  | f_dec =>
      lazymatch mode with
      | ACCUMULATOR => fall; eapply agrees_dec_a; side
      | _ => check; eapply agrees_inc_dec with (alu := jit_subi) (f := λ v, v - 1); side
      end
  | f_asl =>
      lazymatch mode with
      | ACCUMULATOR => fall; eapply agrees_asl_a; side
      | _ => check; eapply agrees_asl_mem; side
      end
  | f_lsr =>
      lazymatch mode with
      | ACCUMULATOR => fall; eapply agrees_lsr_a; side
      | _ => check; eapply agrees_lsr_mem; side
      end
  | f_rol =>
      lazymatch mode with
      | ACCUMULATOR => fall; eapply agrees_rol_a; side
      | _ => check; eapply agrees_rol_mem; side
      end
  | f_ror =>
      lazymatch mode with
      | ACCUMULATOR => fall; eapply agrees_ror_a; side
      | _ => check; eapply agrees_ror_mem; side
      end
  | f_bit => fall; eapply agrees_bit; side
  | f_rmb0 => check; eapply agrees_rmb; side
  | f_smb0 => check; eapply agrees_smb; side
  | f_trb => check; eapply agrees_trb_tsb with (trb := true); side
  | f_tsb => check; eapply agrees_trb_tsb with (trb := false); side
  | f_bbr0 => fall; eapply agrees_bit_branch with (bbs := false); side
  | f_bbs0 => fall; eapply agrees_bit_branch with (bbs := true); side
  | f_pha => check; eapply agrees_push_reg with (reg := OFFSET_E_A); side
  | f_phx => check; eapply agrees_push_reg with (reg := OFFSET_E_X); side
  | f_phy => check; eapply agrees_push_reg with (reg := OFFSET_E_Y); side
  | f_php => check; eapply agrees_php; side
  | f_pla => fall; eapply agrees_pull_reg with (reg := OFFSET_E_A); side
  | f_plx => fall; eapply agrees_pull_reg with (reg := OFFSET_E_X); side
  | f_ply => fall; eapply agrees_pull_reg with (reg := OFFSET_E_Y); side
  | f_plp => fall; eapply agrees_plp; side
  | f_nop => fall; eapply agrees_fall; side
  | f_bra => fall; eapply agrees_bra; side
  | f_jmp =>
      lazymatch mode with
      | ABSOLUTE => fall; eapply agrees_jmp; side
      | IABSOLUTE => fall; eapply agrees_jmp_indirect; side
      | _ => eapply case_fallback; reflexivity
      end
  | f_jsr => check; eapply agrees_jsr; side
  | f_rts => fall; eapply agrees_rts; side
  | f_brk => eapply case_fallback; reflexivity
  | f_bcc => branch
  end.

Lemma insn_agrees bi ctx k m e :
  native_ready e → bi_id bi = instruction_decode (i_opcode (bi_i bi)) → instruction_ok (bi_i bi) →
  insn_addr ctx !! k = Some (PC (regs e)) → based m →
  agrees (code_run (jit_emit_insn bi ctx k) m e) (insn_step ctx k bi e).
Proof.
  intros He Hid Hi Hk Hm. destruct m as [r0 r1 r2 v0 v1 v2 a t]. destruct Hm as [H0 H3].
  cbn [m_r0 m_v0] in H0, H3. subst r0 v0. destruct bi as [[o op1 op2] id]. cbn [bi_id bi_i i_opcode] in *.
  subst id. destruct Hi as (Ho&H1&H2). cbn [i_opcode i_op1 i_op2] in *.
  assert (∀ o, byte o → instruction_ok (mkInstruction o op1 op2)) as Hi by (intros; by split).
  destruct o as [|p|p]; [| |lia].
  2: do 8 (try (destruct p as [p|p|])); try lia.
  all: specialize (Hi _ Ho).
  all: lazymatch goal with |- agrees (JitNative.code_run _ _ _ _ (jit_emit_insn
    (mkBlockInsn (mkInstruction ?o _ _) _) _ _) _ _) _ =>
    let rt := eval vm_compute in (routine_group (d_emul (instruction_decode o))) in
    let mode := eval vm_compute in (d_mode (instruction_decode o)) in
    by_routine rt mode
  end.
Qed.


End Exact.
