(* ===== verification/JitShape.v ===== *)
(** The shape of emitted code: which nodes jump, and how many there are. *)
From stdpp Require Import base numbers list gmap strings.
From S2P Require Import Prelude Types Isa JitCache JitEmit.

(** ** Code without jumps to labels *)

Definition label_free_node (n : jit_node) : bool :=
  match n with jit_stxi_i _ _ _ | jit_ijmp _ => false | _ => true end.
Definition label_free (c : list jit_node) : bool := forallb label_free_node c.

Lemma label_free_app c d : label_free (c ++ d) = label_free c && label_free d.
Proof. apply forallb_app. Qed.

(** ** What is emitted *)

(** The branches given to [jit_ctx_add_bail] and the jumps in [ctx->ijmps]. *)
Definition is_bail (n : jit_node) : bool := match n with jit_bail _ => true | _ => false end.
Definition is_ijmp (n : jit_node) : bool := match n with jit_ijmp _ => true | _ => false end.
Fixpoint number (p : jit_node → bool) (c : list jit_node) : nat :=
  match c with [] => 0 | n :: c' => (if p n then 1 else 0) + number p c' end.

Lemma number_app p c d : number p (c ++ d) = (number p c + number p d)%nat.
Proof. induction c as [|n c IH]; simpl; [done|]. rewrite IH. lia. Qed.

(** Code that keeps the budget, does not jump to labels and has at most [n]
    bails. *)
Definition tame (n : nat) (c : list jit_node) : bool := label_free c && (number is_bail c <=? n)%nat.

Lemma tame_app c d : tame 0 c = true → tame 1 d = true → tame 1 (c ++ d) = true.
Proof.
  unfold tame. rewrite label_free_app, number_app, !andb_true_iff, !Nat.leb_le. intros [-> ?] [-> ?].
  split; [done|lia].
Qed.

Lemma tame_effaddr bi c : jit_emit_effaddr bi = Some c → tame 0 c = true.
Proof. unfold jit_emit_effaddr. intros E. repeat case_match; by simplify_eq. Qed.
Lemma tame_load bi c : jit_emit_load_operand bi = Some c → tame 0 c = true.
Proof.
  unfold jit_emit_load_operand. destruct (jit_emit_effaddr bi) eqn:E; [|done]. intros [= <-].
  apply tame_effaddr, andb_true_iff in E as [Hq Hn%Nat.leb_le]. unfold tame.
  rewrite label_free_app, number_app, Hq. case_match; simpl; apply Nat.leb_le; lia.
Qed.

Lemma tame_with_effaddr bi c d : tame 1 d = true →
  (addr ← jit_emit_effaddr bi; Some (addr ++ d)) = Some c → tame 1 c = true.
Proof.
  intros Hd. destruct (jit_emit_effaddr bi) eqn:E; [|done]. intros [= <-].
  apply tame_app; [by eapply tame_effaddr|done].
Qed.
Lemma tame_with_load bi c d : tame 1 d = true →
  (load ← jit_emit_load_operand bi; Some (load ++ d)) = Some c → tame 1 c = true.
Proof.
  intros Hd. destruct (jit_emit_load_operand bi) eqn:E; [|done]. intros [= <-].
  apply tame_app; [by eapply tame_load|done].
Qed.

Ltac tame_code :=
  repeat match goal with |- context [if ?b then _ else _] => destruct b end; reflexivity.
Ltac tame_case :=
  match goal with
  | E : Some _ = Some _ |- _ => injection E as <-
  | _ => idtac
  end;
  first
  [ by left
  | right; tame_code
  | right; eapply tame_with_effaddr; [|eassumption]; tame_code
  | right; eapply tame_with_load; [|eassumption]; tame_code ].

(** Everything but a conditional branch. *)
Lemma tame_switch bi ctx k c :
  emit_switch bi ctx k = Some c → c = emit_branch bi ctx k ∨ tame 1 c = true.
Proof.
  unfold emit_switch. intros E. repeat case_match; try discriminate E.
  all: unfold emit_push, emit_bit_branch in E; tame_case.
Qed.

Lemma tame_fallback bi : tame 1 (emit_fallback bi) = true.
Proof. unfold emit_fallback. by destruct (d_modify_pc _). Qed.

Lemma tame_insn bi ctx k :
  jit_emit_insn bi ctx k = emit_branch bi ctx k ∨ tame 1 (jit_emit_insn bi ctx k) = true.
Proof.
  unfold jit_emit_insn. destruct (emit_switch bi ctx k) eqn:E; simpl.
  - by eapply tame_switch.
  - right. apply tame_fallback.
Qed.

(** ** The emitter's arrays are large enough *)

Lemma label_free_no_ijmp c : label_free c = true → number is_ijmp c = 0%nat.
Proof.
  induction c as [|n c IH]; [done|]. simpl. intros [Hn Hc]%andb_prop. rewrite IH by done.
  by destruct n.
Qed.

Lemma insn_jumps bi ctx k :
  (number is_bail (jit_emit_insn bi ctx k) <= 4)%nat ∧ (number is_ijmp (jit_emit_insn bi ctx k) <= 1)%nat.
Proof.
  destruct (tame_insn bi ctx k) as [->|[Hq Hn%Nat.leb_le]%andb_prop].
  - unfold emit_branch. destruct (target_index _ _) as [t|]; [destruct (t <=? k)%nat|]; cbn; lia.
  - rewrite (label_free_no_ijmp _ Hq). lia.
Qed.

Definition JIT_MAX_BAILS : nat := JIT_BLOCK_MAX_INSNS * 4.

Lemma block_jumps p n pc insns :
  (∀ bi ctx k, number p (jit_emit_insn bi ctx k) <= n)%nat →
  (number p (concat (jit_emit_block pc insns)) <= length insns * n)%nat.
Proof.
  intros Hp. unfold jit_emit_block. generalize (mkCtx (insn_addrs pc insns)). intros ctx.
  assert (∀ l (f : nat → jit_block_insn → list jit_node), (∀ k bi, number p (f k bi) <= n)%nat →
    (number p (concat (imap f l)) <= length l * n)%nat) as Hl; [|by apply Hl; intros; apply Hp].
  clear. induction l as [|bi l IH]; intros f Hf; [done|]. rewrite imap_cons. cbn [concat].
  rewrite number_app. specialize (IH (f ∘ S) ltac:(intros; apply Hf)). specialize (Hf 0%nat bi).
  simpl. lia.
Qed.

(** C36: the assertions of the emitter hold.  Whatever instructions a block
    has, emitting it registers at most [JIT_MAX_BAILS] bail-outs and at most
    [JIT_BLOCK_MAX_INSNS] jumps to labels: neither array of [struct
    jit_emit_ctx] overflows. *)
Theorem emitter_arrays_suffice pc insns : (length insns <= JIT_BLOCK_MAX_INSNS)%nat →
  (number is_bail (concat (jit_emit_block pc insns)) <= JIT_MAX_BAILS)%nat ∧
  (number is_ijmp (concat (jit_emit_block pc insns)) <= JIT_BLOCK_MAX_INSNS)%nat.
Proof.
  intros Hl. unfold JIT_MAX_BAILS. split.
  - etransitivity; [apply (block_jumps is_bail 4); intros; apply insn_jumps|].
    by apply Nat.mul_le_mono_r.
  - etransitivity; [apply (block_jumps is_ijmp 1); intros; apply insn_jumps|]. lia.
Qed.

Lemma target_index_lt ctx a t : target_index ctx a = Some t → (t < length (insn_addr ctx))%nat.
Proof.
  unfold target_index. destruct (list_find _ _) as [[t' x]|] eqn:Hf; [|done]. intros [= ->].
  apply list_find_Some in Hf as (Hl & _). by eapply lookup_lt_Some.
Qed.
