(* ===== verification/JitLoop.v ===== *)
(** Native code returns.

    A compiled block goes back to an earlier instruction only through the guard
    of [jit_emit_backedge_guard], which counts down the loop budget; so it
    returns to the dispatcher within a bound that depends on its length and the
    budget alone.  Native code also leaves the emulator and the block cache
    well-formed, which discharges the hypothesis of [JitInvariant]. *)
From stdpp Require Import base numbers list gmap strings.
From S2P Require Import Prelude Types Isa BusSpec State Interfaces Mmu Instruction Emulation.
From S2P Require Import Disasm Debug Exec IsaSpec Invariant Runs IsaArith Decimal Frames.
From S2P Require Import JitCache JitEmit Jit JitSpec JitStores JitInvariant JitNative JitShape.

Section Loop.
Context (B H : Type).
#[local] Hint Extern 0 Sys => exact (jit_sys B H) : typeclass_instances.
Context {SB : SysBus} {HO : HostOps}.
#[local] Existing Instance lightning_jit.

(** ** The loop budget *)

Definition budget_is (n : Z) (e : rk65c02emu) : Prop := jit_loop_budget e = n.

(** The budget is the backend's own: no callback assigns it. *)
Class BudgetHost : Prop := {
  bh_translate n cb ctx v a : keeps (budget_is n) (host_mmu_translate cb ctx v a) (λ _, True);
  bh_fault n cb ctx v a c : keeps (budget_is n) (host_mmu_fault cb ctx v a c) (λ _, True);
  bh_on_stop n cb ctx r : keeps (budget_is n) (host_on_stop cb ctx r) (λ _, True);
  bh_device_read n f d off : keeps (budget_is n) (host_device_read f d off) (λ _, True);
  bh_device_write n f d off v : keeps (budget_is n) (host_device_write f d off v) (λ _, True);
  bh_tick n cb ctx : keeps (budget_is n) (host_tick cb ctx) (λ _, True);
  bh_idle_wait n cb ctx : keeps (budget_is n) (host_idle_wait cb ctx) (λ _, True)
}.
Context {BH : BudgetHost}.

Lemma budget_modify n f : (∀ e, jit_loop_budget (f e) = jit_loop_budget e) →
  keeps (budget_is n) (modify f) (λ _, True).
Proof. intros Hf. apply keeps_modify; [|done]. intros e He. unfold budget_is in *. by rewrite Hf. Qed.
Lemma budget_gets n {T} (f : rk65c02emu → T) : keeps (budget_is n) (gets f) (λ _, True).
Proof. by apply keeps_gets. Qed.
Lemma budget_get n : keeps (budget_is n) get (λ _, True).
Proof. intros e He. by split. Qed.
#[local] Hint Resolve budget_gets budget_get bh_translate : keeps.
#[local] Hint Extern 1 (keeps (budget_is _) (modify _) _) => apply budget_modify; done : keeps.

Lemma budget_translate n v a p : keeps (budget_is n) (rk65c02_mmu_translate_addr v a p) (λ _, True).
Proof. unfold rk65c02_mmu_translate_addr. keeps_auto. Qed.
#[local] Hint Resolve budget_translate : keeps.
Lemma budget_cached n v a : keeps (budget_is n) (rk65c02_mmu_translate_cached v a) (λ _, True).
Proof. unfold rk65c02_mmu_translate_cached. keeps_auto. Qed.
#[local] Hint Resolve budget_cached : keeps.
Lemma budget_paddr n v a : keeps (budget_is n) (jit_translate_paddr B H v a) (λ _, True).
Proof. unfold jit_translate_paddr. keeps_auto. Qed.
#[local] Hint Resolve budget_paddr : keeps.
Lemma budget_phys_hit n a : keeps (budget_is n) (phys_hit B H a) (λ _, True).
Proof. unfold phys_hit. keeps_auto. Qed.
#[local] Hint Resolve budget_phys_hit : keeps.
Lemma budget_note n a : keeps (budget_is n) (note_guest_write B H a) (λ _, True).
Proof. unfold note_guest_write, mod_jit. keeps_auto. Qed.

#[export] Instance budget_free n : FreePc (budget_is n).
Proof.
  split; [split|..].
  - intros e e' _ _ E He. unfold budget_is in *. congruence.
  - apply bh_translate.
  - apply bh_fault.
  - apply bh_on_stop.
  - apply bh_device_read.
  - apply bh_device_write.
  - apply budget_note.
  - intros e e' _ E He. unfold budget_is in *. congruence.
  - apply bh_tick.
  - apply bh_idle_wait.
Qed.

Context (upper : rk65c02emu → Z).

Lemma budget_bcd n v :
  keeps (budget_is n) (rk65c02_do_adc_bcd v) (λ _, True) ∧
  keeps (budget_is n) (rk65c02_do_sbc_bcd v) (λ _, True).
Proof.
  pose proof (frame_P_put (budget_is n)). pose proof (frame_P_test (budget_is n)).
  pose proof (frame_adjust_zn (budget_is n)).
  split; [unfold rk65c02_do_adc_bcd|unfold rk65c02_do_sbc_bcd]; unfold get_A, put_A; keeps_auto.
Qed.

Lemma budget_call n f args : keeps (budget_is n) (call B H upper f args) (λ _, True).
Proof.
  pose proof (frame_read_1 (budget_is n)). pose proof (frame_write_1 (budget_is n)).
  pose proof (free_exec (budget_is n)). pose proof (λ v, proj1 (budget_bcd n v)).
  pose proof (λ v, proj2 (budget_bcd n v)).
  unfold call, jit_mem_read_1, jit_bus_write_1, jit_exec_fallback. keeps_auto.
Qed.
#[local] Hint Resolve budget_call : keeps.

Lemma budget_node n nd m : label_free_node nd = true →
  keeps (budget_is n) (node_step B H upper nd m) (λ _, True).
Proof.
  destruct nd; intros Hq; try discriminate Hq; cbn [node_step];
    unfold load_node, store_node, alu, mod_jit, store_c, store_s, store_i,
      put_A, put_X, put_Y, put_SP, put_P, put_PC; keeps_auto.
  all: repeat case_match; simplify_eq; by apply budget_modify.
Qed.

(** Such code keeps the budget and does not jump to a label. *)
Definition no_goto (r : jit_exit * jit_mach) : Prop := match r.1 with Goto _ => False | _ => True end.

Lemma budget_code n skip c m : label_free c = true →
  keeps (budget_is n) (code_run B H upper skip c m) no_goto.
Proof.
  revert skip m. induction c as [|nd c IH]; intros skip m Hq; cbn [code_run].
  - destruct skip; [by apply keeps_ret|apply keeps_assert_fail].
  - cbn [label_free forallb] in Hq. apply andb_prop in Hq as [Hn Hq]. destruct skip; [|by apply IH].
    destruct nd; try discriminate Hn;
      try (eapply keeps_bind; [by apply budget_node|]; intros; by apply IH).
    + destruct (cond_holds _ _) as [[]|]; [by apply IH..|apply keeps_assert_fail].
    + destruct (cond_holds _ _) as [[]|]; [by apply keeps_ret|by apply IH|apply keeps_assert_fail].
Qed.

(** ** The guard of a loop *)

(** A jump goes forward and keeps the budget, or back and takes one unit of a
    budget that was above one. *)
Definition progress (k len : nat) (n : Z) (x : outcome (jit_exit * jit_mach) * rk65c02emu) : Prop :=
  match x.1 with
  | Ret (Fall, _) => jit_loop_budget x.2 = n
  | Ret (Goto t, _) =>
      (k < t < len)%nat ∧ jit_loop_budget x.2 = n ∨
      (t <= k)%nat ∧ (t < len)%nat ∧ 1 < s32 n ∧ jit_loop_budget x.2 = u32 (s32 n - 1)
  | _ => True
  end.

Lemma guard_word x : (s64 (s32 x - 1) <=? s64 0) = false → 1 < s32 x.
Proof.
  pose proof (s32_range x). rewrite s64_small by lia. change (s64 0) with 0. intros Hx%Z.leb_gt. lia.
Qed.

Lemma guard_progress s t k len m e : m_r0 m = LEmu → (t <= k)%nat → (t < len)%nat →
  progress k len (jit_loop_budget e)
    (code_run B H upper 0 (jit_emit_backedge_guard s ++ [jit_ijmp t]) m e).
Proof.
  intros Hm Hk Ht. destruct m as [r0 r1 r2 v0 v1 v2 a r]. cbn in Hm. subst r0.
  unfold jit_emit_backedge_guard. cbn [app code_run node_step].
  cbv [load_node store_node alu mod_jit load_i load_uc store_i store_c mbind M_bind mret M_ret
    gets modify reg_get reg_set cond_holds m_r0 m_r1 m_r2].
  cbn -[s32 s64 u64 u32].
  destruct (s64 _ <=? s64 0) eqn:Hg; [done|]. apply guard_word in Hg. cbn -[s32 s64 u64 u32].
  destruct (negb _); [done|]. cbn -[s32 s64 u64 u32].
  destruct (negb _); [done|]. cbn -[s32 s64 u64 u32].
  destruct (jit e); [|done]. cbn -[s32 s64 u64 u32]. right. auto.
Qed.

Lemma progress_keeps n k len skip c m e : label_free c = true → budget_is n e →
  progress k len n (code_run B H upper skip c m e).
Proof.
  intros Hq He. destruct (budget_code n skip c m Hq e He) as [Hb Hr]. unfold progress.
  destruct (code_run _ _ _ _ _ _ _) as [[[[] ?]| | |] ?]; try done. by destruct (Hr _ eq_refl).
Qed.

(** The taken path of a conditional branch. *)
Lemma taken_progress ctx a k m e : m_r0 m = LEmu →
  progress k (length (insn_addr ctx)) (jit_loop_budget e) (code_run B H upper 0
    ([ jit_movi JIT_R1 a; jit_stxi_s OFFSET_E_PC JIT_R0 JIT_R1 ] ++
     match target_index ctx a with
     | None => [ jit_bail jit_jmpi ]
     | Some t =>
         (if (t <=? k)%nat then jit_emit_backedge_guard (Z.of_nat (k - t + 1)) else []) ++
         [ jit_ijmp t ]
     end) m e).
Proof.
  intros Hm. destruct m as [r0 r1 r2 v0 v1 v2 ar r]. cbn in Hm. subst r0. cbn [app].
  erewrite run_step by reflexivity. erewrite run_step by reflexivity.
  destruct (target_index ctx a) as [t|] eqn:Ht; [|by rewrite (run_bail_if jit_jmpi true)].
  apply target_index_lt in Ht. destruct (Nat.leb_spec t k).
  - match goal with |- progress _ _ _ (_ ?e1) =>
      change (jit_loop_budget e) with (jit_loop_budget e1) end.
    by apply (guard_progress _ t).
  - left. cbn. split; [lia|done].
Qed.

Lemma branch_progress bi ctx k m e :
  progress k (length (insn_addr ctx)) (jit_loop_budget e)
    (code_run B H upper 0 (emit_branch bi ctx k) m e).
Proof.
  unfold emit_branch. destruct m as [r0 r1 r2 v0 v1 v2 ar r].
  destruct r0; [done| |done..]. cbn [app]. erewrite run_step by reflexivity.
  rewrite <- (app_nil_r (jit_either _ _ _)). set (m' := reg_set _ _ _).
  destruct (cond_holds (branch_cond bi) m') as [[]|] eqn:Hc.
  - rewrite (run_either _ _ _ _ _ _ _ Hc), app_nil_r. by apply taken_progress.
  - rewrite (run_either _ _ _ _ _ _ _ Hc).
    match goal with |- context [jit_branch jit_jmpi (length ?l)] => generalize l; intros taken end.
    unfold jit_emit_advance_pc. cbn [app]. do 3 (erewrite run_step by reflexivity). by rewrite run_jmp.
  - unfold jit_either. cbn [app code_run]. by rewrite Hc.
Qed.

Lemma insn_progress bi ctx k m e :
  progress k (length (insn_addr ctx)) (jit_loop_budget e)
    (code_run B H upper 0 (jit_emit_insn bi ctx k) m e).
Proof.
  destruct (tame_insn bi ctx k) as [->|[Hq _]%andb_prop]; [apply branch_progress|by apply progress_keeps].
Qed.

(** ** A block returns *)

Lemma s32_small x : 0 <= x < 2147483648 → s32 x = x.
Proof. intros Hx. unfold s32. rewrite u32_small by lia. case_match; lia. Qed.

Lemma length_insn_addrs a insns : length (insn_addrs a insns) = length insns.
Proof. revert a. induction insns; intros; simpl; auto. Qed.

(** The instructions left before the block returns: those to its end, and for
    every unit of the budget those of another pass. *)
Lemma block_loop_returns pc insns fuel k m e :
  0 <= jit_loop_budget e <= JIT_LOOP_BUDGET → (k <= length insns)%nat →
  (Z.to_nat (jit_loop_budget e) * length insns + (length insns - k) < fuel)%nat →
  (block_loop B H upper fuel (jit_emit_block pc insns) k m e).1 ≠ Ret false.
Proof.
  change JIT_LOOP_BUDGET with 256. revert k m e.
  induction fuel as [|fuel IH]; intros k m e Hb Hk Hf; [lia|]. cbn [block_loop].
  destruct (jit_emit_block pc insns !! k) as [c|] eqn:Hc; [|done].
  unfold jit_emit_block in Hc. rewrite list_lookup_imap in Hc.
  apply fmap_Some in Hc as (bi & Hl%lookup_lt_Some & ->).
  pose proof (insn_progress bi (mkCtx (insn_addrs pc insns)) k m e) as Hp.
  unfold mbind, M_bind, progress in *. cbn [insn_addr] in Hp. rewrite length_insn_addrs in Hp.
  destruct (code_run _ _ _ _ _ _ _) as [[[[| |t] m']| | |] e']; try done; cbn [fst snd] in Hp.
  - apply IH; [lia..|]. rewrite Hp. lia.
  - destruct Hp as [(Ht & Hp)|(Ht & Htl & Hg & Hp)].
    + apply IH; [lia..|]. rewrite Hp. lia.
    + rewrite s32_small in Hg, Hp by lia. rewrite u32_small in Hp by lia.
      apply IH; [lia..|]. rewrite Hp. 
      replace (Z.to_nat (jit_loop_budget e)) with (S (Z.to_nat (jit_loop_budget e - 1))) in Hf by lia.
      lia.
Qed.

Lemma block_returns pc insns e :
  0 <= jit_loop_budget e <= JIT_LOOP_BUDGET → (length insns <= JIT_BLOCK_MAX_INSNS)%nat →
  (block_run B H upper JIT_NATIVE_BOUND (jit_emit_block pc insns) e).1 ≠ Ret false.
Proof.
  intros Hb Hl. apply block_loop_returns; [done|lia|]. unfold JIT_NATIVE_BOUND.
  change JIT_LOOP_BUDGET with 256 in *. change JIT_BLOCK_MAX_INSNS with 64%nat in *.
  assert (Z.to_nat (jit_loop_budget e) <= 256)%nat by lia. nia.
Qed.

(** More fuel changes nothing once the block has returned. *)
Lemma block_loop_more fuel code k m e n :
  (block_loop B H upper fuel code k m e).1 ≠ Ret false →
  block_loop B H upper (fuel + n) code k m e = block_loop B H upper fuel code k m e.
Proof.
  revert k m e. induction fuel as [|fuel IH]; intros k m e Hr; [done|]. cbn [block_loop Nat.add] in *.
  destruct (code !! k) as [c|]; [|done]. unfold mbind, M_bind in *.
  destruct (code_run _ _ _ _ _ _ _) as [[[[| |t] m']| | |] e']; try done; by apply IH.
Qed.

(** C9: native code returns.  Whatever the instructions of a block and the
    state it is entered in, with the loop budget of the dispatcher its code
    leaves the block within [JIT_NATIVE_BOUND] instructions, and evaluating it
    with more fuel gives the same outcome and the same state. *)
Theorem native_block_returns pc insns e n :
  0 <= jit_loop_budget e <= JIT_LOOP_BUDGET → (length insns <= JIT_BLOCK_MAX_INSNS)%nat →
  (block_run B H upper JIT_NATIVE_BOUND (jit_emit_block pc insns) e).1 ≠ Ret false ∧
  block_run B H upper (JIT_NATIVE_BOUND + n) (jit_emit_block pc insns) e =
    block_run B H upper JIT_NATIVE_BOUND (jit_emit_block pc insns) e.
Proof.
  intros Hb Hl. pose proof (block_returns pc insns e Hb Hl) as Hr.
  split; [exact Hr|]. by apply block_loop_more.
Qed.

End Loop.

(** ** Native code leaves the emulator well-formed *)

Section NativeInvariant.
Context (B H : Type).
#[local] Hint Extern 0 Sys => exact (jit_sys B H) : typeclass_instances.
Context {SB : SysBus} {BL : BusLaws sys_bus} {HO : HostOps} {HT : HostTyped}.
Context {JH : JitHost B H} {BH : BudgetHost B H}.
#[local] Existing Instance lightning_jit.
Context (upper : rk65c02emu → Z).
#[local] Abbreviation ready := (ready B H).

Lemma ready_set_regs r e : ready e → regs_ok r → ready (set_regs r e).
Proof. intros [[] ?] Hr. by split. Qed.

Lemma ready_mem_read a : word a → keeps ready (rk65c02_mem_read_1 a) (λ _, True).
Proof.
  intros Ha. apply ready_both; [eapply keeps_weaken; [by apply keeps_read|done]|].
  apply frame_read_1. apply _.
Qed.
Lemma ready_mem_write a v : word a → byte v → keeps ready (rk65c02_mem_write_1 a v) (λ _, True).
Proof.
  intros Ha Hv. apply ready_both; [by apply keeps_write|]. apply frame_write_1. apply _.
Qed.
Lemma ready_bcd v :
  keeps ready (rk65c02_do_adc_bcd v) (λ _, True) ∧ keeps ready (rk65c02_do_sbc_bcd v) (λ _, True).
Proof.
  split; intros e He; destruct (do_bcd_regs v e) as [(r&Hr&E) (r'&Hr'&E')];
    try (by destruct He as [[] _]).
  - rewrite E. split; [by apply ready_set_regs|done].
  - rewrite E'. split; [by apply ready_set_regs|done].
Qed.

Lemma ready_call f args : keeps ready (call B H upper f args) (λ _, True).
Proof.
  pose proof (λ v, proj1 (ready_bcd v)). pose proof (λ v, proj2 (ready_bcd v)).
  pose proof (ready_exec B H). pose proof (λ a, ready_mem_read (u16 a) (u16_word a)).
  pose proof (λ a v, ready_mem_write (u16 a) (u8 v) (u16_word a) (u8_byte v)).
  pose proof (λ T, @ready_gets B H SB T).
  unfold call, jit_mem_read_1, jit_bus_write_1, jit_exec_fallback. keeps_auto.
Qed.

Lemma ready_stores f v w :
  store_c B H f v = Some w ∨ store_s B H f v = Some w ∨ store_i B H f v = Some w →
  keeps ready w (λ _, True).
Proof.
  pose proof (u8_byte v). pose proof (u16_word v).
  assert (∀ g, (∀ e, jit (g e) = jit e) → keeps emu_ok (modify g) (λ _, True) →
    keeps ready (modify g) (λ _, True)) as Hm.
  { intros g Hg He. by apply ready_both; [|apply shrunk_jit_modify]. }
  intros Hw. destruct f; destruct Hw as [[= <-]|[[= <-]|[= <-]]]; (apply Hm; [done|]);
    first [by apply keeps_A_put|by apply keeps_X_put|by apply keeps_Y_put|by apply keeps_SP_put
      |by apply keeps_P_put|by apply keeps_PC_put|keeps_field].
Qed.

Lemma ready_load d s ld m : keeps ready (load_node B H d s ld m) (λ _, True).
Proof.
  pose proof (λ T, @ready_gets B H SB T). unfold load_node. keeps_auto.
Qed.
Lemma ready_store d s st m : (∀ v w, st v = Some w → keeps ready w (λ _, True)) →
  keeps ready (store_node B H d s st m) (λ _, True).
Proof.
  intros Hs. unfold store_node. destruct (reg_get d m), (reg_get s m); try apply keeps_assert_fail.
  destruct (st z) as [w|] eqn:E; [|apply keeps_assert_fail].
  apply keeps_seq; [by eapply Hs|intros []; by apply keeps_ret].
Qed.

Lemma ready_node nd m : keeps ready (node_step B H upper nd m) (λ _, True).
Proof.
  pose proof (λ T, @ready_gets B H SB T). pose proof ready_load. pose proof ready_call.
  destruct nd; cbn [node_step]; unfold alu;
    try (apply ready_store; intros; eapply ready_stores; eauto; fail); keeps_auto.
  apply ready_mod_jit. intros j Hj. same_cache j.
Qed.

Lemma ready_code skip c m : keeps ready (code_run B H upper skip c m) (λ _, True).
Proof.
  revert skip m. induction c as [|nd c IH]; intros skip m; cbn [code_run]; [by destruct skip; keeps_auto|].
  destruct skip; [|apply IH].
  destruct nd; try (eapply keeps_bind; [apply ready_node|intros; apply IH]);
    [..|by apply keeps_ret]; (destruct (cond_holds _ _) as [[]|]; [..|apply keeps_assert_fail]);
    first [by apply keeps_ret|apply IH].
Qed.

Lemma ready_block fuel code k m : keeps ready (block_loop B H upper fuel code k m) (λ _, True).
Proof.
  revert k m. induction fuel as [|fuel IH]; intros k m; cbn [block_loop]; [by apply keeps_ret|].
  destruct (code !! k) as [c|]; [|by apply keeps_ret].
  eapply keeps_bind; [apply ready_code|]. intros [[| |t] m'] _; [apply IH|by apply keeps_ret|apply IH].
Qed.

End NativeInvariant.

(** Code that runs as lightning documents keeps the emulator and the cache
    well-formed: the hypothesis of [JitInvariant.run_jit_cache_exact]. *)
#[export] Instance lightning_native_ok (B H : Type) {SB : @SysBus (jit_sys B H)}
    {HO : @HostOps (jit_sys B H)} {LI : @Lightning (jit_sys B H)} {BL : BusLaws (@sys_bus (jit_sys B H))}
    {JH : JitHost B H} {BH : BudgetHost B H} {HT : @HostTyped (jit_sys B H) _ _ _}
    {LL : LightningLaws B H} : NativeOk B H.
Proof.
  intros pc insns e Hl Hd Hb He. destruct (native_runs (jit_emit_block pc insns)) as [upper Hrun].
  rewrite Hrun.
  - apply (ready_after B H); [by destruct (ready_block B H upper JIT_NATIVE_BOUND (jit_emit_block pc insns)
      0 mach_entry e He)|]. intros r. by apply keeps_ret.
  - refine (block_returns B H upper pc insns e _ Hl). rewrite Hb. unfold JIT_LOOP_BUDGET. lia.
Qed.
