(* ===== verification/JitApi.v ===== *)
(** The whole public API on an emulator linked with the JIT backend.

    [Api.reachable] with the functions of [jit.c]: a host may enable the JIT,
    run, step, flush, change the mapping and write memory in any order, and what
    [JitInvariant] proves of one run holds of every state it can reach. *)
From stdpp Require Import base numbers list gmap strings.
From S2P Require Import Prelude Types Isa BusSpec State Interfaces Mmu Instruction Emulation.
From S2P Require Import Disasm Debug Exec Invariant Api Frames JitCache JitEmit Jit JitNative JitSpec.
From S2P Require Import JitInvariant JitExact JitShape JitLoop.

Section JitApi.
Context (B H : Type).
#[local] Hint Extern 0 Sys => exact (jit_sys B H) : typeclass_instances.
Context {SB : SysBus} {BL : BusLaws sys_bus} {HO : HostOps} {HT : HostTyped}.
#[local] Existing Instance lightning_jit.
Context {JH : JitHost B H} {BH : BudgetHost B H} {LI : Lightning} {LL : LightningLaws B H}.

Definition lightning_backend : backend :=
  mkBackend (rk65c02_jit_enable B H) (rk65c02_run_jit B H) (rk65c02_jit_stats_reset B H).

(** ** The cache under the calls that do not run the guest *)

Lemma jit_ok_mod f : (∀ j, cache_ok j → cache_ok (f j)) → keeps (jit_ok B H) (mod_jit B H f) (λ _, True).
Proof.
  intros Hf. apply keeps_modify; [|done]. intros e He j. cbn. destruct (jit e) as [j0|] eqn:Ej; [|done].
  intros [= <-]. by apply Hf, He.
Qed.
Lemma jit_ok_modify f : (∀ e, jit (f e) = jit e) → keeps (jit_ok B H) (modify f) (λ _, True).
Proof. apply shrunk_jit_modify. Qed.
Lemma jit_ok_gets {T} (f : rk65c02emu → T) : keeps (jit_ok B H) (gets f) (λ _, True).
Proof. by apply keeps_gets. Qed.
Lemma jit_ok_get : keeps (jit_ok B H) get (λ _, True).
Proof. intros e He. by split. Qed.
#[local] Hint Resolve jit_ok_gets jit_ok_get : keeps.
#[local] Hint Extern 1 (keeps (jit_ok B H) (modify _) _) => apply jit_ok_modify; done : keeps.

Lemma jit_ok_invalidate f : (∀ j, cache_ok j → cache_ok (f j)) →
  keeps (jit_ok B H) (invalidate_with B H f) (λ _, True).
Proof.
  intros Hf. unfold invalidate_with. eapply keeps_bind; [apply jit_ok_gets|]. intros j _.
  destruct j; [|by apply keeps_ret]. eapply (keeps_bind _ _ _ (λ _, True)).
  - unfold jit_invalidate_deferred. eapply keeps_bind; [apply jit_ok_get|]. intros e _.
    case_match; [by apply keeps_ret|]. apply keeps_seq; [|intros []; keeps_auto].
    apply jit_ok_mod. intros j0 Hj0. same_cache j0.
  - intros d _. destruct d; [by apply keeps_ret|by apply jit_ok_mod].
Qed.
Lemma jit_ok_flush : keeps (jit_ok B H) (invalidate_with B H jit_backend_flush) (λ _, True).
Proof. apply jit_ok_invalidate, flush_ok. Qed.
Lemma jit_ok_code_vpage p : keeps (jit_ok B H)
  (invalidate_with B H (λ j, jit_invalidate_blocks_for_code_page j p)) (λ _, True).
Proof. apply jit_ok_invalidate. intros j Hj. by destruct (invalidate_code_page_ok j p Hj). Qed.
Lemma jit_ok_magic m : keeps (jit_ok B H) m (λ _, True) → keeps (jit_ok B H) (when_magic B H m) (λ _, True).
Proof. intros Hm. unfold when_magic. keeps_auto. Qed.
#[local] Hint Resolve jit_ok_flush jit_ok_code_vpage jit_ok_magic : keeps.

Lemma jit_ok_refresh : keeps (jit_ok B H) rk65c02_mmu_refresh_accessors (λ _, True).
Proof. unfold rk65c02_mmu_refresh_accessors. keeps_auto. Qed.
Lemma jit_ok_tlb_flush : keeps (jit_ok B H) rk65c02_mmu_tlb_flush (λ _, True).
Proof. unfold rk65c02_mmu_tlb_flush. keeps_auto. Qed.
Lemma jit_ok_epoch : keeps (jit_ok B H) mmu_epoch_bump (λ _, True).
Proof. unfold mmu_epoch_bump. keeps_auto. Qed.
Lemma jit_ok_mark p : keeps (jit_ok B H) (mark_vpage p) (λ _, True).
Proof. unfold mark_vpage. keeps_auto. Qed.
Lemma jit_ok_when m : keeps (jit_ok B H) m (λ _, True) → keeps (jit_ok B H) (when_jit m) (λ _, True).
Proof. intros Hm. unfold when_jit. keeps_auto. Qed.
#[local] Hint Resolve jit_ok_refresh jit_ok_tlb_flush jit_ok_epoch jit_ok_mark jit_ok_when : keeps.
#[local] Hint Extern 1 (keeps _ (mfor _ _) _) => apply keeps_mfor; intros : keeps.

(** ** The mapping *)

Lemma jit_ok_mmu_set tr trc fl flc en idf :
  keeps (jit_ok B H) (rk65c02_mmu_set tr trc fl flc en idf) (λ _, True).
Proof. unfold rk65c02_mmu_set. keeps_auto. Qed.
Lemma jit_ok_mmu_clear : keeps (jit_ok B H) rk65c02_mmu_clear (λ _, True).
Proof. unfold rk65c02_mmu_clear. keeps_auto. Qed.
Lemma jit_ok_mark_vrange a b : keeps (jit_ok B H) (rk65c02_mmu_mark_changed_vrange a b) (λ _, True).
Proof. unfold rk65c02_mmu_mark_changed_vrange. keeps_auto. Qed.
Lemma jit_ok_end_update : keeps (jit_ok B H) rk65c02_mmu_end_update (λ _, True).
Proof. unfold rk65c02_mmu_end_update, rk65c02_mmu_tlb_flush_vpage. keeps_auto. Qed.
#[local] Hint Resolve jit_ok_mmu_set jit_ok_mmu_clear jit_ok_mark_vrange jit_ok_end_update : keeps.

(** ** Running *)

Lemma jit_ok_on_stop : keeps (jit_ok B H) rk65c02_maybe_call_on_stop (λ _, True).
Proof.
  unfold rk65c02_maybe_call_on_stop. eapply keeps_bind; [apply jit_ok_get|]. intros e _.
  case_match; [|by apply keeps_ret]. apply keeps_shrunk. intros. by apply jh_on_stop.
Qed.
Lemma jit_ok_exec : keeps (jit_ok B H) rk65c02_exec (λ _, True).
Proof. apply free_exec. apply _. Qed.
Lemma jit_ok_poll : keeps (jit_ok B H) rk65c02_poll_host_controls (λ _, True).
Proof. apply free_poll. apply _. Qed.
#[local] Hint Resolve jit_ok_exec jit_ok_poll : keeps.
Lemma jit_ok_step_loop n : keeps (jit_ok B H) (step_loop n) (λ _, True).
Proof. induction n as [|n IH]; cbn [step_loop]; keeps_auto. Qed.
#[local] Hint Resolve jit_ok_on_stop jit_ok_step_loop : keeps.
Lemma jit_ok_step n : keeps (jit_ok B H) (rk65c02_step n) (λ _, True).
Proof. unfold rk65c02_step. keeps_auto. Qed.
#[local] Hint Resolve jit_ok_step : keeps.

(** Enabling creates an empty cache once; the statistics are no part of it. *)
Lemma jit_ok_enable en : keeps (jit_ok B H) (rk65c02_jit_enable B H en) (λ _, True).
Proof.
  unfold rk65c02_jit_enable. destruct en; [|keeps_auto].
  eapply keeps_bind; [apply jit_ok_gets|]. intros j _. apply keeps_seq; [|intros []; keeps_auto].
  destruct j; [by apply keeps_ret|]. apply keeps_modify; [|done]. intros e _ j. cbn.
  intros [= <-]. apply backend_create_ok.
Qed.
Lemma jit_ok_stats_reset : keeps (jit_ok B H) (rk65c02_jit_stats_reset B H) (λ _, True).
Proof.
  unfold rk65c02_jit_stats_reset. apply jit_ok_magic, jit_ok_mod. intros j Hj. same_cache j.
Qed.

Lemma jit_ok_breakpoint_add a : keeps (jit_ok B H) (debug_breakpoint_add a) (λ _, True).
Proof. unfold debug_breakpoint_add. keeps_auto. Qed.
Lemma jit_ok_breakpoint_remove a : keeps (jit_ok B H) (debug_breakpoint_remove a) (λ _, True).
Proof. unfold debug_breakpoint_remove. keeps_auto. Qed.
#[local] Hint Resolve jit_ok_enable jit_ok_stats_reset jit_ok_breakpoint_add jit_ok_breakpoint_remove : keeps.

(** Every call but a run. *)
Lemma jit_ok_api c : (∀ fuel, c ≠ ApiStart fuel) →
  keeps (jit_ok B H) (api_run lightning_backend c) (λ _, True).
Proof.
  intros Hc. pose proof (free_irq (jit_ok B H)).
  pose proof (frame_fetch_1 (jit_ok B H)). pose proof (frame_read_1 (jit_ok B H)).
  pose proof (frame_write_1 (jit_ok B H)). pose proof (frame_bus_read (jit_ok B H)).
  pose proof (frame_bus_write (jit_ok B H)). pose proof (frame_bus_read_phys (jit_ok B H)).
  pose proof (frame_bus_write_phys (jit_ok B H)). pose proof (frame_push (jit_ok B H)).
  pose proof (frame_pop (jit_ok B H)). pose proof (frame_stop_error (jit_ok B H)).
  destruct c; cbn [api_run lightning_backend be_jit_enable be_stats_reset]; try (by destruct (Hc fuel));
    unfold rk65c02_assert_irq, rk65c02_deassert_irq, rk65c02_request_stop, rk65c02_on_stop_set,
      rk65c02_on_stop_clear, rk65c02_tick_set, rk65c02_tick_clear, rk65c02_idle_wait_set,
      rk65c02_idle_wait_clear, debug_trace_set, rk65c02_panic,
      rk65c02_mmu_tlb_set, rk65c02_mmu_tlb_flush_vpage, rk65c02_mmu_begin_update,
      rk65c02_mmu_mark_changed_vpage; keeps_auto.
Qed.

(** ** Every reachable state *)

Lemma ready_start fuel : keeps (ready B H) (rk65c02_start (rk65c02_run_jit B H) fuel) (λ _, True).
Proof.
  pose proof (ready_run_jit B H fuel). pose proof (ready_interp B H fuel). pose proof (ready_poll B H).
  assert (keeps (ready B H) rk65c02_mmu_refresh_accessors (λ _, True)).
  { apply ready_both; [apply keeps_refresh|apply jit_ok_refresh]. }
  assert (keeps (ready B H) rk65c02_maybe_call_on_stop (λ _, True)).
  { apply ready_both; [apply keeps_maybe_call_on_stop|apply jit_ok_on_stop]. }
  assert (∀ f, keeps emu_ok (modify f) (λ _, True) → (∀ e, jit (f e) = jit e) →
    keeps (ready B H) (modify f) (λ _, True)) as Hm by (intros; apply ready_both; [done|by apply jit_ok_modify]).
  unfold rk65c02_start. repeat (apply keeps_seq; [first [apply Hm; [keeps_field|done]|done]|intros []]).
  eapply keeps_bind; [apply (ready_gets B H)|]. intros cj _.
  apply keeps_seq; [destruct cj; [done|]; apply keeps_seq; [apply Hm; [keeps_field|done]|by intros []]|intros []].
  apply keeps_seq; [done|intros []]. eapply keeps_bind; [apply (ready_get B H)|]. intros e _.
  case_match; [done|by apply keeps_ret].
Qed.

Lemma ready_api c : api_typed c → keeps (ready B H) (api_run lightning_backend c) (λ _, True).
Proof.
  intros Hc. destruct (api_start_or_not c) as [[fuel ->]|Hn]; [apply ready_start|].
  apply ready_both; [|by apply jit_ok_api]. apply api_run_keeps; [..|done|done].
  - intros en. cbn. unfold rk65c02_jit_enable. keeps_auto.
  - cbn. unfold rk65c02_jit_stats_reset, when_magic. pose proof (keeps_mod_jit B H). keeps_auto.
Qed.

(** C12: the bookkeeping of the JIT backend is exact in every state a host can
    bring about.  Whatever sequence of API calls a host makes on a new instance
    linked with the JIT (enabling and disabling it, running, stepping, flushing,
    writing memory, changing the mapping; callbacks included), whenever a call
    returns the instance is well-typed and the cache, if there is one, exact:
    every reference count is the number of live blocks covering its address or
    page (no count wraps or is clamped), the number of active blocks is right
    and within its cap, and every compiled block lies within one page. *)
Theorem jit_reachable_exact junk b e : regs_ok (regs junk) → b_ok b →
  reachable lightning_backend junk b e → emu_ok e ∧ ∀ j, jit e = Some j → cache_ok j.
Proof.
  intros Hr Hb Hre. cut (ready B H e); [done|]. revert Hre. apply reachable_keeps; [|exact ready_api].
  split; [by apply init_ok|]. intros j. by cbn.
Qed.

End JitApi.
