(* ===== verification/JitErase.v ===== *)
(** The core does not depend on the JIT backend.

    On memory without an MMU and without callbacks, a computation of the core
    gives the same result and the same state with and without a JIT backend,
    but for the backend itself: what the interpreter proofs say of an instance
    without a JIT holds of one that has one. *)
From stdpp Require Import base numbers list gmap strings.
From S2P Require Import Prelude Types Isa BusSpec State Interfaces Mmu Instruction Emulation.
From S2P Require Import Disasm Debug Exec JitCache JitEmit Jit JitExact.

Section Erase.
Context (B H : Type).
#[local] Hint Extern 0 Sys => exact (jit_sys B H) : typeclass_instances.
Context {SB : SysBus} {BL : BusLaws sys_bus} {HO : HostOps}.
#[local] Existing Instance lightning_jit.

(** The instance without its backend. *)
Definition erase (e : rk65c02emu) : rk65c02emu := set_jit None (set_use_jit false e).

(** The MMU is off or the identity, no callback is registered and no device
    calls back. *)
Record direct (e : rk65c02emu) : Prop := {
  d_read : mem_read_1_fn e = mem_direct;
  d_write : mem_write_1_fn e = mem_direct;
  d_accessors : accessors_for e = mem_direct;
  d_stop : on_stop e = None;
  d_tick : tick e = None;
  d_idle : idle_wait e = None;
  d_nohost : ∀ a, b_host (bus e) a = None
}.

(** ** Noting a store *)

Lemma direct_cached v a e : direct e → rk65c02_mmu_translate_cached v a e = (Ret (Some v), e).
Proof.
  intros [_ _ Ha _ _ _ _]. unfold rk65c02_mmu_translate_cached. erewrite bind_Ret by reflexivity.
  unfold accessors_for in Ha. by destruct (mmu_enabled e), (mmu_identity_active e).
Qed.

Lemma direct_paddr v a e : direct e → ∃ p, jit_translate_paddr B H v a e = (Ret p, e).
Proof.
  intros He. unfold jit_translate_paddr. erewrite bind_Ret by by apply direct_cached. by eexists.
Qed.

Lemma direct_phys_hit a e : direct e → ∃ h, phys_hit B H a e = (Ret h, e).
Proof.
  intros He. unfold phys_hit. erewrite bind_Ret by reflexivity. cbv beta.
  destruct (jit e) as [j|] eqn:Ej; [|by exists None]. destruct (_ =? 0); [by exists None|].
  destruct (direct_paddr a RK65C02_MMU_WRITE e He) as [p Ep]. erewrite bind_Ret by exact Ep.
  erewrite bind_Ret by reflexivity. by eexists.
Qed.

(** The state after a store to compiled code has been noted. *)
Definition noted (w : pending_write_t) (j : rk65c02_jit) (e : rk65c02emu) : rk65c02emu :=
  let j1 := put_stats (stats_write_event (stats j)) j in
  if in_jit_run e then set_jit (Some (record_write w j1)) (set_use_jit false e)
  else set_jit (Some (apply_write j1 w)) e.

Lemma direct_note a e j : direct e → jit e = Some j → magic j = JIT_MAGIC →
  (note_guest_write B H a e = (Ret tt, e) ∧ (active_blocks j = 0 ∨
     arr_get (compiled_page_refcnt j) (a ≫ 8) = 0 ∨ arr_get (covered_addr_refcnt j) a = 0)) ∨
  (∃ w, pw_addr w = a ∧ note_guest_write B H a e = (Ret tt, noted w j e)).
Proof.
  intros He Ej Hm. unfold note_guest_write. erewrite bind_Ret by reflexivity. cbv beta.
  rewrite Ej, Hm, Z.eqb_refl. cbn [negb orb].
  destruct (Z.eqb_spec (active_blocks j) 0) as [Hz|_]; [by left; auto|].
  cbv zeta. destruct (direct_phys_hit a e He) as [h Eh]. erewrite bind_Ret by exact Eh.
  destruct (negb _ && negb _) eqn:Eskip.
  { left. split; [done|]. apply andb_true_iff in Eskip as [Ev _].
    rewrite negb_true_iff, andb_false_iff, !negb_false_iff, !Z.eqb_eq in Ev. tauto. }
  right. exists (mkPending a (bool_decide (is_Some h)) (default 0 h)). split; [done|].
  unfold noted, mod_jit, modify, get, mbind, M_bind. cbn. rewrite Ej. cbn. by destruct (in_jit_run e).
Qed.

Lemma note_erase a e : direct e →
  ∃ e', note_guest_write B H a e = (Ret tt, e') ∧ erase e' = erase e ∧ direct e'.
Proof.
  intros He. destruct (jit e) as [j|] eqn:Ej.
  2: { exists e. unfold note_guest_write. erewrite bind_Ret by reflexivity. cbv beta. by rewrite Ej. }
  destruct (decide (magic j = JIT_MAGIC)) as [Hm|Hm].
  2: { exists e. unfold note_guest_write. erewrite bind_Ret by reflexivity. cbv beta. rewrite Ej.
       by rewrite (proj2 (Z.eqb_neq _ _) Hm). }
  destruct (direct_note a e j He Ej Hm) as [[E _]|(w&_&E)]; [by exists e|].
  exists (noted w j e). split; [exact E|]. destruct He. unfold noted. by destruct (in_jit_run e).
Qed.

(** ** Obliviousness *)

Definition oblivious {T} (p : M T) : Prop := ∀ e, direct e →
  p (erase e) = ((p e).1, erase (p e).2) ∧ direct (p e).2.

Lemma obl_ret {T} (a : T) : oblivious (mret a).
Proof. done. Qed.
Lemma obl_longjmp {T} : oblivious (longjmp (T := T)).
Proof. done. Qed.
Lemma obl_assert_fail {T} : oblivious (assert_fail (T := T)).
Proof. done. Qed.
Lemma obl_no_fuel {T} : oblivious (no_fuel (T := T)).
Proof. done. Qed.

Lemma obl_bind {T U} (p : M T) (k : T → M U) :
  oblivious p → (∀ a, oblivious (k a)) → oblivious (x ← p; k x).
Proof.
  intros Hp Hk e He. destruct (Hp e He) as [E He1]. unfold mbind, M_bind. rewrite E.
  destruct (p e) as [[a| | |] e1]; cbn [fst snd] in *; [|done..]. by apply Hk.
Qed.

Lemma obl_gets {T} (f : rk65c02emu → T) : (∀ e, f (erase e) = f e) → oblivious (gets f).
Proof. intros Hf e He. split; [|done]. unfold gets. by rewrite Hf. Qed.

Lemma obl_get {T} (k : rk65c02emu → M T) : (∀ e, k (erase e) = k e) →
  (∀ x, direct x → oblivious (k x)) → oblivious (x ← get; k x).
Proof.
  intros Hk Ho e He. destruct (Ho e He e He) as [E He1]. unfold mbind, M_bind, get. cbn. by rewrite Hk.
Qed.

Lemma obl_modify f : (∀ e, f (erase e) = erase (f e)) → (∀ e, direct e → direct (f e)) →
  oblivious (modify f).
Proof. intros H1 H2 e He. split; [|by apply H2]. unfold modify. by rewrite H1. Qed.

Ltac obl_step :=
  lazymatch goal with
  | |- oblivious (mret _) => apply obl_ret
  | |- oblivious longjmp => apply obl_longjmp
  | |- oblivious assert_fail => apply obl_assert_fail
  | |- oblivious no_fuel => apply obl_no_fuel
  | |- oblivious (mbind _ get) => apply obl_get; [reflexivity|intros ? ?]
  | |- oblivious (mbind _ _) => apply obl_bind; [|intros]
  | |- oblivious (gets _) => apply obl_gets; reflexivity
  | |- oblivious (modify _) => apply obl_modify; [reflexivity|intros ? []; by split]
  | Hx : direct ?x |- oblivious (match on_stop ?x with _ => _ end) => rewrite (d_stop x Hx)
  | Hx : direct ?x |- oblivious (match tick ?x with _ => _ end) => rewrite (d_tick x Hx)
  | Hx : direct ?x |- oblivious (match idle_wait ?x with _ => _ end) => rewrite (d_idle x Hx)
  | |- oblivious (if ?b then _ else _) => destruct b
  | |- oblivious (match ?x with _ => _ end) => destruct x
  | |- oblivious _ => solve [eauto with oblivious]
  end.
Ltac obl := repeat obl_step.

Lemma obl_bus_read a : oblivious (core_bus_read_1 a).
Proof.
  intros e []. unfold core_bus_read_1, get, modify, mbind, M_bind, mret, M_ret.
  change (bus (erase e)) with (bus e). pose proof (b_read_host (bus e) a) as Hh.
  destruct (b_read (bus e) a) as [v b]. rewrite d_nohost0. split; [done|]. split; try done.
  intros x. etransitivity; [exact (Hh x)|apply d_nohost0].
Qed.

Lemma direct_read_1 a e : direct e → rk65c02_mem_read_1 a e = core_bus_read_1 a e.
Proof.
  intros [Hr _ _ _ _ _ _]. unfold rk65c02_mem_read_1. erewrite bind_Ret by reflexivity. cbv beta. by rewrite Hr.
Qed.
Lemma direct_fetch_1 a e : direct e → rk65c02_mem_fetch_1 a e = core_bus_read_1 a e.
Proof.
  intros [Hr _ _ _ _ _ _]. unfold rk65c02_mem_fetch_1. erewrite bind_Ret by reflexivity. cbv beta. by rewrite Hr.
Qed.
Lemma direct_erase e : direct e → direct (erase e).
Proof. intros []. by split. Qed.

Lemma obl_read a : oblivious (rk65c02_mem_read_1 a).
Proof.
  intros e He. rewrite !direct_read_1 by auto using direct_erase. by apply obl_bus_read.
Qed.
Lemma obl_fetch a : oblivious (rk65c02_mem_fetch_1 a).
Proof.
  intros e He. rewrite !direct_fetch_1 by auto using direct_erase. by apply obl_bus_read.
Qed.

(** What a store does: the bus is written, then the store is noted. *)
Definition stored (a v : Z) (e : rk65c02emu) : rk65c02emu := set_bus (b_write (bus e) a v) e.

Lemma direct_write_1 a v e : direct e → rk65c02_mem_write_1 a v e =
  match jit e with None => (Ret tt, stored a v e) | Some _ => note_guest_write B H a (stored a v e) end.
Proof.
  intros [_ Hw _ _ _ _ Hn]. unfold rk65c02_mem_write_1. erewrite bind_Ret by reflexivity. cbv beta.
  rewrite Hw. cbn [call_mem_write_fn].
  assert (rk65c02_mem_write_direct a v RK65C02_MMU_WRITE e = (Ret tt, stored a v e)) as Ew.
  { unfold rk65c02_mem_write_direct, core_bus_write_1. do 2 erewrite bind_Ret by reflexivity.
    by rewrite Hn. }
  erewrite bind_Ret by exact Ew.
  erewrite bind_Ret by reflexivity. cbn [jit stored set_bus]. by destruct (jit e).
Qed.

Lemma direct_stored a v e : direct e → direct (stored a v e).
Proof. intros []. split; try done. intros x. cbn. rewrite b_write_host. done. Qed.

Lemma obl_write a v : oblivious (rk65c02_mem_write_1 a v).
Proof.
  intros e He. rewrite !direct_write_1 by auto using direct_erase. cbn [jit erase set_jit].
  pose proof (direct_stored a v e He) as Hs.
  destruct (jit e); [|done]. destruct (note_erase a _ Hs) as (e'&E&Ee&Hd). rewrite E. cbn [fst snd].
  split; [|done]. by rewrite Ee.
Qed.

Create HintDb oblivious.
#[local] Hint Resolve obl_read obl_fetch obl_write : oblivious.

(** ** The core *)

Lemma obl_stop_error : oblivious emu_stop_error.
Proof. unfold emu_stop_error, rk65c02_maybe_call_on_stop. obl. Qed.
#[local] Hint Resolve obl_stop_error : oblivious.
Lemma obl_read_pointer lo hi : oblivious (read_pointer lo hi).
Proof. unfold read_pointer. obl. Qed.
#[local] Hint Resolve obl_read_pointer : oblivious.
Lemma obl_data_address id i : oblivious (instruction_data_address id i).
Proof. unfold instruction_data_address, rk65c02_panic, get_X, get_Y. obl. Qed.
#[local] Hint Resolve obl_data_address : oblivious.
Lemma obl_data_read id i : oblivious (instruction_data_read_1 id i).
Proof. unfold instruction_data_read_1, get_A. obl. Qed.
Lemma obl_data_write id i v : oblivious (instruction_data_write_1 id i v).
Proof. unfold instruction_data_write_1, put_A, rk65c02_panic. obl. Qed.
Lemma obl_push v : oblivious (stack_push v).
Proof. unfold stack_push, get_SP, put_SP. obl. Qed.
Lemma obl_pop : oblivious stack_pop.
Proof. unfold stack_pop, get_SP, put_SP. obl. Qed.
Lemma obl_P_put m b : oblivious (P_put m b).
Proof. unfold P_put, P_set, P_clear, get_P, put_P. obl. Qed.
Lemma obl_P_test m : oblivious (P_test m).
Proof. unfold P_test, get_P. obl. Qed.
#[local] Hint Resolve obl_data_read obl_data_write obl_push obl_pop obl_P_put obl_P_test : oblivious.
Lemma obl_adjust_zn v : oblivious (adjust_zn v).
Proof.
  unfold adjust_zn, instruction_status_adjust_zero, instruction_status_adjust_negative. obl.
Qed.
Lemma obl_branch o : oblivious (program_counter_branch o).
Proof. unfold program_counter_branch, get_PC, put_PC. obl. Qed.
Lemma obl_increment id : oblivious (program_counter_increment id).
Proof. unfold program_counter_increment, get_PC, put_PC. obl. Qed.
#[local] Hint Resolve obl_adjust_zn obl_branch obl_increment : oblivious.
Lemma obl_bit_branch i : oblivious (bit_branch i).
Proof. unfold bit_branch, get_PC, put_PC. obl. Qed.
Lemma obl_irq : oblivious rk65c02_irq.
Proof. unfold rk65c02_irq, P_set, P_clear, get_PC, put_PC, get_P, put_P. obl. Qed.
#[local] Hint Resolve obl_bit_branch obl_irq : oblivious.

Lemma obl_call_emul f id i : oblivious (call_emul f id i).
Proof.
  destruct f; cbn [call_emul];
    cbv delta [emul_adc emul_and emul_asl emul_bbr0 emul_bbr1 emul_bbr2 emul_bbr3 emul_bbr4
      emul_bbr5 emul_bbr6 emul_bbr7 emul_bbs0 emul_bbs1 emul_bbs2 emul_bbs3 emul_bbs4 emul_bbs5
      emul_bbs6 emul_bbs7 emul_bbr emul_bbs emul_bit branch_if emul_bcc emul_bcs
      emul_beq emul_bmi emul_bne emul_bpl emul_bra emul_brk emul_bvc emul_bvs emul_clc emul_cld
      emul_cli emul_clv compare_with emul_cmp emul_cpx emul_cpy emul_dec emul_dex emul_dey
      emul_eor emul_inc emul_inx emul_iny emul_jmp emul_jsr emul_lda emul_ldx emul_ldy emul_lsr
      emul_nop emul_ora emul_pha emul_php emul_phx emul_phy emul_pla status_from_stack emul_plp
      emul_plx emul_ply emul_rti emul_rts emul_rmb0 emul_rmb1 emul_rmb2 emul_rmb3 emul_rmb4
      emul_rmb5 emul_rmb6 emul_rmb7 emul_rmb emul_rol emul_ror emul_sbc emul_sed
      emul_sec emul_sei emul_smb0 emul_smb1 emul_smb2 emul_smb3 emul_smb4 emul_smb5 emul_smb6
      emul_smb7 emul_smb emul_stp emul_sta emul_stx emul_sty emul_stz emul_tax emul_tay emul_trb
      emul_tsb emul_tsx emul_txa emul_txs emul_tya emul_wai emul_invalid
      get_A get_X get_Y get_SP get_P get_PC put_A put_X put_Y put_SP put_P put_PC P_set P_clear];
    cbv beta zeta; obl.
Qed.
Lemma obl_bit_once id i : oblivious (emul_bit_once B H id i).
Proof. unfold emul_bit_once, get_A. obl. Qed.
#[local] Hint Resolve obl_call_emul obl_bit_once : oblivious.
Lemma obl_native f id i : oblivious (native_emul B H f id i).
Proof. destruct f; cbn [native_emul]; auto with oblivious. Qed.

Lemma obl_finish id : oblivious (finish_instruction id).
Proof. unfold finish_instruction. obl. Qed.
Lemma obl_fetch_emu a : oblivious (instruction_fetch_emu a).
Proof. unfold instruction_fetch_emu. obl. Qed.
Lemma fetch_host b a x : b_host (instruction_fetch b a).2 x = b_host b x.
Proof.
  unfold instruction_fetch. pose proof (b_read_host b a x) as H0.
  destruct (b_read b a) as [op b1]. pose proof (b_read_host b1 (u16 (a + 1)) x) as H1.
  destruct (b_read b1 (u16 (a + 1))) as [op1 b2]. pose proof (b_read_host b2 (u16 (a + 2)) x) as H2.
  destruct (b_read b2 (u16 (a + 2))) as [op2 b3]. cbn in H0, H1, H2.
  destruct (mode_operands _) as [|[|[|]]]; cbn; congruence.
Qed.
(** Disassembling reads the bus and nothing else happens. *)
Lemma direct_disassemble a e : direct e →
  core_disassemble a e = (Ret (disassemble (bus e) a).1, set_bus (disassemble (bus e) a).2 e) ∧
  direct (set_bus (disassemble (bus e) a).2 e).
Proof.
  intros []. pose proof (fetch_host (bus e) a) as Hh. unfold core_disassemble, disassemble.
  erewrite bind_Ret by reflexivity. destruct (instruction_fetch (bus e) a) as [i b]. cbn [fst snd] in *.
  split; [|split; try done; intros x; cbn; by rewrite Hh].
  erewrite bind_Ret by reflexivity. erewrite bind_Ret; [reflexivity|].
  induction (seqZ 0 _) as [|k l IH]; [done|].
  match goal with |- mfor _ ?f _ = _ => change (mfor (k :: l) f) with (f k;; mfor l f) end.
  erewrite bind_Ret; [exact IH|]. by rewrite d_nohost0.
Qed.
Lemma obl_disassemble a : oblivious (core_disassemble a).
Proof.
  intros e He. destruct (direct_disassemble a e He) as [E Hd].
  destruct (direct_disassemble a (erase e) (direct_erase e He)) as [E' _]. by rewrite E, E'.
Qed.
#[local] Hint Resolve obl_finish obl_fetch_emu obl_disassemble : oblivious.
Lemma obl_exec : oblivious rk65c02_exec.
Proof. unfold rk65c02_exec, debug_trace_savestate, debug_PC_is_breakpoint, get_PC. obl. Qed.

End Erase.
