(* ===== verification/JitCoherent.v ===== *)
(** Compiled code is the code in memory.

    [coherent]: every live block of the cache was compiled from the bytes that
    are at its addresses now, or a store into it is waiting to be processed and
    native code has been told to return.  Every instruction keeps it, whether
    the interpreter or native code executes it, so the dispatcher never calls
    a block whose code has been overwritten. *)
From stdpp Require Import base numbers list gmap strings.
From S2P Require Import Prelude Types Isa BusSpec State Interfaces Mmu Instruction Emulation.
From S2P Require Import Disasm Debug Exec IsaSpec Invariant Frames JitCache JitEmit Jit JitSpec.
From S2P Require Import JitStores JitInvariant JitExact JitErase.

#[local] Opaque slots.

(** ** Code in memory *)

(** The bytes at [a] are those of the decoded instruction. *)
Definition insn_at (m : Z → Z) (a : Z) (bi : jit_block_insn) : Prop :=
  i_opcode (bi_i bi) = m a ∧
  (1 ≤ operand_bytes (d_mode (bi_id bi)) → i_op1 (bi_i bi) = m (u16 (a + 1))) ∧
  (2 ≤ operand_bytes (d_mode (bi_id bi)) → i_op2 (bi_i bi) = m (u16 (a + 2))).

Fixpoint code_at (m : Z → Z) (a : Z) (insns : list jit_block_insn) : Prop :=
  match insns with
  | [] => True
  | bi :: l => insn_at m a bi ∧ code_at m (u16 (a + d_size (bi_id bi))) l
  end.

(** Building a block goes on after a conditional branch and after instructions
    that fall through: only the last instruction of a block may do otherwise. *)
Definition ends_block (bi : jit_block_insn) : bool :=
  let op := i_opcode (bi_i bi) in
  negb (jit_opcode_is_cond_branch op) &&
  (instruction_modify_pc (bi_id bi) || (op =? 0x60) || ((op =? 0xDB) || (op =? 0xCB))).

Fixpoint inner (insns : list jit_block_insn) : Prop :=
  match insns with
  | [] => True
  | bi :: l => (l = [] ∨ ends_block bi = false) ∧ inner l
  end.

Lemma inner_lookup insns k bi : inner insns → insns !! k = Some bi → (S k < length insns)%nat →
  ends_block bi = false.
Proof.
  revert k. induction insns as [|x l IH]; intros k Hi Hk Hlt; [done|].
  destruct Hi as [Hx Hl]. destruct k as [|k].
  - injection Hk as <-. destruct Hx as [->|Hx]; [simpl in Hlt; lia|done].
  - apply (IH k); [done..|]. simpl in Hlt. lia.
Qed.

(** The addresses of a block's instructions. *)
Lemma code_at_lookup m a insns k bi x : code_at m a insns → insns !! k = Some bi →
  insn_addrs a insns !! k = Some x → insn_at m x bi.
Proof.
  revert a k. induction insns as [|y l IH]; intros a k Hc Hk Hx; [done|].
  destruct Hc as [Hy Hl]. destruct k as [|k].
  - injection Hk as <-. by injection Hx as <-.
  - by eapply IH.
Qed.
Lemma insn_addrs_next a insns k bi x : insns !! k = Some bi → insn_addrs a insns !! k = Some x →
  (S k < length insns)%nat → insn_addrs a insns !! S k = Some (u16 (x + d_size (bi_id bi))).
Proof.
  revert a k. induction insns as [|y l IH]; intros a k Hk Hx Hlt; [done|]. destruct k as [|k].
  - injection Hk as <-. injection Hx as <-. destruct l; [simpl in Hlt; lia|done].
  - cbn [insn_addrs lookup list_lookup] in *. apply (IH _ k); [done..|]. simpl in Hlt. lia.
Qed.

Lemma operand_size o : byte o →
  1 + operand_bytes (d_mode (instruction_decode o)) ≤ d_size (instruction_decode o).
Proof.
  intros Ho. pose proof (byte_forall (λ o, 1 + operand_bytes (d_mode (instruction_decode o)) <=?
    d_size (instruction_decode o)) ltac:(vm_compute; reflexivity) o Ho) as Hs.
  cbv beta in Hs. lia.
Qed.

Lemma u16_add a s k : u16 (u16 (a + s) + k) = u16 (a + (s + k)).
Proof. unfold u16. rewrite Zplus_mod_idemp_l. f_equal. lia. Qed.

Lemma span_nonneg insns : Forall decoded insns → 0 ≤ span insns.
Proof.
  induction 1 as [|bi l [Hd (Ho&_)] _ IH]; cbn [span foldr]; [lia|]. fold (span l).
  rewrite Hd. pose proof (size_bounds _ Ho). lia.
Qed.

Lemma code_at_agree m m' a insns : word a → Forall decoded insns →
  (∀ k, 0 ≤ k < span insns → m' (u16 (a + k)) = m (u16 (a + k))) →
  code_at m a insns → code_at m' a insns.
Proof.
  revert a. induction insns as [|bi l IH]; intros a Ha Hd Hm; [done|].
  inversion_clear Hd as [|? ? [Hid (Ho&_)] Hl]. pose proof (operand_size _ Ho) as Hz.
  rewrite <- Hid in Hz. pose proof (span_nonneg l Hl). cbn [span foldr] in Hm. fold (span l) in Hm.
  assert (0 ≤ operand_bytes (d_mode (bi_id bi))) by (by destruct (d_mode (bi_id bi))).
  intros [(Hop&Ho1&Ho2) Hc]. split.
  - specialize (Hm 0 ltac:(lia)) as Hm0. rewrite Z.add_0_r, u16_small in Hm0 by lia.
    split; [congruence|]. split; intros ?; rewrite Hm by lia; auto.
  - apply IH; [apply u16_word|done| |done]. intros k Hk. rewrite !u16_add. apply Hm. lia.
Qed.

(** ** Blocks and memory *)

(** Writes that are recorded and not yet processed. *)
Definition no_pending (j : rk65c02_jit) : Prop :=
  pending_write j = [] ∧ pending_write_overflow j = false.
Definition stale (j : rk65c02_jit) (b : rk65c02_jit_block) : Prop :=
  pending_write_overflow j = true ∨
  ∃ w, w ∈ pending_write j ∧ jit_block_contains_addr b (pw_addr w) = true.

Record block_current (m : Z → Z) (j : rk65c02_jit) (b : rk65c02_jit_block)
    (insns : list jit_block_insn) : Prop := {
  bc_some : insns ≠ [];
  bc_inner : inner insns;
  bc_span : span insns = u16 (end_pc_exclusive b - start_pc b);
  bc_untagged : mmu_phys_page_valid b = false;
  bc_code : stale j b ∨ code_at m (start_pc b) insns
}.

Definition cache_current (m : Z → Z) (j : rk65c02_jit) : Prop :=
  ∀ i b insns, blocks j !! i = Some b → fn b = Some insns → block_current m j b insns.

Lemma block_contains b k : word (start_pc b) → block_ok b →
  0 ≤ k < u16 (end_pc_exclusive b - start_pc b) →
  jit_block_contains_addr b (u16 (start_pc b + k)) = true.
Proof.
  intros Hs [He Hl _ _] Hk. rewrite contains_addr_iff by auto using u16_word.
  apply bool_decide_true. unfold block_addrs.
  destruct (Z.eqb_spec (start_pc b) (end_pc_exclusive b)) as [E|_].
  - apply elem_of_seqZ. pose proof (u16_word (start_pc b + k)). lia.
  - apply list_elem_of_fmap. exists k. split; [done|]. apply elem_of_seqZ. lia.
Qed.

Lemma fn_live b insns : fn b = Some insns → live b = true.
Proof. intros E. unfold live. by rewrite E. Qed.

(** A store outside a block leaves its code in place. *)
Lemma current_other j m m' i b insns a : cache_ok j → blocks j !! i = Some b → fn b = Some insns →
  (∀ x, word x → x ≠ a → m' x = m x) → jit_block_contains_addr b a = false →
  span insns = u16 (end_pc_exclusive b - start_pc b) →
  code_at m (start_pc b) insns → code_at m' (start_pc b) insns.
Proof.
  intros Hj Hb Hf Hm Hc Hs. destruct (co_slot j Hj i b Hb) as [Hi Hw].
  pose proof (co_block j Hj i b Hb (fn_live b insns Hf)) as Hok.
  destruct (bo_code b Hok insns Hf) as [_ Hd].
  apply code_at_agree; [congruence|done|]. intros k Hk. apply Hm; [apply u16_word|].
  intros E. rewrite Hs in Hk. rewrite <- E, block_contains in Hc; [done|congruence|done|done].
Qed.

(** What the operations on the cache leave alone. *)
Record same_pending (j j' : rk65c02_jit) : Prop := {
  sp_flush : needs_flush j' = needs_flush j;
  sp_pending : pending_write j' = pending_write j;
  sp_overflow : pending_write_overflow j' = pending_write_overflow j
}.
#[export] Instance same_pending_preorder : PreOrder same_pending.
Proof. split; [by intros j|]. intros ? ? ? [] []. split; congruence. Qed.

Lemma rest_pending j j' : same_rest j j' → same_pending j j'.
Proof. intros []. by split. Qed.

Lemma count_page_write_pending j p : cache_ok j → same_pending j (count_page_write j p).
Proof.
  intros Hj. unfold count_page_write. cbv zeta.
  set (j3 := put_page_invalidation_events _ j). assert (cache_ok j3) as H3 by same_cache j.
  destruct (negb _ && _); [|by split].
  set (j4 := put_stats _ (put_mutable_code_page _ j3)). assert (cache_ok j4) as H4 by same_cache j.
  destruct (invalidate_page_ok j4 p H4) as (_&_&R).
  transitivity j4; [by split|exact (rest_pending j4 _ R)].
Qed.

Lemma invalidate_addr_pending j a : cache_ok j → same_pending j (jit_invalidate_blocks_for_addr j a).
Proof.
  intros Hj. rewrite (invalidate_addr_eq j a (co_magic j Hj)).
  set (j1 := put_invalidation_events_this_run _ j). assert (cache_ok j1) as Hj1 by same_cache j.
  destruct (invalidate_where_ok (λ b, jit_block_contains_addr b a) j1 Hj1) as (_&R&_).
  transitivity j1; [by split|exact (rest_pending j1 _ R)].
Qed.

Lemma apply_write_pending j w : cache_ok j → same_pending j (apply_write j w).
Proof.
  intros Hj. unfold apply_write. destruct (invalidate_addr_ok j (pw_addr w) Hj) as (H1&_).
  transitivity (jit_invalidate_blocks_for_addr j (pw_addr w)); [by apply invalidate_addr_pending|].
  generalize dependent (jit_invalidate_blocks_for_addr j (pw_addr w)). intros j1 H1.
  destruct (pw_phys_valid w); [|by apply count_page_write_pending].
  destruct (invalidate_phys_ok j1 (pw_phys_addr w) H1) as (H2&_&R).
  transitivity (jit_invalidate_blocks_for_phys_addr j1 (pw_phys_addr w));
    [exact (rest_pending j1 _ R)|]. by apply count_page_write_pending.
Qed.

Lemma stale_record w j b :
  stale j b ∨ jit_block_contains_addr b (pw_addr w) = true → stale (record_write w j) b.
Proof.
  unfold record_write, stale. intros Hs. destruct (_ <? _); cbn; [|by left].
  destruct Hs as [[Ho|(w'&Hw&Hc)]|Hc]; [by left| |].
  - right. exists w'. split; [|done]. apply elem_of_app. by left.
  - right. exists w. split; [|done]. apply elem_of_app. right. by left.
Qed.

Lemma record_write_rest w j :
  blocks (record_write w j) = blocks j ∧ needs_flush (record_write w j) = needs_flush j.
Proof. unfold record_write. by destruct (_ <? _). Qed.

(** ** Coherence *)

Section Coherent.
Context (B H : Type).
#[local] Hint Extern 0 Sys => exact (jit_sys B H) : typeclass_instances.
Context {SB : SysBus} {BL : BusLaws sys_bus} {HO : HostOps} {HT : HostTyped}.
#[local] Existing Instance lightning_jit.

(** [run] is the cache's blocks while native code runs, which do not change
    until it returns. *)
Record jit_coherent (run : option (gmap Z rk65c02_jit_block)) (e : rk65c02emu) (j : rk65c02_jit)
    : Prop := {
  jc_cache : cache_ok j;
  jc_flush : needs_flush j = false;
  jc_current : cache_current (mem_at (bus e)) j;
  jc_pending : run = None ∨ use_jit e = true → no_pending j;
  jc_blocks : ∀ bs, run = Some bs → blocks j = bs
}.

Record coherent (run : option (gmap Z rk65c02_jit_block)) (e : rk65c02emu) : Prop := {
  ch_ok : emu_ok e;
  ch_direct : direct B H e;
  ch_flat : flat_bus (bus e);
  ch_run : run = None → in_jit_run e = false;
  ch_jit : in_jit_run e = bool_decide (is_Some run) → ∃ j, jit e = Some j ∧ jit_coherent run e j
}.

Lemma set_bus_same e : set_bus (bus e) e = e.
Proof. by destruct e. Qed.

Lemma direct_bus_read a e : flat_bus (bus e) → word a → core_bus_read_1 a e = (Ret (mem_at (bus e) a), e).
Proof.
  intros Hf Ha. unfold core_bus_read_1, get, modify, mbind, M_bind, mret, M_ret.
  rewrite mem_at_read, flat_host by (by try apply flat_ram). cbn. by rewrite set_bus_same.
Qed.

(** Memory after a store, whatever the store invalidates. *)
Lemma stored_mem a v e : flat_bus (bus e) → word a → ∀ x, word x → x ≠ a →
  mem_at (bus (stored B H a v e)) x = mem_at (bus e) x.
Proof. intros Hf Ha x Hx Hne. cbn [bus stored set_bus]. rewrite mem_at_write_flat by done. by case_decide. Qed.

Lemma stored_coherent run a v e j : coherent run e → word a → byte v → jit_coherent run e j →
  no_block (λ b, jit_block_contains_addr b a) j → jit_coherent run (stored B H a v e) j.
Proof.
  intros [_ _ Hf _ _] Ha Hv [Hc Hfl Hcur Hp Hb] Hn. split; [done..| |done|done].
  intros i b insns Hi Hfn. destruct (Hcur i b insns Hi Hfn) as [Hs Hin Hsp Ht Hcode]. split; [done..|].
  destruct Hcode as [|Hcode]; [by left|]. right.
  apply (current_other j (mem_at (bus e)) _ i b insns a); try done; [by apply stored_mem|].
  apply (Hn i b Hi). by eapply fn_live.
Qed.

(** A store into compiled code, by native code and by the interpreter. *)
Lemma recorded_coherent bs a v e j w : coherent (Some bs) e → word a → jit_coherent (Some bs) e j →
  pw_addr w = a → let j1 := put_stats (stats_write_event (stats j)) j in
  jit_coherent (Some bs) (set_jit (Some (record_write w j1)) (set_use_jit false (stored B H a v e)))
    (record_write w j1).
Proof.
  intros [_ _ Hf _ _] Ha [Hc Hfl Hcur _ Hb] Hw j1. assert (cache_ok j1) as Hj1 by same_cache j.
  destruct (record_write_rest w j1) as [Eb En]. split.
  - by destruct (record_write_ok w j1 Hj1).
  - by rewrite En.
  - intros i b insns Hi Hfn. rewrite Eb in Hi. change (blocks j !! i = Some b) in Hi.
    destruct (Hcur i b insns Hi Hfn) as [Hs Hin Hsp Ht Hcode]. split; [done..|].
    destruct (jit_block_contains_addr b a) eqn:Ha'; [left; apply stale_record; right; by rewrite Hw|].
    destruct Hcode as [Hst|Hcode]; [by left; apply stale_record; left|]. right.
    apply (current_other j (mem_at (bus e)) _ i b insns a); try done. by apply (stored_mem a v).
  - by intros [|].
  - intros bs' Hbs. rewrite Eb. by apply Hb.
Qed.

Lemma applied_coherent a v e j w : coherent None e → word a → jit_coherent None e j →
  pw_addr w = a → let j1 := put_stats (stats_write_event (stats j)) j in
  jit_coherent None (set_jit (Some (apply_write j1 w)) (stored B H a v e)) (apply_write j1 w).
Proof.
  intros [_ _ Hf _ _] Ha [Hc Hfl Hcur Hp _] Hw j1. assert (cache_ok j1) as Hj1 by same_cache j.
  destruct (apply_write_ok j1 w Hj1) as (Hok&Hfew&_&Hno&_).
  destruct (apply_write_pending j1 w Hj1) as [Pf Pp Po].
  destruct (Hp (or_introl eq_refl)) as [Hp1 Hp2].
  generalize dependent (apply_write j1 w). intros j' Hok Hfew Hno Pf Pp Po. split.
  - done.
  - rewrite Pf. exact Hfl.
  - intros i b insns Hi Hfn. pose proof (fn_live b insns Hfn) as Hl.
    pose proof (Hfew i b Hi Hl) as Hi0. change (blocks j !! i = Some b) in Hi0.
    destruct (Hcur i b insns Hi0 Hfn) as [Hs Hin Hsp Ht Hcode]. split; [done..|]. right.
    destruct Hcode as [[Hst|(w'&Hw'&_)]|Hcode]; [congruence|rewrite Hp1 in Hw'; by apply elem_of_nil in Hw'|].
    apply (current_other j (mem_at (bus e)) _ i b insns a); try done; [by apply (stored_mem a v)|].
    rewrite <- Hw. exact (Hno i b Hi Hl).
  - intros _. split; [rewrite Pp; exact Hp1|rewrite Po; exact Hp2].
  - done.
Qed.

Lemma write_coherent run a v e : coherent run e → word a → byte v →
  ∃ e', rk65c02_mem_write_1 a v e = (Ret tt, e') ∧ coherent run e'.
Proof.
  intros He Ha Hv. pose proof He as [Hok Hd Hf Hrun Hj].
  destruct (keeps_write a v Ha Hv e Hok) as [Hok' _].
  pose proof (direct_stored B H a v e Hd) as Hds.
  assert (flat_bus (bus (stored B H a v e))) as Hfs by by apply flat_bus_write.
  pose proof (direct_write_1 B H a v e Hd) as Ew.
  rewrite Ew in Hok' |- *. clear Ew. destruct (jit e) as [j|] eqn:Ej.
  2: { eexists. split; [reflexivity|]. split; [done..|]. intros Hr. by destruct (Hj Hr) as (?&?&_). }
  destruct (decide (in_jit_run e = bool_decide (is_Some run))) as [Hr|Hr].
  2: { destruct (note_erase B H a _ Hds) as (e'&E&Ee&Hd'). rewrite E in *. exists e'. split; [done|].
       assert (in_jit_run e' = in_jit_run e ∧ bus e' = bus (stored B H a v e)) as [Er Eb].
       { by split; [change (in_jit_run (erase B H e') = in_jit_run e)|
           change (bus (erase B H e') = bus (stored B H a v e))]; rewrite Ee. }
       split; [done|done|by rewrite Eb|by rewrite Er|by rewrite Er]. }
  destruct (Hj Hr) as (j0&[= <-]&Hjc). pose proof (jc_cache _ _ _ Hjc) as Hc.
  destruct (direct_note B H a _ j Hds Ej (co_magic j Hc)) as [[E Hz]|(w&Hw&E)]; rewrite E in *;
    eexists; (split; [reflexivity|]).
  - split; [done..|]. intros _. exists j. split; [done|]. apply stored_coherent; try done.
    destruct Hz as [Hz|Hz]; [by apply inactive_no_block|by apply uncovered_no_block].
  - unfold noted in *. change (in_jit_run (stored B H a v e)) with (in_jit_run e) in *.
    destruct run as [bs|].
    + change (bool_decide (is_Some (Some bs))) with true in Hr. rewrite Hr in *.
      split; [done|by destruct Hds|done|done|]. intros _. eexists. split; [reflexivity|].
      by apply (recorded_coherent bs a v e j w).
    + change (bool_decide (is_Some (None (A := gmap Z rk65c02_jit_block)))) with false in Hr. rewrite Hr in *.
      split; [done|by destruct Hds|done|done|]. intros _. eexists. split; [reflexivity|].
      by apply (applied_coherent a v e j w).
Qed.

Lemma coherent_only run e e' : same_machine e e' → emu_ok e' → coherent run e → coherent run e'.
Proof.
  intros [Eb Ej Eu Er _ _ En Ei _ Ef Eg Es Et Ew] Hok [_ [] Hf Hrun Hj]. split.
  - done.
  - split; unfold accessors_for; rewrite ?En, ?Ei; congruence || done.
  - by rewrite Eb.
  - by rewrite Er.
  - rewrite Er, Ej. intros Hr. destruct (Hj Hr) as (j&->&[]). exists j. split; [done|].
    split; rewrite ?Eb, ?Eu; done.
Qed.

(** Changes of the backend that leave blocks and pending writes alone. *)
Lemma coherent_mod_jit run f e : (∀ j, cache_ok j → cache_ok (f j)) →
  (∀ j, blocks (f j) = blocks j ∧ same_pending j (f j)) →
  coherent run e → coherent run (set_jit (f <$> jit e) e).
Proof.
  intros Hc Hf [[] [] Hfl Hrun Hj]. split; [by split|by split|done|done|]. intros Hr. destruct (Hj Hr) as (j&Ej&[H1 H2 H3 H4 H5]).
  exists (f j). split; [cbn; by rewrite Ej|]. destruct (Hf j) as [Eb [E1 E2 E3]]. split; [auto|congruence|..].
  - intros i b insns Hi Hfn. rewrite Eb in Hi. destruct (H3 i b insns Hi Hfn) as [? ? ? ? Hcode].
    split; [done..|]. unfold stale in *. by rewrite E2, E3.
  - unfold no_pending. rewrite E2, E3. exact H4.
  - intros bs Hbs. rewrite Eb. by apply H5.
Qed.

Lemma panic_coherent run : keeps (coherent run) rk65c02_panic (λ _, True).
Proof.
  intros e He. pose proof He as [Hok Hd Hf Hrun Hj].
  destruct (keeps_panic e Hok) as [Hok' _]. split; [|done]. revert Hok'.
  unfold rk65c02_panic, emu_stop_error. do 5 erewrite bind_Ret by reflexivity. cbn [in_jit_run set_stop_requested set_stopreason set_state].
  destruct (in_jit_run e) eqn:Er.
  - intros Hok'. split; [done|by destruct Hd|done|done|]. cbn. destruct run; [done|].
    specialize (Hrun eq_refl). congruence.
  - erewrite bind_Ret by reflexivity. intros Hok'.
    assert (∀ e', same_machine e e' → emu_ok e' → coherent run e') as Ho.
    { intros e' Hs He'. by apply (coherent_only run e). }
    destruct (is_active _); [by apply Ho|]. revert Hok'. unfold rk65c02_maybe_call_on_stop.
    erewrite bind_Ret by reflexivity. cbn [on_stop set_stop_requested set_stopreason set_state].
    rewrite (d_stop B H e Hd). intros Hok'. by apply Ho.
Qed.

Lemma flat_fetch b a : flat_bus b → word a → (instruction_fetch b a).2 = b.
Proof.
  intros Hf Ha. unfold instruction_fetch. rewrite mem_at_read by by apply flat_ram.
  assert (∀ k, b_read b (u16 k) = (mem_at b (u16 k), b)) as Hr.
  { intros k. apply mem_at_read, flat_ram; [done|apply u16_word]. }
  destruct (mode_operands _) as [|[|[|]]]; [done| |..]; rewrite ?Hr; done.
Qed.

#[export] Instance coherent_typed run : Typed (coherent run).
Proof.
  split.
  - by intros e [].
  - intros e e' Hs Hr He. apply (coherent_only run e); [done| |done].
    apply (typed_only e); [done..|]. apply He.
  - intros a Ha e He. rewrite (direct_fetch_1 B H a e (ch_direct run e He)).
    pose proof He as [Hok _ Hf _ _]. rewrite direct_bus_read by done. split; [done|].
    intros ? [= <-]. apply mem_at_byte; [by apply flat_ok|done|by apply flat_ram].
  - intros a Ha e He. rewrite (direct_read_1 B H a e (ch_direct run e He)).
    pose proof He as [Hok _ Hf _ _]. rewrite direct_bus_read by done. split; [done|].
    intros ? [= <-]. apply mem_at_byte; [by apply flat_ok|done|by apply flat_ram].
  - intros a v Ha Hv e He. destruct (write_coherent run a v e He Ha Hv) as (e'&E&He'). by rewrite E.
  - apply panic_coherent.
  - intros a Ha e He. pose proof He as [_ Hd Hf _ _]. split; [|done].
    rewrite (proj1 (direct_disassemble B H a e Hd)). unfold disassemble.
    pose proof (flat_fetch (bus e) a Hf Ha) as Eb. destruct (instruction_fetch (bus e) a) as [i b].
    cbn [snd] in *. subst b. by rewrite set_bus_same.
Qed.

End Coherent.
