(* ===== verification/JitRefine.v ===== *)
(** A block of native code implements the instruction set.

    On plain memory, native code of a block that is current executes the
    instructions of the specification, one [spec_step] each, and goes back to
    the dispatcher with the state of the specification. *)
From stdpp Require Import base numbers list gmap strings.
From S2P Require Import Prelude Types Isa BusSpec State Interfaces Mmu Instruction Emulation.
From S2P Require Import Disasm Debug Exec IsaSpec Invariant Runs IsaArith Routines Refine RunRefine.
From S2P Require Import Frames JitCache JitEmit Jit JitNative JitSpec JitStores JitInvariant.
From S2P Require Import JitExact JitShape JitLoop JitErase JitCoherent.

(** ** What the specification's instructions leave alone *)

Ltac effect_case :=
  cbn [spec_effect]; unfold spec_store, spec_push, spec_drop, spec_interrupt, spec_branch;
  first [ done
        | case_match; done
        | match goal with |- context [spec_adc ?a ?b ?c] => destruct (spec_adc a b c) as [[? ?] ?] end; done
        | match goal with |- context [spec_sbc ?a ?b ?c] => destruct (spec_sbc a b c) as [[? ?] ?] end; done ].

Lemma effect_PC f m a b c : jumps f = false → f ≠ f_rts → cPC (spec_effect f m a b c) = cPC c.
Proof. intros Hj Hf. destruct f; try discriminate Hj; first [by destruct Hf|effect_case]. Qed.

Lemma effect_power f m a b c : f ≠ f_stp → f ≠ f_wai → cPower (spec_effect f m a b c) = cPower c.
Proof. intros H1 H2. destruct f; first [by destruct H1|by destruct H2|effect_case]. Qed.

Lemma effect_irq f m a b c : cIrq c = false → cIrq (spec_effect f m a b c) = false.
Proof. intros Hq. destruct f; effect_case. Qed.

(** Memory changes only where native code checks for a store into code. *)
Lemma effect_mem id a b c : falls_back id = false ∨ d_emul id = f_invalid → stores id = false →
  cM (spec_effect (d_emul id) (d_mode id) a b c) = cM c.
Proof.
  unfold falls_back, stores. intros Hf Hs.
  destruct (d_emul id); try discriminate Hs; try (by destruct Hf);
    try (apply bool_decide_eq_false, dec_stable in Hs; rewrite Hs); effect_case.
Qed.

Lemma spec_run_add n k c : spec_run (n + k) c = spec_run k (spec_run n c).
Proof.
  revert c. induction n as [|n IH]; intros c; [done|]. cbn [Nat.add spec_run].
  destruct (cPower c) eqn:Hp; [apply IH|..]; destruct k; cbn [spec_run]; by rewrite ?Hp.
Qed.

Section JitRefine.
Context (B H : Type).
#[local] Hint Extern 0 Sys => exact (jit_sys B H) : typeclass_instances.
Context {SB : SysBus} {BL : BusLaws sys_bus} {HO : HostOps} {HT : HostTyped}.
#[local] Existing Instance lightning_jit.
#[local] Abbreviation erase := (erase B H).
#[local] Abbreviation coherent := (coherent B H).

(** ** One instruction *)

Lemma represents_erase e c : represents (erase e) c ↔ represents e c.
Proof. by split; intros [Hr Hm Hc]. Qed.

(** What is known of the instance without a JIT holds with one. *)
Lemma transfer {T} (p : M T) run e a e1 : oblivious B H p → keeps (coherent run) p (λ _, True) →
  coherent run e → p (erase e) = (Ret a, e1) →
  ∃ e', p e = (Ret a, e') ∧ erase e' = e1 ∧ coherent run e'.
Proof.
  intros Ho Hk He E. destruct (Ho e (ch_direct _ _ _ _ He)) as [Eo _]. destruct (Hk e He) as [He' _].
  rewrite E in Eo. destruct (p e) as [o e']. injection Eo as -> ->. eauto.
Qed.

Lemma exec_jit run e c : coherent run e → bare (erase e) → represents e c →
  ∃ e', rk65c02_exec e = (Ret tt, e') ∧ represents e' (spec_step c) ∧
    stepped (erase e) (erase e') ∧ coherent run e'.
Proof.
  intros He Hb Hc. destruct (exec_refines (erase e) c Hb (proj2 (represents_erase e c) Hc)) as (e1&E&Hc1&Hst).
  destruct (transfer rk65c02_exec run e tt e1) as (e'&E'&Ee&He'); [apply (obl_exec B H)|apply keeps_exec|done|done|].
  exists e'. split; [done|]. rewrite Ee. split; [|done]. apply represents_erase. by rewrite Ee.
Qed.

Lemma native_simulates e r m id i : plain e → regs_ok r → bytes m → instruction_ok i → def_ok id →
  simulates e (native_emul B H (d_emul id) id i) r m
    (spec_effect (d_emul id) (d_mode id) (i_op1 i) (i_op2 i) (cpu_of r m (irq e) (power_of e))).
Proof.
  intros He Hr Hm Hi Hid. destruct (decide (d_emul id = f_bit)) as [Ef|Ef].
  - pose proof (def_mode id Hid) as Hmode. rewrite Ef in *. apply refines_simulates.
    by apply (refines_bit_once e He r m (irq e) (power_of e) Hr Hm id i Hi).
  - replace (native_emul B H (d_emul id)) with (call_emul (d_emul id)) by (by destruct (d_emul id)).
    by apply simulates_emul.
Qed.

Lemma native_keeps run f id i : instruction_ok i →
  keeps (coherent run) (native_emul B H f id i) (λ _, True).
Proof.
  intros Hi. destruct (decide (f = f_bit)) as [->|Ef].
  - cbn [native_emul]. unfold emul_bit_once.
    eapply keeps_bind; [by apply keeps_data_read|]. intros v _.
    eapply keeps_bind; [apply keeps_A_get|]. intros a _.
    apply keeps_seq; [by apply keeps_P_flag|intros []]. case_bool_decide; [|by apply keeps_ret].
    apply keeps_seq; [by apply keeps_P_flag|intros []; by apply keeps_P_flag].
  - replace (native_emul B H f) with (call_emul f) by (by destruct f). by apply keeps_call_emul.
Qed.

(** The routine and the update of the program counter, for an instruction
    whose bytes are in memory. *)
Lemma native_jit run e c bi (id := bi_id bi) :
  coherent run e → bare (erase e) → represents e c → decoded bi →
  insn_at (cM c) (PC (regs e)) bi → d_emul id ≠ f_brk →
  ∃ e', (native_emul B H (d_emul id) id (bi_i bi);; finish_instruction id) e = (Ret tt, e') ∧
    represents e' (spec_instruction c) ∧ stepped (erase e) (erase e') ∧ coherent run e'.
Proof.
  intros He Hb Hc [Hdec Hi] (Hop&H1&H2) Hbrk. fold id in Hdec. pose proof Hi as (Ho&_).
  pose proof (decode_ok _ Ho) as Hid. rewrite <- Hdec in Hid.
  pose proof (proj2 (represents_erase e c) Hc) as [Hr Hm Hcpu]. pose proof Hb as [Hp _ _ _ Hx].
  destruct (native_simulates (erase e) (regs e) (cM c) id (bi_i bi) Hp Hr (holds_bytes _ _ Hm) Hi Hid)
    as (e1&r1&m1&Hrun1&Hc1&Hr1&Ht1).
  change (regs (erase e)) with (regs e) in *. rewrite Hcpu in Hc1.
  assert (mmu_fault_reexec e1 = false) as Hx1 by (by destruct Ht1 as (?&?&?&->&_)).
  destruct (simulates_finish e1 r1 m1 id Hx1 Hid Hbrk Hr1) as (e2&r2&m2&Hrun2&Hc2&Hr2&Ht2).
  destruct (runs_bind (erase e) _ (λ _, finish_instruction id) _ _ _ _ _ _ _ _ _ _ Hrun1 Hrun2 (bus e) Hm)
    as (b2&E&Hb2).
  assert (core (erase e) (regs e) (bus e) = erase e) as Ecore by (by destruct e).
  rewrite Ecore in E.
  destruct (transfer (native_emul B H (d_emul id) id (bi_i bi);; finish_instruction id) run e tt
    (core e2 r2 b2)) as (e'&E'&Ee&He'); [|  |done|done|].
  { apply obl_bind; [apply (obl_native B H)|intros; apply (obl_finish B H)]. }
  { apply keeps_seq; [by apply native_keeps|intros []; apply keeps_finish]. }
  exists e'. split; [done|]. rewrite Ee. split; [|split; [|done]].
  - apply represents_erase. rewrite Ee.
    assert (spec_instruction c = cpu_of r2 m2 (irq e2) (power_of e2)) as ->; [|by split].
    rewrite Hc2, Hc1. unfold spec_instruction.
    assert (cPC c = PC (regs e)) as -> by (by rewrite <- Hcpu). rewrite <- Hop, <- Hdec.
    by rewrite (spec_effect_operands _ _ _ _ _ _ _ (def_mode id Hid) H1 H2).
  - exists e2, r2, b2. split; [by eapply tuned_trans|done].
Qed.
(** ** Running *)

(** The instance follows the specification: it is in the state [c], on plain
    memory, with nothing watching and no interrupt line raised, and it runs
    exactly while the processor does. *)
Record follows (run : option (gmap Z rk65c02_jit_block)) (e : rk65c02emu) (c : cpu) : Prop := {
  fo_coherent : coherent run e;
  fo_inside : in_jit_run e = bool_decide (is_Some run);
  fo_bare : bare (erase e);
  fo_quiet : quiet e;
  fo_irq : irq e = false;
  fo_rep : represents e c;
  fo_state : match cPower c with
    | Running => state e = RUNNING
    | _ => state e = STOPPED ∧ ∀ last, stopreason e = run_reason last c
    end
}.

Lemma spec_step_plain c : cIrq c = false → spec_step c = spec_instruction c.
Proof. intros Hq. unfold spec_step. by rewrite Hq. Qed.

Lemma instruction_irq c : cIrq c = false → cIrq (spec_instruction c) = false.
Proof.
  intros Hq. unfold spec_instruction.
  pose proof (effect_irq (d_emul (instruction_decode (cM c (cPC c))))
    (d_mode (instruction_decode (cM c (cPC c)))) (cM c ((cPC c + 1) mod 65536))
    (cM c ((cPC c + 2) mod 65536)) c Hq) as He.
  by destruct (jumps _).
Qed.

Lemma follows_irq run e c : follows run e c → cIrq c = false.
Proof. intros [_ _ _ _ Hq [_ _ <-] _]. done. Qed.

Lemma follows_step run e c e' : follows run e c → cPower c = Running → coherent run e' →
  represents e' (spec_instruction c) → stepped (erase e) (erase e') → follows run e' (spec_instruction c).
Proof.
  intros Hf Hp He' Hc' Hst. pose proof (follows_irq _ _ _ Hf) as Hq. destruct Hf as [_ Hin Hb Hqu _ Hc Hs].
  rewrite Hp in Hs.
  pose proof (stepped_state (erase e) c (erase e') _ (proj2 (represents_erase e c) Hc)
    (proj2 (represents_erase e' _) Hc') Hst) as Hs'.
  split; [done| |by eapply stepped_bare| | |done|].
  - change (in_jit_run (erase e') = bool_decide (is_Some run)). rewrite <- Hin.
    by destruct Hst as (e1&r&b&(s&sr&q&->&_)&->).
  - assert (quiet (erase e)) as Hqe by by destruct Hqu.
    by destruct (stepped_quiet _ _ Hqe Hst).
  - destruct Hc' as [_ _ E]. change (irq e') with (cIrq (cpu_of (regs e') (cM (spec_instruction c)) (irq e') (power_of e'))).
    rewrite E. by apply instruction_irq.
  - change (state (erase e)) with (state e) in Hs'. rewrite Hs in Hs'.
    by destruct (cPower (spec_instruction c)); apply Hs'.
Qed.

Lemma exec_follows run e c : follows run e c → cPower c = Running →
  ∃ e', rk65c02_exec e = (Ret tt, e') ∧ follows run e' (spec_step c).
Proof.
  intros Hf Hp. destruct (exec_jit run e c) as (e'&E&Hc'&Hst&He'); [by destruct Hf..|].
  exists e'. split; [done|]. rewrite spec_step_plain in * by by eapply follows_irq.
  by eapply follows_step.
Qed.

Lemma native_follows run e c bi (id := bi_id bi) : follows run e c → cPower c = Running →
  decoded bi → insn_at (cM c) (PC (regs e)) bi → d_emul id ≠ f_brk →
  ∃ e', (native_emul B H (d_emul id) id (bi_i bi);; finish_instruction id) e = (Ret tt, e') ∧
    follows run e' (spec_step c).
Proof.
  intros Hf Hp Hd Ha Hb. destruct (native_jit run e c bi) as (e'&E&Hc'&Hst&He'); [by destruct Hf..|done|done|done|].
  exists e'. split; [done|]. rewrite spec_step_plain in * by by eapply follows_irq.
  by eapply follows_step.
Qed.
End JitRefine.
