(* ===== verification/JitBlock.v ===== *)
(** A block of native code executes the instructions of the specification.

    [step_follows]: the code of one instruction of a block that is current takes
    one [spec_step], and goes on to another instruction of the block only when
    the program counter is there and the code of the block is still what is in
    memory.  [block_follows]: the block as a whole goes back to the dispatcher
    after one or more such steps. *)
From stdpp Require Import base numbers list gmap strings.
From S2P Require Import Prelude Types Isa BusSpec State Interfaces Mmu Instruction Emulation.
From S2P Require Import Disasm Debug Exec IsaSpec Invariant Runs IsaArith Routines Refine RunRefine.
From S2P Require Import Frames JitCache JitEmit Jit JitNative JitSpec JitStores JitInvariant.
From S2P Require Import JitExact JitShape JitLoop JitErase JitCoherent JitRefine.

(** ** Where an instruction leads *)

Definition conditional (f : emul_fn) : bool :=
  match f with f_bcc | f_bcs | f_bne | f_beq | f_bpl | f_bmi | f_bvc | f_bvs => true | _ => false end.

(** What an instruction that does not end a block is. *)
Definition falls_throughb (o : Z) : bool :=
  let id := instruction_decode o in
  let f := d_emul id in
  ends_block (mkBlockInsn (mkInstruction o 0 0) id) || conditional f ||
  (negb (jumps f) && negb (bool_decide (f = f_rts)) && negb (bool_decide (f = f_stp))
   && negb (bool_decide (f = f_wai))).

Lemma falls_through bi (f := d_emul (bi_id bi)) : decoded bi → ends_block bi = false →
  conditional f = true ∨ (jumps f = false ∧ f ≠ f_rts ∧ f ≠ f_stp ∧ f ≠ f_wai).
Proof.
  intros [Hd (Ho&_)] He. unfold f. clear f.
  pose proof (byte_forall falls_throughb ltac:(vm_compute; reflexivity) _ Ho) as Hf.
  unfold falls_throughb in Hf. rewrite <- Hd in Hf.
  change (ends_block (mkBlockInsn (mkInstruction (i_opcode (bi_i bi)) 0 0) (bi_id bi)))
    with (ends_block bi) in Hf. rewrite He in Hf. cbn [orb] in Hf.
  apply orb_prop in Hf as [Hf|Hf]; [by left|right].
  rewrite !andb_true_iff, !negb_true_iff, !bool_decide_eq_false in Hf. tauto.
Qed.

Lemma conditional_effect f p m a b c : conditional f = true → cF c = flags_of p →
  spec_effect f m a b c = spec_branch (branch_taken f p) 2 a c.
Proof.
  intros Hf HF. destruct f; try discriminate Hf; cbn [spec_effect branch_taken];
    rewrite ?test_C, ?test_Z, ?test_N, ?test_V, HF; done.
Qed.
Lemma conditional_jumps f : conditional f = true → jumps f = true.
Proof. by destruct f. Qed.
Lemma taken_conditional f p : branch_taken f p = true → conditional f = true.
Proof. by destruct f. Qed.
Lemma conditional_size bi : decoded bi → conditional (d_emul (bi_id bi)) = true →
  d_size (bi_id bi) = 2.
Proof.
  intros [Hd (Ho&_)] Hf. rewrite Hd in *.
  pose proof (byte_forall (λ o, negb (conditional (d_emul (instruction_decode o))) ||
    (d_size (instruction_decode o) =? 2)) ltac:(vm_compute; reflexivity) _ Ho) as H.
  cbv beta in H. rewrite Hf in H. cbn [negb orb] in H. lia.
Qed.

(** The specification's instruction, when its bytes are those of [bi]. *)
Lemma spec_instruction_at c bi : decoded bi → insn_at (cM c) (cPC c) bi → d_emul (bi_id bi) ≠ f_brk →
  spec_instruction c =
    let c' := spec_effect (d_emul (bi_id bi)) (d_mode (bi_id bi)) (i_op1 (bi_i bi)) (i_op2 (bi_i bi)) c in
    if jumps (d_emul (bi_id bi)) then c' else with_PC (u16 (cPC c' + d_size (bi_id bi))) c'.
Proof.
  intros [Hd Hi] (Hop&H1&H2) Hb. pose proof Hi as (Ho&_). pose proof (decode_ok _ Ho) as Hid.
  rewrite <- Hd in Hid. unfold spec_instruction. rewrite <- Hop, <- Hd.
  rewrite <- (spec_effect_operands _ _ (i_op1 (bi_i bi)) (i_op2 (bi_i bi)) _ _ _ (def_mode _ Hid) H1 H2).
  rewrite (def_size _ Hid Hb), Z.add_assoc. done.
Qed.

Lemma next_PC c bi p : decoded bi → insn_at (cM c) (cPC c) bi → ends_block bi = false →
  cF c = flags_of p → branch_taken (d_emul (bi_id bi)) p = false →
  cPC (spec_instruction c) = u16 (cPC c + d_size (bi_id bi)) ∧ cPower (spec_instruction c) = cPower c.
Proof.
  intros Hd Ha He HF Ht. destruct (falls_through bi Hd He) as [Hc|(Hj&Hr&Hs&Hw)].
  - rewrite (spec_instruction_at c bi) by (done || by intros E; rewrite E in Hc).
    cbv zeta. rewrite (conditional_jumps _ Hc), (conditional_effect _ p) by done. rewrite Ht.
    rewrite (conditional_size bi Hd Hc). cbn [spec_branch with_PC cPC cPower].
    by rewrite Z.add_0_r.
  - rewrite (spec_instruction_at c bi) by (done || by intros E; rewrite E in Hj).
    cbv zeta. rewrite Hj. cbn [with_PC cPC cPower]. by rewrite effect_PC, effect_power.
Qed.

Lemma taken_PC c bi p : decoded bi → insn_at (cM c) (cPC c) bi → cF c = flags_of p →
  branch_taken (d_emul (bi_id bi)) p = true →
  cPC (spec_instruction c) = u16 (cPC c + d_size (bi_id bi) + s8 (i_op1 (bi_i bi))) ∧
  cPower (spec_instruction c) = cPower c ∧ cM (spec_instruction c) = cM c.
Proof.
  intros Hd Ha HF Ht. pose proof (taken_conditional _ _ Ht) as Hc.
  rewrite (spec_instruction_at c bi) by (done || by intros E; rewrite E in Hc).
  cbv zeta. rewrite (conditional_jumps _ Hc), (conditional_effect _ p) by done. rewrite Ht.
  rewrite (conditional_size bi Hd Hc). destruct Hd as [_ (_&H1&_)]. by rewrite s8_signed.
Qed.

Lemma kept_mem c bi : decoded bi → insn_at (cM c) (cPC c) bi →
  falls_back (bi_id bi) = false → stores (bi_id bi) = false → cM (spec_instruction c) = cM c.
Proof.
  intros Hd Ha Hf Hs. rewrite (spec_instruction_at c bi) by (done || by intros E; unfold falls_back in Hf; rewrite E in Hf).
  cbv zeta. destruct (jumps _); cbn [with_PC cM]; apply effect_mem; auto.
Qed.

Lemma target_index_lookup ctx a t : target_index ctx a = Some t → insn_addr ctx !! t = Some a.
Proof.
  unfold target_index. destruct (list_find _ _) as [[i x]|] eqn:E; [|done]. intros [= <-].
  by apply list_find_Some in E as (?&->&_).
Qed.

Section Block.
Context (B H : Type).
#[local] Hint Extern 0 Sys => exact (jit_sys B H) : typeclass_instances.
Context {SB : SysBus} {BL : BusLaws sys_bus} {HO : HostOps} {HT : HostTyped}.
#[local] Existing Instance lightning_jit.
Context {NH : NativeHost B H} {BH : BudgetHost B H}.
#[local] Abbreviation follows := (follows B H).

(** ** The guard of a loop *)

Lemma follows_same run f e c : (∀ e, same_machine e (f e) ∧ regs (f e) = regs e ∧
    irq (f e) = irq e ∧ state (f e) = state e ∧ stopreason (f e) = stopreason e ∧
    stop_requested (f e) = stop_requested e ∧ bps_head (f e) = bps_head e ∧ trace (f e) = trace e ∧
    runtime_disassembly (f e) = runtime_disassembly e ∧ mmu_fault_reexec (f e) = mmu_fault_reexec e) →
  follows run e c → follows run (f e) c.
Proof.
  intros Hf [He Hin [[] ? ? ? ?] [] Hq [Hr Hm Hc] Hs].
  destruct (Hf e) as (Hsm&Er&Ei&Es&Ex&Et&Eb&Etr&Ed&Ere). pose proof Hsm as [Ebus _ _ Erun _ _ _ _ _ Ef Eg Eon Eti Eid].
  split.
  - apply (coherent_only B H run e); [done| |done]. apply (typed_only e); [done| |by destruct He].
    by rewrite Er.
  - congruence.
  - unfold JitErase.erase in *. split; [split|..]; cbn in *; congruence.
  - split; congruence.
  - congruence.
  - split; unfold power_of; rewrite ?Er, ?Ebus, ?Ei, ?Es, ?Ex; done.
  - by rewrite Es, Ex.
Qed.

Lemma follows_mod_jit run f e c : (∀ j, cache_ok j → cache_ok (f j)) →
  (∀ j, blocks (f j) = blocks j ∧ same_pending j (f j)) →
  follows run e c → follows run (set_jit (f <$> jit e) e) c.
Proof.
  intros Hc Hf [He Hin Hb [] Hq Hr Hs].
  split; [by apply coherent_mod_jit|done|exact Hb|by split|done|by destruct Hr|done].
Qed.

Lemma guard_follows run s e c : follows run e c →
  ∃ g e', loop_guard B H s e = (Ret g, e') ∧ follows run e' c ∧ regs e' = regs e.
Proof.
  intros Hf. unfold loop_guard. do 3 erewrite bind_Ret by reflexivity. cbv beta.
  set (e1 := set_jit_loop_budget _ e).
  assert (follows run e1 c) as Hf1 by (by apply (follows_same run (set_jit_loop_budget _))).
  case_match; [by exists false, e1|]. case_match; [by exists false, e1|].
  eexists true, _. split; [reflexivity|]. split; [|done].
  apply follows_mod_jit; [|done|done]. intros j Hj. same_cache j.
Qed.

(** ** One instruction of a block *)

Section InBlock.
Context (bs : gmap Z rk65c02_jit_block) (b : rk65c02_jit_block) (insns : list jit_block_insn).
Context (Hb : bs !! start_pc b = Some b) (Hfn : fn b = Some insns).
#[local] Abbreviation pc := (start_pc b).
#[local] Abbreviation ctx := (mkCtx (insn_addrs pc insns)).

(** The block can go on: the processor runs and memory holds its code. *)
Definition in_block (e : rk65c02emu) (c : cpu) : Prop :=
  follows (Some bs) e c ∧ cPower c = Running ∧ code_at (cM c) pc insns.

Lemma follows_jit e c : follows (Some bs) e c →
  ∃ j, jit e = Some j ∧ jit_coherent B H (Some bs) e j.
Proof. intros [He Hin _ _ _ _ _]. by apply He. Qed.

Lemma block_facts e c : follows (Some bs) e c →
  word pc ∧ inner insns ∧ Forall decoded insns ∧ (length insns <= JIT_BLOCK_MAX_INSNS)%nat.
Proof.
  intros Hf. destruct (follows_jit e c Hf) as (j&_&[Hc _ Hcur _ Hbs]). specialize (Hbs bs eq_refl).
  rewrite <- Hbs in Hb. destruct (co_slot j Hc _ _ Hb) as [_ Hw].
  pose proof (co_block j Hc _ _ Hb (fn_live b insns Hfn)) as Hok.
  destruct (bo_code b Hok insns Hfn) as [Hl Hd]. by destruct (Hcur _ _ _ Hb Hfn).
Qed.

(** A block that may go on after a store is still the code in memory. *)
Lemma code_current e c : follows (Some bs) e c → use_jit e = true → code_at (cM c) pc insns.
Proof.
  intros Hf Hu. destruct (block_facts e c Hf) as (Hw&_&Hd&_).
  destruct (follows_jit e c Hf) as (j&_&[Hc _ Hcur Hp Hbs]). specialize (Hbs bs eq_refl).
  rewrite <- Hbs in Hb. destruct (Hp (or_intror Hu)) as [Hp1 Hp2].
  destruct (Hcur _ _ _ Hb Hfn) as [_ _ _ _ [[Ho|(w&Hw'&_)]|Hcode]]; [congruence| |].
  { rewrite Hp1 in Hw'. by apply elem_of_nil in Hw'. }
  apply (code_at_agree (mem_at (bus e))); [done|done| |done].
  intros k _. destruct (fo_rep _ _ _ _ _ Hf) as [_ [_ Hm] _]. rewrite Hm; [done|apply u16_word].
Qed.

Lemma follows_running e c : follows (Some bs) e c → is_running e = true → cPower c = Running.
Proof.
  intros Hf Hr. pose proof (fo_state _ _ _ _ _ Hf) as Hs. unfold is_running in Hr.
  by destruct (cPower c); [|destruct Hs as [Hs _]; rewrite Hs in Hr..].
Qed.

Lemma follows_PC run e c : follows run e c → cPC c = PC (regs e) ∧ cF c = flags_of (P (regs e)).
Proof. by intros [_ _ _ _ _ [_ _ <-] _]. Qed.

(** What is left to show after an instruction. *)
Definition goes_on (k : nat) (c : cpu) (x : jit_exit) (e' : rk65c02emu) : Prop :=
  match x with
  | Leave => True
  | Fall => (S k < length insns)%nat →
      in_block e' (spec_step c) ∧ insn_addr ctx !! S k = Some (PC (regs e'))
  | Goto t => in_block e' (spec_step c) ∧ insn_addr ctx !! t = Some (PC (regs e'))
  end.

Section Instruction.
Context (k : nat) (bi : jit_block_insn) (e : rk65c02emu) (c : cpu).
Context (Hin : in_block e c) (Hk : insns !! k = Some bi).
Context (Hpc : insn_addr ctx !! k = Some (PC (regs e))).
#[local] Abbreviation id := (bi_id bi).

Lemma insn_here : decoded bi ∧ insn_at (cM c) (cPC c) bi.
Proof.
  destruct Hin as (Hf&Hp&Hc). destruct (block_facts e c Hf) as (_&_&Hd&_).
  split; [by apply (Forall_lookup_1 _ _ _ _ Hd Hk)|].
  destruct (follows_PC _ _ _ Hf) as [-> _]. by eapply code_at_lookup.
Qed.

Lemma step_plain : spec_step c = spec_instruction c.
Proof. destruct Hin as (Hf&_). by apply spec_step_plain, (follows_irq _ _ _ _ _ Hf). Qed.

Lemma fall_on e' : follows (Some bs) e' (spec_step c) → branch_taken (d_emul id) (P (regs e)) = false →
  code_at (cM (spec_step c)) pc insns → goes_on k c Fall e'.
Proof.
  intros Hf' Ht Hcode Hlt. destruct insn_here as [Hd Ha]. destruct Hin as (Hf&Hp&_).
  destruct (block_facts e c Hf) as (_&Hi&_). destruct (follows_PC _ _ _ Hf) as [Epc EF].
  destruct (next_PC c bi (P (regs e)) Hd Ha (inner_lookup _ _ _ Hi Hk Hlt) EF Ht) as [En Ew].
  rewrite <- step_plain in En, Ew. split; [by split_and!; [|rewrite Ew|]|].
  destruct (follows_PC _ _ _ Hf') as [<- _]. rewrite En, Epc. by apply insn_addrs_next.
Qed.

Lemma fallback_follows : falls_back id = true →
  ∃ x e', insn_step B H ctx k bi e = (Ret x, e') ∧ follows (Some bs) e' (spec_step c) ∧ goes_on k c x e'.
Proof.
  intros Hfb. pose proof Hin as (Hf&Hp&_). destruct (exec_follows B H _ e c Hf Hp) as (e'&E&Hf').
  unfold insn_step, step_with. rewrite Hfb. erewrite bind_Ret by exact E. erewrite bind_Ret by reflexivity.
  eexists _, e'. split; [reflexivity|]. split; [done|].
  destruct (_ && _) eqn:Hx; [|done]. apply andb_prop in Hx as [[_ Hr]%andb_prop Hu].
  apply fall_on; [done| |by eapply code_current]. by unfold falls_back in Hfb; destruct (d_emul id).
Qed.

Lemma native_step_follows : falls_back id = false →
  ∃ x e', insn_step B H ctx k bi e = (Ret x, e') ∧ follows (Some bs) e' (spec_step c) ∧ goes_on k c x e'.
Proof.
  intros Hfb. pose proof Hin as (Hf&Hp&Hcode). destruct insn_here as [Hd Ha].
  destruct (follows_PC _ _ _ Hf) as [Epc EF].
  assert (d_emul id ≠ f_brk) as Hbrk by (intros E; unfold falls_back in Hfb; by rewrite E in Hfb).
  destruct (native_follows B H _ e c bi Hf Hp Hd ltac:(by rewrite <- Epc) Hbrk) as (e'&E&Hf').
  unfold insn_step, step_with. rewrite Hfb. erewrite bind_Ret by reflexivity. rewrite <- bind_assoc.
  erewrite bind_Ret by exact E. destruct (branch_taken _ _) eqn:Ht.
  - destruct (taken_PC c bi _ Hd Ha EF Ht) as (Et&Ew&Em). rewrite <- step_plain in Et, Ew, Em.
    assert (branch_target bi ctx k = cPC (spec_step c)) as Htg.
    { unfold branch_target. by rewrite Hpc, Et, Epc. }
    destruct (target_index _ _) as [t|] eqn:Hti; [|by exists Leave, e'].
    apply target_index_lookup in Hti. rewrite Htg in Hti.
    assert (∀ e2, follows (Some bs) e2 (spec_step c) → goes_on k c (Goto t) e2) as Hgo.
    { intros e2 Hf2. split; [by split_and!; [|rewrite Ew|rewrite Em]|].
      by destruct (follows_PC _ _ _ Hf2) as [<- _]. }
    destruct (t <=? k)%nat; [|by exists (Goto t), e'; auto].
    destruct (guard_follows _ (Z.of_nat (k - t + 1)) e' _ Hf') as (g&e2&Eg&Hf2&Hr).
    erewrite bind_Ret by exact Eg. eexists _, e2. split; [reflexivity|]. split; [done|].
    destruct g; [by apply Hgo|done].
  - destruct (stores id) eqn:Hst.
    + erewrite bind_Ret by reflexivity. eexists _, e'. split; [reflexivity|]. split; [done|].
      destruct (use_jit e') eqn:Hu; [|done]. apply fall_on; [done..|]. by eapply code_current.
    + eexists Fall, e'. split; [reflexivity|]. split; [done|]. apply fall_on; [done..|].
      rewrite step_plain, (kept_mem c bi) by done. done.
Qed.

Lemma step_follows :
  ∃ x e', insn_step B H ctx k bi e = (Ret x, e') ∧ follows (Some bs) e' (spec_step c) ∧ goes_on k c x e'.
Proof. destruct (falls_back id) eqn:Hfb; [by apply fallback_follows|by apply native_step_follows]. Qed.

End Instruction.

(** ** The block *)

Lemma follows_native_ready e c : follows (Some bs) e c → native_ready B H e.
Proof.
  intros Hf. destruct (follows_jit e c Hf) as (j&Ej&_). destruct Hf as [[] Hin [] _ _ _ _].
  split; [done..|]. by rewrite Ej.
Qed.

Context (upper : rk65c02emu → Z).

(** The nodes of an instruction take the step. *)
Lemma code_follows k bi m e c : in_block e c → insns !! k = Some bi →
  insn_addr ctx !! k = Some (PC (regs e)) → based m →
  ∃ x m' e', code_run B H upper 0 (jit_emit_insn bi ctx k) m e = (Ret (x, m'), e') ∧ based m' ∧
    follows (Some bs) e' (spec_step c) ∧ goes_on k c x e'.
Proof.
  intros Hin Hk Hpc Hm. destruct (step_follows k bi e c Hin Hk Hpc) as (x&e'&E&Hf'&Hgo).
  destruct (insn_here k bi e c Hin Hk Hpc) as [[Hd Hi] _]. destruct Hin as (Hf&_).
  pose proof (insn_agrees B H upper bi ctx k m e (follows_native_ready e c Hf) Hd Hi Hpc Hm) as Ha.
  rewrite E in Ha. unfold agrees in Ha. destruct (code_run _ _ _ _ _ _ _) as [[[y m']| | |] e1]; [|done..].
  destruct Ha as [[= <- <-] Hm']. by exists x, m', e'.
Qed.

Lemma block_loop_follows fuel k m e c : in_block e c → (k < length insns)%nat →
  insn_addr ctx !! k = Some (PC (regs e)) → based m →
  ∃ r e' n, block_loop B H upper fuel (jit_emit_block pc insns) k m e = (Ret r, e') ∧
    follows (Some bs) e' (spec_run n c) ∧ (r = true → (1 <= n)%nat).
Proof.
  revert k m e c. induction fuel as [|fuel IH]; intros k m e c Hin Hk Hpc Hm.
  { exists false, e, 0%nat. by destruct Hin. }
  destruct (lookup_lt_is_Some_2 insns k Hk) as [bi Hbi].
  destruct (code_follows k bi m e c Hin Hbi Hpc Hm) as (x&m'&e'&E&Hm'&Hf'&Hgo).
  assert (∀ n, spec_run (S n) c = spec_run n (spec_step c)) as Hrun.
  { intros n. cbn [spec_run]. by destruct Hin as (_&->&_). }
  assert (∀ k', (k' < length insns)%nat → in_block e' (spec_step c) →
    insn_addr ctx !! k' = Some (PC (regs e')) →
    ∃ r e2 n, block_loop B H upper fuel (jit_emit_block pc insns) k' m' e' = (Ret r, e2) ∧
      follows (Some bs) e2 (spec_run n c) ∧ (r = true → (1 <= n)%nat)) as Hnext.
  { intros k' Hlt Hin' Hpc'. destruct (IH k' m' e' (spec_step c) Hin' Hlt Hpc' Hm') as (r&e2&n&E2&Hf2&_).
    exists r, e2, (S n). rewrite Hrun. split; [done|]. split; [done|lia]. }
  cbn [block_loop]. unfold jit_emit_block at 1. rewrite list_lookup_imap, Hbi. cbn [fmap option_fmap option_map].
  erewrite bind_Ret by exact E. destruct x as [| |t]; cbn [goes_on] in Hgo.
  - destruct (decide (S k < length insns)%nat) as [Hlt|Hge]; [destruct (Hgo Hlt); by apply Hnext|].
    destruct fuel as [|fuel]; [exists false, e', 1%nat; by rewrite Hrun|].
    exists true, e', 1%nat. cbn [block_loop]. unfold jit_emit_block. rewrite list_lookup_imap.
    rewrite (proj2 (lookup_ge_None insns (S k))) by lia. by rewrite Hrun.
  - exists true, e', 1%nat. by rewrite Hrun.
  - destruct Hgo as [Hin' Hpc']. apply Hnext; [|done..].
    apply lookup_lt_Some in Hpc'. cbn [insn_addr] in Hpc'. by rewrite length_insn_addrs in Hpc'.
Qed.

Lemma block_follows e c : in_block e c → insns ≠ [] → PC (regs e) = pc →
  0 ≤ jit_loop_budget e ≤ JIT_LOOP_BUDGET →
  ∃ e' n, block_run B H upper JIT_NATIVE_BOUND (jit_emit_block pc insns) e = (Ret true, e') ∧
    follows (Some bs) e' (spec_run n c) ∧ (1 <= n)%nat.
Proof.
  intros Hin Hne Hpc Hbud. pose proof Hin as (Hf&_).
  destruct (block_facts e c Hf) as (_&_&_&Hl).
  pose proof (block_returns B H upper pc insns e Hbud Hl) as Hr. unfold block_run in *.
  destruct (block_loop_follows JIT_NATIVE_BOUND 0 mach_entry e c Hin) as (r&e'&n&E&Hf'&Hn).
  { destruct insns; [done|simpl; lia]. }
  { rewrite Hpc. by destruct insns. }
  { done. }
  exists e', n. rewrite E in Hr |- *. destruct r; [auto|done].
Qed.

End InBlock.
End Block.
