(* ===== verification/JitInterrupt.v ===== *)
(** Interrupts inside a block.

    An instruction that is left to the interpreter is a call of [rk65c02_exec],
    which takes a pending interrupt before it executes an instruction.  What the
    emitted code does afterwards depends on the run state and on whether code
    was overwritten, not on where the program counter is. *)
From stdpp Require Import base numbers list gmap strings.
From S2P Require Import Prelude Types Isa BusSpec State Interfaces Mmu Instruction Emulation.
From S2P Require Import Disasm Debug Exec IsaSpec Invariant Runs IsaArith Routines Refine RunRefine.
From S2P Require Import Frames JitCache JitEmit Jit JitNative JitSpec JitStores JitInvariant.
From S2P Require Import JitExact JitErase JitCoherent JitRefine.

Section Interrupt.
Context (B H : Type).
#[local] Hint Extern 0 Sys => exact (jit_sys B H) : typeclass_instances.
Context {SB : SysBus} {BL : BusLaws sys_bus} {HO : HostOps} {HT : HostTyped}.
#[local] Existing Instance lightning_jit.
Context {NH : NativeHost B H} (upper : rk65c02emu → Z).

(** C40: an interrupt taken inside a block does not leave it.  At an
    instruction of a block that is left to the interpreter and does not modify
    the program counter (an unassigned opcode, or STP or WAI at its end), with
    the interrupt line raised and interrupts unmasked, on plain memory: the
    interrupt is taken and the first instruction of its handler executed, in
    place of the instruction of the block, and then the emitted code goes on
    with the next instruction of the block, as long as the emulator runs and no
    compiled code was overwritten, although the program counter is in the
    handler. *)
Theorem fallback_stays_in_block bs e c bi ctx k m (id := bi_id bi) :
  coherent B H (Some bs) e → in_jit_run e = true → bare (erase B H e) → represents e c →
  cIrq c = true → fI (cF c) = false →
  decoded bi → falls_back id = true → d_modify_pc id = false →
  insn_addr ctx !! k = Some (PC (regs e)) → based m →
  ∃ m' e', code_run B H upper 0 (jit_emit_insn bi ctx k) m e =
      (Ret (if is_running e' && use_jit e' then Fall else Leave, m'), e') ∧
    represents e' (spec_instruction (spec_interrupt c)).
Proof.
  intros He Hin Hb Hc Hq HI [Hd Hi] Hfb Hm Hk Hbm.
  destruct (exec_jit B H (Some bs) e c He Hb Hc) as (e'&E&Hc'&_).
  unfold spec_step in Hc'. rewrite Hq, HI in Hc'.
  assert (native_ready B H e) as Hn.
  { destruct He as [Hok _ _ _ Hj]. rewrite Hin in Hj. destruct (Hj eq_refl) as (j&Ej&_).
    split; [done|done|by destruct Hb|by exists j]. }
  pose proof (insn_agrees B H upper bi ctx k m e Hn Hd Hi Hk Hbm) as Ha.
  assert (insn_step B H ctx k bi e = (Ret (if is_running e' && use_jit e' then Fall else Leave), e')) as Es.
  { unfold insn_step, step_with. unfold id in *. rewrite Hfb. erewrite bind_Ret by exact E.
    erewrite bind_Ret by reflexivity. by rewrite Hm. }
  rewrite Es in Ha. unfold agrees in Ha.
  destruct (code_run _ _ _ _ _ _ _) as [[[x m']| | |] e1]; [|done..].
  destruct Ha as [Hx _]. injection Hx as <- <-. by exists m', e'.
Qed.
End Interrupt.
