(* ===== verification/JitRun.v ===== *)
(** The dispatcher runs the specification.

    Compiling, calling a block, processing the stores it recorded and going
    round keep the instance in a state of the specification, so a run with the
    JIT ends where the interpreter ends: [start_jit_refines_isa]. *)
From stdpp Require Import base numbers list gmap strings.
From S2P Require Import Prelude Types Isa BusSpec State Interfaces Mmu Instruction Emulation.
From S2P Require Import Disasm Debug Exec IsaSpec Invariant Runs IsaArith Routines Refine RunRefine.
From S2P Require Import Fuel Frames JitCache JitEmit Jit JitNative JitSpec JitStores JitInvariant.
From S2P Require Import JitExact JitShape JitLoop JitErase JitCoherent JitRefine JitBlock.

#[local] Opaque slots jit_backend_flush.

(** ** Changes of the cache *)

(** Without pending writes no block is stale. *)
Lemma current_code m j i b insns : cache_current m j → no_pending j →
  blocks j !! i = Some b → fn b = Some insns → code_at m (start_pc b) insns.
Proof.
  intros Hcur [Hp Ho] Hi Hf. destruct (Hcur i b insns Hi Hf) as [_ _ _ _ [[Hs|(w&Hw&_)]|Hc]];
    [congruence| |done]. rewrite Hp in Hw. by apply elem_of_nil in Hw.
Qed.

(** Dropping blocks keeps the others current, if the dropped ones are those
    the pending writes made stale. *)
Lemma current_fewer m j j' : fewer j j' →
  (∀ i b, blocks j' !! i = Some b → live b = true → ¬ stale j b) →
  cache_current m j → cache_current m j'.
Proof.
  intros Hf Hs Hcur i b insns Hi Hfn. pose proof (fn_live b insns Hfn) as Hl.
  destruct (Hcur i b insns (Hf i b Hi Hl) Hfn) as [? ? ? ? [Hst|Hc]]; [by destruct (Hs i b Hi Hl)|].
  split; auto.
Qed.

Lemma no_pending_fresh j b : no_pending j → ¬ stale j b.
Proof. intros [Hp Ho] [Hs|(w&Hw&_)]; [congruence|]. rewrite Hp in Hw. by apply elem_of_nil in Hw. Qed.

Lemma flushed_fewer j : cache_ok j → fewer j (jit_backend_flush j).
Proof. intros Hj i b Hb Hl. by pose proof (flushed_no_block (λ _, true) j Hj i b Hb Hl). Qed.

Lemma apply_writes_pending l j : cache_ok j → same_pending j (foldl apply_write j l).
Proof.
  revert j. induction l as [|w l IH]; intros j Hj; cbn [foldl]; [reflexivity|].
  etransitivity; [by apply (apply_write_pending j w)|]. apply IH. by apply apply_write_ok.
Qed.

(** Processing the pending writes drops blocks and sets no flush. *)
Lemma process_pending_needs_flush j (j' := (jit_process_pending_writes j).2) : cache_ok j →
  needs_flush j = false → needs_flush j' = false.
Proof.
  intros Hj Hn. unfold j', jit_process_pending_writes, process_overflow. clear j'. cbn [snd].
  destruct (pending_write_overflow j).
  - destruct (flushed_fields j) as (Hnf&Hp&_). generalize dependent (jit_backend_flush j). intros jf Hnf Hp.
    cbn [pending_write put_invalidation_events_this_run]. rewrite Hp. by cbn [foldl].
  - destruct (apply_writes_pending (pending_write j) j Hj) as [En _ _]. cbn. congruence.
Qed.

Lemma process_pending_fresh j i b (j' := (jit_process_pending_writes j).2) : cache_ok j →
  blocks j' !! i = Some b → live b = true → ¬ stale j b.
Proof.
  intros Hj Hb Hl. destruct (process_pending_ok j Hj) as (_&_&_&Hw&Ho&_).
  intros [Hs|(w&Hin&Hc)]; [by pose proof (Ho Hs (λ _, true) i b Hb Hl)|].
  destruct (proj1 (Forall_forall _ _) Hw w Hin) as [Hn _]. pose proof (Hn i b Hb Hl) as Hf. cbv beta in Hf.
  congruence.
Qed.

(** ** Fuel *)

Section Fuel.
Context (B H : Type).
#[local] Hint Extern 0 Sys => exact (jit_sys B H) : typeclass_instances.
Context {SB : SysBus} {HO : HostOps} {LI : Lightning}.
#[local] Existing Instance lightning_jit.

Lemma jit_loop_stable n k d : fuel_stable (jit_loop B H n d) (jit_loop B H (n + k) d).
Proof.
  revert d. induction n as [|n IH]; intros d; [by intros e|]. pose proof (interp_loop_stable n k).
  cbn [jit_loop Nat.add]. cbv zeta. fuel_steps; apply IH.
Qed.

#[export] Instance lightning_stable : FuelStable (rk65c02_run_jit B H).
Proof.
  intros n k. pose proof (interp_loop_stable n k). pose proof (jit_loop_stable n k false).
  unfold rk65c02_run_jit. fuel_steps.
Qed.
End Fuel.

Section JitRun.
Context (B H : Type).
#[local] Hint Extern 0 Sys => exact (jit_sys B H) : typeclass_instances.
Context {SB : SysBus} {BL : BusLaws sys_bus} {HO : HostOps} {HT : HostTyped}.
#[local] Existing Instance lightning_jit.
Context {JH : JitHost B H} {NH : NativeHost B H} {BH : BudgetHost B H}.
Context {LI : Lightning} {LL : LightningLaws B H}.
#[local] Abbreviation follows := (follows B H).
#[local] Abbreviation direct := (direct B H).

(** The backend between dispatches. *)
Lemma follows_cache e c : follows None e c →
  ∃ j, jit e = Some j ∧ cache_ok j ∧ needs_flush j = false ∧ no_pending j ∧
    cache_current (mem_at (bus e)) j.
Proof.
  intros Hf. destruct (fo_coherent _ _ _ _ _ Hf) as [_ _ _ _ Hj].
  destruct (Hj (fo_inside _ _ _ _ _ Hf)) as (j&Ej&[]). exists j. split_and!; auto.
Qed.

Lemma follows_set_jit e c j : follows None e c → cache_ok j → needs_flush j = false → no_pending j →
  cache_current (mem_at (bus e)) j → follows None (set_jit (Some j) e) c.
Proof.
  intros [[[] [] Hfl Hrun _] Hin Hb [] Hq [] Hs] Hc Hn Hp Hcur.
  split; [|done|exact Hb|by split|done|by split|done].
  split; [by split|by split|done|done|]. intros _. exists j. split; [done|]. by split.
Qed.

(** ** Calling a block *)

Lemma enter_follows e c j : follows None e c → jit e = Some j →
  follows (Some (blocks j)) (set_in_jit_run true e) c.
Proof.
  intros Hf Ej. destruct (follows_cache e c Hf) as (j0&Ej0&Hc&Hn&Hp&Hcur).
  rewrite Ej in Ej0. injection Ej0 as <-. destruct Hf as [[[] [] Hfl _ _] _ [[] ? ? ? ?] [] Hq [] Hs].
  split; [|done|by split; [split|..]|by split|done|by split|done].
  split; [by split|by split|done|done|]. intros _. exists j. split; [done|].
  split; [done..|]. by intros bs [= <-].
Qed.

Lemma call_follows e c j b insns (pc := PC (regs e)) : follows None e c → cPower c = Running →
  jit e = Some j → blocks j !! pc = Some b → fn b = Some insns →
  ∃ e' bs n, call_block B H pc e = (Ret tt, set_in_jit_run false e') ∧
    follows (Some bs) e' (spec_run n c) ∧ (1 <= n)%nat.
Proof.
  intros Hf Hp Ej Hb Hfn. destruct (follows_cache e c Hf) as (j0&Ej0&Hc&Hnf&Hnp&Hcur).
  rewrite Ej in Ej0. injection Ej0 as <-. destruct (co_slot j Hc pc b Hb) as [Es Hw].
  set (j1 := put_stats (stats_block_executed (num_insns b) (stats j)) j).
  set (e1 := set_jit_loop_budget JIT_LOOP_BUDGET (set_jit (SY := jit_sys B H) (Some j1) e)).
  assert (follows None e1 c) as Hf1.
  { apply (follows_same B H None (set_jit_loop_budget JIT_LOOP_BUDGET)); [by intros|].
    apply follows_set_jit; [done|same_cache j|done|done|].
    apply (current_fewer _ j); [by intros i x|intros; by apply no_pending_fresh|done]. }
  pose proof (enter_follows e1 c j1 Hf1 eq_refl) as Hf2. set (e2 := set_in_jit_run true e1) in *.
  assert (in_block B H (blocks j1) b insns e2 c) as Hin.
  { split_and!; [done..|]. apply (code_at_agree (mem_at (bus e))).
    - by rewrite Es.
    - apply (bo_code b (co_block j Hc pc b Hb (fn_live b insns Hfn)) insns Hfn).
    - intros k _. destruct (fo_rep _ _ _ _ _ Hf) as [_ [_ Hm] _]. rewrite Hm; [done|apply u16_word].
    - by apply (current_code _ j pc). }
  destruct (native_runs (jit_emit_block (start_pc b) insns)) as [upper Hrun].
  destruct (block_follows B H (blocks j1) b insns ltac:(by rewrite Es) Hfn upper e2 c Hin)
    as (e'&n&E&Hf'&Hn); [by destruct (Hcur pc b insns Hb Hfn)|by rewrite Es|done|].
  exists e', (blocks j1), n. split; [|done]. unfold call_block. erewrite bind_Ret by reflexivity.
  rewrite Ej, Hb. erewrite bind_Ret by reflexivity. rewrite Ej. do 2 erewrite bind_Ret by reflexivity.
  rewrite Hfn. change (set_in_jit_run true _) with e2. erewrite bind_Ret; [reflexivity|].
  rewrite Hrun by by rewrite E. by erewrite bind_Ret by exact E.
Qed.
(** ** After a block *)

Lemma leave_follows e c bs j : follows (Some bs) e c → cache_ok j → needs_flush j = false →
  no_pending j → cache_current (mem_at (bus e)) j →
  follows None (set_jit (Some j) (set_in_jit_run false e)) c.
Proof.
  intros [[[] [] Hfl _ _] _ [[] ? ? ? ?] [] Hq [] Hs] Hc Hn Hp Hcur.
  split; [|done|by split; [split|..]|by split|done|by split|done].
  split; [by split|by split|done|done|]. intros _. exists j. split; [done|]. by split.
Qed.

Lemma follows_use_jit e c u : follows None e c → follows None (set_use_jit u e) c.
Proof.
  intros [[[] [] Hfl Hrun Hj] Hin [[] ? ? ? ?] [] Hq [] Hs].
  split; [|done|by split; [split|..]|by split|done|by split|done].
  split; [by split|by split|done|done|]. intros Hr. destruct (Hj Hr) as (j&Ej&[]).
  exists j. split; [done|]. split; auto.
Qed.

Lemma set_jit_same (e : rk65c02emu) j : jit e = Some j → set_jit (Some j) e = e.
Proof. destruct e. cbn. by intros <-. Qed.

Lemma writes_follow d e c bs : follows (Some bs) e c →
  ∃ d' e', process_writes B H d (set_in_jit_run false e) = (Ret d', e') ∧ follows None e' c.
Proof.
  intros Hf. destruct (fo_coherent _ _ _ _ _ Hf) as [_ _ _ _ Hj].
  destruct (Hj (fo_inside _ _ _ _ _ Hf)) as (j&Ej&[Hc Hn Hcur _ _]). clear Hj.
  unfold process_writes. erewrite bind_Ret by reflexivity. cbn [jit set_in_jit_run]. rewrite Ej.
  destruct (negb _ || _) eqn:Hx.
  - destruct (process_pending_ok j Hc) as (Hc'&Hp1&Hp2&_).
    pose proof (process_pending_fewer j Hc) as Hfew. pose proof (process_pending_needs_flush j Hc Hn) as Hn'.
    pose proof (λ i b, process_pending_fresh j i b Hc) as Hfr. cbv zeta in *.
    destruct (jit_process_pending_writes j) as [ex j']. cbn [snd] in *.
    erewrite bind_Ret by reflexivity.
    set (e1 := set_jit (SY := jit_sys B H) (Some j') (set_in_jit_run false e)).
    assert (follows None e1 c) as Hf1.
    { apply (leave_follows e c bs); try done. by apply (current_fewer _ j). }
    assert (∃ e2, (if ex && negb d then mod_jit B H (λ j, put_stats (stats_run_disabled (stats j)) j)
      else mret tt) e1 = (Ret tt, e2) ∧ follows None e2 c) as (e2&E2&Hf2).
    { destruct (ex && negb d); [|by exists e1]. eexists. split; [reflexivity|].
      apply follows_mod_jit; [|done|done]. intros j0 Hj0. same_cache j0. }
    erewrite bind_Ret by exact E2. erewrite bind_Ret by reflexivity. eexists _, _. split; [reflexivity|].
    by apply follows_use_jit.
  - apply orb_false_iff in Hx as [Hp1 Hp2]. rewrite negb_false_iff, bool_decide_eq_true in Hp1.
    exists d, (set_in_jit_run false e). split; [done|].
    rewrite <- (set_jit_same (set_in_jit_run false e) j) by done. by apply (leave_follows e c bs).
Qed.

Lemma flush_follows d e c : follows None e c → process_flush B H d e = (Ret tt, e).
Proof.
  intros Hf. destruct (follows_cache e c Hf) as (j&Ej&_&Hn&_). unfold process_flush.
  erewrite bind_Ret by reflexivity. cbv beta. by rewrite Ej, Hn.
Qed.

(** ** Compiling *)

Lemma fetch_direct e a : direct e → emu_ok e → flat_bus (bus e) → word a →
  ∃ i, instruction_fetch_emu a e = (Ret i, e) ∧
    insn_at (mem_at (bus e)) a (mkBlockInsn i (instruction_decode (i_opcode i))).
Proof.
  intros Hd He Hf Ha.
  assert (∀ x, word x → rk65c02_mem_fetch_1 x e = (Ret (mem_at (bus e) x), e)) as Hr.
  { intros x Hx. by rewrite (direct_fetch_1 B H), (direct_bus_read B H). }
  unfold instruction_fetch_emu. erewrite bind_Ret by by apply Hr.
  destruct (d_mode (instruction_decode (mem_at (bus e) a))) eqn:Em; cbn [mode_operands];
    repeat (erewrite bind_Ret by apply Hr, u16_word); eexists; (split; [reflexivity|]);
    unfold insn_at; cbn [bi_i bi_id i_opcode i_op1 i_op2]; rewrite Em; cbn [operand_bytes];
    (split; [done|]); split; (done || intros; lia).
Qed.

Lemma build_direct e n start pc : direct e → emu_ok e → flat_bus (bus e) → word pc →
  ∃ insns, build_loop B H n start pc e = (Ret insns, e) ∧ code_at (mem_at (bus e)) pc insns ∧ inner insns.
Proof.
  intros Hd He Hf. revert pc. induction n as [|n IH]; intros pc Hpc; cbn [build_loop]; [by exists []|].
  destruct (negb _); [by exists []|]. destruct (fetch_direct e pc Hd He Hf Hpc) as (i&Ei&Hi).
  erewrite bind_Ret by exact Ei. erewrite bind_Ret by reflexivity.
  destruct (negb _); [by exists []|]. cbv zeta. destruct (negb _); [by exists []|].
  set (bi := mkBlockInsn i (instruction_decode (i_opcode i))) in *.
  destruct (IH (u16 (pc + d_size (bi_id bi))) (u16_word _)) as (rest&Er&Hc&Hin).
  assert (ends_block bi = negb (jit_opcode_is_cond_branch (i_opcode i)) &&
    (instruction_modify_pc (bi_id bi) || (i_opcode i =? 0x60) || ((i_opcode i =? 0xDB) || (i_opcode i =? 0xCB))))
    as Ee by done.
  assert (∃ insns, (rest ← build_loop B H n start (u16 (pc + d_size (bi_id bi))); mret (bi :: rest)) e =
    (Ret insns, e) ∧ (ends_block bi = false → code_at (mem_at (bus e)) pc insns ∧ inner insns)) as (l&El&Hl).
  { exists (bi :: rest). erewrite bind_Ret by exact Er. split; [done|]. intros Hb. cbn. auto. }
  assert (∃ insns, mret (M := M) [bi] e = (Ret insns, e) ∧ code_at (mem_at (bus e)) pc insns ∧ inner insns)
    as Hone by (exists [bi]; cbn; auto).
  destruct (jit_opcode_is_cond_branch _); [exists l; auto|].
  destruct (instruction_modify_pc _ || _); [done|]. destruct (_ || _); [done|]. exists l. auto.
Qed.

Lemma phys_tags_direct e pc k : direct e → phys_tags B H pc k e = (Ret None, e).
Proof.
  intros [_ _ Ha _ _ _]. unfold phys_tags. erewrite bind_Ret by reflexivity. cbv beta.
  unfold accessors_for in Ha. by destruct (mmu_enabled e), (mmu_identity_active e).
Qed.

Lemma install_rest pc b j :
  blocks (install pc b j) = <[pc := b]> (blocks j) ∧ same_pending j (install pc b j).
Proof.
  unfold install. destruct (live b); [|by split]. cbv zeta.
  destruct (refs_update_rest (put_blocks (<[pc := b]> (blocks j)) j) b true) as (R&E&_).
  generalize dependent (jit_block_page_refs_update (put_blocks (<[pc := b]> (blocks j)) j) b true).
  intros j1 [] E. split; [exact E|by split].
Qed.

(** A block compiled from memory is current. *)
Lemma install_current m pc b0 insns j : cache_current m j → no_pending j → start_pc b0 = pc →
  built JIT_BLOCK_MAX_INSNS pc pc insns → insns ≠ [] → code_at m pc insns → inner insns →
  cache_current m (install pc (emitted B H b0 pc (block_end_of pc insns) None insns) j).
Proof.
  intros Hcur Hp Hs ([Hn|(_&H1&H2)]&_) Hne Hcode Hin i b l Hi Hfn; [done|].
  set (b1 := emitted B H b0 pc (block_end_of pc insns) None insns) in *.
  destruct (install_rest pc b1 j) as [Eb [_ Ep Eo]]. rewrite Eb in Hi.
  destruct (decide (i = pc)) as [->|Hne'].
  - rewrite lookup_insert_eq in Hi. injection Hi as <-. unfold b1 in Hfn. cbn [fn emitted] in Hfn.
    destruct (jit_emit _); [|done]. injection Hfn as <-.
    split; [done|done| |done|right; unfold b1; cbn [start_pc emitted]; by rewrite Hs].
    unfold b1. cbn [start_pc end_pc_exclusive emitted]. rewrite block_end_span, Hs.
    destruct insns as [|bi l]; [done|]. unfold u16. rewrite Zminus_mod_idemp_l.
    replace (pc + span (bi :: l) - pc) with (span (bi :: l)) by lia. symmetry. apply Z.mod_small.
    pose proof (Z.mod_pos_bound pc 256). lia.
  - rewrite lookup_insert_ne in Hi by done. destruct (Hcur i b l Hi Hfn) as [? ? ? ? Hc].
    split; [done..|]. unfold stale in *. by rewrite Ep, Eo.
Qed.
(** The slot of [pc], made if there is none. *)
Lemma slot_follows e c j pc : follows None e c → jit e = Some j → word pc → vacant pc j →
  ∃ e1 j1, (match blocks j !! pc with
     | None => mod_jit B H (λ j, put_blocks (<[pc := new_block pc]> (blocks j)) j)
     | Some _ => mret tt
     end) e = (Ret tt, e1) ∧ follows None e1 c ∧ regs e1 = regs e ∧ jit e1 = Some j1 ∧ vacant pc j1.
Proof.
  intros Hf Ej Hpc Hv. destruct (follows_cache e c Hf) as (j0&Ej0&Hc&Hn&Hp&Hcur).
  rewrite Ej in Ej0. injection Ej0 as <-. destruct (blocks j !! pc) as [b|] eqn:Eb; [by exists e, j|].
  destruct (put_dead_ok pc (new_block pc) j Hc) as [H1 H2]; try done; [by rewrite Eb|].
  set (j1 := put_blocks (<[pc := new_block pc]> (blocks j)) j) in *.
  exists (set_jit (SY := jit_sys B H) (Some j1) e), j1.
  split; [unfold mod_jit, modify; by rewrite Ej|]. split; [|split; [done|split; [done|]]].
  - apply follows_set_jit; try done. apply (current_fewer _ j); [done| |done].
    intros. by apply no_pending_fresh.
  - by apply (vacant_fewer pc j j1).
Qed.

Lemma compile_follows e c j pc : follows None e c → jit e = Some j → word pc → vacant pc j →
  ∃ r e', jit_compile_block B H pc e = (Ret r, e') ∧ follows None e' c ∧ regs e' = regs e ∧
    (r = None ∨ r = Some pc).
Proof.
  intros Hf Ej Hpc Hv. destruct (follows_cache e c Hf) as (j0&Ej0&Hc&_). rewrite Ej in Ej0. injection Ej0 as <-.
  destruct (slot_follows e c j pc Hf Ej Hpc Hv) as (e1&j1&E1&Hf1&Hr1&Ej1&[Hv1 Hv2]).
  unfold jit_compile_block. erewrite bind_Ret by reflexivity. cbv beta.
  rewrite Ej, (co_magic j Hc), Z.eqb_refl. cbn [negb]. erewrite bind_Ret by exact E1.
  replace (match blocks j !! pc with Some b => live b | None => false end) with false
    by (destruct (blocks j !! pc) as [b|] eqn:Eb; [symmetry; by apply Hv|done]).
  destruct (follows_cache e1 c Hf1) as (j2&Ej2&Hc1&Hn1&Hp1&Hcur1). rewrite Ej1 in Ej2. injection Ej2 as <-.
  pose proof (fo_coherent _ _ _ _ _ Hf1) as [Hok Hd Hfl _ _].
  destruct (build_direct e1 JIT_BLOCK_MAX_INSNS pc pc Hd Hok Hfl Hpc) as (insns&Eb&Hcode&Hin).
  assert (inv B H (jit e1) e1) as Hinv.
  { split; [done|]. apply shrunk_self. intros j' Ej'. congruence. }
  destruct (inv_build B H (jit e1) JIT_BLOCK_MAX_INSNS pc pc Hpc e1 Hinv) as [_ Hbuilt].
  rewrite Eb in Hbuilt. specialize (Hbuilt insns eq_refl). unfold jit_build_block_insns.
  erewrite bind_Ret by exact Eb. destruct insns as [|bi l]; [exists None, e1; auto|]. cbv zeta.
  erewrite bind_Ret by by apply phys_tags_direct. erewrite bind_Ret by reflexivity.
  exists (Some pc). eexists. split; [reflexivity|]. split; [|split; [done|by right]]. rewrite Ej1. cbn [fmap option_fmap option_map].
  assert (start_pc (default (new_block pc) (blocks j1 !! pc)) = pc) as Hs.
  { destruct (blocks j1 !! pc) as [b|] eqn:Eb1; [|done]. by apply (co_slot j1 Hc1). }
  set (b1 := emitted B H _ _ _ _ _). destruct (install_rest pc b1 j1) as [_ [E2 E3 E4]].
  apply follows_set_jit; [done| |congruence|unfold no_pending; by rewrite E3, E4|].
  - apply install_ok; try done. by apply emitted_ok.
  - by apply install_current.
Qed.

Lemma compile_capped_follows e c pc : follows None e c → word pc → live_at (jit e) pc = false →
  ∃ r e', compile_capped B H pc e = (Ret r, e') ∧ follows None e' c ∧ regs e' = regs e ∧
    (r = None ∨ r = Some pc).
Proof.
  intros Hf Hpc Hl. destruct (follows_cache e c Hf) as (j&Ej&Hc&Hn&Hp&Hcur).
  unfold compile_capped. erewrite bind_Ret by reflexivity. cbv beta. rewrite Ej.
  destruct (_ >=? _) eqn:Ha.
  - erewrite bind_Ret by (unfold mod_jit, modify; rewrite Ej; reflexivity). cbn [fmap option_fmap option_map].
    destruct (flushed_fields j) as (Hn'&Hp'). pose proof (flush_ok j Hc) as Hc'.
    pose proof (flushed_fewer j Hc) as Hfew. pose proof (flushed_vacant pc j Hc) as Hv.
    generalize dependent (jit_backend_flush j). intros jf Hn' Hp' Hc' Hfew Hv.
    destruct (compile_follows (set_jit (SY := jit_sys B H) (Some jf) e) c jf pc) as (r&e'&E&Hf'&Hr&Hx);
      [|done|done|done|by exists r, e'].
    apply follows_set_jit; try done.
    apply (current_fewer _ j); [done|intros; by apply no_pending_fresh|done].
  - erewrite bind_Ret by reflexivity. apply (compile_follows e c j); [done..|]. split; [|lia].
    intros b Hb. unfold live_at, jit_find_block in Hl. rewrite Ej in Hl.
    by rewrite (co_magic j Hc), Z.eqb_refl, Hb in Hl.
Qed.

(** ** The dispatcher *)

Lemma follows_is_running run e c : follows run e c →
  is_running e = match cPower c with Running => true | _ => false end.
Proof.
  intros Hf. pose proof (fo_state _ _ _ _ _ Hf) as Hs. unfold is_running.
  by destruct (cPower c); [rewrite Hs|destruct Hs as [-> _]..].
Qed.

Lemma spec_run_halted n c : cPower c ≠ Running → spec_run n c = c.
Proof. destruct n; [done|]. cbn [spec_run]. by destruct (cPower c). Qed.

(** The loop is out of fuel while the processor runs, and otherwise back with
    its final state. *)
Definition follow_result (n : nat) (c : cpu) (res : outcome unit * rk65c02emu) : Prop :=
  match cPower (spec_run n c) with
  | Running => res.1 = NoFuel
  | _ => ∃ e', res = (Ret tt, e') ∧ follows None e' (spec_run n c)
  end.

Lemma halted_result n k e c : follows None e (spec_run n c) → is_running e = false →
  follow_result (n + k) c (Ret tt, e).
Proof.
  intros Hf Hr. rewrite (follows_is_running _ _ _ Hf) in Hr. unfold follow_result.
  rewrite spec_run_add, spec_run_halted by (intros E; by rewrite E in Hr).
  destruct (cPower (spec_run n c)); [done|by exists e..].
Qed.

Lemma result_add n k c res : follow_result n (spec_run k c) res → follow_result (k + n) c res.
Proof. unfold follow_result. by rewrite spec_run_add. Qed.

(** At least [fuel - 1] instructions are executed before the fuel runs out. *)
Definition run_result (fuel : nat) (c : cpu) (res : outcome unit * rk65c02emu) : Prop :=
  ∃ n, (fuel <= S n)%nat ∧ follow_result n c res.

Lemma result_later fuel k c res : (1 <= k)%nat → run_result fuel (spec_run k c) res →
  run_result (S fuel) c res.
Proof. intros Hk (n&Hn&Hl). exists (k + n)%nat. split; [lia|by apply result_add]. Qed.

Lemma exec_once e c : follows None e c → cPower c = Running →
  ∃ e1, rk65c02_exec e = (Ret tt, e1) ∧ follows None e1 (spec_run 1 c).
Proof.
  intros Hf Hp. destruct (exec_follows B H None e c Hf Hp) as (e1&E1&Hf1). exists e1. cbn [spec_run]. by rewrite Hp.
Qed.

(** The interpreter takes over. *)
Lemma interp_follows fuel e c : follows None e c → cPower c = Running →
  follow_result fuel c (interp_loop fuel e).
Proof.
  revert e c. induction fuel as [|fuel IH]; intros e c Hf Hp.
  { unfold follow_result. cbn [spec_run]. by rewrite Hp. }
  destruct (exec_once e c Hf Hp) as (e1&E1&Hf1).
  rewrite (interp_loop_S fuel e e1) by (done || apply Hf || apply Hf1 ||
    (pose proof (fo_state _ _ _ _ _ Hf) as Hs; by rewrite Hp in Hs)).
  destruct (is_running e1) eqn:Hr1; [|by apply (halted_result 1 fuel)].
  apply (result_add fuel 1), IH; [done|]. rewrite (follows_is_running _ _ _ Hf1) in Hr1.
  by destruct (cPower (spec_run 1 c)).
Qed.

Lemma found_follows e c (pc := PC (regs e)) : follows None e c →
  ∃ r e', (if live_at (jit e) pc then mret (Some pc) else compile_capped B H pc) e = (Ret r, e') ∧
    follows None e' c ∧ regs e' = regs e ∧ (r = None ∨ r = Some pc).
Proof.
  intros Hf. destruct (live_at (jit e) pc) eqn:Hl; [exists (Some pc), e; auto|].
  apply compile_capped_follows; [done| |done]. destruct (fo_rep _ _ _ _ _ Hf) as [[] _ _]. done.
Qed.

Lemma runnable_block r e c pc : follows None e c → r = None ∨ r = Some pc → runnable B H r e = true →
  ∃ j b insns, jit e = Some j ∧ blocks j !! pc = Some b ∧ fn b = Some insns.
Proof.
  intros Hf Hx Hr. destruct (follows_cache e c Hf) as (j&Ej&Hc&_). unfold runnable, live_at, jit_find_block in Hr.
  destruct Hx as [->| ->]; [done|]. rewrite Ej, (co_magic j Hc), Z.eqb_refl in Hr. cbn [negb] in Hr.
  destruct (blocks j !! pc) as [b|] eqn:Eb; [|done]. unfold live in Hr. apply bool_decide_eq_true in Hr as [insns E].
  by exists j, b, insns.
Qed.

Lemma mapping_follows e c j b insns pc : follows None e c → jit e = Some j → blocks j !! pc = Some b →
  fn b = Some insns → mapping_current B H pc e = (Ret true, e).
Proof.
  intros Hf Ej Hb Hfn. destruct (follows_cache e c Hf) as (j0&Ej0&_&_&_&Hcur).
  rewrite Ej in Ej0. injection Ej0 as <-. destruct (Hcur pc b insns Hb Hfn) as [_ _ _ Hu _].
  unfold mapping_current. erewrite bind_Ret by reflexivity. cbv beta. by rewrite Ej, Hb, Hu.
Qed.

(** One round of the loop with [fuel] left for the others. *)
Section Round.
Context (fuel : nat).
Context (IH : ∀ d e c, follows None e c → cPower c = Running → run_result fuel c (jit_loop B H fuel d e)).

(** After some instructions the loop goes on, or the processor has halted. *)
Lemma round_ends d n e1 c : follows None e1 (spec_run n c) → (1 <= n)%nat →
  run_result (S fuel) c (if is_running e1 then jit_loop B H fuel d e1 else (Ret tt, e1)).
Proof.
  intros Hf1 Hn. destruct (is_running e1) eqn:Hr1.
  - apply (result_later fuel n); [done|]. apply IH; [done|].
    rewrite (follows_is_running _ _ _ Hf1) in Hr1. by destruct (cPower (spec_run n c)).
  - exists (n + fuel)%nat. split; [lia|]. by apply halted_result.
Qed.

Lemma round_loop d e1 c : cPower c = Running → follows None e1 (spec_run 1 c) →
  run_result (S fuel) c (jit_loop B H fuel d e1).
Proof.
  intros Hp Hf1. pose proof (round_ends d 1 e1 c Hf1 ltac:(lia)) as Hr. destruct (is_running e1) eqn:Hr1; [done|].
  destruct fuel as [|n]; [|cbn [jit_loop]; erewrite bind_Ret by reflexivity; by rewrite Hr1].
  exists 0%nat. split; [lia|]. unfold follow_result. cbn [spec_run]. by rewrite Hp.
Qed.

(** A block of the cache is dispatched. *)
#[local] Abbreviation dispatch d pc :=
  (faulted ← catch B H (call_block B H pc);
    disable ← process_writes B H d;
    if faulted : bool then jit_loop B H fuel disable
    else
      process_flush B H disable;;
      rk65c02_poll_host_controls;;
      r ← gets is_running;
      if negb r then
        w ← rk65c02_maybe_wait_on_idle;
        r ← gets is_running;
        if (w : bool) && r then jit_loop B H fuel disable else mret tt
      else jit_loop B H fuel disable).

Lemma round_block d e c j b insns (pc := PC (regs e)) : follows None e c → cPower c = Running →
  jit e = Some j → blocks j !! pc = Some b → fn b = Some insns →
  run_result (S fuel) c (dispatch d pc e).
Proof.
  intros Hf Hp Ej Hb Hfn. destruct (call_follows e c j b insns Hf Hp Ej Hb Hfn) as (e'&bs&n&E&Hf'&Hn).
  destruct (writes_follow d e' _ bs Hf') as (d'&e1&E1&Hf1). fold pc in E.
  erewrite bind_Ret by (unfold catch; rewrite E; reflexivity). erewrite bind_Ret by exact E1.
  erewrite bind_Ret by by eapply flush_follows. erewrite bind_Ret by (apply poll_quiet, Hf1).
  erewrite bind_Ret by reflexivity. pose proof (round_ends d' n e1 c Hf1 Hn) as Hres.
  destruct (is_running e1) eqn:Hr1; cbn [negb]; [done|].
  erewrite bind_Ret by (apply wait_none, quiet_idle, Hf1). by erewrite bind_Ret by reflexivity.
Qed.

(** The code for [pc] is looked up or made, and run. *)
Lemma round_find d e c (pc := PC (regs e)) : follows None e c → cPower c = Running →
  run_result (S fuel) c ((
    had ← gets (λ e, live_at (jit e) pc);
    b ← (if had : bool then mret (Some pc) else compile_capped B H pc);
    r ← gets is_running;
    if negb had && negb r then mret tt
    else
      ok ← gets (runnable B H b);
      if negb ok then
        rk65c02_exec;;
        r ← gets is_running;
        if negb r then mret tt else jit_loop B H fuel d
      else
        cur ← mapping_current B H pc;
        if negb cur then
          mod_jit B H (λ j, jit_invalidate_blocks_for_page j (u8 (pc ≫ 8)));;
          jit_loop B H fuel d
        else
          dispatch d pc) e).
Proof.
  intros Hf Hp. erewrite bind_Ret by reflexivity. cbv beta.
  destruct (found_follows e c Hf) as (r&e1&E1&Hf1&Er&Hx). fold pc in E1, Hx. erewrite bind_Ret by exact E1.
  erewrite bind_Ret by reflexivity. rewrite (follows_is_running _ _ _ Hf1), Hp. cbn [negb].
  rewrite andb_false_r. erewrite bind_Ret by reflexivity. destruct (runnable B H r e1) eqn:Hr; cbn [negb].
  - destruct (runnable_block r e1 c pc Hf1 Hx Hr) as (j&b&insns&Ej&Hb&Hfn).
    erewrite bind_Ret by by eapply mapping_follows. cbn [negb]. unfold pc in *. clear pc. rewrite <- Er in *.
    by apply (round_block d e1 c j b insns).
  - destruct (exec_once e1 c Hf1 Hp) as (e2&E2&Hf2). erewrite bind_Ret by exact E2.
    erewrite bind_Ret by reflexivity. pose proof (round_ends d 1 e2 c Hf2 ltac:(lia)) as Hres.
    by destruct (is_running e2).
Qed.

Lemma round_follows d e c : follows None e c → cPower c = Running →
  run_result (S fuel) c (jit_loop B H (S fuel) d e).
Proof.
  intros Hf Hp. assert (is_running e = true) as Hr by (rewrite (follows_is_running _ _ _ Hf); by rewrite Hp).
  pose proof (fo_bare _ _ _ _ _ Hf) as [_ Hbps Hdis Htr _].
  change (bps_head e = []) in Hbps. change (runtime_disassembly e = false) in Hdis. change (trace e = false) in Htr.
  cbn [jit_loop]. erewrite bind_Ret by reflexivity. rewrite Hr. cbn [negb].
  erewrite bind_Ret by (apply poll_quiet, Hf). erewrite bind_Ret by reflexivity. rewrite Hr. cbn [negb].
  erewrite bind_Ret by reflexivity. rewrite Htr, Hdis, Hbps. cbn [orb].
  rewrite bool_decide_true by done. cbn [negb].
  destruct (negb (use_jit e) || _).
  { exists fuel. split; [lia|]. by apply interp_follows. }
  rewrite (fo_irq _ _ _ _ _ Hf). cbn [andb]. cbv zeta. destruct (match jit e with Some _ => _ | None => _ end).
  - destruct (exec_once e c Hf Hp) as (e1&E1&Hf1). erewrite bind_Ret by exact E1. by apply round_loop.
  - by apply round_find.
Qed.
End Round.

Lemma jit_loop_follows fuel d e c : follows None e c → cPower c = Running →
  run_result fuel c (jit_loop B H fuel d e).
Proof.
  revert d e c. induction fuel as [|fuel IH]; [|intros; by apply round_follows].
  intros d e c _ Hp. exists 0%nat. split; [lia|]. unfold follow_result. cbn [spec_run]. by rewrite Hp.
Qed.

(** ** Runs *)

(** An instance on its own with a JIT backend: plain memory, nothing watching,
    no callbacks, no interrupt line raised, and a cache of which every block is
    the code in memory (an empty cache is). *)
Record jit_alone (e : rk65c02emu) : Prop := {
  ja_ok : emu_ok e;
  ja_direct : accessors_for e = mem_direct;
  ja_bps : bps_head e = [];
  ja_disasm : runtime_disassembly e = false;
  ja_trace : trace e = false;
  ja_tick : tick e = None;
  ja_stop : on_stop e = None;
  ja_idle : idle_wait e = None;
  ja_irq : irq e = false;
  ja_outside : in_jit_run e = false;
  ja_jit : ∃ j, jit e = Some j ∧ cache_ok j ∧ needs_flush j = false ∧ no_pending j ∧
    cache_current (mem_at (bus e)) j
}.

(** The state in which the loop starts follows the specification. *)
Lemma ready_follows e c : jit_alone e → represents e c → follows None (start_ready e) (with_Power Running c).
Proof.
  intros [[] Hd ? ? ? ? ? ? Hq Ho (j&Ej&?&?&?&?)] [Hr Hm Hc]. split; [|done|by repeat split|by split|done| |done].
  - destruct Hm as [Hfl Hm]. split; [by split| |done|done|].
    { split; try done. intros a. by apply flat_host. }
    intros _. exists j. split; [done|]. by split.
  - split; [done..|]. by rewrite <- Hc.
Qed.

Lemma reset_follows e c : follows None e c →
  follows None (set_jit (jit_run_state_reset <$> jit e) e) c.
Proof. apply follows_mod_jit; [|done]. intros j Hj. same_cache j. Qed.

Lemma set_running_same (e : rk65c02emu) : state e = RUNNING → set_state RUNNING e = e.
Proof. destruct e. cbn. by intros <-. Qed.

Lemma run_jit_follows fuel e c : follows None e c → cPower c = Running →
  run_result fuel c (rk65c02_run_jit B H fuel e).
Proof.
  intros Hf Hp. pose proof (fo_state _ _ _ _ _ Hf) as Hs. rewrite Hp in Hs.
  unfold rk65c02_run_jit. erewrite bind_Ret by reflexivity. destruct (_ || _).
  - erewrite bind_Ret by reflexivity. rewrite set_running_same by done. exists fuel.
    split; [lia|]. by apply interp_follows.
  - do 2 erewrite bind_Ret by reflexivity. rewrite set_running_same by done.
    apply jit_loop_follows; [by apply reset_follows|done].
Qed.

Lemma run_jit_running fuel (e : rk65c02emu) :
  rk65c02_run_jit B H fuel (set_state RUNNING e) = rk65c02_run_jit B H fuel e.
Proof.
  unfold rk65c02_run_jit. do 2 erewrite bind_Ret by reflexivity.
  cbn [use_jit jit trace runtime_disassembly bps_head set_state]. by destruct (_ || _).
Qed.

Lemma start_loop fuel (e : rk65c02emu) : rk65c02_start (rk65c02_run_jit B H) fuel e =
  ((if rk65c02_can_use_jit (start_ready e) then rk65c02_run_jit B H fuel else interp_loop fuel);;
   start_epilogue) (start_ready e).
Proof.
  unfold rk65c02_start. rewrite refresh_modify. do 6 erewrite bind_Ret by reflexivity.
  set (e5 := refreshed _). change (start_ready e) with (set_state RUNNING e5).
  change (rk65c02_can_use_jit (set_state RUNNING e5)) with (rk65c02_can_use_jit e5).
  destruct (rk65c02_can_use_jit e5); [|done].
  unfold mbind, M_bind. by rewrite run_jit_running.
Qed.

(** What a run leaves is an instance on its own again. *)
Lemma follows_alone e c : follows None e c → jit_alone e.
Proof.
  intros Hf. pose proof (follows_cache e c Hf) as Hj.
  destruct Hf as [[Hok [_ _ Hd _ _ _] _ _ _] Hin [_ ? ? ? _] [] Hq _ _]. by split.
Qed.

(** How a run ends: as without a JIT, and ready for another run. *)
Definition jit_start_result (c' : cpu) (res : outcome unit * rk65c02emu) : Prop :=
  match cPower c' with
  | Running => res.1 = NoFuel
  | _ => ∃ e', res = (Ret tt, e') ∧ ended HOST e' c' ∧ jit_alone e'
  end.

Lemma follow_ends e c : follows None e c → cPower c ≠ Running →
  start_epilogue e = (Ret tt, e) ∧ ended HOST e c ∧ jit_alone e.
Proof.
  intros Hf Hp. pose proof (fo_state _ _ _ _ _ Hf) as Hs.
  assert (state e = STOPPED ∧ ∀ last, stopreason e = run_reason last c) as [Hst Hr] by (by destruct (cPower c)).
  split; [apply epilogue_quiet; [apply Hf|done]|].
  split; [apply represents_ended; [apply Hf|done..]|by eapply follows_alone].
Qed.

Lemma follow_start n c (loop : M unit) e : follow_result n c (loop e) →
  jit_start_result (spec_run n c) ((loop;; start_epilogue) e).
Proof.
  unfold follow_result, jit_start_result. intros Hl. destruct (cPower (spec_run n c)) eqn:Hp.
  { unfold mbind at 1, M_bind at 1. by destruct (loop e) as [[] ?]. }
  all: destruct Hl as (e'&E&Hf), (follow_ends e' _ Hf) as (He&?); [by rewrite Hp|].
  all: exists e'; by erewrite bind_Ret by exact E.
Qed.

Lemma start_jit_refines e c fuel : jit_alone e → represents e c →
  ∃ n, (fuel <= S n)%nat ∧
    jit_start_result (spec_run n (with_Power Running c)) (rk65c02_start (rk65c02_run_jit B H) fuel e).
Proof.
  intros Ha Hc. pose proof (ready_follows e c Ha Hc) as Hf. rewrite start_loop.
  destruct (rk65c02_can_use_jit _).
  - destruct (run_jit_follows fuel _ _ Hf eq_refl) as (n&Hn&Hl). exists n. split; [done|by apply follow_start].
  - exists fuel. split; [lia|]. by apply follow_start, interp_follows.
Qed.

(** Two halted instances in the same state of the specification. *)
Lemma ended_same last e1 e2 c : ended last e1 c → ended last e2 c →
  regs e1 = regs e2 ∧ (∀ a, word a → mem_at (bus e1) a = mem_at (bus e2) a) ∧
  irq e1 = irq e2 ∧ state e1 = state e2 ∧ stopreason e1 = stopreason e2.
Proof.
  intros [Hs1 Hr1 [Hk1 [_ Hm1] Hc1]] [Hs2 Hr2 [Hk2 [_ Hm2] Hc2]]. split_and!; try congruence.
  - destruct (regs e1) as [a1 x1 y1 pc1 sp1 p1], (regs e2) as [a2 x2 y2 pc2 sp2 p2].
    unfold cpu_of in Hc1, Hc2. cbn in *. destruct c. cbn in *. injection Hc1 as <- <- <- <- <- EF _.
    injection Hc2 as -> -> -> -> -> EF2 _. f_equal.
    destruct Hk1 as [_ _ _ _ _ Hp1], Hk2 as [_ _ _ _ _ Hp2]. cbn in Hp1, Hp2.
    rewrite <- (status_flags p1), <- (status_flags p2) by done. congruence.
  - intros a Ha. by rewrite Hm1, Hm2.
  - apply (f_equal cIrq) in Hc1, Hc2. cbn in Hc1, Hc2. congruence.
Qed.

(** C2: [rk65c02_start] with the JIT backend runs the instruction set.  On flat
    RAM and an instance on its own (MMU off or identity, no breakpoints, tracing
    or disassembly, no callbacks, the interrupt line down) whose cache holds only
    code that is in memory, whatever it compiles, calls, loops in natively,
    overwrites, invalidates or leaves to the interpreter, the run executes some
    number [n] of instructions of the specification, at least one for every unit of fuel but one: it returns when
    the processor has halted by then, in the halted state and with its stop
    reason, and the fuel runs out only while the processor is running.  The
    instance it leaves is one on its own again, its cache still that of the code
    in memory, so another run can follow. *)
Theorem start_jit_refines_isa e c fuel : jit_alone e → represents e c →
  ∃ n, (fuel <= S n)%nat ∧
    jit_start_result (spec_run n (with_Power Running c)) (rk65c02_start (rk65c02_run_jit B H) fuel e).
Proof. apply start_jit_refines. Qed.

(** C3: the JIT does what the interpreter does, on flat RAM, with the interrupt
    line down, the MMU off or identity, no breakpoints, tracing or disassembly,
    no callbacks, and a cache that holds only code that is in memory.  When
    [rk65c02_start] of such an instance without a backend returns with fuel [n],
    the run with the JIT returns with any more fuel, with the same registers,
    memory, interrupt line, run state and stop reason.  With the line up the two
    may differ ([JitInterrupt.fallback_stays_in_block]). *)
Theorem jit_runs_like_interpreter e c n fuel e1 run_jit : jit_alone e → represents e c →
  rk65c02_start run_jit n (erase B H e) = (Ret tt, e1) → (n < fuel)%nat →
  ∃ e', rk65c02_start (rk65c02_run_jit B H) fuel e = (Ret tt, e') ∧
    regs e' = regs e1 ∧ (∀ a, word a → mem_at (bus e') a = mem_at (bus e1) a) ∧
    irq e' = irq e1 ∧ state e' = state e1 ∧ stopreason e' = stopreason e1.
Proof.
  intros Ha Hc E1 Hn. pose proof (start_refines (erase B H e) c run_jit n) as Hi.
  rewrite E1 in Hi. unfold start_result in Hi.
  assert (stand_alone (erase B H e)) as Hal by (by destruct Ha).
  specialize (Hi Hal (proj2 (represents_erase B H e c) Hc)).
  destruct (start_jit_refines e c fuel Ha Hc) as (m&Hm&Hj).
  assert (cPower (spec_run n (with_Power Running c)) ≠ Running) as Hh
    by (intros Hp; by rewrite Hp in Hi).
  replace m with (n + (m - n))%nat in Hj by lia. rewrite spec_run_add, spec_run_halted in Hj by done.
  unfold jit_start_result in Hj.
  destruct (cPower (spec_run n (with_Power Running c))); [done|..];
    destruct Hi as (x&[= <-]&Hx), Hj as (e'&E'&He'&_); exists e'; (split; [done|]); by eapply ended_same.
Qed.

End JitRun.
