(* ===== verification/JitControl.v ===== *)
(** Control by the host while the JIT runs: the dispatcher of
    [rk65c02_run_jit] against the loops of [HostControl]. *)
From stdpp Require Import base numbers list gmap strings.
From S2P Require Import Prelude Types Isa BusSpec State Interfaces Mmu Instruction Emulation.
From S2P Require Import Disasm Debug Exec Runs RunRefine HostControl JitCache JitEmit Jit JitNative JitRun.

(** A debugging feature that needs the interpreter is on. *)
Definition debugging {SY : Sys} (e : rk65c02emu) : bool :=
  trace e || runtime_disassembly e || negb (bool_decide (bps_head e = [])).

Section JitControl.
Context (B H : Type).
#[local] Hint Extern 0 Sys => exact (jit_sys B H) : typeclass_instances.
Context {SB : SysBus} {HO : HostOps} {LI : Lightning}.
#[local] Existing Instance lightning_jit.

(** ** Stop requests *)

Lemma jit_loop_stop n d e : stop_requested e = true → state e = RUNNING →
  jit_loop B H (S n) d e = (Ret tt, host_stopped e).
Proof.
  intros Hq Hs. assert (is_running e = true) as Hr by (unfold is_running; by rewrite Hs).
  cbn [jit_loop]. erewrite bind_Ret by reflexivity. rewrite Hr. cbn [negb].
  erewrite bind_Ret by by apply poll_requested.
  erewrite bind_Ret by reflexivity. change (is_running (host_stopped e)) with false. cbn [negb].
  by erewrite bind_Ret by by apply wait_other.
Qed.

(** C25: a stop request is honoured before the next instruction, in every loop.
    An instance that is running with a stop requested is stopped with reason
    HOST, the request is cleared, and nothing is executed, compiled or
    invalidated: all else is as it was before.  This holds of the interpreter's
    loop, of single steps and of the dispatcher of compiled code, with any
    number of iterations left. *)
Theorem stop_request_every_loop n d e : stop_requested e = true →
  (state e = RUNNING → interp_loop (S n) e = (Ret tt, host_stopped e) ∧
     jit_loop B H (S n) d e = (Ret tt, host_stopped e)) ∧
  (state e = STEPPING → step_loop (S n) e = (Ret tt, host_stopped e)).
Proof.
  intros Hq. destruct (stop_request_honoured n e Hq) as [H1 H2]. split; [|done].
  intros Hs. split; [by apply H1|by apply jit_loop_stop].
Qed.

(** ** Debugging *)

(** With a debugging feature on at the start, a run is the interpreter's. *)
Lemma start_debugging fuel e : debugging e = true →
  rk65c02_start (rk65c02_run_jit B H) fuel e = (interp_loop fuel;; start_epilogue) (start_ready e).
Proof.
  intros Hd. rewrite start_loop. assert (rk65c02_can_use_jit (start_ready e) = false) as ->; [|done].
  unfold rk65c02_can_use_jit, debugging in *.
  change (trace (start_ready e)) with (trace e).
  change (runtime_disassembly (start_ready e)) with (runtime_disassembly e).
  change (bps_head (start_ready e)) with (bps_head e).
  destruct (use_jit _), (bool_decide (is_Some _)), (trace e), (runtime_disassembly e), (bool_decide (bps_head e = []));
    done.
Qed.

(** One that is turned on during a run makes the dispatcher return. *)
Lemma jit_loop_debugging n d e e1 : state e = RUNNING →
  rk65c02_poll_host_controls e = (Ret tt, e1) → state e1 = RUNNING → debugging e1 = true →
  jit_loop B H (S n) d e = (Ret tt, e1).
Proof.
  intros Hs Hp Hs1 Hd. assert (is_running e = true ∧ is_running e1 = true) as [Hr Hr1]
    by (unfold is_running; by rewrite Hs, Hs1).
  cbn [jit_loop]. erewrite bind_Ret by reflexivity. rewrite Hr. cbn [negb].
  erewrite bind_Ret by exact Hp. erewrite bind_Ret by reflexivity. rewrite Hr1. cbn [negb].
  erewrite bind_Ret by reflexivity. unfold debugging in Hd. by rewrite Hd.
Qed.

(** The instance the dispatcher starts on. *)
Definition dispatched (e : rk65c02emu) : rk65c02emu :=
  set_jit (jit_run_state_reset <$> jit e) (start_ready e).

Lemma run_jit_dispatches fuel e : rk65c02_can_use_jit (start_ready e) = true →
  rk65c02_run_jit B H fuel (start_ready e) = jit_loop B H fuel false (dispatched e).
Proof.
  intros Hc. unfold rk65c02_run_jit. erewrite bind_Ret by reflexivity. cbv beta.
  unfold rk65c02_can_use_jit in Hc. rewrite !andb_true_iff, !negb_true_iff, !bool_decide_eq_true in Hc.
  destruct Hc as [[[[-> [j Hj]] ->] ->] Hb].
  rewrite (bool_decide_true (bps_head _ = [])), (bool_decide_false (jit _ = None)) by (done || by rewrite Hj).
  cbn [negb orb]. by do 2 erewrite bind_Ret by reflexivity.
Qed.

(** C38: a breakpoint set during a run ends it.  When the host's callback at the
    first poll of a run with the JIT turns a debugging feature on (a breakpoint,
    tracing, disassembly), [rk65c02_start] returns without having executed
    anything, and the instance is left in the state RUNNING, so that the stop
    callback is not called; the comment in [rk65c02_run_jit] has it continue in
    the interpreter, as it does when the feature is on before the start. *)
Theorem jit_debugging_abandons fuel e e1 e2 :
  rk65c02_can_use_jit (start_ready e) = true →
  rk65c02_poll_host_controls (dispatched e) = (Ret tt, e1) → state e1 = RUNNING → debugging e1 = true →
  rk65c02_poll_host_controls e1 = (Ret tt, e2) → state e2 = RUNNING →
  rk65c02_start (rk65c02_run_jit B H) (S fuel) e = (Ret tt, e2).
Proof.
  intros Hc Hp1 Hs1 Hd Hp2 Hs2. rewrite start_loop, Hc.
  assert (rk65c02_run_jit B H (S fuel) (start_ready e) = (Ret tt, e1)) as E.
  { rewrite run_jit_dispatches by done. by apply jit_loop_debugging. }
  erewrite bind_Ret by exact E. unfold start_epilogue. erewrite bind_Ret by exact Hp2.
  erewrite bind_Ret by reflexivity. by rewrite Hs2, bool_decide_false by done.
Qed.

End JitControl.
