(* ===== verification/Machine.v ===== *)
(** Concrete systems, used to run the model: RAM on the bus, no JIT, and a
    small host whose callbacks are fixed functions. *)
From stdpp Require Import base numbers list gmap strings.
From S2P Require Import Prelude Types Isa BusSpec Bus State Interfaces Mmu Instruction Emulation.
From S2P Require Import Disasm Debug Exec Invariant MmuSpec Api Faults.

(** No host devices. *)
#[export] Program Instance no_host_devices : DeviceHost := {|
  dev_priv := unit;
  host_read_1 := λ _ p _, (0, p);
  host_write_1 := λ _ p _ _, p;
  host_finish := λ _ _, None
|}.
Next Obligation. intros. simpl. lia. Qed.

(** The host's memory: a counter of ticks, the reasons [on_stop] was given and
    the faults reported to it. *)
Record host_mem := mkHostMem {
  hm_ticks : Z;
  hm_stops : list emu_stop_reason_t;
  hm_faults : list (Z * rk65c02_mmu_access_t * Z)
}.

#[export] Instance ram_sys : Sys := {| sys_bus := bus_t; sys_jit := unit; sys_host := host_mem |}.
#[export] Instance ram_sys_bus : SysBus := {| sys_bus_ops := bus_ops |}.
#[export] Existing Instance jit_stub.

(** Page tables of the translation callback, selected by the callback's
    context: every page is mapped to itself with all permissions, except that
    [n > 0] makes page [n] fault and [n < 0] sends page 0x20 to the physical
    page [-n], and page 0x21 too when that is above 64K. *)
Definition demo_translate (ctx vaddr : Z) : rk65c02_mmu_result_t :=
  if (ctx >? 0) && (u8 (vaddr ≫ 8) =? ctx) then mkMmuResult false 0 0 1 false
  else if (ctx <? 0) && ((u8 (vaddr ≫ 8) =? 0x20) || (ctx <=? -256) && (u8 (vaddr ≫ 8) =? 0x21))
  then mkMmuResult true (u16 (- ctx) * 256 + u8 vaddr) 7 0 false
  else mkMmuResult true vaddr 7 0 false.

#[export] Program Instance demo_host : HostOps := {|
  host_on_stop := λ _ _ r, modify (λ e, set_host
    (mkHostMem (hm_ticks (host e)) (hm_stops (host e) ++ [r]) (hm_faults (host e))) e);
  host_tick := λ _ _, modify (λ e, set_host
    (mkHostMem (hm_ticks (host e) + 1) (hm_stops (host e)) (hm_faults (host e))) e);
  host_idle_wait := λ _ _, rk65c02_assert_irq;
  host_mmu_translate := λ _ ctx vaddr _, mret (demo_translate ctx vaddr);
  host_mmu_fault := λ _ _ vaddr access code, modify (λ e, set_host
    (mkHostMem (hm_ticks (host e)) (hm_stops (host e))
       (hm_faults (host e) ++ [(vaddr, access, code)])) e);
  host_device_read := λ _ _ _, mret tt;
  host_device_write := λ _ _ _ _, mret tt;
  indeterminate := 0xA5
|}.
Next Obligation. lia. Qed.

(** 64K of RAM as two devices, a device being at most 0xFFFF bytes long. *)
Definition ram_bus : bus_t :=
  let '(lo, t) := dev_alloc bus_init (device_ram_init 0x8000) in
  let t := bus_device_add t lo 0x0000 in
  let '(hi, t) := dev_alloc t (device_ram_init 0x8000) in
  bus_device_add t hi 0x8000.

(** The bus [b] with a page of RAM at physical address 0x10000. *)
Definition extended (b : bus_t) : bus_t :=
  let '(ext, t) := dev_alloc b (device_ram_init 0x100) in bus_device_add_phys t ext 0x10000.

Definition zero_regs : reg_state_t := mkRegs 0 0 0 0 0 0.

Definition junk_emu (b : bus_t) : rk65c02emu := {|
  state := STOPPED; bus := b; regs := zero_regs; stopreason := HOST;
  mmu_last_fault_addr := 0; mmu_last_fault_access := RK65C02_MMU_READ; mmu_last_fault_code := 0;
  irq := false; bps_head := []; runtime_disassembly := false; trace := false; trace_head := [];
  use_jit := false; jit_loop_budget := 0; jit_requested := false; jit := None;
  in_jit_run := false; stop_requested := false; on_stop := None; on_stop_ctx := 0;
  tick := None; tick_ctx := 0; tick_interval := 0; tick_countdown := 0;
  idle_wait_enabled := false; idle_wait := None; idle_wait_ctx := 0;
  mmu_enabled := false; mmu_identity_fastpath := false; mmu_identity_active := false;
  mmu_update_pending := false; mmu_epoch := 0; mmu_translate := None; mmu_translate_ctx := 0;
  mmu_fault := None; mmu_fault_ctx := 0; mmu_fault_reexec := false; mmu_tlb_enabled := false;
  mmu_changed_all := false; mmu_changed_vpage := ∅; mmu_tlb_hits := 0; mmu_tlb_misses := 0;
  mmu_tlb := ∅; mem_read_1_fn := mem_direct; mem_write_1_fn := mem_direct;
  host := mkHostMem 0 [] [] |}.

(** A machine with the bytes of [prog] at [org], ready to run there. *)
Definition boot (org : Z) (prog : list Z) : rk65c02emu :=
  let b := (bus_load_file ram_bus org (Some prog)).2 in
  let e := rk65c02_init (junk_emu b) b in
  set_regs (regs_PC org (regs_SP 0xFF (regs e))) e.

(** The same machine behind the MMU with the page table [ctx]. *)
Definition with_mmu (ctx : Z) (e : rk65c02emu) : rk65c02emu :=
  (rk65c02_mmu_set (Some 0%nat) ctx (Some 0%nat) 0 true false e).2.

(** ** The laws of the concrete system *)

#[export] Instance demo_host_typed : HostTyped.
Proof.
  split; intros; try (by apply keeps_modify; [intros ? []; split|]); try (by apply keeps_ret).
  - unfold host_idle_wait, demo_host, rk65c02_assert_irq. keeps_auto.
  - apply keeps_ret. pose proof (u8_byte v). unfold demo_translate. repeat case_match; simpl;
      pose proof (u16_word (- ctx)); lia.
Qed.

#[export] Instance jit_stub_typed : JitTyped.
Proof. split; intros; by apply keeps_ret. Qed.

#[export] Instance jit_stub_keeps_mmu : JitKeepsMmu := stub_keeps_mmu.

#[export] Instance demo_keeps_pc : CallbacksKeepPc.
Proof.
  intros pc. split; [intros e e' E _ _ He; unfold at_pc in *; congruence|..]; intros; by first [apply keeps_ret | apply keeps_modify].
Qed.

(** The mapping the translation callback implements meets its contract. *)
Definition demo_pt (ctx : Z) : mapping := λ v _, demo_translate ctx v.

Lemma demo_callback e : is_Some (mmu_translate e) → callback_is (demo_pt (mmu_translate_ctx e)) e.
Proof. intros [cb Hcb]. by exists cb. Qed.

Lemma demo_typed ctx : mapping_typed (demo_pt ctx).
Proof.
  intros v a Hv. unfold demo_pt, demo_translate. pose proof (u8_byte v). pose proof (u16_word (- ctx)).
  repeat case_match; simpl; lia.
Qed.

Lemma demo_stable ctx : page_stable (demo_pt ctx).
Proof.
  intros v a Hv Hok _ _ v' a' Hv' Hp. unfold demo_pt, demo_translate in *. fold (page v) (page v') in *.
  rewrite Hp. assert (v' - u8 v' = v - u8 v) as Hb.
  { unfold page in Hp. rewrite !shiftr8_div in Hp. rewrite !u8_small in Hp by
      (split; [apply Z.div_pos|apply Z.div_lt_upper_bound]; lia).
    unfold u8. pose proof (Z.div_mod v 256). pose proof (Z.div_mod v' 256). lia. }
  repeat case_match; simpl in *; split_and!; try done; lia.
Qed.

Lemma empty_tlb_coherent pt e : mmu_tlb e = ∅ → coherent pt e.
Proof.
  intros Ht p Hp. unfold tlb_hit, tlb_entry in Hp. rewrite Ht, lookup_empty in Hp.
  simpl in Hp. rewrite andb_false_r in Hp. discriminate Hp.
Qed.

(** ** The RAM bus is a flat memory *)

Lemma ram_bus_cells a : word a →
  ram_cell ram_bus a = Some (if a <? 0x8000 then (0%nat, a) else (1%nat, a - 0x8000)).
Proof.
  intros Ha. unfold ram_cell. replace (bus_access_device ram_bus a) with
    (Some (if a <? 0x8000 then (0%nat, a) else (1%nat, a - 0x8000))).
  - destruct (Z.ltb_spec a 0x8000); reflexivity.
  - unfold bus_access_device. change (dm_head ram_bus) with [mkMapping 0 0; mkMapping 1 0x8000].
    cbn [dm_scan]. unfold dm_hit.
    change (dev_size (dev_at ram_bus (dm_dev (mkMapping 0 0)))) with 0x8000.
    change (dev_size (dev_at ram_bus (dm_dev (mkMapping 1 0x8000)))) with 0x8000.
    cbn [dm_addr dm_dev]. destruct (Z.ltb_spec a 0x8000).
    + rewrite (proj2 (Z.geb_le a 0)), (proj2 (Z.ltb_lt a (0 + 0x8000))) by lia.
      replace (a >=? 0x8000) with false by lia. simpl. rewrite u16_small by lia. do 2 f_equal. lia.
    + replace (a >=? 0x8000) with true by lia. replace (a <? 0x8000 + 0x8000) with true by lia.
      simpl. by rewrite u16_small by lia.
Qed.

Lemma ram_bus_flat : flat_bus ram_bus.
Proof.
  split.
  - apply bus_okb_ok. vm_compute. reflexivity.
  - intros a Ha. change (is_Some (ram_cell ram_bus a)). rewrite ram_bus_cells by done. eauto.
  - intros a a' Ha Ha'. change (ram_cell ram_bus a = ram_cell ram_bus a' → a = a').
    rewrite !ram_bus_cells by done.
    destruct (Z.ltb_spec a 0x8000), (Z.ltb_spec a' 0x8000); intros; simplify_eq; lia.
Qed.

Lemma load_file_flat t cur prog :
  flat_bus t → Forall (λ v, byte v) prog → flat_bus (load_file_loop t cur prog).2.
Proof.
  intros Ht Hp. revert t cur Ht. induction Hp as [|v prog Hv _ IH]; intros t cur Ht; [done|].
  simpl. case_match; [done|]. apply IH. exact (flat_bus_write t (u16 cur) v Ht (u16_word _) Hv).
Qed.

Lemma boot_flat org prog : Forall (λ v, byte v) prog → flat_bus (bus (boot org prog)).
Proof. apply (load_file_flat ram_bus org prog ram_bus_flat). Qed.
