(* ===== verification/FaultCases.v ===== *)
(** Machines that fault where re-execution does not restore them: the cases
    outside [Faults], run on the concrete system of [Machine]. *)
From stdpp Require Import base numbers list gmap strings.
From S2P Require Import Prelude Types Isa BusSpec Bus State Interfaces Mmu Instruction Emulation.
From S2P Require Import Disasm Debug Exec Machine.

Definition run (e : rk65c02emu) : rk65c02emu := (rk65c02_start stub_run_jit 10 e).2.

(** LDA #$01; ORA $4000; STP *)
Definition ora_program : list Z := [0xA9; 0x01; 0x0D; 0x00; 0x40; 0xDB].

(** An instruction fetch that faults.  The interpreter goes on with 0xFF
    as the opcode it failed to fetch: it fetches two operands, which fault too,
    and executes BBS7.  The program counter is past the instruction, the
    recorded fault is that of the second operand and the host's callback has
    been called three times. *)
Theorem fetch_fault_executes :
  let e := run (with_mmu 0xC0 (boot 0xC000 [0xEA])) in
  state e = STOPPED ∧ stopreason e = EMUERROR ∧ PC (regs e) = 0xC003 ∧
  mmu_last_fault_addr e = 0xC002 ∧ hm_faults (host e) =
    [(0xC000, RK65C02_MMU_FETCH, 1); (0xC001, RK65C02_MMU_FETCH, 1);
     (0xC002, RK65C02_MMU_FETCH, 1)].
Proof. vm_compute. split_and!; reflexivity. Qed.

(** A faulting instruction that loads the program counter.  JMP ($4000)
    with page 0x40 inaccessible leaves the program counter at the value the
    failed reads stand for, so the instruction is not the next one to run. *)
Theorem jmp_fault_loses_pc :
  let e := run (with_mmu 0x40 (boot 0x0400 [0x6C; 0x00; 0x40])) in
  state e = STOPPED ∧ stopreason e = EMUERROR ∧ PC (regs e) = 0xFFFF ∧
  mmu_last_fault_addr e = 0x4001.
Proof. vm_compute. split_and!; reflexivity. Qed.

(** A data fault does not leave the other registers alone.  ORA $4000 on
    an inaccessible page stops with the program counter on the ORA, but the
    accumulator already holds the 0xFF the failed read stands for; after the
    host makes the page accessible and restarts, the program ends with 0xFF in
    A where the same program without the fault ends with 0x01. *)
Theorem data_fault_clobbers :
  let e0 := boot 0x0400 ora_program in
  let e1 := run (with_mmu 0x40 e0) in
  let e2 := run (with_mmu 0 e1) in
  PC (regs e1) = 0x0402 ∧ mmu_last_fault_addr e1 = 0x4000 ∧ A (regs e1) = 0xFF ∧
  stopreason e2 = STP ∧ A (regs e2) = 0xFF ∧ A (regs (run (with_mmu 0 e0))) = 0x01.
Proof. vm_compute. split_and!; reflexivity. Qed.

(** One stop, three notifications: the second and the third fault of a failed
    fetch find the emulator stopped already and call the stop callback at once,
    in the middle of the instruction; [rk65c02_start] calls it again when it
    returns. *)
Theorem fetch_fault_notifies_thrice :
  let e := run ((rk65c02_on_stop_set (Some 0%nat) 0 (with_mmu 0xC0 (boot 0xC000 [0xEA]))).2) in
  state e = STOPPED ∧ length (hm_stops (host e)) = 3%nat.
Proof. vm_compute. split; reflexivity. Qed.
