(* ===== verification/JitMachine.v ===== *)
(** The concrete system of [Machine] with the JIT backend of [jit.c]. *)
From stdpp Require Import base numbers list gmap strings.
From S2P Require Import Prelude Types Isa BusSpec Bus State Interfaces Mmu Instruction Emulation.
From S2P Require Import Disasm Debug Exec Invariant Frames JitCache JitEmit Jit JitNative.
From S2P Require Import Machine.

#[export] Instance jit_ram_sys : Sys | 0 := jit_sys bus_t unit.
#[export] Instance jit_ram_bus : @SysBus jit_ram_sys | 0 := {| sys_bus_ops := bus_ops |}.

(** A host without side effects; the page tables are those of [Machine]. *)
#[export] Program Instance jit_demo_host : @HostOps jit_ram_sys | 0 := {|
  host_on_stop := λ _ _ _, mret tt;
  host_tick := λ _ _, mret tt;
  host_idle_wait := λ _ _, mret tt;
  host_mmu_translate := λ _ ctx vaddr _, mret (demo_translate ctx vaddr);
  host_mmu_fault := λ _ _ _ _ _, mret tt;
  host_device_read := λ _ _ _, mret tt;
  host_device_write := λ _ _ _ _, mret tt;
  indeterminate := 0xA5
|}.
Next Obligation. lia. Qed.

#[export] Existing Instance lightning_jit | 0.

(** Generated code that does what lightning documents; the bits above a returned
    byte are zero. *)
#[export] Instance eval_code : @Lightning jit_ram_sys := {|
  jit_emit := λ _, true;
  native_exec := λ code, _ ← block_run bus_t unit (λ _, 0) JIT_NATIVE_BOUND code; mret tt
|}.

Definition jit_junk (b : bus_t) : @rk65c02emu jit_ram_sys := {|
  state := STOPPED; bus := b : @sys_bus jit_ram_sys; regs := zero_regs; stopreason := HOST;
  mmu_last_fault_addr := 0; mmu_last_fault_access := RK65C02_MMU_READ; mmu_last_fault_code := 0;
  irq := false; bps_head := []; runtime_disassembly := false; trace := false; trace_head := [];
  use_jit := false; jit_loop_budget := 0; jit_requested := false; jit := None;
  in_jit_run := false; stop_requested := false; on_stop := None; on_stop_ctx := 0;
  tick := None; tick_ctx := 0; tick_interval := 0; tick_countdown := 0;
  idle_wait_enabled := false; idle_wait := None; idle_wait_ctx := 0;
  mmu_enabled := false; mmu_identity_fastpath := false; mmu_identity_active := false;
  mmu_update_pending := false; mmu_epoch := 0; mmu_translate := None; mmu_translate_ctx := 0;
  mmu_fault := None; mmu_fault_ctx := 0; mmu_fault_reexec := false; mmu_tlb_enabled := false;
  mmu_changed_all := false; mmu_changed_vpage := ∅; mmu_tlb_hits := 0; mmu_tlb_misses := 0;
  mmu_tlb := ∅; mem_read_1_fn := mem_direct; mem_write_1_fn := mem_direct;
  host := tt : @sys_host jit_ram_sys |}.

(** A machine on the bus [b], to be started at [pc] with the JIT enabled; one with
    the bytes of [prog] at physical address [org]; and a machine behind the MMU
    with the page table [ctx], running. *)
Definition jit_with (b : bus_t) (pc : Z) : @rk65c02emu jit_ram_sys :=
  let e := rk65c02_init (jit_junk b) b in
  let e := (rk65c02_jit_enable bus_t unit true e).2 in
  set_regs (regs_PC pc (regs_SP 0xFF (regs e))) e.
Definition jit_plain (org pc : Z) (prog : list Z) : @rk65c02emu jit_ram_sys :=
  jit_with (bus_load_file ram_bus org (Some prog)).2 pc.
Definition jit_behind (ctx : Z) (e : @rk65c02emu jit_ram_sys) : @rk65c02emu jit_ram_sys :=
  set_state RUNNING (rk65c02_mmu_set (Some 0%nat) ctx None 0 true false e).2.
Definition jit_boot (ctx org pc : Z) (prog : list Z) : @rk65c02emu jit_ram_sys :=
  jit_behind ctx (jit_plain org pc prog).

(** Code at the top of the 64K, mapped at page 0x20: JMP $20FD. *)
Definition top_booted : @rk65c02emu jit_ram_sys := jit_boot (-0xFF) 0xFFFD 0x20FD [0x4C; 0xFD; 0x20].
Definition top_emu : @rk65c02emu jit_ram_sys := (jit_compile_block bus_t unit 0x20FD top_booted).2.
Definition top_stored : @rk65c02emu jit_ram_sys := (rk65c02_mem_write_1 0xFFFE 0x00 top_emu).2.

(** A store that is noticed but invalidates nothing.  A block whose last
    byte is physical address 0xFFFF is compiled at 0x20FD; a store through
    virtual address 0xFFFE, which maps to a byte of that code, is counted as a
    write into compiled code, memory changes, and the block stays live: the
    end of its physical range wraps to 0 in the test of
    [jit_invalidate_blocks_for_phys_addr]. *)
Theorem top_block_survives_store :
  live_at (jit top_emu) 0x20FD = true ∧
  (rk65c02_mem_read_1 0x20FE top_emu).1 = Ret 0xFD ∧
  (rk65c02_mem_read_1 0x20FE top_stored).1 = Ret 0x00 ∧
  (st_write_events ∘ stats <$> jit top_stored) = Some 1 ∧
  live_at (jit top_stored) 0x20FD = true.
Proof. vm_compute. split_and!; reflexivity. Qed.

(** Code in extended memory, mapped at pages 0x20 and 0x21: LDA #$05; STP. *)
Definition ext_booted : @rk65c02emu jit_ram_sys :=
  jit_behind (-0x100) (jit_with (bus_load_file_phys (extended ram_bus) 0x10000 (Some [0xA9; 0x05; 0xDB])).2 0x2000).
Definition ext_emu : @rk65c02emu jit_ram_sys := (jit_compile_block bus_t unit 0x2000 ext_booted).2.

(** CLI; an unassigned opcode; INX; STP at 0x0400, and a handler LDY #$07; STP at
    0x0500, entered with the interrupt line raised and interrupts masked. *)
Definition masked_irq_emu : @rk65c02emu jit_ram_sys :=
  let e := jit_plain 0x0400 0x0400 [0x58; 0x03; 0xE8; 0xDB] in
  let b := (bus_load_file (bus e) 0x0500 (Some [0xA0; 0x07; 0xDB])).2 in
  let b := (bus_load_file b 0xFFFE (Some [0x00; 0x05])).2 in
  (rk65c02_assert_irq (set_bus (b : @sys_bus jit_ram_sys) e)).2.

(** An interrupt taken inside a block does not leave it.  CLI unmasks a
    pending interrupt in the middle of a block; the unassigned opcode after it
    is left to [rk65c02_exec], which takes the interrupt and executes the first
    instruction of the handler.  The interpreter goes on in the handler to its
    STP, with X unchanged.  The block, which checks only whether the emulator
    runs and whether code was overwritten, goes on with its own INX and then
    with the fallback for its STP, which executes what is at 0x0503. *)
Theorem block_ignores_interrupt :
  let interp := (rk65c02_start stub_run_jit 9 masked_irq_emu).2 in
  let native := (rk65c02_start (rk65c02_run_jit bus_t unit) 9 masked_irq_emu).2 in
  (state interp, stopreason interp, X (regs interp), Y (regs interp), PC (regs interp), SP (regs interp)) =
    (STOPPED, STP, 0, 7, 0x0503, 0xFC) ∧
  (state native, stopreason native, X (regs native), Y (regs native), PC (regs native), SP (regs native)) =
    (STOPPED, STP, 1, 7, 0x0503, 0xF9).
Proof. vm_compute. split; reflexivity. Qed.
