(* ===== verification/Witnesses.v ===== *)
(** The hypotheses of the theorems hold somewhere: each witness applies one
    theorem to a machine of [Machine]. *)
From stdpp Require Import base numbers list gmap strings.
From S2P Require Import Prelude Types Isa BusSpec Bus State Interfaces Mmu Instruction Emulation.
From S2P Require Import Disasm Debug Exec Assembler IsaSpec Invariant MmuSpec Api Runs IsaArith.
From S2P Require Import Routines Refine RunRefine HostControl CallSpec Faults Decimal TableSpec.
From S2P Require Import AssemblerSpec TextSpec Fuel FetchFault Machine.

(** Two overlapping RAM devices: the second, mapped at 0x4000, shadows part of
    the first. *)
Definition overlay_bus : bus_t :=
  let '(d0, t) := dev_alloc bus_init (device_ram_init 0x8000) in
  let t := bus_device_add t d0 0x0000 in
  let '(d1, t) := dev_alloc t (device_ram_init 0x0100) in
  bus_device_add t d1 0x4000.

Lemma bus_access_last_mapping_witness : bus_access_device overlay_bus 0x4010 = Some (1%nat, 0x10).
Proof.
  apply (bus_access_last_mapping overlay_bus 0x4010).
  - apply bus_okb_ok. vm_compute. reflexivity.
  - lia.
  - exists [mkMapping 0 0], (mkMapping 1 0x4000), []. split_and!; try reflexivity; simpl; try lia.
    constructor.
Defined.

Lemma bus_load_buf_roundtrip_witness :
  ∃ t', bus_load_buf ram_bus 0xFFFD [0x11; 0x22; 0x33] = Some (true, t') ∧
    bus_read_1 t' 0xFFFF = (0x33, t').
Proof.
  destruct (bus_load_buf_roundtrip ram_bus 0xFFFD [0x11; 0x22; 0x33]) as (t'&H1&H2&_).
  - lia.
  - discriminate.
  - vm_compute. discriminate.
  - intros k Hk. simpl in Hk. rewrite ram_bus_cells by lia. eauto.
  - intros j k Hj Hk. simpl in Hj, Hk. rewrite !ram_bus_cells by lia.
    destruct (Z.ltb_spec (0xFFFD + Z.of_nat j) 0x8000), (Z.ltb_spec (0xFFFD + Z.of_nat k) 0x8000);
      intros E; injection E; lia.
  - exists t'. split; [exact H1|]. exact (H2 2%nat 0x33 eq_refl).
Defined.

Lemma bus_load_file_no_wrap_witness :
  (bus_load_file ram_bus 0xFFFF (Some [1; 2])).1 = false.
Proof. rewrite (bus_load_file_no_wrap ram_bus 0xFFFF [1; 2]); [reflexivity|lia]. Defined.

(** A run of a small program (LDA #$05; STA $10; STP), then a change of
    registers. *)
Lemma reachable_ok_witness :
  emu_ok (api_run stub_backend (ApiSetRegs zero_regs)
    (api_run stub_backend (ApiStart 10) (rk65c02_init (junk_emu ram_bus) ram_bus)).2).2.
Proof.
  assert (regs_ok zero_regs) as Hz by (split; simpl; lia).
  apply (reachable_ok (junk_emu ram_bus) ram_bus).
  - exact Hz.
  - exact (flat_ok _ ram_bus_flat).
  - apply reach_call; [|exact Hz]. apply reach_call; [|exact I]. apply reach_init.
Defined.

(** ** Execution *)

(** The specification's view of a machine. *)
Definition cpu_at (e : rk65c02emu) : cpu := cpu_of (regs e) (mem_at (bus e)) (irq e) (power_of e).

Lemma represents_cpu_at e : regs_ok (regs e) → flat_bus (bus e) → represents e (cpu_at e).
Proof. intros Hr Hb. split; [done|by split|done]. Qed.

(** LDA #$05; STA $10; STP *)
Definition small_program : list Z := [0xA9; 0x05; 0x85; 0x10; 0xDB].
Definition small_emu : rk65c02emu := boot 0x0400 small_program.

Lemma small_flat : flat_bus (bus small_emu).
Proof. apply boot_flat. unfold small_program. repeat constructor; lia. Qed.
Lemma small_regs : regs_ok (regs small_emu).
Proof. change (regs small_emu) with (mkRegs 0 0 0 0x400 0xFF 0x24). split; simpl; lia. Qed.
Lemma small_represents : represents small_emu (cpu_at small_emu).
Proof. exact (represents_cpu_at _ small_regs small_flat). Qed.
Lemma small_plain : plain small_emu.
Proof. by split. Qed.
Lemma small_alone : stand_alone small_emu.
Proof. by split. Qed.

Lemma exec_refines_isa_witness :
  ∃ e', rk65c02_exec small_emu = (Ret tt, e') ∧ represents e' (spec_step (cpu_at small_emu)) ∧
    stepped small_emu e'.
Proof.
  apply (exec_refines_isa small_emu (cpu_at small_emu)).
  - split; try reflexivity. exact small_plain.
  - exact small_represents.
Defined.

Lemma step_refines_isa_witness :
  ∃ e', rk65c02_step 2 small_emu = (Ret tt, e') ∧
    ended STEPPED e' (spec_run 2 (with_Power Running (cpu_at small_emu))).
Proof.
  apply (step_refines_isa small_emu (cpu_at small_emu) 2).
  - exact small_alone.
  - reflexivity.
  - exact small_represents.
Defined.

(** The program halts within three instructions. *)
Lemma start_refines_isa_witness :
  ∃ e', rk65c02_start stub_run_jit 3 small_emu = (Ret tt, e') ∧
    ended HOST e' (spec_run 3 (with_Power Running (cpu_at small_emu))).
Proof.
  pose proof (start_refines_isa small_emu (cpu_at small_emu) stub_run_jit 3
    small_alone small_represents) as H.
  cbv zeta in H. destruct (cPower _) eqn:E in H; [|exact H..].
  exfalso. vm_compute in E. discriminate E.
Defined.

(** ** Virtual memory *)

(** Page 0x20 is an alias of page 0x33. *)
Definition alias_emu : rk65c02emu := with_mmu (-0x33) small_emu.
Definition alias_pt : mapping := demo_pt (-0x33).

Lemma alias_callback : callback_is alias_pt alias_emu.
Proof. apply (demo_callback alias_emu). by exists 0%nat. Qed.
Lemma alias_coherent : coherent alias_pt alias_emu.
Proof. by apply empty_tlb_coherent. Qed.

(** The second translation hits the entry the first one filled. *)
Lemma tlb_transparent_witness :
  ∃ e', translate_all [(0x2001, RK65C02_MMU_READ, RK65C02_MMU_PERM_R);
                       (0x2002, RK65C02_MMU_FETCH, RK65C02_MMU_PERM_X)] alias_emu =
          (Ret [Xok 0x3301; Xok 0x3302], e') ∧ coherent alias_pt e' ∧ tlb_only alias_emu e'.
Proof.
  apply (tlb_transparent alias_pt alias_emu
    [(0x2001, RK65C02_MMU_READ, RK65C02_MMU_PERM_R); (0x2002, RK65C02_MMU_FETCH, RK65C02_MMU_PERM_X)]).
  - exact alias_callback.
  - apply demo_stable.
  - apply demo_typed.
  - exact alias_coherent.
  - repeat constructor; simpl; lia.
Defined.

(** The alias is redirected from page 0x33 to page 0x34 after page 0x20 was
    cached. *)
Lemma update_protocol_coherent_witness :
  ∃ e', (rk65c02_mmu_begin_update;; rk65c02_mmu_mark_changed_vrange 0x2000 0x20FF;;
         rk65c02_mmu_end_update) (rk65c02_mem_read_1 0x2001 alias_emu).2 = (Ret tt, e') ∧
    coherent (demo_pt (-0x34)) e' ∧ mmu_changed_all e' = false ∧ mmu_changed_vpage e' = ∅.
Proof.
  apply (update_protocol_coherent alias_pt (demo_pt (-0x34))).
  - reflexivity.
  - destruct (translate_addr_spec alias_pt alias_emu 0x2001 RK65C02_MMU_READ RK65C02_MMU_PERM_R
      alias_callback (demo_stable _) (demo_typed _) alias_coherent) as (e1&E1&Hc&_); [lia|].
    replace e1 with (rk65c02_mmu_translate_addr 0x2001 RK65C02_MMU_READ RK65C02_MMU_PERM_R
      alias_emu).2 in Hc by (by rewrite E1). exact Hc.
  - lia.
  - lia.
  - intros _ p Hp Hne v a Hv Hpv. unfold alias_pt, demo_pt, demo_translate. fold (page v).
    rewrite Hpv. rewrite (proj2 (Z.eqb_neq p 0x20)); [by rewrite !andb_false_r|].
    intros ->. apply Hne. vm_compute. reflexivity.
Defined.

(** Pages 0x20 and 0x21 are the same page of extended memory. *)
Definition extended_emu : rk65c02emu := with_mmu (-0x100) (set_bus (extended (bus small_emu) : sys_bus) small_emu).


(** A running machine without a fault callback whose page 0x40 is unmapped. *)
Definition guarded_emu : rk65c02emu :=
  set_state RUNNING (set_mmu_fault None (with_mmu 0x40 small_emu)).

Lemma mem_write_mmu_fault_witness :
  ∃ e1, tlb_only guarded_emu e1 ∧ coherent (demo_pt 0x40) e1 ∧ bus e1 = bus guarded_emu ∧
    regs e1 = regs guarded_emu ∧
    rk65c02_mem_write_mmu 0x4000 7 RK65C02_MMU_WRITE guarded_emu =
      (Ret tt, faulted 0x4000 RK65C02_MMU_WRITE 1 e1).
Proof.
  apply (mem_write_mmu_fault (demo_pt 0x40) guarded_emu); try reflexivity; try lia.
  - apply (demo_callback guarded_emu). by exists 0%nat.
  - apply demo_stable.
  - apply demo_typed.
  - by apply empty_tlb_coherent.
Defined.

Lemma identity_mmu_direct_witness :
  ∃ e1, tlb_only (with_mmu 0 small_emu) e1 ∧
    rk65c02_mem_read_mmu 0x0401 RK65C02_MMU_READ (with_mmu 0 small_emu) =
      rk65c02_mem_read_direct 0x0401 RK65C02_MMU_READ e1.
Proof.
  apply (identity_mmu_direct (demo_pt 0) (with_mmu 0 small_emu) 0x0401 0 RK65C02_MMU_READ).
  - discriminate.
  - apply (demo_callback (with_mmu 0 small_emu)). by exists 0%nat.
  - intros v a Hv. by split_and!.
  - apply demo_stable.
  - apply demo_typed.
  - by apply empty_tlb_coherent.
  - lia.
Defined.

(** The same machine about to fetch from the unmapped page; boot leaves no
    stop callback. *)
Definition unfetched_emu : rk65c02emu := set_on_stop None (set_regs (regs_PC 0x4000 (regs guarded_emu)) guarded_emu).

Lemma unfetched_paged : paged (demo_pt 0x40) (bus unfetched_emu) unfetched_emu.
Proof.
  split; try reflexivity; [by exists 0%nat|by apply empty_tlb_coherent].
Qed.
Lemma unfetched_regs : regs_ok (regs unfetched_emu).
Proof. vm_compute. by split. Qed.

Lemma fetch_fault_moves_on_witness :
  ∃ e', rk65c02_exec unfetched_emu = (Ret tt, e') ∧ state e' = STOPPED ∧ stopreason e' = EMUERROR ∧
    PC (regs e') = 0x4003 ∧ mmu_last_fault_addr e' = 0x4002.
Proof.
  destruct (fetch_fault_moves_on (demo_pt 0x40) (demo_stable _) (demo_typed _) (bus unfetched_emu)
    unfetched_emu 1 0) as (e'&E&Hs&Hw&Ha&_&_&_&Hr).
  - exact unfetched_paged.
  - exact unfetched_regs.
  - split; [by exists 1|]. split; [by exists 1|reflexivity].
  - exists 0xFF. split; [reflexivity|]. vm_compute. split; reflexivity.
  - reflexivity.
  - vm_compute. by intros ?%elem_of_nil.
  - reflexivity.
  - reflexivity.
  - exists e'. rewrite Hr. split_and!; [exact E|exact Hs|exact Hw|reflexivity|exact Ha].
Defined.

(** ** Control by the host *)

Definition stopping_emu : rk65c02emu :=
  set_state RUNNING (set_stop_requested true small_emu).

Lemma stop_request_honoured_witness :
  interp_loop 5 stopping_emu = (Ret tt, host_stopped stopping_emu).
Proof. apply (stop_request_honoured 4 stopping_emu); reflexivity. Defined.

(** The host's callback counts its calls; it is set to run every third poll. *)
Definition tick_calls (e : @rk65c02emu ram_sys) : Z := hm_ticks (host e).
Definition ticking_emu : rk65c02emu :=
  set_tick_countdown 3 (set_state RUNNING (rk65c02_tick_set (Some 0%nat) 3 0 small_emu).2).

Lemma tick_cadence_witness :
  ∃ e', polls 7 ticking_emu = (Ret tt, e') ∧ tick_calls e' = 2 ∧ ticking 0 0 3 1 e'.
Proof.
  apply (tick_cadence 0 0 3 tick_calls).
  - lia.
  - intros s. eexists. split; [reflexivity|]. by split_and!.
  - reflexivity.
  - split; try reflexivity; lia.
Defined.

Lemma start_fuel_monotone_witness :
  rk65c02_start stub_run_jit 1000 small_emu = rk65c02_start stub_run_jit 3 small_emu.
Proof. apply (start_fuel_monotone stub_run_jit 3 997). vm_compute. discriminate. Defined.

Definition bp_emu : rk65c02emu :=
  (debug_breakpoint_add 0x0400 small_emu).2.

Lemma breakpoint_stops_witness :
  rk65c02_exec bp_emu = (Ret tt, set_stopreason BREAKPOINT (set_state STOPPED bp_emu)).
Proof. apply (breakpoint_stops bp_emu); [reflexivity|]. apply list_elem_of_here. Defined.

Lemma breakpoint_multiset_witness :
  ∃ l, debug_breakpoint_remove 0x0400 bp_emu = (Ret true, set_bps_head l bp_emu) ∧
    bp_count 0x0400 l = 0%nat.
Proof.
  destruct (breakpoint_multiset 0x0400 bp_emu) as (_&H&_).
  destruct H as (l&E&Hl); [apply list_elem_of_here|]. exists l. split; [exact E|].
  specialize (Hl 0x0400). rewrite decide_True in Hl by reflexivity.
  change (bp_count 0x0400 (bps_head bp_emu)) with 1%nat in Hl. lia.
Defined.

(** WAI with an idle-wait callback that asserts the interrupt line. *)
Definition wai_emu : rk65c02emu :=
  set_state RUNNING (rk65c02_idle_wait_set (Some 0%nat) 0 (boot 0x0400 [0xCB])).2.
Definition wai_emu1 : rk65c02emu :=
  (rk65c02_exec wai_emu).2.

Lemma idle_wait_resumes_witness :
  interp_loop 9 wai_emu = interp_loop 8 (set_state RUNNING (set_irq true wai_emu1)).
Proof.
  apply (idle_wait_resumes 8 wai_emu wai_emu1 0); try (vm_compute; reflexivity); try reflexivity.
Defined.

(** ** Instructions and text *)

(** ADC absolute, in the regular part of the opcode map. *)
Lemma table_matrix_witness : matrix 0x6D.
Proof. apply (table_matrix 0x6D). lia. Defined.

Definition asm_at_0400 : assembler_t := assemble_init ram_bus 0x0400.

Lemma assemble_fetch_roundtrip_witness :
  ∃ a' i o, assemble_single asm_at_0400 "lda" ABSOLUTE 0x34 0x12 = Some (true, a') ∧
    asm_pc a' = u16 (0x0400 + d_size (instruction_decode o)) ∧
    instruction_fetch (asm_bus a') 0x0400 = (i, asm_bus a') ∧
    row_matches "lda" ABSOLUTE o ∧ fetched i o 0x34 0x12.
Proof.
  apply (assemble_fetch_roundtrip unit host_mem asm_at_0400 "lda" ABSOLUTE 0x34 0x12 [0xAD; 0x34; 0x12]).
  - vm_compute. reflexivity.
  - simpl. lia.
  - vm_compute. discriminate.
  - intros k Hk. simpl in Hk. simpl asm_bus. simpl asm_pc. rewrite ram_bus_cells by lia. eauto.
  - intros j k Hj Hk. simpl in Hj, Hk. simpl asm_bus. simpl asm_pc.
    rewrite !ram_bus_cells by lia.
    destruct (Z.ltb_spec (0x0400 + Z.of_nat j) 0x8000), (Z.ltb_spec (0x0400 + Z.of_nat k) 0x8000);
      intros E; injection E; lia.
Defined.

Lemma text_not_truncated_witness :
  instruction_string_get (mkInstruction 0xAD 0x34 0x12) =
    instruction_text (mkInstruction 0xAD 0x34 0x12) ∧
  rk65c02_regs_string_get (regs small_emu) = regs_text (regs small_emu).
Proof.
  apply (text_not_truncated (mkInstruction 0xAD 0x34 0x12) (regs small_emu)).
  - simpl. lia.
  - exact small_regs.
Defined.

(** ** Subroutines, interrupts, decimal mode *)

Lemma small_holds : holds (bus small_emu) (mem_at (bus small_emu)).
Proof. split; [exact small_flat|done]. Qed.

(** JSR $1234 *)
Lemma jsr_rts_roundtrip_witness :
  ∃ e', (emul_jsr (instruction_decode 0x20) (mkInstruction 0x20 0x34 0x12);; emul_rts (instruction_decode 0x60) (mkInstruction 0x60 0 0);;
         program_counter_increment (instruction_decode 0x60)) small_emu = (Ret tt, e') ∧
    regs e' = regs_PC 0x0403 (regs small_emu).
Proof.
  apply (jsr_rts_roundtrip small_emu small_plain (mem_at (bus small_emu))).
  - split_and!; simpl; lia.
  - exact small_regs.
  - exact small_holds.
  - reflexivity.
Defined.

Lemma irq_rti_roundtrip_witness :
  ∃ e', (rk65c02_irq;; emul_rti (instruction_decode 0x40) (mkInstruction 0x40 0 0)) small_emu =
      (Ret tt, e') ∧
    regs e' = regs_P (status_from_stack (P (regs small_emu))) (regs small_emu) ∧ irq e' = false.
Proof.
  apply (irq_rti_roundtrip small_emu small_plain (mem_at (bus small_emu))).
  - exact small_regs.
  - exact small_holds.
Defined.

Lemma bcd_roundtrip_witness : to_bcd (from_bcd 0x42) = 0x42 ∧ 0 ≤ from_bcd 0x42 < 100.
Proof.
  apply (proj1 bcd_roundtrip 0x42). split_and!; vm_compute; congruence.
Defined.

(** 0x58 + 0x67 = 125 and 0x58 - 0x67 - 1 = -10 *)
Definition bcd_emu : rk65c02emu :=
  set_regs (regs_A 0x58 (regs small_emu)) small_emu.

Lemma decimal_arithmetic_witness :
  ∃ e', rk65c02_do_adc_bcd 0x67 bcd_emu = (Ret tt, e') ∧ arith_frame bcd_emu e' ∧
    valid_bcd (A (regs e')) ∧ from_bcd (A (regs e')) = 25 ∧ carry e' = true.
Proof.
  apply (decimal_arithmetic 0x67 bcd_emu); split_and!; vm_compute; congruence.
Defined.

(** ADC #$67 in decimal mode *)
Definition decimal_emu : rk65c02emu :=
  set_regs (regs_P 0x2C (regs_A 0x58 (regs small_emu))) small_emu.

Lemma decimal_helpers_agree_witness :
  emul_adc (instruction_decode 0x69) (mkInstruction 0x69 0x67 0) decimal_emu = rk65c02_do_adc_bcd 0x67 decimal_emu.
Proof.
  apply (decimal_helpers_agree (instruction_decode 0x69) (mkInstruction 0x69 0x67 0) 0x67 decimal_emu decimal_emu);
    reflexivity.
Defined.

(** LDA $4000 on an inaccessible page *)
Definition lda_fault_emu : rk65c02emu :=
  set_state RUNNING (with_mmu 0x40 (boot 0x0400 [0xAD; 0x00; 0x40])).

Lemma fault_reexecutes_witness :
  ∃ e', instruction_exec_one lda_fault_emu = (Ret tt, e') ∧ PC (regs e') = 0x0400 ∧
    mmu_fault_reexec e' = false.
Proof.
  set (i := mkInstruction 0xAD 0x00 0x40).
  set (e1 := (instruction_fetch_emu 0x0400 lda_fault_emu).2).
  set (e2 := (emul_lda (instruction_decode 0xAD) i e1).2).
  destruct (fault_reexecutes lda_fault_emu i e1 e2) as (e'&H1&H2&H3).
  - vm_compute. reflexivity.
  - simpl. lia.
  - reflexivity.
  - vm_compute. reflexivity.
  - exists e'. split; [exact H1|]. split; [rewrite H2|rewrite H3]; vm_compute; reflexivity.
Defined.
