(* ===== verification/JitWitnesses.v ===== *)
(** The hypotheses of the theorems about the JIT backend hold on the machine of
    [JitMachine]. *)
From stdpp Require Import base numbers list gmap strings.
From S2P Require Import Prelude Types Isa BusSpec Bus State Interfaces Mmu Instruction Emulation.
From S2P Require Import Disasm Debug Exec IsaSpec Invariant Runs Refine RunRefine Frames MmuSpec.
From S2P Require Import JitCache JitEmit Jit JitNative JitSpec JitStores JitAlias JitInvariant JitExact.
From S2P Require Import JitShape JitLoop JitErase JitCoherent JitRefine JitBlock JitInterrupt JitRun Machine.
From S2P Require Import JitMachine Api JitApi HostControl JitControl.

(** ** The laws of the system *)

#[export] Instance jit_demo_typed : @HostTyped jit_ram_sys _ _ _.
Proof.
  split; intros; try (by apply keeps_ret).
  apply keeps_ret. pose proof (u8_byte v). unfold demo_translate. repeat case_match; simpl;
    pose proof (u16_word (- ctx)); lia.
Qed.

#[export] Instance jit_demo_jit_host : JitHost bus_t unit.
Proof. split; intros; by apply keeps_ret. Qed.

#[export] Instance jit_demo_native_host : NativeHost bus_t unit.
Proof. split; intros; by apply keeps_ret. Qed.
#[export] Instance jit_demo_budget_host : BudgetHost bus_t unit.
Proof. split; intros; by apply keeps_ret. Qed.
#[export] Instance eval_laws : LightningLaws bus_t unit.
Proof. split. intros code. by exists (λ _, 0). Qed.

(** LDA #$05; STA $10; STP at 0x0400. *)
Definition jit_small : @rk65c02emu jit_ram_sys := jit_boot 0 0x0400 0x0400 [0xA9; 0x05; 0x85; 0x10; 0xDB].

Lemma jit_small_bus : flat_bus (bus jit_small).
Proof. apply (load_file_flat ram_bus 0x0400 [0xA9; 0x05; 0x85; 0x10; 0xDB] ram_bus_flat). repeat constructor; lia. Qed.

(** A machine behind the MMU is well-typed. *)
Lemma behind_ok ctx bb pc : word pc → bus_ok bb → emu_ok (jit_behind ctx (jit_with bb pc)).
Proof.
  intros Hpc Hb. split; try reflexivity.
  - change (regs (jit_behind ctx (jit_with bb pc))) with (mkRegs 0 0 0 pc 0xFF 0x24). split; simpl; lia.
  - exact Hb.
  - change (mmu_epoch (jit_behind ctx (jit_with bb pc))) with 1. lia.
  - apply map_Forall_empty.
  - intros _. by exists 0%nat.
Qed.

Lemma jit_small_emu : emu_ok jit_small.
Proof. apply behind_ok; [lia|]. exact (flat_ok _ jit_small_bus). Qed.

Lemma jit_small_jit : jit jit_small = Some (jit_backend_flush jit_backend_create).
Proof. reflexivity. Qed.

Lemma jit_small_ok : jit_ok bus_t unit jit_small.
Proof.
  intros j Hj. rewrite jit_small_jit in Hj. injection Hj as <-. apply flush_ok, backend_create_ok.
Qed.

Lemma run_jit_cache_exact_witness :
  emu_ok (rk65c02_run_jit bus_t unit 20 jit_small).2 ∧
  jit_ok bus_t unit (rk65c02_run_jit bus_t unit 20 jit_small).2.
Proof.
  apply (run_jit_cache_exact bus_t unit 20 jit_small).
  - exact jit_small_emu.
  - exact jit_small_ok.
Defined.

(** LDA #$05 inside a running block. *)
Definition jit_inside : @rk65c02emu jit_ram_sys := set_in_jit_run true jit_small.
Definition lda_5 : jit_block_insn :=
  mkBlockInsn (mkInstruction 0xA9 0x05 0) (instruction_decode 0xA9).
Definition sta_10 : jit_block_insn :=
  mkBlockInsn (mkInstruction 0x85 0x10 0) (instruction_decode 0x85).

Lemma jit_inside_ready : native_ready bus_t unit jit_inside.
Proof.
  split; [destruct jit_small_emu; by split|reflexivity|reflexivity|].
  eexists. exact jit_small_jit.
Qed.

Lemma native_block_returns_witness :
  (block_run bus_t unit (λ _, 0) JIT_NATIVE_BOUND (jit_emit_block 0x400 [lda_5; sta_10]) jit_inside).1
    ≠ Ret false ∧
  block_run bus_t unit (λ _, 0) (JIT_NATIVE_BOUND + 1) (jit_emit_block 0x400 [lda_5; sta_10]) jit_inside =
    block_run bus_t unit (λ _, 0) JIT_NATIVE_BOUND (jit_emit_block 0x400 [lda_5; sta_10]) jit_inside.
Proof.
  apply (native_block_returns bus_t unit (λ _, 0) 0x400 [lda_5; sta_10] jit_inside 1).
  - change (jit_loop_budget jit_inside) with 0. unfold JIT_LOOP_BUDGET. lia.
  - unfold JIT_BLOCK_MAX_INSNS. simpl. lia.
Defined.

Lemma emitter_arrays_suffice_witness :
  (number is_bail (concat (jit_emit_block 0x400 [lda_5; sta_10])) <= JIT_MAX_BAILS)%nat ∧
  (number is_ijmp (concat (jit_emit_block 0x400 [lda_5; sta_10])) <= JIT_BLOCK_MAX_INSNS)%nat.
Proof.
  apply (emitter_arrays_suffice 0x400 [lda_5; sta_10]). unfold JIT_BLOCK_MAX_INSNS. simpl. lia.
Defined.

(** The program compiled, then its operand at 0x0401 overwritten. *)
Definition jit_compiled : @rk65c02emu jit_ram_sys := (jit_compile_block bus_t unit 0x0400 jit_small).2.
Definition jit_compiled_cache : rk65c02_jit :=
  match jit jit_compiled with Some j => j | None => jit_backend_create end.
Definition jit_looked_up : @rk65c02emu jit_ram_sys :=
  (jit_translate_paddr bus_t unit 0x0401 RK65C02_MMU_WRITE jit_compiled).2.

Lemma compiled_ready pc (e : @rk65c02emu jit_ram_sys) : word pc → emu_ok e →
  jit e = Some (jit_backend_flush jit_backend_create) →
  ready bus_t unit (jit_compile_block bus_t unit pc e).2.
Proof.
  intros Hpc He Hj. refine (ready_compile_block bus_t unit pc e Hpc _ _).
  - split; [done|]. intros j0 E. rewrite Hj in E. injection E as <-. apply flush_ok, backend_create_ok.
  - intros j0 E. rewrite Hj in E. injection E as <-. apply flushed_vacant, backend_create_ok.
Qed.
Lemma jit_compiled_jit : jit jit_compiled = Some jit_compiled_cache.
Proof. vm_compute. reflexivity. Qed.
Lemma jit_compiled_ready : ready bus_t unit jit_compiled.
Proof. unfold jit_compiled. apply compiled_ready; [lia|exact jit_small_emu|exact jit_small_jit]. Qed.
Lemma jit_compiled_ok : cache_ok jit_compiled_cache.
Proof. destruct jit_compiled_ready as [_ H]. exact (H _ jit_compiled_jit). Qed.

(** Every byte of the code is fetched from its own address. *)
Lemma jit_compiled_tags i b : blocks jit_compiled_cache !! i = Some b → live b = true → tagged Some b.
Proof.
  intros Hb _ a q Ha [= <-].
  assert (forallb (λ kb, forallb (λ a, phys_tracked a kb.2) (block_addrs kb.2))
    (map_to_list (blocks jit_compiled_cache)) = true) as Hf%forallb_Forall by (vm_compute; reflexivity).
  apply elem_of_map_to_list in Hb.
  pose proof (proj1 (Forall_forall _ _) Hf _ Hb) as Hg%forallb_Forall.
  exact (proj1 (Forall_forall _ _) Hg a Ha).
Qed.

Lemma guest_store_invalidates_witness :
  ∃ e' j', note_guest_write bus_t unit 0x0401 jit_compiled = (Ret tt, e') ∧ jit e' = Some j' ∧
    in_jit_run e' = false ∧ fewer jit_compiled_cache j' ∧ cache_ok j' ∧
    ∀ i b, blocks j' !! i = Some b → live b = true → (0x0401 ∉ block_addrs b) ∧
      (∀ a q, Some 0x0401 = Some q → at_top b = false → a ∈ block_addrs b → Some a ≠ Some q).
Proof.
  apply (guest_store_invalidates bus_t unit 0x0401 jit_compiled jit_compiled_cache (Some 0x0401)
    jit_looked_up).
  - lia.
  - exact jit_compiled_jit.
  - exact jit_compiled_ok.
  - vm_compute. reflexivity.
  - vm_compute. reflexivity.
  - vm_compute. reflexivity.
  - exact jit_compiled_tags.
Defined.

(** ** Aliases of compiled code *)

Lemma demo_mapped (e : @rk65c02emu jit_ram_sys) ctx : mmu_translate_ctx e = ctx → mmu_translate e = Some 0%nat →
  mmu_enabled e = true → mmu_identity_active e = false → mem_read_1_fn e = mem_mmu →
  mem_write_1_fn e = mem_mmu → coherentb (demo_pt ctx) e = true → mapped bus_t unit (demo_pt ctx) e.
Proof. intros <- Ht ? ? ? ? Hc. split; try done; [by exists 0%nat|by apply coherentb_ok]. Qed.

Definition cache_of (e : @rk65c02emu jit_ram_sys) : rk65c02_jit := default jit_backend_create (jit e).
Definition block_of (e : @rk65c02emu jit_ram_sys) (pc : Z) : rk65c02_jit_block :=
  default (new_block pc) (blocks (cache_of e) !! pc).

Lemma top_ready : ready bus_t unit top_emu.
Proof.
  unfold top_emu. apply compiled_ready; [lia| |reflexivity].
  apply behind_ok; [lia|]. apply bus_okb_ok. vm_compute. reflexivity.
Qed.
Lemma ext_ready : ready bus_t unit ext_emu.
Proof.
  unfold ext_emu. apply compiled_ready; [lia| |reflexivity].
  apply behind_ok; [lia|]. apply bus_okb_ok. vm_compute. reflexivity.
Qed.

Lemma top_block_stale_witness : ∃ e' e2 j', rk65c02_mem_write_1 0xFFFE 0x00 top_emu = (Ret tt, e') ∧
  jit e' = Some j' ∧ blocks j' !! 0x20FD = Some (block_of top_emu 0x20FD) ∧
  rk65c02_mem_fetch_1 0x20FE e' = (Ret 0x00, e2).
Proof.
  apply (top_block_stale bus_t unit (demo_pt (-0xFF)) (demo_stable _) (demo_typed _) 0xFFFE 0x20FE 0x00 0xFFFE
    (1%nat, 0x7FFE) top_emu (cache_of top_emu) 0x20FD (block_of top_emu 0x20FD)).
  - apply demo_mapped; vm_compute; reflexivity.
  - vm_compute. reflexivity.
  - destruct top_ready as [_ Hj]. apply Hj. vm_compute. reflexivity.
  - reflexivity.
  - vm_compute. reflexivity.
  - vm_compute. reflexivity.
  - vm_compute. reflexivity.
  - vm_compute. reflexivity.
  - lia.
  - vm_compute. reflexivity.
  - apply (bool_decide_eq_true_1 _). vm_compute. reflexivity.
  - lia.
  - vm_compute. discriminate.
  - vm_compute. reflexivity.
  - vm_compute. reflexivity.
Defined.

Definition ext_insns : list jit_block_insn := default [] (fn (block_of ext_emu 0x2000)).

Lemma extended_alias_stale_witness : let b := emitted bus_t unit (new_block 0x2000) 0x2000 0x2003 None ext_insns in
  mmu_phys_page_valid b = false ∧
  ∃ e' e2 j', rk65c02_mem_write_1 0x2101 0x07 ext_emu = (Ret tt, e') ∧
    jit e' = Some j' ∧ blocks j' !! 0x2000 = Some b ∧ rk65c02_mem_fetch_1 0x2001 e' = (Ret 0x07, e2).
Proof.
  refine (extended_alias_stale bus_t unit (demo_pt (-0x100)) (demo_stable _) (demo_typed _) ext_booted 0x2000 0x2003
    None (phys_tags bus_t unit 0x2000 0x2003 ext_booted).2 (new_block 0x2000) ext_insns 0x2101 0x2001 0x07 0x10001
    (2%nat, 1) ext_emu (cache_of ext_emu) _ _ _ _ _ _ _ _ _ _ _ _ _ _ _ _ _ _).
  - apply demo_mapped; vm_compute; reflexivity.
  - lia.
  - exists 0x10000. split; [vm_compute; reflexivity|by compute].
  - vm_compute. reflexivity.
  - apply demo_mapped; vm_compute; reflexivity.
  - vm_compute. reflexivity.
  - destruct ext_ready as [_ Hj]. apply Hj. vm_compute. reflexivity.
  - reflexivity.
  - vm_compute. reflexivity.
  - reflexivity.
  - lia.
  - apply (bool_decide_eq_true_1 _). vm_compute. reflexivity.
  - vm_compute. reflexivity.
  - lia.
  - vm_compute. discriminate.
  - vm_compute. reflexivity.
  - by compute.
  - vm_compute. reflexivity.
Defined.

(** ** A run on plain memory *)

(** LDX #$03; DEX; BNE -3; LDA #$DB; STA $040B; NOP; NOP: a loop, then a store
    of STP over the last instruction. *)
Definition patch_program : list Z :=
  [0xA2; 0x03; 0xCA; 0xD0; 0xFD; 0xA9; 0xDB; 0x8D; 0x0B; 0x04; 0xEA; 0xEA].
Definition patch_emu : @rk65c02emu jit_ram_sys := jit_plain 0x0400 0x0400 patch_program.
Definition patch_cpu : cpu := cpu_of (regs patch_emu) (mem_at (bus patch_emu)) false Running.

Lemma patch_bus : flat_bus (bus patch_emu).
Proof.
  apply (load_file_flat ram_bus 0x0400 patch_program ram_bus_flat). unfold patch_program.
  repeat constructor; lia.
Qed.
Lemma patch_regs : regs_ok (regs patch_emu).
Proof. change (regs patch_emu) with (mkRegs 0 0 0 0x400 0xFF 0x24). split; simpl; lia. Qed.

Lemma patch_represents : represents patch_emu (with_Power Stopped patch_cpu).
Proof. split; [exact patch_regs|split; [exact patch_bus|done]|done]. Qed.

Lemma patch_alone : jit_alone bus_t unit patch_emu.
Proof.
  split; try reflexivity.
  - split; try reflexivity; [exact patch_regs|exact (flat_ok _ patch_bus)|by compute|apply map_Forall_empty|discriminate].
  - exists jit_backend_create. split_and!; [reflexivity|exact backend_create_ok|reflexivity|by split|].
    intros i b insns Hi. change (blocks jit_backend_create) with (∅ : gmap Z rk65c02_jit_block) in Hi.
    by rewrite lookup_empty in Hi.
Qed.

Lemma start_jit_refines_isa_witness :
  ∃ n, (9 <= S n)%nat ∧ jit_start_result bus_t unit (spec_run n (with_Power Running (with_Power Stopped patch_cpu)))
    (rk65c02_start (rk65c02_run_jit bus_t unit) 9 patch_emu).
Proof.
  apply (start_jit_refines_isa bus_t unit patch_emu (with_Power Stopped patch_cpu) 9).
  - exact patch_alone.
  - exact patch_represents.
Defined.

(** BIT $10 inside a running block, on memory without an MMU. *)
Definition patch_inside : @rk65c02emu jit_ram_sys := set_in_jit_run true patch_emu.
Definition bit_10 : jit_block_insn :=
  mkBlockInsn (mkInstruction 0x24 0x10 0) (instruction_decode 0x24).


(** The interpreter executes 11 instructions.  The JIT runs the loop natively,
    notices the store into its own block, and executes STP. *)
Definition patch_done : @rk65c02emu jit_ram_sys :=
  (rk65c02_start stub_run_jit 11 (erase bus_t unit patch_emu)).2.

Lemma jit_runs_like_interpreter_witness :
  ∃ e', rk65c02_start (rk65c02_run_jit bus_t unit) 12 patch_emu = (Ret tt, e') ∧
    regs e' = regs patch_done ∧
    (∀ a, word a → mem_at (bus e') a = mem_at (bus patch_done) a) ∧
    irq e' = irq patch_done ∧ state e' = state patch_done ∧ stopreason e' = stopreason patch_done.
Proof.
  refine (jit_runs_like_interpreter bus_t unit patch_emu (with_Power Stopped patch_cpu) 11 12
    patch_done stub_run_jit patch_alone patch_represents _ _).
  - vm_compute. reflexivity.
  - lia.
Defined.

Lemma patch_jit_run : let e := (rk65c02_start (rk65c02_run_jit bus_t unit) 5 patch_emu).2 in
  regs e = mkRegs 0xDB 0 0 0x40C 0xFF 0xA4 ∧ stopreason e = STP ∧
  (λ j, (st_blocks_compiled (stats j), st_blocks_executed (stats j), st_insns_executed (stats j),
    st_write_events (stats j))) <$> jit e = Some (2, 2, 14, 1).
Proof. vm_compute. split_and!; reflexivity. Qed.

(** ** An interrupt in a block *)

(** The unassigned opcode 0x03 of [masked_irq_emu] inside a running block, after
    the CLI. *)
Definition irq_inside : @rk65c02emu jit_ram_sys :=
  set_in_jit_run true (set_state RUNNING (set_regs (mkRegs 0 0 0 0x401 0xFF 0x20) masked_irq_emu)).
Definition irq_cpu : cpu := cpu_of (regs irq_inside) (mem_at (bus irq_inside)) true Running.
Definition unassigned_03 : jit_block_insn :=
  mkBlockInsn (mkInstruction 0x03 0 0) (instruction_decode 0x03).

Lemma irq_bus : flat_bus (bus irq_inside).
Proof.
  repeat (refine (load_file_flat _ _ _ _ _); [|repeat constructor; lia]). exact ram_bus_flat.
Qed.
Lemma irq_regs : regs_ok (regs irq_inside).
Proof. change (regs irq_inside) with (mkRegs 0 0 0 0x401 0xFF 0x20). split; simpl; lia. Qed.

Lemma fallback_stays_in_block_witness :
  ∃ m' e', code_run bus_t unit (λ _, 0) 0 (jit_emit_insn unassigned_03 (mkCtx [0x400; 0x401; 0x402; 0x403]) 1)
      mach_entry irq_inside = (Ret (if is_running e' && use_jit e' then Fall else Leave, m'), e') ∧
    represents e' (spec_instruction (spec_interrupt irq_cpu)).
Proof.
  apply (fallback_stays_in_block bus_t unit (λ _, 0) ∅ irq_inside irq_cpu unassigned_03
    (mkCtx [0x400; 0x401; 0x402; 0x403]) 1 mach_entry); try reflexivity.
  - split; [| |exact irq_bus|discriminate|].
    + split; try reflexivity; [exact irq_regs|exact (flat_ok _ irq_bus)|by compute|apply map_Forall_empty|discriminate].
    + split; try reflexivity. intros a. exact (flat_host _ a irq_bus).
    + intros _. exists jit_backend_create. split; [reflexivity|]. split; try reflexivity; [exact backend_create_ok| |by intros _; split|by intros bs [= <-]].
      intros i b insns Hi. change (blocks jit_backend_create) with (∅ : gmap Z rk65c02_jit_block) in Hi.
      by rewrite lookup_empty in Hi.
  - split; try reflexivity. by split.
  - split; [exact irq_regs|split; [exact irq_bus|done]|done].
  - split; [reflexivity|]. split_and!; simpl; lia.
  - by split.
Defined.

(** ** The API and the host's control *)

(** A program is loaded, the JIT enabled, run, memory written, the JIT flushed. *)
Lemma jit_reachable_exact_witness :
  let be := lightning_backend bus_t unit in
  let run c e := (api_run be c e).2 in
  emu_ok (run ApiJitFlush (run (ApiMemWrite 0x10 7) (run (ApiStart 10) (run (ApiJitEnable true)
    (rk65c02_init (jit_junk ram_bus) ram_bus))))).
Proof.
  assert (regs_ok zero_regs) as Hz by (split; simpl; lia). cbv zeta.
  apply (jit_reachable_exact bus_t unit (jit_junk ram_bus) ram_bus).
  - exact Hz.
  - exact (flat_ok _ ram_bus_flat).
  - apply reach_call; [|exact I]. apply reach_call; [|simpl; lia]. apply reach_call; [|exact I].
    apply reach_call; [|exact I]. apply reach_init.
Defined.

Lemma stop_request_every_loop_witness :
  let e := set_stop_requested true jit_small in
  jit_loop bus_t unit 5 false e = (Ret tt, host_stopped e).
Proof. cbv zeta. apply (stop_request_every_loop bus_t unit 4 false (set_stop_requested true jit_small)); reflexivity. Defined.

(** A host whose tick callback sets a breakpoint. *)
Program Definition watch_host : @HostOps jit_ram_sys := {|
  host_on_stop := λ _ _ _, mret tt;
  host_tick := λ _ addr, _ ← debug_breakpoint_add addr; mret tt;
  host_idle_wait := λ _ _, mret tt;
  host_mmu_translate := λ _ ctx vaddr _, mret (demo_translate ctx vaddr);
  host_mmu_fault := λ _ _ _ _ _, mret tt;
  host_device_read := λ _ _ _, mret tt;
  host_device_write := λ _ _ _ _, mret tt;
  indeterminate := 0
|}.
Next Obligation. lia. Qed.
Definition watch_emu : @rk65c02emu jit_ram_sys :=
  (rk65c02_tick_set (Some 0%nat) 1 0x0404 (jit_plain 0x0400 0x0400 [0xA9; 0x05; 0x85; 0x10; 0xDB])).2.
Definition watch_polled : @rk65c02emu jit_ram_sys :=
  (@rk65c02_poll_host_controls _ watch_host (dispatched bus_t unit watch_emu)).2.
Definition watch_left : @rk65c02emu jit_ram_sys := (@rk65c02_poll_host_controls _ watch_host watch_polled).2.

Lemma jit_debugging_abandons_witness :
  ∃ e2, @rk65c02_start _ _ watch_host _ (@rk65c02_run_jit bus_t unit _ watch_host _) 10 watch_emu = (Ret tt, e2) ∧
    state e2 = RUNNING ∧ PC (regs e2) = 0x0400.
Proof.
  exists watch_left. split.
  - apply (jit_debugging_abandons (HO := watch_host) bus_t unit 9 watch_emu watch_polled watch_left);
      vm_compute; reflexivity.
  - vm_compute. split; reflexivity.
Defined.
