(* ===== verification/ExHost.v ===== *)
(** What the host programs of [src/examples] share: instances that are still
    uninitialised, the two builds of the library an example may be linked with,
    and the run of a [main].

    A [main] is a computation of the emulator monad started on an uninitialised
    [e]; it returns the exit status.  What it prints on [stdout] and [stderr] is
    left out where it only words the exit status. *)
From stdpp Require Import base numbers list gmap strings.
From S2P Require Import Prelude Types Isa BusSpec Bus State Interfaces Mmu Instruction Emulation.
From S2P Require Import Disasm Debug Exec Api Invariant MmuSpec JitCache JitEmit Jit JitNative Remap.

(** Hosts without devices of their own. *)
Program Definition no_devices : DeviceHost := {|
  dev_priv := unit;
  host_read_1 := λ _ p _, (0, p);
  host_write_1 := λ _ p _ _, p;
  host_finish := λ _ _, None
|}.
Next Obligation. intros. simpl. lia. Qed.

(** A system on the bus of [bus.c]: [J] is the data of the JIT backend, [H] the
    host's own. *)
Definition ex_sys {DH : DeviceHost} (J H : Type) : Sys :=
  {| sys_bus := bus_t; sys_jit := J; sys_host := H |}.

(** [n] bytes of RAM from [a] on, at the start of device [d]'s mapping at 0. *)
Definition ram_span {DH : DeviceHost} (b : bus_t) (d : nat) (a n : Z) : bool :=
  forallb (λ x, bool_decide (ram_cell b x = Some (d, x))) (seqZ a n).
Lemma ram_span_cell {DH : DeviceHost} b d a n x : ram_span b d a n = true → a ≤ x < a + n →
  ram_cell b x = Some (d, x).
Proof.
  intros H%forallb_Forall Hx. rewrite Forall_forall in H.
  eapply bool_decide_eq_true_1, H, elem_of_seqZ. lia.
Qed.

(** The answer of the hosts that map and forbid nothing. *)
Definition rwx (paddr : Z) (no_fill : bool) : rk65c02_mmu_result_t :=
  mkMmuResult true paddr (RK65C02_MMU_PERM_R ||| RK65C02_MMU_PERM_W ||| RK65C02_MMU_PERM_X) 0 no_fill.
Lemma answer_rwx paddr n req : 0 ≤ paddr < RK65C02_PHYS_MAX → Z.land 7 req = req →
  answer (rwx paddr n) req = Xok paddr.
Proof.
  intros Hp Hr. unfold answer, rwx. cbn [r_ok r_perms r_paddr negb].
  change (RK65C02_MMU_PERM_R ||| RK65C02_MMU_PERM_W ||| RK65C02_MMU_PERM_X) with 7.
  rewrite Hr, Z.eqb_refl. cbn. by rewrite (proj2 (Z.leb_gt _ _)) by lia.
Qed.


Section Host.
Context {DH : DeviceHost} (J H : Type).
#[local] Hint Extern 0 Sys => exact (ex_sys J H) : typeclass_instances.

Definition ex_bus : SysBus := {| sys_bus_ops := bus_ops |}.

(** One possible content of the automatic variable [e]. *)
Definition blank (h : H) : rk65c02emu := {|
  state := STOPPED; bus := bus_init : sys_bus; regs := mkRegs 0 0 0 0 0 0; stopreason := HOST;
  mmu_last_fault_addr := 0; mmu_last_fault_access := RK65C02_MMU_READ; mmu_last_fault_code := 0;
  irq := false; bps_head := []; runtime_disassembly := false; trace := false; trace_head := [];
  use_jit := false; jit_loop_budget := 0; jit_requested := false; jit := None;
  in_jit_run := false; stop_requested := false; on_stop := None; on_stop_ctx := 0;
  tick := None; tick_ctx := 0; tick_interval := 0; tick_countdown := 0;
  idle_wait_enabled := false; idle_wait := None; idle_wait_ctx := 0;
  mmu_enabled := false; mmu_identity_fastpath := false; mmu_identity_active := false;
  mmu_update_pending := false; mmu_epoch := 0; mmu_translate := None; mmu_translate_ctx := 0;
  mmu_fault := None; mmu_fault_ctx := 0; mmu_fault_reexec := false; mmu_tlb_enabled := false;
  mmu_changed_all := false; mmu_changed_vpage := ∅; mmu_tlb_hits := 0; mmu_tlb_misses := 0;
  mmu_tlb := ∅; mem_read_1_fn := mem_direct; mem_write_1_fn := mem_direct;
  host := h : sys_host |}.

(** [e = rk65c02_init(&b)]: from here on the bus is the instance's. *)
Definition ex_init (b : bus_t) : M unit := modify (λ e, rk65c02_init e (b : sys_bus)).
(** [bus_finish(&b)] on the instance's bus. *)
Definition ex_finish : M unit := modify (λ e, set_bus (bus_finish (bus e) : sys_bus) e).

(** [bus_read_1(e->bus, addr)] and [bus_write_1] called by the host.  None of
    the hosts' own accesses reaches a device that calls back. *)
Definition host_bus_read_1 (addr : Z) : M Z :=
  e ← get;
  let '(v, b) := bus_read_1 (bus e) addr in
  modify (set_bus (b : sys_bus));; mret v.
Definition host_bus_write_1 (addr val : Z) : M unit :=
  modify (λ e, set_bus (bus_write_1 (bus e) addr val : sys_bus) e).

(** Reading RAM changes nothing. *)
Lemma host_read_ram addr e : is_Some (ram_cell (bus e) addr) →
  host_bus_read_1 addr e = (Ret (mem_at (bus e : bus_t) addr), e).
Proof.
  intros Hr. unfold host_bus_read_1. erewrite bind_Ret by reflexivity.
  rewrite (bus_read_1_ram (bus e) addr Hr). unfold modify, mret, M_ret, mbind, M_bind.
  by destruct e.
Qed.

End Host.

(** Code generated by lightning that does what its list of instructions says. *)
Definition ex_code {DH : DeviceHost} (H : Type) {SB : @SysBus (ex_sys rk65c02_jit H)}
    {HO : @HostOps (ex_sys rk65c02_jit H)} : @Lightning (ex_sys rk65c02_jit H) := {|
  jit_emit := λ _, true;
  native_exec := λ code, _ ← block_run bus_t H (λ _, 0) JIT_NATIVE_BOUND code; mret tt
|}.
