(* ===== verification/ExPae.v ===== *)
(** The host of [src/examples/mmu_pae.c]: a page table in the memory of the bus
    that the translation callback walks, physical memory above 64K, and demand
    paging by restarting after a fault. *)
From stdpp Require Import base numbers list gmap strings.
From S2P Require Import Prelude Types Isa BusSpec Bus State Interfaces Mmu Instruction Emulation.
From S2P Require Import Disasm Debug Exec Api Invariant MmuSpec JitCache JitEmit Jit JitNative Remap.
From S2P Require Import ExHost.

Definition PAGE_TABLE_PHYS : Z := 0x0400.
Definition EXT_PHYS_BASE : Z := 0x10000.
Definition EXT_PAGE_SIZE : Z := 256.
Definition PAE_ROM_LOAD_ADDR : Z := 0xC000.
Definition PRESENT_BIT : Z := 1.

#[local] Existing Instance no_devices.

Definition install_page (b : bus_t) (vpage phys_base : Z) : bus_t :=
  let addr := u32 (PAGE_TABLE_PHYS + vpage * 4) in
  let entry := (phys_base &&& 0xFFFFFF00) ||| PRESENT_BIT in
  let b := bus_write_1 b (u16 (addr + 0)) (u8 (entry ≫ 0)) in
  let b := bus_write_1 b (u16 (addr + 1)) (u8 (entry ≫ 8)) in
  let b := bus_write_1 b (u16 (addr + 2)) (u8 (entry ≫ 16)) in
  bus_write_1 b (u16 (addr + 3)) (u8 (entry ≫ 24)).

(** The bus [main] sets up: RAM, the extended page, the page table and the
    program. *)
Definition pae_bus : bus_t :=
  let b := bus_init_with_default_devs in
  let '(d, b) := dev_alloc b (device_ram_init EXT_PAGE_SIZE) in
  let b := bus_device_add_phys b d EXT_PHYS_BASE in
  let b := install_page b 0 EXT_PHYS_BASE in
  let b := foldl (λ b i, bus_write_1 b (u16 (PAGE_TABLE_PHYS + 4 * 1 + i)) 0) b (seqZ 0 4) in
  let b := foldl (λ b vp, install_page b (u8 vp) (u32 (vp ≪ 8))) b (seqZ 2 254) in
  let b := bus_write_1_phys b (EXT_PHYS_BASE + 0x10) 0x5A in
  let b := bus_write_1 b 0x0111 0xAB in
  foldl (λ b q, bus_write_1 b (PAE_ROM_LOAD_ADDR + q.1) q.2) b
    [(0, 0xA5); (1, 0x10); (2, 0x85); (3, 0x20); (4, 0xAD); (5, 0x11); (6, 0x01); (7, 0xDB)].

(** ** The page table as a mapping *)

(** Bytes put together in little-endian order. *)
Definition le32 (b0 b1 b2 b3 : Z) : Z := b0 ||| u32 (b1 ≪ 8) ||| u32 (b2 ≪ 16) ||| u32 (b3 ≪ 24).

Lemma le32_add b0 b1 b2 b3 : byte b0 → byte b1 → byte b2 → byte b3 →
  le32 b0 b1 b2 b3 = b0 + 256 * b1 + 65536 * b2 + 16777216 * b3.
Proof.
  intros H0 H1 H2 H3. unfold le32. rewrite !u32_small by (rewrite Z.shiftl_mul_pow2 by lia; lia).
  rewrite (lor_high b0 b1 8) by lia. rewrite (lor_high (b0 + b1 * 2 ^ 8) b2 16) by lia.
  rewrite (lor_high (b0 + b1 * 2 ^ 8 + b2 * 2 ^ 16) b3 24) by lia. lia.
Qed.

Lemma le32_split x : 0 ≤ x < 4294967296 → le32 (u8 (x ≫ 0)) (u8 (x ≫ 8)) (u8 (x ≫ 16)) (u8 (x ≫ 24)) = x.
Proof.
  intros Hx. rewrite le32_add by apply u8_byte. rewrite !Z.shiftr_div_pow2 by lia. unfold u8.
  change (2 ^ 0) with 1. change (2 ^ 8) with 256. change (2 ^ 16) with 65536. change (2 ^ 24) with 16777216.
  rewrite Z.div_1_r. change 65536 with (256 * 256). change 16777216 with (256 * 256 * 256).
  rewrite <- !Z.div_div by lia. pose proof (Z.div_mod x 256). pose proof (Z.div_mod (x / 256) 256).
  pose proof (Z.div_mod (x / 256 / 256) 256).
  assert (0 ≤ x / 256 / 256 / 256 < 256).
  { rewrite !Z.div_div by lia. split; [apply Z.div_pos; lia|]. apply Z.div_lt_upper_bound; lia. }
  rewrite (Z.mod_small (x / 256 / 256 / 256)) by done. lia.
Qed.

Definition entry_addr (vpage : Z) : Z := PAGE_TABLE_PHYS + vpage * 4.
Definition pae_entry (m : Z → Z) (vpage : Z) : Z :=
  let t := entry_addr vpage in le32 (m (t + 0)) (m (t + 1)) (m (t + 2)) (m (t + 3)).

(** The mapping the page table in a memory describes. *)
Definition pae_pt (m : Z → Z) : mapping := λ v _,
  let entry := pae_entry m (page v) in
  if entry &&& PRESENT_BIT =? 0 then mkMmuResult false 0 0 1 false
  else mkMmuResult true ((entry &&& 0xFFFFFF00) ||| (v &&& 0xFF)) 7 0 false.

(** The page table is in RAM, and no two of its bytes share a cell. *)
Definition in_table (a : Z) : Prop := 0x0400 ≤ a < 0x0800.
Record table_ram (b : bus_t) : Prop := {
  tr_ok : bus_ok b;
  tr_ram : ∀ a, in_table a → is_Some (ram_cell b a);
  tr_inj : ∀ a a', in_table a → in_table a' → ram_cell b a = ram_cell b a' → a = a'
}.

Lemma table_byte b a : table_ram b → in_table a → byte (mem_at b a).
Proof.
  intros [Hok Hr _] Ha. apply (mem_at_byte b a); [done|unfold in_table in Ha; lia|by apply Hr].
Qed.

Lemma table_write b a v : table_ram b → in_table a → byte v → table_ram (bus_write_1 b a v).
Proof.
  intros [Hok Hr Hi] Ha Hv. split; [by apply bus_write_1_ok|..].
  - intros x Hx. rewrite bus_write_1_cell by auto. auto.
  - intros x y Hx Hy. rewrite !bus_write_1_cell by auto. auto.
Qed.

Lemma table_write_mem b a v x : table_ram b → in_table a → in_table x →
  mem_at (bus_write_1 b a v) x = if decide (a = x) then v else mem_at b x.
Proof.
  intros [Hok Hr Hi] Ha Hx. rewrite bus_write_1_mem by auto.
  repeat case_decide; auto; by subst || exfalso; eauto.
Qed.

Lemma entry_in_table vpage k : byte vpage → 0 ≤ k < 4 → in_table (entry_addr vpage + k).
Proof. unfold entry_addr, in_table, PAGE_TABLE_PHYS. lia. Qed.

Lemma entry_index vpage k : byte vpage → 0 ≤ k < 4 →
  u16 (u32 (PAGE_TABLE_PHYS + vpage * 4) + k) = entry_addr vpage + k.
Proof.
  intros Hp Hk. pose proof (entry_in_table vpage k Hp Hk) as H. unfold in_table, entry_addr in *.
  rewrite u32_small by (unfold PAGE_TABLE_PHYS; lia). apply u16_small. lia.
Qed.

(** Installing a page writes its entry and no other. *)
Lemma install_page_entry b vpage base p : table_ram b → byte vpage → 0 ≤ base < 4294967296 → byte p →
  table_ram (install_page b vpage base) ∧
  pae_entry (mem_at (install_page b vpage base)) p =
    if decide (p = vpage) then (base &&& 0xFFFFFF00) ||| PRESENT_BIT else pae_entry (mem_at b) p.
Proof.
  intros Hb Hv Hbase Hp. unfold install_page. rewrite !entry_index by (done || lia). cbv zeta.
  set (x := (base &&& 0xFFFFFF00) ||| PRESENT_BIT).
  assert (0 ≤ x < 4294967296) as Hx.
  { unfold x, PRESENT_BIT. change 1 with (1 &&& 0xFF).
    rewrite page_or_offset by by apply page_base_aligned. rewrite page_base by done.
    change (u8 1) with 1. pose proof (Z.mod_pos_bound base 256). pose proof (Z.div_mod base 256). lia. }
  assert (∀ k, 0 ≤ k < 4 → in_table (entry_addr vpage + k)) as Ht by (intros; by apply entry_in_table).
  repeat match goal with |- context [bus_write_1 ?b0 (entry_addr vpage + ?k) ?v] =>
    lazymatch b0 with bus_write_1 _ _ _ => fail | _ => idtac end;
    assert (table_ram (bus_write_1 b0 (entry_addr vpage + k) v)) by
      (apply table_write; [done|apply Ht; lia|apply u8_byte]);
    assert (∀ y, in_table y → mem_at (bus_write_1 b0 (entry_addr vpage + k) v) y =
      if decide (entry_addr vpage + k = y) then v else mem_at b0 y) by
      (intros; apply table_write_mem; [done|apply Ht; lia|done]);
    generalize dependent (bus_write_1 b0 (entry_addr vpage + k) v); intros end.
  split; [done|]. unfold pae_entry. cbv zeta.
  repeat match goal with H : ∀ y, in_table y → mem_at ?b y = _ |- context [mem_at ?b _] =>
    rewrite !H by (by apply entry_in_table) end.
  destruct (decide (p = vpage)) as [->|Hne].
  - repeat first [rewrite decide_True by lia | rewrite decide_False by lia]. by apply le32_split.
  - by repeat (rewrite decide_False by (unfold entry_addr; lia)).
Qed.

Section Pae.
Context (J : Type).
#[local] Hint Extern 0 Sys => exact (ex_sys J unit) : typeclass_instances.
#[local] Hint Extern 0 SysBus => exact (ex_bus J unit) : typeclass_instances.

Definition pae_translate (vaddr : Z) (access : rk65c02_mmu_access_t) : M rk65c02_mmu_result_t :=
  let vpage := u8 (vaddr ≫ 8) in
  let entry_addr := u32 (PAGE_TABLE_PHYS + vpage * 4) in
  b0 ← host_bus_read_1 J unit (u16 (entry_addr + 0));
  b1 ← host_bus_read_1 J unit (u16 (entry_addr + 1));
  b2 ← host_bus_read_1 J unit (u16 (entry_addr + 2));
  b3 ← host_bus_read_1 J unit (u16 (entry_addr + 3));
  let entry := b0 ||| u32 (b1 ≪ 8) ||| u32 (b2 ≪ 16) ||| u32 (b3 ≪ 24) in
  if entry &&& PRESENT_BIT =? 0 then mret (mkMmuResult false 0 0 1 false)
  else
    let paddr := (entry &&& 0xFFFFFF00) ||| (vaddr &&& 0xFF) in
    mret (mkMmuResult true paddr
      (RK65C02_MMU_PERM_R ||| RK65C02_MMU_PERM_W ||| RK65C02_MMU_PERM_X) 0 false).

(** [pae_translate] is the host's only callback. *)
Definition pae_host : HostOps.
Proof.
  refine {|
    host_on_stop := λ _ _ _, mret tt;
    host_tick := λ _ _, mret tt;
    host_idle_wait := λ _ _, mret tt;
    host_mmu_translate := λ _ _ vaddr access, pae_translate vaddr access;
    host_mmu_fault := λ _ _ _ _ _, mret tt;
    host_device_read := λ _ _ _, mret tt;
    host_device_write := λ _ _ _ _, mret tt;
    indeterminate := 0
  |}.
  lia.
Defined.
#[local] Existing Instance pae_host.

Context {JO : JitOps} (jit_enable : bool → M unit) (run_jit : nat → M unit).

(** What [main] does about a page that is not present. *)
Definition pae_service : M unit :=
  addr ← gets (λ e, mmu_last_fault_addr e);
  let vpage := u8 (addr ≫ 8) in
  modify (λ e, set_bus (install_page (bus e) vpage (u32 (vpage ≪ 8)) : sys_bus) e);;
  remap [vpage].

(** The [for (;;)] of [main], which returns from the loop with the exit status
    of a failure or leaves it; [n] bounds the rounds. *)
Fixpoint pae_loop (n : nat) (fuel : nat) (run_count : Z) : M (option Z) :=
  match n with
  | O => no_fuel
  | S n' =>
      rk65c02_start run_jit fuel;;
      let run_count := u32 (run_count + 1) in
      e ← get;
      if bool_decide (stopreason e = STP) then mret None
      else if bool_decide (stopreason e = EMUERROR) && (mmu_last_fault_code e =? 1) then
        pae_service;;
        if run_count >=? 4 then mret (Some 1) else pae_loop n' fuel run_count
      else mret (Some 1)
  end.

Definition pae_main (fuel : nat) : M Z :=
  ex_init J unit pae_bus;;
  jit_enable true;;
  ok ← rk65c02_mmu_set (Some 0%nat) 0 None 0 true false;
  if negb ok then ex_finish J unit;; mret 1
  else
    put_PC PAE_ROM_LOAD_ADDR;;
    r ← pae_loop 4 fuel 0;
    match r with
    | Some status => ex_finish J unit;; mret status
    | None =>
        a ← get_A;
        if negb (a =? 0xAB) then ex_finish J unit;; mret 1
        else
          e ← get;
          if negb ((bus_read_1_phys (bus e) (EXT_PHYS_BASE + 0x20)).1 =? 0x5A)
          then ex_finish J unit;; mret 1
          else ex_finish J unit;; mret 0
    end.

(** ** The contract of the translation callback *)

Lemma pae_entry_range b p : table_ram b → byte p → 0 ≤ pae_entry (mem_at b) p < 4294967296.
Proof.
  intros Hb Hp. unfold pae_entry. cbv zeta.
  assert (∀ k, 0 ≤ k < 4 → byte (mem_at b (entry_addr p + k))) as Ht
    by (intros; apply table_byte; [done|by apply entry_in_table]).
  pose proof (Ht 0 ltac:(lia)). pose proof (Ht 1 ltac:(lia)). pose proof (Ht 2 ltac:(lia)).
  pose proof (Ht 3 ltac:(lia)). rewrite le32_add by done. lia.
Qed.

Lemma pae_paddr b v p : table_ram b → page v = p →
  (pae_entry (mem_at b) p &&& 0xFFFFFF00) ||| (v &&& 0xFF) =
    pae_entry (mem_at b) p - pae_entry (mem_at b) p mod 256 + u8 v.
Proof.
  intros Hb <-. pose proof (pae_entry_range b (page v) Hb (page_byte v)).
  rewrite page_or_offset by by apply page_base_aligned. by rewrite page_base.
Qed.

Lemma pae_translate_reads v a e : table_ram (bus e) →
  pae_translate v a e = (Ret (pae_pt (mem_at (bus e : bus_t)) v a), e).
Proof.
  intros Hb. unfold pae_translate. fold (page v).
  rewrite !entry_index by (apply page_byte || lia).
  do 4 (erewrite bind_Ret by (apply host_read_ram, Hb, entry_in_table; [apply page_byte|lia])).
  unfold pae_pt, pae_entry, le32. by destruct (_ =? 0).
Qed.

Lemma pae_page_stable b : table_ram b → page_stable (pae_pt (mem_at b)).
Proof.
  intros Hb v a Hv Hok _ _ v' a' Hv' Hp. unfold pae_pt in *.
  rewrite (pae_paddr b v _ Hb eq_refl) in *. rewrite (pae_paddr b v' _ Hb eq_refl). rewrite Hp.
  destruct (_ =? 0); [done|]. cbn. split_and!; [done..|]. lia.
Qed.

Lemma pae_mapping_typed b : table_ram b → mapping_typed (pae_pt (mem_at b)).
Proof.
  intros Hb v a Hv. unfold pae_pt. rewrite (pae_paddr b v _ Hb eq_refl).
  pose proof (pae_entry_range b (page v) Hb (page_byte v)). pose proof (u8_byte v).
  pose proof (Z.mod_pos_bound (pae_entry (mem_at b) (page v)) 256).
  pose proof (Z.div_mod (pae_entry (mem_at b) (page v)) 256).
  destruct (_ =? 0); cbn; lia.
Qed.

(** A page table walked in memory.  While the table is in RAM, the callback
    of [mmu_pae.c] is a function of the table's bytes that changes nothing and
    answers alike for every address of a page, so that it keeps the contract of
    the MMU and its answers may be cached. *)
Lemma pae_keeps_contract e : mmu_translate e = Some 0%nat → table_ram (bus e) →
  callback_is (pae_pt (mem_at (bus e : bus_t))) e ∧ page_stable (pae_pt (mem_at (bus e : bus_t))) ∧
  mapping_typed (pae_pt (mem_at (bus e : bus_t))).
Proof.
  intros Hcb Hb. split; [|split; [by apply pae_page_stable|by apply pae_mapping_typed]].
  exists 0%nat. split; [done|]. intros v a e' Ht.
  assert (bus e' = bus e) as <- by by destruct Ht as (?&?&?&->). apply pae_translate_reads.
  by destruct Ht as (?&?&?&->).
Qed.

(** ** Demand paging *)

Lemma base_or_present base : 0 ≤ base < 4294967296 → base mod 256 = 0 →
  (base &&& 0xFFFFFF00) ||| PRESENT_BIT = base + 1.
Proof.
  intros Hb Hm. unfold PRESENT_BIT. change 1 with (1 &&& 0xFF) at 1.
  rewrite page_or_offset by by apply page_base_aligned. rewrite page_base by done.
  change (u8 1) with 1. lia.
Qed.

(** A page installed at a base answers with the base and the offset. *)
Lemma install_page_maps b vpage base v a : table_ram b → byte vpage → 0 ≤ base < 4294967296 →
  base mod 256 = 0 → page v = vpage →
  pae_pt (mem_at (install_page b vpage base)) v a = mkMmuResult true (base + u8 v) 7 0 false.
Proof.
  intros Hb Hp Hbase Hm Hv. unfold pae_pt. rewrite Hv.
  destruct (install_page_entry b vpage base vpage Hb Hp Hbase Hp) as [_ E].
  rewrite decide_True, base_or_present in E by done. rewrite E. cbv zeta.
  assert ((base + 1) &&& PRESENT_BIT = 1) as ->.
  { unfold PRESENT_BIT. change ((base + 1) &&& 1) with ((base + 1) &&& Z.ones 1). rewrite Z.land_ones by lia.
    change (2 ^ 1) with 2. rewrite <- (Z.mod_unique (base + 1) 2 (base / 2) 1); [done|lia|].
    pose proof (Z.div_mod base 256). pose proof (Z.div_mod base 2).
    assert (base mod 2 = 0); [|lia].
    replace base with (128 * (base / 256) * 2) by lia. apply Z_mod_mult. }
  cbn. f_equal. rewrite page_or_offset.
  - pose proof (Z.div_mod base 256). rewrite page_base by lia.
    rewrite <- (Z.mod_unique (base + 1) 256 (base / 256) 1) by lia. lia.
  - apply page_base_aligned. pose proof (Z.div_mod base 256). lia.
Qed.
Lemma install_page_other b vpage base p : table_ram b → byte vpage → 0 ≤ base < 4294967296 →
  byte p → p ≠ vpage →
  same_on (pae_pt (mem_at b)) (pae_pt (mem_at (install_page b vpage base))) p.
Proof.
  intros Hb Hv Hbase Hp Hne v a _ Hpv. unfold pae_pt. rewrite Hpv.
  destruct (install_page_entry b vpage base p Hb Hv Hbase Hp) as [_ ->]. by rewrite decide_False.
Qed.

Context {JK : JitKeepsMmu}.

(** C21: demand paging.  After a fault, with the page tables in RAM and the TLB
    coherent with them, what [main] of [mmu_pae.c] does installs the page of the
    fault address: every address of that page now translates to itself for every
    kind of access; no other page is mapped differently, the TLB is coherent
    with the new tables, and the processor is where it was, so that the faulting
    instruction can be run again. *)
Theorem pae_demand_paging e : mmu_enabled e = true → mmu_translate e = Some 0%nat →
  table_ram (bus e) → coherent (pae_pt (mem_at (bus e : bus_t))) e → word (mmu_last_fault_addr e) →
  ∃ e', pae_service e = (Ret tt, e') ∧ regs e' = regs e ∧ table_ram (bus e') ∧
    coherent (pae_pt (mem_at (bus e' : bus_t))) e' ∧
    (∀ p, byte p → p ≠ page (mmu_last_fault_addr e) →
       same_on (pae_pt (mem_at (bus e : bus_t))) (pae_pt (mem_at (bus e' : bus_t))) p) ∧
    (∀ v a req, word v → page v = page (mmu_last_fault_addr e) → Z.land 7 req = req →
       ∃ e2, rk65c02_mmu_translate_addr v a req e' = (Ret (Xok v), e2)).
Proof.
  intros Hen Hcb Hb Hco Hfa. set (vp := page (mmu_last_fault_addr e)).
  pose proof (page_byte (mmu_last_fault_addr e)) as Hvp. fold vp in Hvp.
  assert (u32 (vp ≪ 8) = vp * 256) as Ebase by (rewrite Z.shiftl_mul_pow2 by lia; apply u32_small; lia).
  set (b1 := install_page (bus e) vp (vp * 256)).
  destruct (install_page_entry (bus e) vp (vp * 256) vp Hb Hvp ltac:(lia) Hvp) as [Hb1 _].
  set (e1 := set_bus (SY := ex_sys J unit) b1 e).
  assert (∀ p, byte p → p ≠ vp → same_on (pae_pt (mem_at (bus e : bus_t))) (pae_pt (mem_at b1)) p) as Hother
    by (intros; apply install_page_other; (done || lia)).
  destruct (remap_coherent (pae_pt (mem_at (bus e : bus_t))) (pae_pt (mem_at b1)) [vp] e1)
    as (e'&E&Hk&Hco'); [done|by constructor|done|intros p Hp Hn; apply Hother; [done|set_solver]|].
  assert (bus e' = b1) as Hbus by exact (rk_bus _ _ Hk).
  exists e'. rewrite Hbus. split; [|split; [exact (rk_regs _ _ Hk)|split; [done|split; [done|split; [done|]]]]].
  - unfold pae_service. erewrite bind_Ret by reflexivity. cbv beta.
    fold (page (mmu_last_fault_addr e)). fold vp. rewrite Ebase.
    by erewrite bind_Ret by reflexivity.
  - intros v a req Hv Hp Hreq.
    destruct (pae_keeps_contract e') as (Hcb'&Hst&Hty); [by rewrite (rk_translate _ _ Hk)|by rewrite Hbus|].
    rewrite Hbus in *. destruct (translate_addr_spec _ e' v a req Hcb' Hst Hty Hco' Hv) as (e2&E2&_).
    exists e2. rewrite E2. unfold translate_spec. unfold b1 at 1.
    rewrite install_page_maps; [|done|done|lia|by rewrite Z_mod_mult|by rewrite Hp].
    rewrite <- Hp, page_split by done. unfold answer. cbn. rewrite Hreq, Z.eqb_refl. cbn.
    unfold RK65C02_PHYS_MAX. by rewrite (proj2 (Z.leb_gt _ _)) by lia.
Qed.

(** Four rounds are all that [main] makes. *)
Lemma pae_loop_bounded n k fuel c : 0 ≤ c → 4 ≤ c + Z.of_nat n → c < 4 →
  pae_loop (n + k) fuel c = pae_loop n fuel c.
Proof.
  revert c. induction n as [|n IH]; intros c Hc Hn H4; [lia|]. cbn [Nat.add pae_loop].
  rewrite u32_small by lia. destruct (Z.geb_spec (c + 1) 4); [done|]. by rewrite IH by lia.
Qed.

End Pae.

(** ** The program, with either backend *)

Section Stub.
#[local] Hint Extern 0 Sys => exact (ex_sys unit unit) : typeclass_instances.
#[local] Hint Extern 0 SysBus => exact (ex_bus unit unit) : typeclass_instances.
#[local] Hint Extern 0 HostOps => exact (pae_host unit) : typeclass_instances.
#[local] Hint Extern 0 JitOps => exact jit_stub : typeclass_instances.
Definition pae_stub_main (fuel : nat) : M Z := pae_main unit stub_jit_enable stub_run_jit fuel.
(** The instance at the first fault: page 1 is not present. *)
Definition pae_faulted : rk65c02emu :=
  ((ex_init unit unit pae_bus;; _ ← rk65c02_mmu_set (Some 0%nat) 0 None 0 true false;
    put_PC PAE_ROM_LOAD_ADDR;; rk65c02_start stub_run_jit 10) (blank unit unit tt)).2.

Lemma pae_faulted_table : table_ram (bus pae_faulted).
Proof.
  assert (∀ a, in_table a → ram_cell (bus pae_faulted) a = Some (0%nat, a)) as Hc.
  { intros a Ha. apply (ram_span_cell _ _ 0x0400 0x0400); [vm_compute; reflexivity|].
    unfold in_table in Ha. lia. }
  split; [apply bus_okb_ok; vm_compute; reflexivity|..].
  - intros a Ha. by rewrite Hc.
  - intros a a' Ha Ha'. rewrite !Hc by done. congruence.
Qed.

(** The page that faulted, the stack page, is mapped and nothing is left of the
    old mapping. *)
Lemma pae_demand_paging_witness : ∃ e', pae_service unit pae_faulted = (Ret tt, e') ∧
  ∃ e2, rk65c02_mmu_translate_addr 0x0111 RK65C02_MMU_READ RK65C02_MMU_PERM_R e' = (Ret (Xok 0x0111), e2).
Proof.
  destruct (pae_demand_paging unit (JK := stub_keeps_mmu) pae_faulted) as (e'&E&_&_&_&_&Hx).
  - vm_compute. reflexivity.
  - vm_compute. reflexivity.
  - exact pae_faulted_table.
  - apply coherentb_ok. vm_compute. reflexivity.
  - vm_compute. split; [discriminate|reflexivity].
  - exists e'. split; [exact E|]. apply Hx; [lia|vm_compute; reflexivity..].
Defined.

End Stub.

Section Lightning.
#[local] Hint Extern 0 Sys => exact (ex_sys rk65c02_jit unit) : typeclass_instances.
#[local] Hint Extern 0 SysBus => exact (ex_bus rk65c02_jit unit) : typeclass_instances.
#[local] Hint Extern 0 HostOps => exact (pae_host rk65c02_jit) : typeclass_instances.
#[local] Hint Extern 0 JitOps => exact (lightning_jit bus_t unit) : typeclass_instances.
#[local] Existing Instance ex_code.
Definition pae_jit_main (fuel : nat) : M Z :=
  pae_main rk65c02_jit (rk65c02_jit_enable bus_t unit) (rk65c02_run_jit bus_t unit) fuel.
End Lightning.

(** The program of [mmu_pae.c] passes.  Linked with either backend, [main]
    exits with status 0: the guest has read and written extended physical memory
    through page 0, has faulted on page 1, and has read it after the host
    mapped it and restarted. *)
Theorem pae_main_passes :
  (pae_stub_main 10 (blank unit unit tt)).1 = Ret 0 ∧ (pae_jit_main 10 (blank rk65c02_jit unit tt)).1 = Ret 0.
Proof. vm_compute. split; reflexivity. Qed.
