(* ===== verification/ExMpu.v ===== *)
(** The host of [src/examples/mmu_mpu.c]: a memory protection unit as a device
    whose registers the guest programs, a translation callback that enforces
    them, and a fault callback that records the violation and interrupts.

    The unit's registers are reached by the device ([d->config]) and by the two
    callbacks (their context), which all point at one [struct mpu_ctx]: the
    model keeps it in the device, and the context is the index of the device.
    [mc_e] tells whether [ctx->e] has been set. *)
From stdpp Require Import base numbers list gmap strings.
From S2P Require Import Prelude Types Isa BusSpec Bus State Interfaces Mmu Instruction Emulation.
From S2P Require Import Disasm Debug Exec Api Invariant MmuSpec JitCache JitEmit Jit JitNative Remap.
From S2P Require Import ExHost.

Definition MPU_MMIO_BASE : Z := 0xFE00.
Definition MPU_MMIO_SIZE : Z := 16.
Definition REG_CONTROL : Z := 0.
Definition REG_R0_START_LO : Z := 1.
Definition REG_R0_START_HI : Z := 2.
Definition REG_R0_END_LO : Z := 3.
Definition REG_R0_END_HI : Z := 4.
Definition REG_R0_PERMS : Z := 5.
Definition REG_VIOL_ADDR_LO : Z := 10.
Definition REG_VIOL_ADDR_HI : Z := 11.
Definition REG_VIOL_TYPE : Z := 12.
Definition REG_CLEAR : Z := 13.
Definition CONTROL_MPU_EN : Z := 0x01.
Definition CONTROL_IRQ_EN : Z := 0x02.
Definition PERM_R : Z := 0x01.
Definition PERM_W : Z := 0x02.
Definition PERM_X : Z := 0x04.
Definition VIOL_NONE : Z := 0.
Definition VIOL_READ : Z := 1.
Definition VIOL_WRITE : Z := 2.
Definition VIOL_FETCH : Z := 3.

Record mpu_state := mkMpu {
  control : Z;
  r0_start : Z;
  r0_end : Z;
  r0_perms : Z;
  viol_addr : Z;
  viol_type : Z
}.
Record mpu_ctx := mkMpuCtx { mc_state : mpu_state; mc_e : bool }.

Definition mpu_zero : mpu_state := mkMpu 0 0 0 0 0 0.
Definition mpu_put_control v s := mkMpu v (r0_start s) (r0_end s) (r0_perms s) (viol_addr s) (viol_type s).
Definition mpu_put_start v s := mkMpu (control s) v (r0_end s) (r0_perms s) (viol_addr s) (viol_type s).
Definition mpu_put_end v s := mkMpu (control s) (r0_start s) v (r0_perms s) (viol_addr s) (viol_type s).
Definition mpu_put_perms v s := mkMpu (control s) (r0_start s) (r0_end s) v (viol_addr s) (viol_type s).
Definition mpu_put_viol a t s := mkMpu (control s) (r0_start s) (r0_end s) (r0_perms s) a t.

(** ** The device *)

(** The conversions are those of the [uint8_t] fields and results. *)
Definition mpu_device_read_1 (s : mpu_state) (doff : Z) : Z :=
  if doff =? REG_CONTROL then u8 (control s)
  else if doff =? REG_R0_START_LO then u8 (r0_start s)
  else if doff =? REG_R0_START_HI then u8 (r0_start s ≫ 8)
  else if doff =? REG_R0_END_LO then u8 (r0_end s)
  else if doff =? REG_R0_END_HI then u8 (r0_end s ≫ 8)
  else if doff =? REG_R0_PERMS then u8 (r0_perms s)
  else if doff =? REG_VIOL_ADDR_LO then u8 (viol_addr s)
  else if doff =? REG_VIOL_ADDR_HI then u8 (viol_addr s ≫ 8)
  else if doff =? REG_VIOL_TYPE then u8 (viol_type s)
  else 0.

(** What [mpu_device_write_1] does to the registers. *)
Definition mpu_device_write_1 (s : mpu_state) (doff val : Z) : mpu_state :=
  if doff =? REG_CONTROL then mpu_put_control val s
  else
    let s := if doff =? REG_R0_START_LO then mpu_put_start ((r0_start s &&& 0xFF00) ||| val) s else s in
    let s := if doff =? REG_R0_START_HI
             then mpu_put_start ((r0_start s &&& 0x00FF) ||| u16 (val ≪ 8)) s else s in
    let s := if doff =? REG_R0_END_LO then mpu_put_end ((r0_end s &&& 0xFF00) ||| val) s else s in
    let s := if doff =? REG_R0_END_HI
             then mpu_put_end ((r0_end s &&& 0x00FF) ||| u16 (val ≪ 8)) s else s in
    let s := if doff =? REG_R0_PERMS then mpu_put_perms val s else s in
    if doff =? REG_CLEAR then mpu_put_viol (viol_addr s) VIOL_NONE s else s.

#[local] Program Instance mpu_devices : DeviceHost := {|
  dev_priv := mpu_ctx;
  host_read_1 := λ _ c doff, (mpu_device_read_1 (mc_state c) doff, c);
  host_write_1 := λ _ c doff val, mkMpuCtx (mpu_device_write_1 (mc_state c) doff val) (mc_e c);
  host_finish := λ _ _, None
|}.
Next Obligation.
  intros. cbn. unfold mpu_device_read_1. repeat case_match; try apply u8_byte. lia.
Qed.

Definition mpu_device_init (ctx : mpu_ctx) : device_t :=
  mkDevice "MPU" MPU_MMIO_SIZE (HostBody 0 ctx).

(** [*ctx], for the context that is the device [d]. *)
Definition mpu_get (b : bus_t) (d : nat) : mpu_ctx :=
  match dev_aux (dev_at b d) with HostBody _ c => c | RamBody _ => mkMpuCtx mpu_zero false end.
Definition mpu_put (b : bus_t) (d : nat) (c : mpu_ctx) : bus_t := dev_put b d (HostBody 0 c).

(** ** The translation callback *)

Definition mpu_answer (s : mpu_state) (vaddr : Z) (access : rk65c02_mmu_access_t) : rk65c02_mmu_result_t :=
  let rwx := RK65C02_MMU_PERM_R ||| RK65C02_MMU_PERM_W ||| RK65C02_MMU_PERM_X in
  if (vaddr >=? MPU_MMIO_BASE) && (vaddr <? MPU_MMIO_BASE + MPU_MMIO_SIZE) then
    mkMmuResult true vaddr (RK65C02_MMU_PERM_R ||| RK65C02_MMU_PERM_W) 0 true
  else if control s &&& CONTROL_MPU_EN =? 0 then mkMmuResult true vaddr rwx 0 false
  else if (vaddr >=? r0_start s) && (vaddr <=? r0_end s) then
    let perm := 0 in
    let perm := if ctrue (r0_perms s &&& PERM_R) then perm ||| RK65C02_MMU_PERM_R else perm in
    let perm := if ctrue (r0_perms s &&& PERM_W) then perm ||| RK65C02_MMU_PERM_W else perm in
    let perm := if ctrue (r0_perms s &&& PERM_X) then perm ||| RK65C02_MMU_PERM_X else perm in
    if bool_decide (access = RK65C02_MMU_FETCH) && (perm &&& RK65C02_MMU_PERM_X =? 0)
    then mkMmuResult false vaddr perm VIOL_FETCH false
    else if bool_decide (access = RK65C02_MMU_READ) && (perm &&& RK65C02_MMU_PERM_R =? 0)
    then mkMmuResult false vaddr perm VIOL_READ false
    else if bool_decide (access = RK65C02_MMU_WRITE) && (perm &&& RK65C02_MMU_PERM_W =? 0)
    then mkMmuResult false vaddr perm VIOL_WRITE false
    else mkMmuResult true vaddr perm 0 false
  else mkMmuResult true vaddr rwx 0 false.

(** ** Protection *)

(** Region 0 is in force for the address. *)
Definition mpu_guards (s : mpu_state) (v : Z) : Prop :=
  ¬ (MPU_MMIO_BASE ≤ v < MPU_MMIO_BASE + MPU_MMIO_SIZE) ∧ control s &&& CONTROL_MPU_EN ≠ 0 ∧
  r0_start s ≤ v ≤ r0_end s.

(** The register value a violation of each kind is documented to have. *)
Definition viol_of (a : rk65c02_mmu_access_t) : Z :=
  match a with
  | RK65C02_MMU_READ => VIOL_READ | RK65C02_MMU_WRITE => VIOL_WRITE | RK65C02_MMU_FETCH => VIOL_FETCH
  end.

Lemma mpu_answer_denied s v a : mpu_guards s v → r0_perms s &&& req_perm_cached a = 0 →
  r_ok (mpu_answer s v a) = false ∧ r_fault_code (mpu_answer s v a) = viol_of a.
Proof.
  intros (Hm&Hc&H1&H2) Hp. unfold mpu_answer.
  assert ((v >=? MPU_MMIO_BASE) && (v <? MPU_MMIO_BASE + MPU_MMIO_SIZE) = false) as -> by lia.
  rewrite (proj2 (Z.eqb_neq _ _) Hc). assert ((v >=? r0_start s) && (v <=? r0_end s) = true) as -> by lia.
  change PERM_R with RK65C02_MMU_PERM_R. change PERM_W with RK65C02_MMU_PERM_W.
  change PERM_X with RK65C02_MMU_PERM_X.
  destruct a; cbn [req_perm_cached] in Hp; rewrite Hp; change (ctrue 0) with false;
    repeat (destruct (ctrue _)); by split.
Qed.

Lemma mpu_answer_granted s v a : mpu_guards s v → r0_perms s &&& req_perm_cached a ≠ 0 →
  r_ok (mpu_answer s v a) = true ∧ r_paddr (mpu_answer s v a) = v ∧
  r_perms (mpu_answer s v a) &&& req_perm_cached a = req_perm_cached a.
Proof.
  intros (Hm&Hc&H1&H2) Hp. unfold mpu_answer.
  assert ((v >=? MPU_MMIO_BASE) && (v <? MPU_MMIO_BASE + MPU_MMIO_SIZE) = false) as -> by lia.
  rewrite (proj2 (Z.eqb_neq _ _) Hc). assert ((v >=? r0_start s) && (v <=? r0_end s) = true) as -> by lia.
  change PERM_R with RK65C02_MMU_PERM_R. change PERM_W with RK65C02_MMU_PERM_W.
  change PERM_X with RK65C02_MMU_PERM_X. apply Z.eqb_neq, negb_true_iff in Hp.
  destruct a; cbn [req_perm_cached] in *; (repeat (change (negb (?x =? 0)) with (ctrue x) in Hp));
    fold (ctrue (r0_perms s &&& RK65C02_MMU_PERM_R)) (ctrue (r0_perms s &&& RK65C02_MMU_PERM_W))
      (ctrue (r0_perms s &&& RK65C02_MMU_PERM_X)) in Hp; rewrite Hp; repeat (destruct (ctrue _)); by split_and!.
Qed.

(** *** The registers *)

Record mpu_typed (s : mpu_state) : Prop := {
  mt_start : word (r0_start s);
  mt_end : word (r0_end s)
}.

Lemma put_low w v : word w → byte v → (w &&& 0xFF00) ||| v = 256 * (w / 256) + v.
Proof.
  intros Hw Hv. assert (w &&& 0xFF00 = (w / 256) ≪ 8) as ->.
  { rewrite <- shiftr8_div. change 0xFF00 with (Z.ones 8 ≪ 8). rewrite <- (lohi_split w Hw) at 1.
    rewrite Z.land_lor_distr_l, <- Z.shiftl_land.
    assert (u8 w &&& (Z.ones 8 ≪ 8) = 0) as ->.
    { pose proof (u8_byte w). apply Z.bits_inj'. intros k Hk. rewrite Z.land_spec, Z.bits_0.
      destruct (Z.lt_ge_cases k 8); [rewrite Z.shiftl_spec_low by lia; by rewrite andb_false_r|].
      by rewrite (testbit_byte_above (u8 w) k). }
    rewrite Z.lor_0_l, Z.land_ones by lia. f_equal. apply Z.mod_small.
    rewrite shiftr8_div. split; [apply Z.div_pos; lia|]. apply Z.div_lt_upper_bound; lia. }
  rewrite Z.lor_comm, lor_high by lia. lia.
Qed.
Lemma put_high w v : byte v → (w &&& 0x00FF) ||| u16 (v ≪ 8) = u8 w + 256 * v.
Proof.
  intros Hv. change 0x00FF with 0xFF. rewrite land_255, u16_small by (rewrite Z.shiftl_mul_pow2; lia).
  apply lohi_add; [apply u8_byte|done].
Qed.
Lemma low_high h l : byte l → u8 (256 * h + l) = l ∧ (256 * h + l) ≫ 8 = h.
Proof.
  intros Hl. rewrite shiftr8_div. unfold u8. rewrite Z.add_comm, Z.mul_comm. split.
  - rewrite Z_mod_plus_full. apply Z.mod_small. lia.
  - rewrite Z_div_plus_full, Z.div_small by lia. lia.
Qed.

(** The unit's registers.  Configuration registers 0 to 5 hold the byte
    written last and are independent of each other; the violation registers are
    read-only, but that a write to register 13 clears the violation type; the
    other offsets read 0. *)
Theorem mpu_registers_roundtrip s off off' val : mpu_typed s → byte val →
  0 ≤ off < MPU_MMIO_SIZE → 0 ≤ off' < MPU_MMIO_SIZE →
  mpu_device_read_1 (mpu_device_write_1 s off val) off' =
    if (off' =? off) && (off <=? REG_R0_PERMS) then val
    else if (off =? REG_CLEAR) && (off' =? REG_VIOL_TYPE) then VIOL_NONE
    else mpu_device_read_1 s off'.
Proof.
  intros [Hs He] Hv Ho Ho'. unfold MPU_MMIO_SIZE in *.
  pose proof (put_low _ _ Hs Hv) as P1. pose proof (put_low _ _ He Hv) as P2.
  pose proof (put_high (r0_start s) val Hv) as P3. pose proof (put_high (r0_end s) val Hv) as P4.
  rewrite Z.add_comm in P3, P4.
  pose proof (low_high (r0_start s / 256) val Hv) as [L1 H1].
  pose proof (low_high (r0_end s / 256) val Hv) as [L2 H2].
  pose proof (low_high val (u8 (r0_start s)) (u8_byte _)) as [L3 H3].
  pose proof (low_high val (u8 (r0_end s)) (u8_byte _)) as [L4 H4].
  rewrite <- P1 in L1, H1. rewrite <- P2 in L2, H2. rewrite <- P3 in L3, H3. rewrite <- P4 in L4, H4.
  rewrite <- shiftr8_div in H1, H2. pose proof (u8_small val Hv) as Hu. clear P1 P2 P3 P4.
  assert (∃ n, off = Z.of_nat n ∧ (n < 16)%nat) as (n&->&Hn) by (exists (Z.to_nat off); lia).
  assert (∃ n, off' = Z.of_nat n ∧ (n < 16)%nat) as (k&->&Hk) by (exists (Z.to_nat off'); lia).
  do 16 (destruct n as [|n]; [do 16 (destruct k as [|k]; [cbv [mpu_device_read_1 mpu_device_write_1
    Z.of_nat Pos.of_succ_nat Pos.succ Z.eqb Pos.eqb Z.leb Z.compare Pos.compare Pos.compare_cont andb
    REG_CONTROL REG_R0_START_LO REG_R0_START_HI REG_R0_END_LO REG_R0_END_HI REG_R0_PERMS
    REG_VIOL_ADDR_LO REG_VIOL_ADDR_HI REG_VIOL_TYPE REG_CLEAR mpu_put_control mpu_put_start mpu_put_end
    mpu_put_perms mpu_put_viol]; cbn [control r0_start r0_end r0_perms viol_addr viol_type];
    (done || congruence)|]); lia|]). lia.
Qed.

Definition MPU_ROM_LOAD_ADDR : Z := 0xC000.
Definition IRQ_VECTOR : Z := 0xFFFE.
Definition IRQ_HANDLER : Z := 0xC000.
Definition ROM_MAIN : Z := 0xC010.

Section Mpu.
Context (J : Type).
#[local] Hint Extern 0 Sys => exact (ex_sys J Z) : typeclass_instances.
#[local] Hint Extern 0 SysBus => exact (ex_bus J Z) : typeclass_instances.

Definition mpu_translate (ctx vaddr : Z) (access : rk65c02_mmu_access_t) : M rk65c02_mmu_result_t :=
  e ← get;
  mret (mpu_answer (mc_state (mpu_get (bus e) (Z.to_nat ctx))) vaddr access).

Definition mpu_on_fault (ctx vaddr : Z) (access : rk65c02_mmu_access_t) (fault_code : Z) : M unit :=
  e ← get;
  let d := Z.to_nat ctx in
  let c := mpu_get (bus e) d in
  let s := mpu_put_viol vaddr (u8 (fault_code &&& 0xFF)) (mc_state c) in
  modify (set_bus (mpu_put (bus e) d (mkMpuCtx s (mc_e c)) : sys_bus));;
  if negb (control s &&& CONTROL_IRQ_EN =? 0) then rk65c02_assert_irq else mret tt.

(** The cap on the run is the host's only variable of its own. *)
Definition tick_cap_cb : M unit :=
  e ← get;
  if host e =? 0 then rk65c02_request_stop
  else modify (set_host (u32 (host e - 1) : sys_host)).

Context {JO : JitOps}.

(** What [mpu_device_write_1] does to the emulator. *)
Definition mpu_device_calls (d : nat) (doff : Z) : M unit :=
  e ← get;
  let c := mpu_get (bus e) d in
  (if (doff =? REG_R0_PERMS) && mc_e c then
     rk65c02_mmu_begin_update;; rk65c02_mmu_mark_changed_vpage 0x02;; rk65c02_mmu_end_update
   else mret tt);;
  if (doff =? REG_CLEAR) && mc_e c then rk65c02_deassert_irq else mret tt.

Definition mpu_host : HostOps.
Proof.
  refine {|
    host_on_stop := λ _ _ _, mret tt;
    host_tick := λ _ _, tick_cap_cb;
    host_idle_wait := λ _ _, mret tt;
    host_mmu_translate := λ _ ctx vaddr access, mpu_translate ctx vaddr access;
    host_mmu_fault := λ _ ctx vaddr access code, mpu_on_fault ctx vaddr access code;
    host_device_read := λ _ _ _, mret tt;
    host_device_write := λ _ d doff _, mpu_device_calls d doff;
    indeterminate := 0
  |}.
  lia.
Defined.
#[local] Existing Instance mpu_host.

Context (jit_enable : bool → M unit) (run_jit : nat → M unit).

(** The bus before the ROM is loaded; the unit is its third device. *)
Definition MPU_DEV : nat := 2.
Definition mpu_bus : bus_t :=
  let b := bus_init_with_default_devs in
  let '(d, b) := dev_alloc b (device_ram_init 0x100) in
  let b := bus_device_add b d 0xFF00 in
  let '(d, b) := dev_alloc b (mpu_device_init (mkMpuCtx mpu_zero false)) in
  bus_device_add b d MPU_MMIO_BASE.

(** The block of [main] that loads the ROM: [file] is [None] when it cannot be
    opened; seeking in an open file does not fail.  [None] is the exit with
    status 1. *)
Definition mpu_load (b : bus_t) (file : option (list Z)) : option bus_t :=
  match file with
  | None => None
  | Some bytes =>
      if Z.of_nat (length bytes) >? MPU_ROM_LOAD_ADDR then
        let buf := take (Z.to_nat 0x4000) (drop (Z.to_nat MPU_ROM_LOAD_ADDR) bytes) in
        if (length buf =? 0)%nat then None
        else match bus_load_buf b MPU_ROM_LOAD_ADDR buf with
             | Some (_, b) => Some b
             | None => None
             end
      else None
  end.

Definition mpu_fail : M Z := ex_finish J Z;; mret 1.

Definition mpu_main (file : option (list Z)) (fuel : nat) : M Z :=
  match mpu_load mpu_bus file with
  | None => mret 1
  | Some b =>
      if negb ((bus_read_1 b MPU_ROM_LOAD_ADDR).1 =? 0xA9) then mret 1
      else
        let b := bus_write_1 b IRQ_VECTOR (u8 IRQ_HANDLER) in
        let b := bus_write_1 b (IRQ_VECTOR + 1) (u8 (IRQ_HANDLER ≫ 8)) in
        ex_init J Z b;;
        modify (λ e, set_bus (mpu_put (bus e) MPU_DEV
          (mkMpuCtx (mc_state (mpu_get (bus e) MPU_DEV)) true) : sys_bus) e);;
        put_SP 0xFF;;
        put_PC ROM_MAIN;;
        ok ← rk65c02_mmu_set (Some 0%nat) (Z.of_nat MPU_DEV) (Some 0%nat) (Z.of_nat MPU_DEV) true false;
        if negb ok then assert_fail
        else
          jit_enable true;;
          modify (set_host (50000 : sys_host));;
          rk65c02_tick_set (Some 0%nat) 1 0;;
          rk65c02_start run_jit fuel;;
          e ← get;
          again ← (if bool_decide (stopreason e = EMUERROR) && negb (mmu_last_fault_code e =? 0) then
            modify (set_host (50000 : sys_host));;
            rk65c02_start run_jit fuel;;
            e ← get;
            mret (bool_decide (stopreason e = EMUERROR))
          else mret false);
          if again : bool then mpu_fail
          else
            e ← get;
            if negb (bool_decide (stopreason e = STP)) then mpu_fail
            else
              v ← host_bus_read_1 J Z 0x0200;
              if negb (v =? 0x42) then mpu_fail else ex_finish J Z;; mret 0
  end.

(** ** What a forbidden access does *)

(** The unit is in place: its registers are device [MPU_DEV], and both
    callbacks point at them. *)
Record mpu_installed (e : rk65c02emu) : Prop := {
  mi_dev : (MPU_DEV < length (devs (bus e)))%nat;
  mi_translate : mmu_translate e = Some 0%nat;
  mi_translate_ctx : mmu_translate_ctx e = Z.of_nat MPU_DEV;
  mi_fault : mmu_fault e = Some 0%nat;
  mi_fault_ctx : mmu_fault_ctx e = Z.of_nat MPU_DEV
}.
Definition mpu_regs (e : rk65c02emu) : mpu_state := mc_state (mpu_get (bus e) MPU_DEV).

(** The registers after a violation at [v] reported with [code]. *)
Definition mpu_record (v code : Z) (b : bus_t) : bus_t :=
  let c := mpu_get b MPU_DEV in
  mpu_put b MPU_DEV (mkMpuCtx (mpu_put_viol v (u8 code) (mc_state c)) (mc_e c)).

Lemma mpu_translate_denied e v a : mpu_installed e → mpu_guards (mpu_regs e) v →
  r0_perms (mpu_regs e) &&& req_perm_cached a = 0 →
  (tlb_hit e (page v) = true → te_perms (tlb_entry e (page v)) &&& req_perm_cached a = 0) →
  ∃ e1, rk65c02_mmu_translate_addr v a (req_perm_cached a) e =
      (Ret (Xfault (if tlb_hit e (page v) then 0xFFFE else viol_of a)), e1) ∧ tlb_only e e1.
Proof.
  intros [_ Ht Hc _ _] Hg Hp Hh. unfold rk65c02_mmu_translate_addr. erewrite bind_Ret by reflexivity.
  fold (page v). destruct (tlb_hit e (page v)).
  - rewrite Hh by done. eexists. split; [by destruct a|].
    by exists (mmu_tlb e), (u64 (mmu_tlb_hits e + 1)), (mmu_tlb_misses e).
  - erewrite bind_Ret by reflexivity. rewrite Ht, Hc.
    destruct (mpu_answer_denied (mpu_regs e) v a Hg Hp) as [Ho Hf].
    erewrite bind_Ret by reflexivity. cbv beta. fold MPU_DEV.
    change (mc_state (mpu_get _ _)) with (mpu_regs e). rewrite Ho, Hf. eexists. split; [reflexivity|].
    by exists (mmu_tlb e), (mmu_tlb_hits e), (u64 (mmu_tlb_misses e + 1)).
Qed.

Lemma mpu_fault_recorded v a code e : mpu_installed e → state e = RUNNING → in_jit_run e = false →
  ∃ e', rk65c02_mmu_fault v a code e = (Ret tt, e') ∧ bus e' = mpu_record v code (bus e) ∧
    regs e' = regs e ∧ state e' = STOPPED ∧ stopreason e' = EMUERROR ∧
    mmu_fault_reexec e' = true ∧
    irq e' = irq e || negb (control (mpu_regs e) &&& CONTROL_IRQ_EN =? 0).
Proof.
  intros [_ _ _ Hf Hc] Hs Hj. unfold rk65c02_mmu_fault. do 6 erewrite bind_Ret by reflexivity.
  cbn [mmu_fault mmu_fault_ctx set_use_jit set_mmu_fault_reexec set_mmu_last_fault_code
    set_mmu_last_fault_access set_mmu_last_fault_addr]. rewrite Hf, Hc.
  unfold host_mmu_fault, mpu_host, mpu_on_fault, get, modify, mbind, M_bind, mret, M_ret.
  rewrite land_255, (u8_small (u8 code)) by apply u8_byte.
  unfold rk65c02_assert_irq, emu_stop_error, gets, get, modify, mbind, M_bind, mret, M_ret. cbn.
  change (control (mc_state (mpu_get (bus e) 2))) with (control (mpu_regs e)).
  destruct (negb _); cbn; rewrite ?Hs; change (bool_decide (RUNNING = STOPPED)) with false; cbn;
    rewrite ?Hj, ?Hs; cbn; eexists; (split; [reflexivity|]); cbn; by rewrite ?orb_true_r, ?orb_false_r.
Qed.

(** C19: the protection unit blocks what it forbids, unless the TLB grants it.
    An access of the running guest, of any kind, to an address of the region
    without the permission for it, for which the TLB does not hold the page with
    the permission either, leaves all memory and the processor as they were: the
    unit's registers get the address and the kind of the violation, the interrupt
    line is raised if the unit is set to, and the emulator stops with EMUERROR to
    re-execute the instruction.  The kind is the documented one when the page is
    not in the TLB, and 0xFE when it is ([mpu_violation_kind_cached]).  A page the
    TLB holds with the permission is not protected ([mpu_stale_protection]). *)
Theorem mpu_blocks_access e a v val : mpu_installed e → mpu_guards (mpu_regs e) v →
  r0_perms (mpu_regs e) &&& req_perm_cached a = 0 →
  (tlb_hit e (page v) = true → te_perms (tlb_entry e (page v)) &&& req_perm_cached a = 0) →
  state e = RUNNING → in_jit_run e = false →
  ∃ e', attempt a v val e = (Ret tt, e') ∧
    bus e' = mpu_record v (if tlb_hit e (page v) then 0xFFFE else viol_of a) (bus e) ∧
    regs e' = regs e ∧ state e' = STOPPED ∧ stopreason e' = EMUERROR ∧ mmu_fault_reexec e' = true ∧
    irq e' = irq e || negb (control (mpu_regs e) &&& CONTROL_IRQ_EN =? 0).
Proof.
  intros Hi Hg Hp Hh Hs Hj.
  destruct (mpu_translate_denied e v a Hi Hg Hp Hh) as (e1&E1&(t&h&n&He1)).
  set (code := if tlb_hit e (page v) then 0xFFFE else viol_of a) in *.
  destruct (mpu_fault_recorded v a code e1) as (e'&E&Hb&Hr&Hst); [by subst e1; destruct Hi; split|by subst e1..|].
  exists e'. split; [|by subst e1].
  assert (a ≠ RK65C02_MMU_WRITE → rk65c02_mem_read_mmu v a e = (Ret 0xFF, e')) as Hread.
  { intros Ha. unfold rk65c02_mem_read_mmu. destruct a; try done;
      (erewrite bind_Ret by exact E1); cbv beta iota; by erewrite bind_Ret by exact E. }
  destruct a; cbn [attempt]; [by erewrite bind_Ret by by apply Hread..|].
  unfold rk65c02_mem_write_mmu. erewrite bind_Ret by exact E1. exact E.
Qed.

(** ** Reprogramming *)

(** The unit answers at its registers' addresses and knows its emulator. *)
Record mpu_wired (b : bus_t) : Prop := {
  mw_access : bus_access_device b (MPU_MMIO_BASE + REG_R0_PERMS) = Some (MPU_DEV, REG_R0_PERMS);
  mw_device : match dev_aux (dev_at b MPU_DEV) with
              | HostBody id c => id = 0%nat ∧ mc_e c = true
              | RamBody _ => False
              end
}.

Context {JK : JitKeepsMmu}.

(** Writing the permission register from the guest updates it and takes page 2
    out of the TLB. *)
Lemma mpu_perms_written e val : mpu_installed e → mpu_wired (bus e) → mmu_enabled e = true →
  ∃ e', core_bus_write_1 (MPU_MMIO_BASE + REG_R0_PERMS) val e = (Ret tt, e') ∧ regs e' = regs e ∧
    mpu_regs e' = mpu_put_perms val (mpu_regs e) ∧ tlb_hit e' 0x02 = false ∧
    mmu_translate e' = Some 0%nat ∧ mmu_translate_ctx e' = Z.of_nat MPU_DEV.
Proof.
  intros [Hd Ht Hc Hf Hfc] [Hacc Hmw] Hen.
  assert (∃ s, dev_aux (dev_at (bus e) MPU_DEV) = HostBody 0 (mkMpuCtx s true)) as [s Hdev].
  { destruct (dev_aux _) as [|id [s c]]; [done|]. destruct Hmw as [-> Hce]. cbn in Hce. subst c. by exists s. }
  set (b1 := mpu_put (bus e) MPU_DEV (mkMpuCtx (mpu_put_perms val s) true)).
  assert (bus_write_1 (bus e) (MPU_MMIO_BASE + REG_R0_PERMS) val = b1) as Eb.
  { unfold bus_write_1, call_write_1. by rewrite Hacc, Hdev. }
  set (e1 := set_bus (SY := ex_sys J Z) b1 e).
  assert (mpu_get b1 MPU_DEV = mkMpuCtx (mpu_put_perms val s) true) as Hget.
  { unfold mpu_get, b1, mpu_put. rewrite dev_put_at. by rewrite decide_True by done. }
  destruct (remap_spec [0x02] e1 Hen ltac:(constructor; [lia|constructor])) as (e'&E&Hk&Hh&_).
  exists e'. split; [|split; [exact (rk_regs _ _ Hk)|split; [|split; [|split]]]].
  - unfold core_bus_write_1. erewrite bind_Ret by reflexivity.
    change (b_write (bus e) ?x val) with (bus_write_1 (bus e) x val). rewrite Eb.
    erewrite bind_Ret by reflexivity. change (b_host (bus e) (MPU_MMIO_BASE + REG_R0_PERMS)) with
      (host_of (bus e) (bus_access_device (bus e) (MPU_MMIO_BASE + REG_R0_PERMS))).
    rewrite Hacc. cbn [host_of]. rewrite Hdev. cbn [device_write host_device_write mpu_host].
    unfold mpu_device_calls. erewrite bind_Ret by reflexivity. cbv beta. fold e1.
    change (bus e1) with b1. rewrite Hget.
    change (REG_R0_PERMS =? REG_R0_PERMS) with true. change (REG_R0_PERMS =? REG_CLEAR) with false.
    cbn [mc_e andb]. erewrite bind_Ret; [reflexivity|]. rewrite <- E. symmetry. apply remap_one.
  - unfold mpu_regs. rewrite (rk_bus _ _ Hk). change (bus e1) with b1. rewrite Hget.
    unfold mpu_get. by rewrite Hdev.
  - destruct (tlb_hit e' 0x02) eqn:Eh; [|done]. destruct (Hh 0x02 Eh) as (_&_&Hn). exfalso. apply Hn. by left.
  - by rewrite (rk_translate _ _ Hk).
  - by rewrite (rk_translate_ctx _ _ Hk).
Qed.

(** A translation the TLB does not have is judged by the registers. *)
Lemma mpu_judged e v a : mmu_translate e = Some 0%nat → mmu_translate_ctx e = Z.of_nat MPU_DEV →
  word v → tlb_hit e (page v) = false → mpu_guards (mpu_regs e) v →
  ∃ e2, rk65c02_mmu_translate_addr v a (req_perm_cached a) e =
    (Ret (if r0_perms (mpu_regs e) &&& req_perm_cached a =? 0 then Xfault (viol_of a) else Xok v), e2).
Proof.
  intros Ht Hc Hv Hm Hg. unfold rk65c02_mmu_translate_addr. erewrite bind_Ret by reflexivity. fold (page v).
  rewrite Hm. erewrite bind_Ret by reflexivity. rewrite Ht, Hc. erewrite bind_Ret by reflexivity. cbv beta.
  change (mc_state (mpu_get _ _)) with (mpu_regs e).
  destruct (Z.eqb_spec (r0_perms (mpu_regs e) &&& req_perm_cached a) 0) as [Hz|Hz].
  - destruct (mpu_answer_denied (mpu_regs e) v a Hg Hz) as [-> ->]. by eexists.
  - destruct (mpu_answer_granted (mpu_regs e) v a Hg Hz) as (->&->&->).
    rewrite Z.eqb_refl. cbn [negb]. replace (v >=? RK65C02_PHYS_MAX) with false by
      (unfold RK65C02_PHYS_MAX; lia). erewrite bind_Ret by reflexivity.
    destruct (_ && _); by eexists.
Qed.


End Mpu.

(** The program of [mmu_mpu.s]. *)
Definition mpu_rom : list Z := replicate (Z.to_nat 0xC000) 0 ++
  [0xA9; 0x00; 0x8D; 0x0D; 0xFE; 0xA9; 0x07; 0x8D; 0x05; 0xFE; 0xA9; 0x42; 0x40; 0; 0; 0;
   0x58; 0xA9; 0x00; 0x8D; 0x01; 0xFE; 0xA9; 0x02; 0x8D; 0x02; 0xFE; 0xA9; 0xFF; 0x8D; 0x03; 0xFE;
   0xA9; 0x02; 0x8D; 0x04; 0xFE; 0xA9; 0x05; 0x8D; 0x05; 0xFE; 0xA9; 0x03; 0x8D; 0x00; 0xFE;
   0xA9; 0x42; 0x8D; 0x00; 0x02; 0xAD; 0x00; 0x02; 0xC9; 0x42; 0xD0; 0x01; 0xDB; 0x00].

Section Stub.
#[local] Hint Extern 0 Sys => exact (ex_sys unit Z) : typeclass_instances.
#[local] Hint Extern 0 SysBus => exact (ex_bus unit Z) : typeclass_instances.
#[local] Hint Extern 0 HostOps => exact (mpu_host unit) : typeclass_instances.
#[local] Hint Extern 0 JitOps => exact jit_stub : typeclass_instances.
Definition mpu_stub_main (file : option (list Z)) (fuel : nat) : M Z :=
  mpu_main unit stub_jit_enable stub_run_jit file fuel.

(** ** Where the unit does not protect *)

(** A ROM with a handler at 0xC000 and a program at 0xC010, and the machine it
    leaves. *)
Definition mpu_image (handler prog : list Z) : list Z :=
  replicate (Z.to_nat 0xC000) 0 ++ handler ++ replicate (16 - length handler) 0 ++ prog.
Definition mpu_after (handler prog : list Z) : rk65c02emu :=
  (mpu_stub_main (Some (mpu_image handler prog)) 40 (blank unit Z 0)).2.
Definition mem_byte (e : rk65c02emu) (a : Z) : Z := (bus_read_1 (bus e) a).1.

(** Region 0 becomes the page [p] with permissions [perms], under control [c]. *)
Definition mpu_setup (p perms c : Z) : list Z :=
  [0xA9; 0x00; 0x8D; 0x01; 0xFE; 0xA9; p; 0x8D; 0x02; 0xFE; 0xA9; 0xFF; 0x8D; 0x03; 0xFE;
   0xA9; p; 0x8D; 0x04; 0xFE; 0xA9; perms; 0x8D; 0x05; 0xFE; 0xA9; c; 0x8D; 0x00; 0xFE].
Definition stop_handler : list Z := [0xA9; 0x00; 0xDB].

(** A region the unit does not protect.  The guest reads 0x0300, makes page 3
    read-only and enables the unit, and stores to 0x0300.  The callback forbids
    the store, but the page was cached before: programming the region marks
    only page 2 as changed, so the store goes through and no violation is
    recorded.  Without the first read the store is stopped. *)
Theorem mpu_stale_protection :
  let prog := mpu_setup 0x03 0x01 0x01 ++ [0xA9; 0x42; 0x8D; 0x00; 0x03; 0xDB] in
  let e := mpu_after stop_handler ([0xAD; 0x00; 0x03] ++ prog) in
  let e' := mpu_after stop_handler prog in
  r_ok (mpu_answer (mpu_regs unit e) 0x0300 RK65C02_MMU_WRITE) = false ∧
  (stopreason e, mem_byte e 0x0300, viol_type (mpu_regs unit e)) = (STP, 0x42, VIOL_NONE) ∧
  (stopreason e', mem_byte e' 0x0300, viol_type (mpu_regs unit e')) = (EMUERROR, 0x00, VIOL_WRITE).
Proof. vm_compute. split_and!; reflexivity. Qed.

(** The kind of a violation that the TLB finds: a handler that stores the
    violation type to 0x0400 finds 0xFE when the guest has read the read-only
    page before storing to it, and the documented 2 when it has not. *)
Lemma mpu_violation_kind_cached :
  let handler := [0xA9; 0x00; 0xAD; 0x0C; 0xFE; 0x8D; 0x00; 0x04; 0xDB] in
  let setup := mpu_setup 0x02 0x05 0x03 ++ [0x58] in
  mem_byte (mpu_after handler (setup ++ [0xAD; 0x00; 0x02; 0x8D; 0x00; 0x02; 0xDB])) 0x0400 = 0xFE ∧
  mem_byte (mpu_after handler (setup ++ [0x8D; 0x00; 0x02; 0xDB])) 0x0400 = VIOL_WRITE.
Proof. vm_compute. split; reflexivity. Qed.

(** Code in the unit's registers: the callback grants no execution there, but an
    access elsewhere in page 0xFE caches the whole page as executable. *)
Lemma mpu_registers_executable :
  let prog := [0xA9; 0xDB; 0x8D; 0x01; 0xFE; 0x4C; 0x01; 0xFE] in
  let e := mpu_after stop_handler ([0xAD; 0x10; 0xFE] ++ prog) in
  let e' := mpu_after stop_handler prog in
  (stopreason e, PC (regs e)) = (STP, 0xFE02) ∧
  (stopreason e', mmu_last_fault_code e') = (EMUERROR, 0xFFFE).
Proof. vm_compute. split; reflexivity. Qed.

(** A guest that has programmed and enabled the unit and is about to store: at
    the store, and at a write of the permission register. *)
Definition mpu_running : rk65c02emu :=
  set_state RUNNING (set_regs (regs_PC 0xC030 (mkRegs 0x42 0 0 0 0xFF 0x20))
    (mpu_after stop_handler (mpu_setup 0x02 0x05 0x03 ++ [0xDB]))).

Lemma mpu_installed_running : mpu_installed unit mpu_running.
Proof. split; vm_compute; (lia || reflexivity). Qed.
Lemma mpu_running_regs : mpu_regs unit mpu_running = mkMpu 3 0x0200 0x02FF 5 0 0.
Proof. vm_compute. reflexivity. Qed.
Lemma mpu_guards_running : mpu_guards (mpu_regs unit mpu_running) 0x0200.
Proof.
  rewrite mpu_running_regs. unfold mpu_guards, MPU_MMIO_BASE, MPU_MMIO_SIZE. cbn. split; [lia|].
  split; [discriminate|lia].
Qed.

Lemma mpu_blocks_access_witness : ∃ e', attempt RK65C02_MMU_WRITE 0x0200 0x42 mpu_running = (Ret tt, e') ∧
  mem_byte e' 0x0200 = 0 ∧ irq e' = true.
Proof.
  destruct (mpu_blocks_access unit mpu_running RK65C02_MMU_WRITE 0x0200 0x42) as (e'&E&Hb&_&_&_&_&Hq).
  - exact mpu_installed_running.
  - exact mpu_guards_running.
  - vm_compute. reflexivity.
  - vm_compute. discriminate.
  - vm_compute. reflexivity.
  - vm_compute. reflexivity.
  - exists e'. split; [exact E|]. rewrite Hq. unfold mem_byte. rewrite Hb. vm_compute. by split.
Defined.


Lemma mpu_registers_roundtrip_witness :
  mpu_device_read_1 (mpu_device_write_1 (mkMpu 3 0x0200 0x02FF 5 0x1234 2) REG_R0_END_HI 0x03) REG_R0_END_HI = 0x03.
Proof.
  rewrite (mpu_registers_roundtrip (mkMpu 3 0x0200 0x02FF 5 0x1234 2) REG_R0_END_HI REG_R0_END_HI 0x03).
  - reflexivity.
  - split; cbn; lia.
  - lia.
  - vm_compute. split; [discriminate|reflexivity].
  - vm_compute. split; [discriminate|reflexivity].
Defined.
End Stub.

Section Lightning.
#[local] Hint Extern 0 Sys => exact (ex_sys rk65c02_jit Z) : typeclass_instances.
#[local] Hint Extern 0 SysBus => exact (ex_bus rk65c02_jit Z) : typeclass_instances.
(** The backend asks the host only to translate, which does not need the
    backend. *)
#[local] Instance mpu_jit : JitOps := lightning_jit bus_t Z (HO := mpu_host rk65c02_jit (JO := jit_stub)).
#[local] Hint Extern 0 HostOps => exact (mpu_host rk65c02_jit (JO := mpu_jit)) : typeclass_instances.
#[local] Existing Instance ex_code.
Lemma mpu_jit_is_lightning : mpu_jit = lightning_jit bus_t Z.
Proof.
  unfold mpu_jit at 1. unfold lightning_jit, note_guest_write, phys_hit, jit_translate_paddr,
    rk65c02_mmu_translate_cached, rk65c02_mmu_translate_addr.
  cbn [host_mmu_translate mpu_host]. reflexivity.
Qed.
Definition mpu_jit_main (file : option (list Z)) (fuel : nat) : M Z :=
  mpu_main rk65c02_jit (rk65c02_jit_enable bus_t Z) (rk65c02_run_jit bus_t Z) file fuel.
End Lightning.

(** The program of [mmu_mpu.c] passes.  *)
Theorem mpu_main_passes :
  (mpu_stub_main (Some mpu_rom) 40 (blank unit Z 0)).1 = Ret 0 ∧
  (mpu_jit_main (Some mpu_rom) 40 (blank rk65c02_jit Z 0)).1 = Ret 0.
Proof. vm_compute. split; reflexivity. Qed.
