(* ===== verification/ExCart.v ===== *)
(** The host of [src/examples/mmu_cart.c]: a cartridge of two 16K banks in
    physical memory above 64K, seen through a window of the address space; the
    guest selects the bank by a store to 0xDE00.

    The answers of the translation callback depend on the host's own data, which
    the callback itself changes, so the window is never cached. *)
From stdpp Require Import base numbers list gmap strings.
From S2P Require Import Prelude Types Isa BusSpec Bus State Interfaces Mmu Instruction Emulation.
From S2P Require Import Disasm Debug Exec Api Invariant MmuSpec JitCache JitEmit Jit JitNative Remap.
From S2P Require Import ExHost.

Definition CART_WINDOW_START : Z := 0x8000.
Definition CART_WINDOW_END : Z := 0xBFFF.
Definition BANK_REG : Z := 0xDE00.
Definition CART_RESULT_ADDR : Z := 0x0200.
Definition CART_BANK_SIZE : Z := 0x4000.
Definition PHYS_BANK0_START : Z := 0x10000.
Definition PHYS_BANK1_START : Z := 0x14000.
Definition PHYS_BANK_REG : Z := 0x5E00.

Record cart_state := mkCart { current_bank : Z; last_bank_reg : Z; tick_count : Z }.

#[local] Existing Instance no_devices.

Section Cart.
Context (J : Type).
#[local] Hint Extern 0 Sys => exact (ex_sys J cart_state) : typeclass_instances.
#[local] Hint Extern 0 SysBus => exact (ex_bus J cart_state) : typeclass_instances.

Definition cart_translate (vaddr : Z) (access : rk65c02_mmu_access_t) : M rk65c02_mmu_result_t :=
  if (vaddr >=? CART_WINDOW_START) && (vaddr <=? CART_WINDOW_END) then
    reg ← host_bus_read_1 J cart_state PHYS_BANK_REG;
    (if vaddr =? CART_WINDOW_START then
       modify (λ e, set_host (mkCart (reg &&& 1) reg (tick_count (host e)) : sys_host) e)
     else mret tt);;
    bank ← gets (λ e, current_bank (host e));
    if bank =? 0 then mret (rwx (u32 (vaddr - CART_WINDOW_START + PHYS_BANK0_START)) true)
    else mret (rwx (u32 (vaddr - CART_WINDOW_START + PHYS_BANK1_START)) true)
  else if vaddr >=? 0xC000 then mret (rwx (u32 (0x4000 + (vaddr &&& 0x3FFF))) false)
  else mret (rwx vaddr false).

(** ** The window and the rest *)

Definition in_window (v : Z) : Prop := CART_WINDOW_START ≤ v ≤ CART_WINDOW_END.
Definition window_page (p : Z) : Prop := 0x80 ≤ p < 0xC0.

(** Where an address goes when [bank] is selected. *)
Definition cart_phys (bank v : Z) : Z :=
  if (v >=? CART_WINDOW_START) && (v <=? CART_WINDOW_END)
  then v - CART_WINDOW_START + (if bank =? 0 then PHYS_BANK0_START else PHYS_BANK1_START)
  else if v >=? 0xC000 then v - 0x8000 else v.

(** The cartridge is reached through the window and nowhere else, and a bank
    through the window only while it is selected. *)
Lemma cart_phys_confined bank v : word v →
  (in_window v → bank = 0 → PHYS_BANK0_START ≤ cart_phys bank v < PHYS_BANK0_START + CART_BANK_SIZE) ∧
  (in_window v → bank ≠ 0 → PHYS_BANK1_START ≤ cart_phys bank v < PHYS_BANK1_START + CART_BANK_SIZE) ∧
  (¬ in_window v → 0 ≤ cart_phys bank v < 0x8000).
Proof.
  unfold cart_phys, in_window, CART_WINDOW_START, CART_WINDOW_END, PHYS_BANK0_START, PHYS_BANK1_START,
    CART_BANK_SIZE. intros Hv.
  destruct (Z.geb_spec v 0x8000), (Z.leb_spec v 0xBFFF), (Z.geb_spec v 0xC000), (Z.eqb_spec bank 0);
    cbn; lia.
Qed.

Lemma window_page_spec v : word v → in_window v ↔ window_page (page v).
Proof.
  intros Hv. pose proof (page_split v Hv). pose proof (u8_byte v). pose proof (page_byte v).
  unfold in_window, window_page, CART_WINDOW_START, CART_WINDOW_END. lia.
Qed.

(** The mapping outside the window. *)
Definition cart_fixed : mapping := λ v _, rwx (if v >=? 0xC000 then v - 0x8000 else v) false.

Lemma cart_fixed_stable p : stable_at cart_fixed p.
Proof.
  intros v a Hv Hp _ _ _ v' a' Hv' Hp'. cbn. split_and!; [done..|].
  pose proof (page_split v Hv). pose proof (page_split v' Hv'). rewrite Hp, Hp' in *.
  pose proof (u8_byte v). pose proof (u8_byte v').
  destruct (Z.geb_spec v 0xC000), (Z.geb_spec v' 0xC000); lia.
Qed.
Lemma cart_fixed_typed : mapping_typed cart_fixed.
Proof. intros v a Hv. cbn. destruct (Z.geb_spec v 0xC000); lia. Qed.

Lemma mirror_sub v : 0xC000 ≤ v < 65536 → 0x4000 + (v &&& 0x3FFF) = v - 0x8000.
Proof.
  intros Hv. change 0x3FFF with (Z.ones 14). rewrite Z.land_ones by lia. change (2 ^ 14) with 16384.
  rewrite <- (Z.mod_unique v 16384 3 (v - 49152)); lia.
Qed.

Record cart_ready (reg : Z) (e : rk65c02emu) : Prop := {
  cr_callback : mmu_translate e = Some 0%nat;
  cr_ram : is_Some (ram_cell (bus e) PHYS_BANK_REG);
  cr_reg : mem_at (bus e : bus_t) PHYS_BANK_REG = reg;
  cr_window : ∀ p, window_page p → tlb_hit e p = false;
  cr_rest : ∀ p, ¬ window_page p → coherent_at cart_fixed e p
}.

Definition next_bank (reg v bank : Z) : Z := if v =? CART_WINDOW_START then reg &&& 1 else bank.

Lemma cart_ready_only reg e e' : cart_ready reg e → mmu_translate e' = mmu_translate e →
  bus e' = bus e → same_mmu e e' → cart_ready reg e'.
Proof.
  intros [H1 H2 H3 H4 H5] Ht Hb Hs. split; rewrite ?Ht, ?Hb; try done.
  - intros p Hp. destruct (same_mmu_hit e e' p Hs) as [-> _]. auto.
  - intros p Hp. unfold coherent_at. destruct (same_mmu_hit e e' p Hs) as [-> ->]. by apply H5.
Qed.

(** The callback in the window. *)
Lemma cart_translate_window reg e v a : cart_ready reg e → in_window v →
  let bank := next_bank reg v (current_bank (host e)) in
  ∃ h, cart_translate v a e = (Ret (rwx (cart_phys bank v) true), set_host (h : sys_host) e) ∧
    current_bank h = bank.
Proof.
  intros Hr Hw bank. pose proof Hr as [_ Hram Hreg _ _]. unfold cart_translate.
  unfold in_window, CART_WINDOW_START, CART_WINDOW_END in Hw.
  assert ((v >=? CART_WINDOW_START) && (v <=? CART_WINDOW_END) = true) as Ew
    by (unfold CART_WINDOW_START, CART_WINDOW_END; lia).
  rewrite Ew. erewrite bind_Ret by (by apply host_read_ram). rewrite Hreg.
  exists (if v =? CART_WINDOW_START then mkCart (reg &&& 1) reg (tick_count (host e)) else host e).
  assert (∀ x, u32 (v - CART_WINDOW_START + x) = v - CART_WINDOW_START + x ∨ ¬ (0 ≤ x < 0x20000)) as Hu.
  { intros x. destruct (decide (0 ≤ x < 0x20000)); [left|by right]. apply u32_small.
    unfold CART_WINDOW_START. lia. }
  destruct (Hu PHYS_BANK0_START) as [U0|[]]; [|unfold PHYS_BANK0_START; lia].
  destruct (Hu PHYS_BANK1_START) as [U1|[]]; [|unfold PHYS_BANK1_START; lia]. rewrite U0, U1.
  unfold cart_phys, bank, next_bank. rewrite Ew. destruct (v =? CART_WINDOW_START).
  - erewrite bind_Ret by reflexivity. erewrite bind_Ret by reflexivity. cbn.
    by destruct (_ =? 0).
  - erewrite bind_Ret by reflexivity. erewrite bind_Ret by reflexivity. cbv beta.
    replace (set_host (host e : sys_host) e) with e by by destruct e. by destruct (_ =? 0).
Qed.

Context {JO : JitOps}.

Definition cart_tick : M unit :=
  reg ← host_bus_read_1 J cart_state PHYS_BANK_REG;
  e ← get;
  if reg =? last_bank_reg (host e) then mret tt
  else
    modify (λ e, set_host (mkCart (current_bank (host e)) reg (tick_count (host e)) : sys_host) e);;
    remap (seqZ 0x80 0x40);;
    modify (λ e, set_host (mkCart (current_bank (host e)) (last_bank_reg (host e))
      (u32 (tick_count (host e) + 1)) : sys_host) e);;
    e ← get;
    if tick_count (host e) >? 500000 then rk65c02_request_stop else mret tt.

Definition cart_host : HostOps.
Proof.
  refine {|
    host_on_stop := λ _ _ _, mret tt;
    host_tick := λ _ _, cart_tick;
    host_idle_wait := λ _ _, mret tt;
    host_mmu_translate := λ _ _ vaddr access, cart_translate vaddr access;
    host_mmu_fault := λ _ _ _ _ _, mret tt;
    host_device_read := λ _ _ _, mret tt;
    host_device_write := λ _ _ _ _, mret tt;
    indeterminate := 0
  |}.
  lia.
Defined.
#[local] Existing Instance cart_host.

(** The bus with the banks' RAM. *)
Definition cart_bus : bus_t :=
  let b := bus_init_with_default_devs in
  let '(d, b) := dev_alloc b (device_ram_init CART_BANK_SIZE) in
  let b := bus_device_add_phys b d PHYS_BANK0_START in
  let '(d, b) := dev_alloc b (device_ram_init CART_BANK_SIZE) in
  bus_device_add_phys b d PHYS_BANK1_START.

Definition cart_main (rom0 rom1 : option (list Z)) : M Z :=
  modify (set_host (mkCart 0 0xFF 0 : sys_host));;
  let '(ok, b) := bus_load_file_phys cart_bus PHYS_BANK0_START rom0 in
  if negb ok then mret 1
  else
    let '(ok, b) := bus_load_file_phys b PHYS_BANK1_START rom1 in
    if negb ok then mret 1
    else
      ex_init J cart_state b;;
      put_SP 0xFF;;
      put_PC CART_WINDOW_START;;
      ok ← rk65c02_mmu_set (Some 0%nat) 0 None 0 true false;
      if negb ok then assert_fail
      else
        rk65c02_tick_set (Some 0%nat) 0 0;;
        rk65c02_step 65535;;
        result ← host_bus_read_1 J cart_state CART_RESULT_ADDR;
        ex_finish J cart_state;;
        e ← get;
        if negb (result =? 0xB6) then mret 1
        else if negb (bool_decide (stopreason e = STP)) then mret 1
        else mret 0.

Lemma cart_step reg e v a req : cart_ready reg e → word v → Z.land 7 req = req →
  let bank := next_bank reg v (current_bank (host e)) in
  ∃ e', rk65c02_mmu_translate_addr v a req e = (Ret (Xok (cart_phys bank v)), e') ∧
    cart_ready reg e' ∧ current_bank (host e') = bank.
Proof.
  intros Hr Hv Hreq bank. pose proof (cart_phys_confined bank v Hv) as (C0&C1&C2).
  assert (0 ≤ cart_phys bank v < RK65C02_PHYS_MAX) as Hmax.
  { unfold in_window, PHYS_BANK0_START, PHYS_BANK1_START, CART_BANK_SIZE, RK65C02_PHYS_MAX in *.
    destruct (decide (bank = 0)), (decide (CART_WINDOW_START ≤ v ≤ CART_WINDOW_END)); lia. }
  destruct (decide (window_page (page v))) as [Hw|Hw].
  - apply window_page_spec in Hw as Hin; [|done].
    set (e1 := set_mmu_tlb_misses (u64 (mmu_tlb_misses e + 1)) e).
    assert (cart_ready reg e1) as Hr1 by by apply (cart_ready_only reg e).
    destruct (cart_translate_window reg e1 v a Hr1 Hin) as (h&E&Hh). exists (set_host (h : sys_host) e1).
    split; [|split; [by apply (cart_ready_only reg e)|exact Hh]].
    erewrite translate_uncached; [|apply Hr|by apply Hr|exact E|done].
    rewrite answer_rwx by (done || exact Hmax). done.
  - assert (¬ in_window v) as Hin by (by rewrite window_page_spec).
    assert (bank = current_bank (host e)) as Ebank.
    { unfold bank, next_bank. destruct (Z.eqb_spec v CART_WINDOW_START) as [->|]; [|done].
      exfalso. apply Hin. unfold in_window, CART_WINDOW_END, CART_WINDOW_START. lia. }
    assert (cart_fixed v a = rwx (cart_phys bank v) false) as Ef.
    { unfold cart_fixed, cart_phys. unfold in_window in Hin.
      by replace ((v >=? CART_WINDOW_START) && (v <=? CART_WINDOW_END)) with false by lia. }
    destruct (translate_addr_at cart_fixed e v a req) as (e'&E&Hco&Ho&Ht);
      [|apply cart_fixed_stable|apply cart_fixed_typed|by apply Hr|done|].
    + exists 0%nat. split; [apply Hr|]. intros e' _. cbn [host_mmu_translate cart_host].
      unfold cart_translate. unfold in_window in Hin.
      replace ((v >=? CART_WINDOW_START) && (v <=? CART_WINDOW_END)) with false by lia.
      unfold cart_fixed. destruct (Z.geb_spec v 0xC000); [|done].
      rewrite mirror_sub by lia. by rewrite u32_small by lia.
    + exists e'. rewrite E. unfold translate_spec. rewrite Ef, answer_rwx by (done || exact Hmax).
      split; [done|]. destruct Ht as (t&h&n&->). split; [|by rewrite Ebank].
      destruct Hr as [H1 H2 H3 H4 H5]. split; [done..| |].
      * intros p Hp. destruct (decide (p = page v)) as [->|Hne]; [done|].
        destruct (Ho p Hne) as [-> _]. auto.
      * intros p Hp. destruct (decide (p = page v)) as [->|Hne]; [done|].
        by eapply coherent_other; [exact Ho|done|auto].
Qed.

(** The cap on the run counts changes of the register: with the register at
    rest the tick does nothing, and never asks the emulator to stop. *)
Lemma cart_tick_idle e : is_Some (ram_cell (bus e) PHYS_BANK_REG) →
  mem_at (bus e : bus_t) PHYS_BANK_REG = last_bank_reg (host e) → cart_tick e = (Ret tt, e).
Proof.
  intros Hr Hm. unfold cart_tick. erewrite bind_Ret by (by apply host_read_ram).
  erewrite bind_Ret by reflexivity. by rewrite Hm, Z.eqb_refl.
Qed.

(** The guest stores a bank number into the register, at 0xDE00. *)
Lemma cart_select reg e val : cart_ready reg e → byte val →
  ∃ e', rk65c02_mem_write_mmu BANK_REG val RK65C02_MMU_WRITE e = (Ret tt, e') ∧ cart_ready val e' ∧
    current_bank (host e') = current_bank (host e).
Proof.
  intros Hr Hv. unfold rk65c02_mem_write_mmu.
  destruct (cart_step reg e BANK_REG RK65C02_MMU_WRITE RK65C02_MMU_PERM_W Hr) as (e1&E1&Hr1&Hb1);
    [by compute|done|]. erewrite bind_Ret by exact E1. cbn [next_bank] in Hb1.
  cbv beta iota. change (cart_phys _ BANK_REG) with PHYS_BANK_REG.
  change (PHYS_BANK_REG <? RK65C02_BUS_SIZE) with true. change (u16 PHYS_BANK_REG) with PHYS_BANK_REG. cbv iota.
  pose proof Hr1 as [H1 H2 H3 H4 H5]. unfold core_bus_write_1. do 2 erewrite bind_Ret by reflexivity.
  rewrite (b_host_ram (bus e1 : bus_t) PHYS_BANK_REG) by (by compute || done).
  eexists. split; [reflexivity|]. split; [|exact Hb1]. split; [done|..|done|done].
  - change (is_Some (ram_cell (bus_write_1 (bus e1) PHYS_BANK_REG val) PHYS_BANK_REG)).
    by rewrite bus_write_1_cell.
  - change (mem_at (bus_write_1 (bus e1) PHYS_BANK_REG val) PHYS_BANK_REG = val).
    rewrite bus_write_1_mem by done. by rewrite decide_True.
Qed.

(** What the guest does: an access to an address, or a store of a bank number
    into the register. *)
Inductive cart_op :=
  | Access (vaddr : Z) (access : rk65c02_mmu_access_t) (req : Z)
  | Select (val : Z).

(** The emulator's answers to the accesses. *)
Fixpoint cart_ops (l : list cart_op) : M (list xlate) :=
  match l with
  | [] => mret []
  | Access v a req :: l' =>
      x ← rk65c02_mmu_translate_addr v a req;
      xs ← cart_ops l';
      mret (x :: xs)
  | Select val :: l' => rk65c02_mem_write_mmu BANK_REG val RK65C02_MMU_WRITE;; cart_ops l'
  end.

(** The cartridge as [doc/MMU.md] and the comments of [mmu_cart.c] describe it,
    an automaton with a register and a current bank: selecting sets the
    register, a fetch from the entry of the window makes it the current bank,
    and every access goes where the current bank says. *)
Record bank_switch := mkSwitch { sw_reg : Z; sw_bank : Z }.
Definition switch_step (s : bank_switch) (o : cart_op) : bank_switch * option xlate :=
  match o with
  | Select val => (mkSwitch val (sw_bank s), None)
  | Access v a _ =>
      let bank := if (v =? CART_WINDOW_START) && bool_decide (a = RK65C02_MMU_FETCH)
                  then sw_reg s &&& 1 else sw_bank s in
      (mkSwitch (sw_reg s) bank, Some (Xok (cart_phys bank v)))
  end.
Fixpoint switch_run (s : bank_switch) (l : list cart_op) : bank_switch * list xlate :=
  match l with
  | [] => (s, [])
  | o :: l' =>
      let '(s1, x) := switch_step s o in
      let '(s2, xs) := switch_run s1 l' in
      (s2, match x with Some x => x :: xs | None => xs end)
  end.

(** The entry of the window is fetched from, and not accessed as data. *)
Definition cart_op_ok (o : cart_op) : Prop :=
  match o with
  | Access v a req => word v ∧ Z.land 7 req = req ∧ (v = CART_WINDOW_START → a = RK65C02_MMU_FETCH)
  | Select val => byte val
  end.

(** The emulator is in the state [s] of the automaton. *)
Definition implements (s : bank_switch) (e : rk65c02emu) : Prop :=
  cart_ready (sw_reg s) e ∧ current_bank (host e) = sw_bank s.

(** C22: the bank switch.  Any sequence of accesses and of stores to the bank
    register, from a TLB that holds nothing of the window, is answered as the
    automaton answers it: the current bank becomes the register's at a fetch
    from the window's entry and at no other time, no answer is out of date, and
    the TLB never holds anything of the window.  The entry must not be read or
    written as data: such an access switches the bank, too, although it should
    not ([cart_data_read_switches]). *)
Theorem cart_refines_bank_switch s e l : implements s e → Forall cart_op_ok l →
  ∃ e', cart_ops l e = (Ret (switch_run s l).2, e') ∧ implements (switch_run s l).1 e'.
Proof.
  intros Hs Hl. revert s e Hs. induction Hl as [|o l Ho _ IH]; intros s e [Hr Hb]; [by exists e|].
  destruct o as [v a req|val]; cbn [cart_ops switch_run switch_step].
  - destruct Ho as (Hv&Hreq&Hf). destruct (cart_step (sw_reg s) e v a req Hr Hv Hreq) as (e1&E1&Hr1&Hb1).
    set (bank := if _ && _ then _ else _).
    assert (next_bank (sw_reg s) v (current_bank (host e)) = bank) as Ebank.
    { unfold next_bank, bank. rewrite Hb. destruct (Z.eqb_spec v CART_WINDOW_START) as [->|]; [|done].
      by rewrite bool_decide_true by auto. }
    rewrite Ebank in *. destruct (IH (mkSwitch (sw_reg s) bank) e1 (conj Hr1 Hb1)) as (e2&E2&Hs2).
    destruct (switch_run _ l) as [s2 xs]. exists e2. split; [|done].
    erewrite bind_Ret by exact E1. by erewrite bind_Ret by exact E2.
  - destruct (cart_select (sw_reg s) e val Hr Ho) as (e1&E1&Hr1&Hb1). rewrite Hb in Hb1.
    destruct (IH (mkSwitch val (sw_bank s)) e1 (conj Hr1 Hb1)) as (e2&E2&Hs2).
    destruct (switch_run _ l) as [s2 xs]. exists e2. split; [|done]. by erewrite bind_Ret by exact E1.
Qed.

End Cart.

Section Stub.
#[local] Hint Extern 0 Sys => exact (ex_sys unit cart_state) : typeclass_instances.
#[local] Hint Extern 0 SysBus => exact (ex_bus unit cart_state) : typeclass_instances.
#[local] Hint Extern 0 HostOps => exact (cart_host unit) : typeclass_instances.
#[local] Hint Extern 0 JitOps => exact jit_stub : typeclass_instances.
Definition cart_run (rom0 rom1 : list Z) : outcome Z * rk65c02emu :=
  cart_main unit (Some rom0) (Some rom1) (blank unit cart_state (mkCart 0 0 0)).

(** The machine once the host has set it up, and a session: code of bank 0,
    bank 1 is selected, the code of bank 0 goes on, enters the window and is in
    bank 1. *)
Definition cart_start : rk65c02emu :=
  ((modify (set_host (mkCart 0 0xFF 0 : sys_host));; ex_init unit cart_state cart_bus;;
    rk65c02_mmu_set (Some 0%nat) 0 None 0 true false) (blank unit cart_state (mkCart 0 0 0))).2.
Definition cart_session : list cart_op :=
  [Access 0x8008 RK65C02_MMU_FETCH 4; Select 1; Access 0x800A RK65C02_MMU_FETCH 4;
   Access 0x8000 RK65C02_MMU_FETCH 4; Access 0x8008 RK65C02_MMU_FETCH 4].

Lemma cart_start_implements : implements unit (mkSwitch 0 0) cart_start.
Proof.
  assert (mmu_tlb cart_start = ∅) as Et by (vm_compute; reflexivity).
  assert (∀ p, tlb_hit cart_start p = false) as Hn.
  { intros p. unfold tlb_hit, tlb_entry. rewrite Et, lookup_empty. cbn. by rewrite andb_false_r. }
  split; [|reflexivity]. split; [vm_compute; reflexivity| |vm_compute; reflexivity|intros p _; apply Hn|].
  - apply (mk_is_Some _ (0%nat, PHYS_BANK_REG)). vm_compute. reflexivity.
  - intros p _ Hp. by rewrite Hn in Hp.
Qed.

Lemma cart_refines_bank_switch_witness :
  ∃ e', cart_ops unit cart_session cart_start = (Ret [Xok 0x10008; Xok 0x1000A; Xok 0x14000; Xok 0x14008], e') ∧
    implements unit (mkSwitch 1 1) e'.
Proof.
  apply (cart_refines_bank_switch unit (mkSwitch 0 0) cart_start cart_session).
  - exact cart_start_implements.
  - unfold cart_session. repeat constructor; cbn; (lia || done).
Defined.

(** A data access selects the bank, too: bank 0 selects bank 1 and reads the
    byte at 0x8000, and the code goes on in bank 1 at 0x8008. *)
Lemma cart_data_read_switches :
  let rest x := [0xA9; x; 0x8D; 0x00; 0x02; 0xDB] in
  let e := (cart_run ([0xA9; 0x01; 0x8D; 0x00; 0xDE; 0xAD; 0x00; 0x80] ++ rest 0x11)
                     (replicate 8 0xEA ++ rest 0x22)).2 in
  (stopreason e, (bus_read_1 (bus e) CART_RESULT_ADDR).1) = (STP, 0x22).
Proof. vm_compute. reflexivity. Qed.

End Stub.

(** The programs of [mmu_cart_bank0.s] and [mmu_cart_bank1.s]. *)
Definition cart_rom0 : list Z :=
  [0xA9; 0xA5; 0x8D; 0x00; 0x02; 0xA9; 0x01; 0x8D; 0x00; 0xDE; 0x4C; 0x00; 0x80].
Definition cart_rom1 : list Z := [0xA9; 0xB6; 0x8D; 0x00; 0x02; 0xDB].

(** The program of [mmu_cart.c] passes. *)
Theorem cart_main_passes : (cart_run cart_rom0 cart_rom1).1 = Ret 0.
Proof. vm_compute. reflexivity. Qed.
