(* ===== verification/ExTasks.v ===== *)
(** The host of [src/examples/mmu_multitasking.c]: two tasks with 16K of private
    memory each, mapped at address 0, and a shared kernel; the task to run next
    is what the guest stored at 0xFF00, and the switch happens when the entry of
    a task is accessed. *)
From stdpp Require Import base numbers list gmap strings.
From S2P Require Import Prelude Types Isa BusSpec Bus State Interfaces Mmu Instruction Emulation.
From S2P Require Import Disasm Debug Exec Api Invariant MmuSpec JitCache JitEmit Jit JitNative Remap.
From S2P Require Import ExHost.

Definition TASK_SIZE : Z := 0x4000.
Definition TASK_ENTRY : Z := 0x1000.
Definition PHYS_TASK0_START : Z := 0x0000.
Definition PHYS_TASK1_START : Z := 0x4000.
Definition YIELD_REG : Z := 0xFF00.
Definition CURRENT_TASK_REG : Z := 0xFF01.
Definition KERNEL_START : Z := 0x8000.

Record task_state := mkTask { current_task : Z; last_yield : Z }.

#[local] Existing Instance no_devices.

Section Tasks.
Context (J : Type).
#[local] Hint Extern 0 Sys => exact (ex_sys J task_state) : typeclass_instances.
#[local] Hint Extern 0 SysBus => exact (ex_bus J task_state) : typeclass_instances.

Definition task_translate (vaddr : Z) (access : rk65c02_mmu_access_t) : M rk65c02_mmu_result_t :=
  if vaddr <? TASK_SIZE then
    (if vaddr =? TASK_ENTRY then
       reg ← host_bus_read_1 J task_state YIELD_REG;
       modify (λ e, set_host (mkTask (reg &&& 1) (last_yield (host e)) : sys_host) e)
     else mret tt);;
    task ← gets (λ e, current_task (host e));
    if task =? 0 then mret (rwx vaddr true)
    else mret (rwx (u32 (vaddr + PHYS_TASK1_START)) true)
  else mret (rwx vaddr false).

Context {JO : JitOps}.

Definition task_tick : M unit :=
  next ← host_bus_read_1 J task_state YIELD_REG;
  e ← get;
  if next =? last_yield (host e) then mret tt
  else
    modify (λ e, set_host (mkTask (current_task (host e)) next : sys_host) e);;
    remap (seqZ 0 0x40);;
    host_bus_write_1 J task_state CURRENT_TASK_REG (next &&& 1).

Definition task_host : HostOps.
Proof.
  refine {|
    host_on_stop := λ _ _ _, mret tt;
    host_tick := λ _ _, task_tick;
    host_idle_wait := λ _ _, mret tt;
    host_mmu_translate := λ _ _ vaddr access, task_translate vaddr access;
    host_mmu_fault := λ _ _ _ _ _, mret tt;
    host_device_read := λ _ _ _, mret tt;
    host_device_write := λ _ _ _ _, mret tt;
    indeterminate := 0
  |}.
  lia.
Defined.
#[local] Existing Instance task_host.

Context (run_jit : nat → M unit).

(** [None] is the exit with status 1 after a file that could not be loaded. *)
Definition task_bus (kernel task : option (list Z)) : option bus_t :=
  let b := bus_init_with_default_devs in
  let '(d, b) := dev_alloc b (device_ram_init 0x100) in
  let b := bus_device_add b d 0xFF00 in
  let '(ok, b) := bus_load_file b KERNEL_START kernel in
  if negb ok then None
  else
    let '(ok, b) := bus_load_file b (PHYS_TASK0_START + 0x1000) task in
    if negb ok then None
    else
      let '(ok, b) := bus_load_file b (PHYS_TASK1_START + 0x1000) task in
      if negb ok then None else Some b.

Definition task_main (kernel task : option (list Z)) (fuel : nat) : M Z :=
  modify (set_host (mkTask 0 0xFF : sys_host));;
  match task_bus kernel task with
  | None => mret 1
  | Some b =>
      ex_init J task_state b;;
      put_SP 0xFF;;
      put_PC KERNEL_START;;
      ok ← rk65c02_mmu_set (Some 0%nat) 0 None 0 true false;
      if negb ok then assert_fail
      else
        host_bus_write_1 J task_state YIELD_REG 0;;
        host_bus_write_1 J task_state CURRENT_TASK_REG 0;;
        rk65c02_tick_set (Some 0%nat) 1 0;;
        rk65c02_start run_jit fuel;;
        e ← get;
        if negb (bool_decide (stopreason e = STP)) then ex_finish J task_state;; mret 1
        else
          c0 ← host_bus_read_1 J task_state 0x0200;
          c1 ← host_bus_read_1 J task_state 0x4200;
          if (c0 <? 2) || (c1 <? 2) || (negb (c0 =? 3) && negb (c1 =? 3))
          then ex_finish J task_state;; mret 1
          else ex_finish J task_state;; mret 0
  end.

(** ** What a task's addresses mean *)

(** Where an address goes while [task] runs. *)
Definition task_phys (task v : Z) : Z :=
  if (v <? TASK_SIZE) && negb (task =? 0) then v + PHYS_TASK1_START else v.

(** The callback's answer: the entry of a task selects the task in the yield
    register, every other address is that of the current task; private memory
    is never cached. *)
Lemma task_translate_spec e v a : word v → is_Some (ram_cell (bus e) YIELD_REG) →
  let task := if v =? TASK_ENTRY then mem_at (bus e : bus_t) YIELD_REG &&& 1 else current_task (host e) in
  task_translate v a e =
    (Ret (rwx (task_phys task v) (v <? TASK_SIZE)),
     if v =? TASK_ENTRY then set_host (mkTask task (last_yield (host e)) : sys_host) e else e).
Proof.
  intros Hv Hr task. unfold task_translate, task_phys.
  destruct (Z.ltb_spec v TASK_SIZE) as [Hlt|Hge].
  - assert (u32 (v + PHYS_TASK1_START) = v + PHYS_TASK1_START) as Hu
      by (apply u32_small; unfold TASK_SIZE, PHYS_TASK1_START in *; lia).
    rewrite Hu. unfold task. destruct (v =? TASK_ENTRY).
    + erewrite bind_Ret by (erewrite bind_Ret by (by apply host_read_ram); reflexivity).
      erewrite bind_Ret by reflexivity. cbn. by destruct (_ =? 0).
    + erewrite bind_Ret by reflexivity. erewrite bind_Ret by reflexivity. cbv beta. by destruct (_ =? 0).
  - destruct (Z.eqb_spec v TASK_ENTRY) as [->|]; [unfold TASK_SIZE, TASK_ENTRY in Hge; lia|done].
Qed.

(** The private memories of the two tasks are apart. *)
Lemma task_phys_private v v' : 0 ≤ v < TASK_SIZE → 0 ≤ v' < TASK_SIZE → task_phys 0 v ≠ task_phys 1 v'.
Proof.
  unfold task_phys, TASK_SIZE, PHYS_TASK1_START. intros.
  destruct (Z.ltb_spec v 0x4000), (Z.ltb_spec v' 0x4000); cbn; lia.
Qed.

End Tasks.

(** The programs of [mmu_multitasking_kernel.s] and [mmu_multitasking_task.s]. *)
Definition task_kernel_rom : list Z := [0xA9; 0x00; 0x8D; 0x00; 0xFF; 0x4C; 0x00; 0x10].
Definition task_rom : list Z :=
  [0xEE; 0x00; 0x02; 0xAD; 0x00; 0x02; 0xC9; 0x03; 0xB0; 0x0B; 0xAD; 0x01; 0xFF; 0x49; 0x01;
   0x8D; 0x00; 0xFF; 0x4C; 0x00; 0x10; 0xDB].

Section Stub.
#[local] Hint Extern 0 Sys => exact (ex_sys unit task_state) : typeclass_instances.
#[local] Hint Extern 0 SysBus => exact (ex_bus unit task_state) : typeclass_instances.
#[local] Hint Extern 0 HostOps => exact (task_host unit) : typeclass_instances.
#[local] Hint Extern 0 JitOps => exact jit_stub : typeclass_instances.
Definition task_run (kernel task : list Z) : outcome Z * rk65c02emu :=
  task_main unit stub_run_jit (Some kernel) (Some task) 200 (blank unit task_state (mkTask 0 0)).

(** The program passes: both tasks have run, each with a counter of its own. *)
Lemma task_main_passes :
  (task_run task_kernel_rom task_rom).1 = Ret 0 ∧
  (let e := (task_run task_kernel_rom task_rom).2 in
   ((bus_read_1 (bus e) 0x0200).1, (bus_read_1 (bus e) 0x4200).1)) = (3, 2).
Proof. vm_compute. split; reflexivity. Qed.

(** The second task's memory is not private: addresses from 0x4000 to 0x7FFF are
    mapped to themselves, and a kernel that stores to 0x4200 before any switch,
    while task 0 is current, overwrites the counter of task 1. *)
Lemma task1_memory_reachable :
  let e := (task_run [0xA9; 0x77; 0x8D; 0x00; 0x42; 0xDB] task_rom).2 in
  (stopreason e, current_task (host e), task_phys 0 0x4200, task_phys 1 0x0200,
   (bus_read_1 (bus e) 0x4200).1) = (STP, 0, 0x4200, 0x4200, 0x77).
Proof. vm_compute. reflexivity. Qed.
End Stub.
