(* ===== verification/ExTinyos.v ===== *)
(** The host of [src/examples/tinyos.c]: three tasks with 32K of private
    physical memory each above 64K, a console device, and a scheduler in the
    idle callback.

    The host's [struct task_state] is shared by the console device
    ([d->config]) and the two callbacks (their context): the model keeps it in
    the device, with the text the device has printed. *)
From stdpp Require Import base numbers list gmap strings pretty.
From S2P Require Import Prelude Types Isa BusSpec Bus State Interfaces Mmu Instruction Emulation.
From S2P Require Import Disasm Debug Exec Api Invariant MmuSpec JitCache JitEmit Jit JitNative Remap.
From S2P Require Import ExHost.

Definition TASK_SIZE : Z := 0x8000.
Definition TASK_ENTRY : Z := 0x1000.
Definition PHYS_TASK0_BASE : Z := 0x10000.
Definition PHYS_TASK1_BASE : Z := 0x18000.
Definition PHYS_TASK2_BASE : Z := 0x20000.
Definition YIELD_REG : Z := 0xFF00.
Definition CURRENT_TASK_REG : Z := 0xFF01.
Definition KERNEL_START : Z := 0x8000.
Definition IRQ_HANDLER : Z := 0x8010.
Definition CONSOLE_BASE : Z := 0xDE00.
Definition NUM_TASKS : Z := 3.

(** [*ts] and the text on the console. *)
Record console := mkConsole { current_task : Z; printed : string }.

Definition console_read_1 (doff : Z) : Z := 0.
Definition console_write_1 (c : console) (doff val : Z) : console :=
  mkConsole (current_task c) (printed c +:+ "[" +:+ pretty (current_task c) +:+ "] " +:+
    String (Ascii.ascii_of_nat (Z.to_nat val)) "").

#[local] Program Instance tiny_devices : DeviceHost := {|
  dev_priv := console;
  host_read_1 := λ _ c doff, (console_read_1 doff, c);
  host_write_1 := λ _ c doff val, console_write_1 c doff val;
  host_finish := λ _ _, None
|}.
Next Obligation. intros. cbn. unfold console_read_1. lia. Qed.

(** The devices in the order [main] creates them. *)
Definition CONSOLE_DEV : nat := 2.
Definition TASK_DEV : nat := 3.

Definition tiny_get (b : bus_t) : console :=
  match dev_aux (dev_at b CONSOLE_DEV) with HostBody _ c => c | RamBody _ => mkConsole 0 "" end.
Definition tiny_put (b : bus_t) (c : console) : bus_t := dev_put b CONSOLE_DEV (HostBody 0 c).
Definition tiny_task (b : bus_t) : Z := current_task (tiny_get b).

(** The [switch] of [tinyos_translate]. *)
Definition task_base (task : Z) : Z :=
  if task =? 0 then PHYS_TASK0_BASE else if task =? 1 then PHYS_TASK1_BASE
  else if task =? 2 then PHYS_TASK2_BASE else PHYS_TASK0_BASE.

(** ** The bus of the three tasks *)

Definition task_index (task : Z) : nat := if task =? 1 then 1 else if task =? 2 then 2 else 0.

(** Task memory is reached by physical addresses only; everything mapped in the
    first 64K is another device. *)
Record tiny_layout (b : bus_t) : Prop := {
  tl_low : Forall (λ dm, (dm_dev dm < TASK_DEV)%nat) (dm_head b);
  tl_phys : dm_phys_head b = [mkPhysMapping 3 PHYS_TASK0_BASE; mkPhysMapping 4 PHYS_TASK1_BASE;
                              mkPhysMapping 5 PHYS_TASK2_BASE];
  tl_ram : ∀ u, (u < 3)%nat → dev_size (dev_at b (TASK_DEV + u)) = TASK_SIZE ∧
    ∃ ram, dev_aux (dev_at b (TASK_DEV + u)) = RamBody ram
}.

(** What an access by task [t] leaves alone: the layout, the choice of the task
    and the memory of the other tasks. *)
Record tiny_keeps (t : nat) (b b' : bus_t) : Prop := {
  tk_layout : tiny_layout b';
  tk_task : tiny_task b' = tiny_task b;
  tk_others : ∀ u, (u < 3)%nat → u ≠ t → dev_at b' (TASK_DEV + u) = dev_at b (TASK_DEV + u)
}.

Lemma tiny_keeps_refl t b : tiny_layout b → tiny_keeps t b b.
Proof. by split. Qed.
Lemma tiny_keeps_trans t b b1 b2 : tiny_keeps t b b1 → tiny_keeps t b1 b2 → tiny_keeps t b b2.
Proof. intros [_ T1 O1] [L2 T2 O2]. split; [done|congruence|]. intros u Hu Hne. by rewrite O2, O1. Qed.

(** A device that is replaced: one of the low devices, or the RAM of task [t]. *)
Lemma tiny_put_dev t b p body : tiny_layout b →
  (p = CONSOLE_DEV → ∃ id c, body = HostBody id c ∧ (∀ id' c', dev_aux (dev_at b p) = HostBody id' c' →
     current_task c = current_task c')) →
  (p = CONSOLE_DEV → ∃ id c, dev_aux (dev_at b p) = HostBody id c) →
  ((p < TASK_DEV)%nat ∨ p = (TASK_DEV + t)%nat ∧ ∃ ram, body = RamBody ram) →
  tiny_keeps t b (dev_put b p body).
Proof.
  intros [Hl Hp Hr] Hc Hc' Hd. unfold TASK_DEV, CONSOLE_DEV in *. split; [split| |].
  - exact Hl.
  - exact Hp.
  - intros u Hu. rewrite dev_put_size. split; [by apply Hr|]. rewrite dev_put_at. case_decide as Hq; [|by apply Hr].
    destruct Hq as [-> _], Hd as [Hd|[-> Hd]]; [unfold TASK_DEV in *; lia|exact Hd].
  - unfold tiny_task, tiny_get. rewrite dev_put_at. unfold CONSOLE_DEV. case_decide as Hq; [|done].
    destruct Hq as [-> _]. destruct (Hc eq_refl) as (id&c&->&Hsame), (Hc' eq_refl) as (id'&c'&E).
    cbn [dev_aux]. rewrite E. by apply Hsame in E.
  - intros u Hu Hne. rewrite dev_put_at. case_decide as Hq; [|done]. destruct Hq as [Eq _]. subst p.
    destruct Hd as [Hd|[Hd _]]; unfold TASK_DEV in *; lia.
Qed.

Lemma low_device b a d off : tiny_layout b → bus_access_device b a = Some (d, off) → (d < TASK_DEV)%nat.
Proof.
  intros [Hl _ _]. unfold bus_access_device. destruct (dm_scan b a (dm_head b) None) as [[d' o]|] eqn:E; [|done].
  intros [= -> _]. apply dm_scan_Some in E as (l1&dm&l2&El&->&_). rewrite El in Hl.
  by apply Forall_app in Hl as [_ [Hdm _]%Forall_cons].
Qed.

(** The console stays a console. *)
Definition has_console (b : bus_t) : Prop := ∃ id c, dev_aux (dev_at b CONSOLE_DEV) = HostBody id c.

Lemma call_write_low t b d off v : tiny_layout b → has_console b → (d < TASK_DEV)%nat →
  tiny_keeps t b (call_write_1 b d off v) ∧ has_console (call_write_1 b d off v).
Proof.
  intros Hb (id&c&Hc) Hd. unfold call_write_1. destruct (dev_aux (dev_at b d)) as [ram|id' c'] eqn:E.
  - assert (d ≠ CONSOLE_DEV) by (intros ->; congruence). split.
    + apply tiny_put_dev; [done|done|done|by left].
    + exists id, c. rewrite dev_put_at. by rewrite decide_False by naive_solver.
  - split.
    + apply tiny_put_dev; [done| |eauto|by left]. intros ->. eexists _, _. split; [reflexivity|].
      intros id2 c2 E2. rewrite E in E2. by injection E2 as <- <-.
    + unfold has_console. rewrite dev_put_at. case_decide; cbn; eauto.
Qed.
Lemma call_read_low t b d off : tiny_layout b → has_console b → (d < TASK_DEV)%nat →
  tiny_keeps t b (call_read_1 b d off).2 ∧ has_console (call_read_1 b d off).2.
Proof.
  intros Hb Hcon Hd. unfold call_read_1. destruct (dev_aux (dev_at b d)) as [ram|id' c'] eqn:E.
  - split; [by apply tiny_keeps_refl|done].
  - cbn. destruct Hcon as (id&c&Hc). split.
    + apply tiny_put_dev; [done| |eauto|by left]. intros ->. eexists _, _. split; [reflexivity|].
      intros id2 c2 E2. rewrite E in E2. by injection E2 as <- <-.
    + unfold has_console. rewrite dev_put_at. case_decide; cbn; eauto.
Qed.

Lemma tiny_low_access t b a v : tiny_layout b → has_console b →
  (tiny_keeps t b (bus_write_1 b a v) ∧ has_console (bus_write_1 b a v)) ∧
  (tiny_keeps t b (bus_read_1 b a).2 ∧ has_console (bus_read_1 b a).2).
Proof.
  intros Hb Hc. unfold bus_write_1, bus_read_1. destruct (bus_access_device b a) as [[d off]|] eqn:E.
  - pose proof (low_device b a d off Hb E). split; [by apply call_write_low|by apply call_read_low].
  - split; (split; [by apply tiny_keeps_refl|done]).
Qed.

(** A physical address of a task's memory is in that task's RAM. *)
Lemma task_access b task v : tiny_layout b → 0 ≤ v < TASK_SIZE →
  bus_access_device_phys b (task_base task + v) = Some ((TASK_DEV + task_index task)%nat, v).
Proof.
  intros [_ Hp Hr] Hv. unfold bus_access_device_phys, RK65C02_BUS_SIZE. rewrite Hp.
  pose proof (Hr 0%nat ltac:(lia)) as [S0 _]. pose proof (Hr 1%nat ltac:(lia)) as [S1 _].
  pose proof (Hr 2%nat ltac:(lia)) as [S2 _]. unfold TASK_DEV in *. cbn in S0, S1, S2.
  unfold TASK_SIZE in *. unfold task_base, task_index, PHYS_TASK0_BASE, PHYS_TASK1_BASE, PHYS_TASK2_BASE.
  cbn [pm_scan]. unfold pm_hit. cbn [pm_dev pm_base]. rewrite S0, S1, S2. rewrite !u32_small by lia.
  destruct (Z.eqb_spec task 0), (Z.eqb_spec task 1), (Z.eqb_spec task 2);
    try lia; cbn [Z.eqb];
    repeat match goal with
    | |- context [?x <? ?y] => destruct (Z.ltb_spec x y); try lia
    | |- context [?x >=? ?y] => destruct (Z.geb_spec x y); try lia
    end; cbn; f_equal; f_equal; rewrite u16_small by lia; lia.
Qed.

Lemma task_base_ext task v : 0 ≤ v → (task_base task + v <? RK65C02_BUS_SIZE) = false.
Proof.
  unfold task_base, PHYS_TASK0_BASE, PHYS_TASK1_BASE, PHYS_TASK2_BASE, RK65C02_BUS_SIZE.
  repeat case_match; lia.
Qed.

Lemma tiny_phys_access b task v val : tiny_layout b → has_console b → 0 ≤ v < TASK_SIZE →
  (tiny_keeps (task_index task) b (bus_write_1_phys b (task_base task + v) val) ∧
   has_console (bus_write_1_phys b (task_base task + v) val)) ∧
  bus_read_1_phys b (task_base task + v) =
    ((bus_read_1_phys b (task_base task + v)).1, b).
Proof.
  intros Hb Hc Hv. unfold bus_write_1_phys, bus_read_1_phys. rewrite (task_access b task v Hb Hv).
  rewrite task_base_ext by lia.
  assert (task_index task < 3)%nat as Hi by (unfold task_index; repeat case_match; lia).
  destruct (tl_ram b Hb (task_index task) Hi) as [_ [ram Hram]].
  unfold call_write_1, call_read_1. rewrite Hram. split; [|done]. split.
  - apply tiny_put_dev; [done|unfold TASK_DEV, CONSOLE_DEV; lia..|]. right. eauto.
  - destruct Hc as (id&c&Hc). exists id, c. rewrite dev_put_at. rewrite decide_False; [done|].
    intros [? _]. unfold TASK_DEV, CONSOLE_DEV in *. lia.
Qed.

Section Tinyos.
Context (J : Type).
#[local] Hint Extern 0 Sys => exact (ex_sys J unit) : typeclass_instances.
#[local] Hint Extern 0 SysBus => exact (ex_bus J unit) : typeclass_instances.

Definition set_current_task (task : Z) : M unit :=
  modify (λ e, set_bus (tiny_put (bus e) (mkConsole task (printed (tiny_get (bus e)))) : sys_bus) e).

Definition tinyos_translate (vaddr : Z) (access : rk65c02_mmu_access_t) : M rk65c02_mmu_result_t :=
  if vaddr <? TASK_SIZE then
    (if vaddr =? TASK_ENTRY then
       reg ← host_bus_read_1 J unit YIELD_REG;
       set_current_task (reg mod NUM_TASKS);;
       task ← gets (λ e, tiny_task (bus e));
       host_bus_write_1 J unit CURRENT_TASK_REG task
     else mret tt);;
    task ← gets (λ e, tiny_task (bus e));
    mret (rwx (u32 (task_base task + vaddr)) true)
  else mret (rwx vaddr false).

Context {JO : JitOps}.

Definition on_idle_wait : M unit :=
  task ← gets (λ e, tiny_task (bus e));
  let next := u8 ((task + 1) mod NUM_TASKS) in
  host_bus_write_1 J unit YIELD_REG next;;
  host_bus_write_1 J unit CURRENT_TASK_REG next;;
  set_current_task next;;
  remap (seqZ 0 0x80);;
  rk65c02_assert_irq.

Definition tiny_host : HostOps.
Proof.
  refine {|
    host_on_stop := λ _ _ _, mret tt;
    host_tick := λ _ _, mret tt;
    host_idle_wait := λ _ _, on_idle_wait;
    host_mmu_translate := λ _ _ vaddr access, tinyos_translate vaddr access;
    host_mmu_fault := λ _ _ _ _ _, mret tt;
    host_device_read := λ _ _ _, mret tt;
    host_device_write := λ _ _ _ _, mret tt;
    indeterminate := 0
  |}.
  lia.
Defined.
#[local] Existing Instance tiny_host.

Context (run_jit : nat → M unit).

Definition tiny_add (t : bus_t) (d : device_t) (addr : Z) : bus_t :=
  let '(p, t) := dev_alloc t d in bus_device_add t p addr.
Definition tiny_add_phys (t : bus_t) (d : device_t) (base : Z) : bus_t :=
  let '(p, t) := dev_alloc t d in bus_device_add_phys t p base.

(** The bus [main] sets up; [None] is the exit with status 1 after a file that
    could not be loaded. *)
Definition tiny_devs : bus_t :=
  let b := tiny_add bus_init (device_ram_init 0xFFFF) 0 in
  let b := tiny_add b (device_ram_init 0x100) 0xFF00 in
  let b := tiny_add b (mkDevice "console" 16 (HostBody 0 (mkConsole 0 ""))) CONSOLE_BASE in
  let b := tiny_add_phys b (device_ram_init TASK_SIZE) PHYS_TASK0_BASE in
  let b := tiny_add_phys b (device_ram_init TASK_SIZE) PHYS_TASK1_BASE in
  tiny_add_phys b (device_ram_init TASK_SIZE) PHYS_TASK2_BASE.
Definition tiny_load (b : bus_t) (kernel task : option (list Z)) : option bus_t :=
  let '(ok, b) := bus_load_file b KERNEL_START kernel in
  if negb ok then None
  else
    let '(ok, b) := bus_load_file_phys b (PHYS_TASK0_BASE + TASK_ENTRY) task in
    if negb ok then None
    else
      let '(ok, b) := bus_load_file_phys b (PHYS_TASK1_BASE + TASK_ENTRY) task in
      if negb ok then None
      else
        let '(ok, b) := bus_load_file_phys b (PHYS_TASK2_BASE + TASK_ENTRY) task in
        if negb ok then None else Some b.

Definition tiny_main (kernel task : option (list Z)) (fuel : nat) : M Z :=
  match tiny_load tiny_devs kernel task with
  | None => mret 1
  | Some b =>
      let b := bus_write_1 b 0xFFFC (u8 (KERNEL_START &&& 0xFF)) in
      let b := bus_write_1 b 0xFFFD (u8 (KERNEL_START ≫ 8)) in
      let b := bus_write_1 b 0xFFFE (u8 (IRQ_HANDLER &&& 0xFF)) in
      let b := bus_write_1 b 0xFFFF (u8 (IRQ_HANDLER ≫ 8)) in
      ex_init J unit b;;
      put_SP 0xFF;;
      put_PC KERNEL_START;;
      ok ← rk65c02_mmu_set (Some 0%nat) 0 None 0 true false;
      if negb ok then assert_fail
      else
        host_bus_write_1 J unit YIELD_REG 0;;
        host_bus_write_1 J unit CURRENT_TASK_REG 0;;
        rk65c02_idle_wait_set (Some 0%nat) 0;;
        rk65c02_start run_jit fuel;;
        e ← get;
        if negb (bool_decide (stopreason e = STP)) then ex_finish J unit;; mret 1
        else ex_finish J unit;; mret 0
  end.

(** ** Isolation *)

Definition tiny_fixed : mapping := λ v _, rwx v false.
Lemma tiny_fixed_stable p : stable_at tiny_fixed p.
Proof.
  intros v a Hv Hp _ _ _ v' a' Hv' Hp'. cbn. split_and!; [done..|].
  pose proof (page_split v Hv). pose proof (page_split v' Hv'). rewrite Hp, Hp' in *. lia.
Qed.

Record tiny_ready (e : rk65c02emu) : Prop := {
  ty_callback : mmu_translate e = Some 0%nat;
  ty_layout : tiny_layout (bus e);
  ty_console : has_console (bus e);
  ty_private : ∀ p, 0 ≤ p < 0x80 → tlb_hit e p = false;
  ty_shared : ∀ p, 0x80 ≤ p → coherent_at tiny_fixed e p
}.

Lemma tiny_ready_bus e b : tiny_ready e → tiny_layout b → has_console b → tiny_ready (set_bus (b : sys_bus) e).
Proof. intros [H1 H2 H3 H4 H5] Hb Hc. by split. Qed.

(** Where the address [v] of the task [task] is. *)
Definition tiny_phys (task v : Z) : Z := if v <? TASK_SIZE then task_base task + v else v.

Lemma tiny_step e v a req : tiny_ready e → word v → v ≠ TASK_ENTRY → Z.land 7 req = req →
  ∃ e', rk65c02_mmu_translate_addr v a req e = (Ret (Xok (tiny_phys (tiny_task (bus e)) v)), e') ∧
    tiny_ready e' ∧ bus e' = bus e.
Proof.
  intros Hr Hv Hne Hreq. pose proof (page_split v Hv) as Hs. pose proof (u8_byte v). pose proof (page_byte v).
  assert (∀ t, 0 ≤ task_base t + v < 0x30000) as Hbase.
  { intros t. unfold task_base, PHYS_TASK0_BASE, PHYS_TASK1_BASE, PHYS_TASK2_BASE. repeat case_match; lia. }
  unfold tiny_phys. destruct (Z.ltb_spec v TASK_SIZE) as [Hlt|Hge]; unfold TASK_SIZE in *.
  - set (e1 := set_mmu_tlb_misses (u64 (mmu_tlb_misses e + 1)) e).
    exists e1. split; [|split; [by destruct Hr; split|done]].
    erewrite (translate_uncached 0%nat v a req e (rwx (task_base (tiny_task (bus e)) + v) true) e1);
      [|apply Hr|apply Hr; lia| |done].
    + rewrite answer_rwx; [done| |done]. pose proof (Hbase (tiny_task (bus e))). unfold RK65C02_PHYS_MAX. lia.
    + cbn [host_mmu_translate tiny_host]. unfold tinyos_translate, TASK_SIZE.
      rewrite (proj2 (Z.ltb_lt v 0x8000)), (proj2 (Z.eqb_neq v TASK_ENTRY)) by done.
      erewrite bind_Ret by reflexivity. erewrite bind_Ret by reflexivity. cbv beta.
      pose proof (Hbase (tiny_task (bus e))). change (bus (set_mmu_tlb_misses _ e)) with (bus e).
      by rewrite u32_small by lia.
  - destruct (translate_addr_at tiny_fixed e v a req) as (e'&E&Hco&Ho&Ht);
      [|apply tiny_fixed_stable|intros v' a' Hv'; cbn; lia|apply Hr; lia|done|].
    + exists 0%nat. split; [apply Hr|]. intros e' _. cbn [host_mmu_translate tiny_host].
      unfold tinyos_translate, TASK_SIZE. by replace (v <? 0x8000) with false by lia.
    + exists e'. rewrite E. unfold translate_spec, tiny_fixed. rewrite answer_rwx by (done || unfold RK65C02_PHYS_MAX; lia).
      split; [done|]. destruct Ht as (t&h&n&->). split; [|done].
      destruct Hr as [H1 H2 H3 H4 H5]. split; [done..| |].
      * intros p Hp. destruct (Ho p) as [-> _]; [lia|]. auto.
      * intros p Hp. destruct (decide (p = page v)) as [->|Hq]; [done|].
        by eapply coherent_other; [exact Ho|done|auto].
Qed.

Lemma tiny_no_calls d val e : device_write d val e = (Ret tt, e) ∧ device_read d e = (Ret tt, e).
Proof. by destruct d as [[[] ?]|]. Qed.

Definition tiny_index (e : rk65c02emu) : nat := task_index (tiny_task (bus e)).

(** One access of a task. *)
Lemma tiny_write e acc v val : tiny_ready e → word v → v ≠ TASK_ENTRY →
  ∃ e', rk65c02_mem_write_mmu v val acc e = (Ret tt, e') ∧ tiny_ready e' ∧
    tiny_keeps (tiny_index e) (bus e) (bus e').
Proof.
  intros Hr Hv Hne.
  destruct (tiny_step e v RK65C02_MMU_WRITE RK65C02_MMU_PERM_W Hr Hv Hne eq_refl) as (e1&E1&Hr1&Hb1).
  unfold rk65c02_mem_write_mmu. erewrite bind_Ret by exact E1. cbv beta iota. unfold tiny_phys.
  destruct (Z.ltb_spec v TASK_SIZE) as [Hlt|Hge].
  - destruct (tiny_phys_access (bus e) (tiny_task (bus e)) v val) as [[Hk Hc] _]; [apply Hr|apply Hr|lia|].
    rewrite task_base_ext by lia. unfold core_bus_write_1_phys. do 2 erewrite bind_Ret by reflexivity.
    rewrite (proj1 (tiny_no_calls _ _ _)), Hb1. eexists. split; [reflexivity|]. split; [|exact Hk].
    apply tiny_ready_bus; [done|apply Hk|done].
  - destruct (tiny_low_access (tiny_index e) (bus e) (u16 v) val) as [[Hk Hc] _]; [apply Hr|apply Hr|].
    replace (v <? RK65C02_BUS_SIZE) with true by (unfold RK65C02_BUS_SIZE; lia).
    unfold core_bus_write_1. do 2 erewrite bind_Ret by reflexivity.
    rewrite (proj1 (tiny_no_calls _ _ _)), Hb1. eexists. split; [reflexivity|]. split; [|exact Hk].
    apply tiny_ready_bus; [done|apply Hk|done].
Qed.

Lemma tiny_read e acc v : tiny_ready e → word v → v ≠ TASK_ENTRY →
  ∃ x e', rk65c02_mem_read_mmu v acc e = (Ret x, e') ∧ tiny_ready e' ∧
    tiny_keeps (tiny_index e) (bus e) (bus e').
Proof.
  intros Hr Hv Hne.
  destruct (tiny_step e v acc (req_perm_read acc) Hr Hv Hne) as (e1&E1&Hr1&Hb1); [by destruct acc|].
  unfold rk65c02_mem_read_mmu. erewrite bind_Ret by exact E1. cbv beta iota. unfold tiny_phys.
  destruct (Z.ltb_spec v TASK_SIZE) as [Hlt|Hge].
  - destruct (tiny_phys_access (bus e) (tiny_task (bus e)) v 0) as [_ Hx]; [apply Hr|apply Hr|lia|].
    rewrite task_base_ext by lia. unfold core_bus_read_1_phys. erewrite bind_Ret by reflexivity. rewrite Hb1.
    change (b_read_phys (bus e) ?x) with (bus_read_1_phys (bus e) x). rewrite Hx.
    erewrite bind_Ret by reflexivity. erewrite bind_Ret by apply (tiny_no_calls _ 0).
    eexists _, _. split; [reflexivity|]. split; [apply tiny_ready_bus; [done|apply Hr|apply Hr]|].
    apply tiny_keeps_refl, Hr.
  - destruct (tiny_low_access (tiny_index e) (bus e) (u16 v) 0) as [_ [Hk Hc]]; [apply Hr|apply Hr|].
    replace (v <? RK65C02_BUS_SIZE) with true by (unfold RK65C02_BUS_SIZE; lia).
    unfold core_bus_read_1. erewrite bind_Ret by reflexivity. rewrite Hb1.
    change (b_read (bus e) ?x) with (bus_read_1 (bus e) x). destruct (bus_read_1 (bus e) (u16 v)) as [x b1].
    erewrite bind_Ret by reflexivity. erewrite bind_Ret by apply (tiny_no_calls _ 0).
    eexists _, _. split; [reflexivity|]. split; [|exact Hk]. apply tiny_ready_bus; [done|apply Hk|done].
Qed.

Lemma tiny_access e a v val : tiny_ready e → word v → v ≠ TASK_ENTRY →
  ∃ e', attempt a v val e = (Ret tt, e') ∧ tiny_ready e' ∧ tiny_keeps (tiny_index e) (bus e) (bus e').
Proof.
  intros Hr Hv Hne. destruct a; cbn [attempt]; [..|by apply tiny_write];
    (edestruct (tiny_read e) as (x&e'&E&Hr'&Hk); [done..|]; exists e';
     split; [by erewrite bind_Ret by exact E|by split]).
Qed.

Fixpoint attempt_all (l : list (rk65c02_mmu_access_t * Z * Z)) : M unit :=
  match l with [] => mret tt | (a, v, val) :: l' => attempt a v val;; attempt_all l' end.

(** C18: tasks are isolated.  Whatever a task reads, writes and fetches, at any
    addresses but the entry that switches tasks, leaves the private memory of
    the other two tasks as it was; the task stays the current one. *)
Theorem tinyos_isolates_tasks e l : tiny_ready e →
  Forall (λ q, word q.1.2 ∧ q.1.2 ≠ TASK_ENTRY) l →
  ∃ e', attempt_all l e = (Ret tt, e') ∧ tiny_ready e' ∧ tiny_task (bus e') = tiny_task (bus e) ∧
    ∀ u, (u < 3)%nat → u ≠ tiny_index e → dev_at (bus e') (TASK_DEV + u) = dev_at (bus e) (TASK_DEV + u).
Proof.
  intros Hr Hl. assert (∃ e', attempt_all l e = (Ret tt, e') ∧ tiny_ready e' ∧
    tiny_keeps (tiny_index e) (bus e) (bus e')) as (e'&E&Hr'&[_ Ht Ho]); [|by exists e'].
  revert e Hr. induction Hl as [|[[a v] val] l [Hv Hne] _ IH]; intros e Hr.
  - exists e. split; [done|]. split; [done|]. apply tiny_keeps_refl, Hr.
  - destruct (tiny_access e a v val Hr Hv Hne) as (e1&E1&Hr1&Hk1).
    destruct (IH e1 Hr1) as (e2&E2&Hr2&Hk2). exists e2. cbn [attempt_all].
    split; [by erewrite bind_Ret by exact E1|]. split; [done|].
    assert (tiny_index e1 = tiny_index e) as Hi by (unfold tiny_index; by rewrite (tk_task _ _ _ Hk1)).
    rewrite Hi in Hk2. by eapply tiny_keeps_trans.
Qed.

End Tinyos.

(** The programs of [tinyos_kernel.s] and [tinyos_task.s]. *)
Definition tiny_kernel_rom : list Z :=
  [0xA9; 0x00; 0x8D; 0x00; 0xFF; 0x8D; 0x01; 0xFF; 0x4C; 0x00; 0x10; 0; 0; 0; 0; 0; 0x4C; 0x00; 0x10].
Definition tiny_task_rom : list Z :=
  [0xAD; 0x01; 0xFF; 0x18; 0x69; 0x30; 0x8D; 0x00; 0xDE; 0xE6; 0x02; 0xA5; 0x02; 0x29; 0x01; 0xD0; 0x01;
   0xCB; 0xEE; 0x00; 0x02; 0xAD; 0x00; 0x02; 0xC9; 0x03; 0xB0; 0x12; 0xAD; 0x01; 0xFF; 0x18; 0x69; 0x01;
   0xC9; 0x03; 0x90; 0x02; 0xA9; 0x00; 0x8D; 0x00; 0xFF; 0x4C; 0x00; 0x10; 0xDB].

Section Stub.
#[local] Hint Extern 0 Sys => exact (ex_sys unit unit) : typeclass_instances.
#[local] Hint Extern 0 SysBus => exact (ex_bus unit unit) : typeclass_instances.
#[local] Hint Extern 0 HostOps => exact (tiny_host unit) : typeclass_instances.
#[local] Hint Extern 0 JitOps => exact jit_stub : typeclass_instances.
Definition tiny_run (kernel task : list Z) (fuel : nat) : outcome Z * rk65c02emu :=
  tiny_main unit stub_run_jit (Some kernel) (Some task) fuel (blank unit unit tt).

(** The program of [tinyos.c] passes, and what it prints: three tasks, each
    printing under its own number. *)
Theorem tiny_main_passes :
  let r := tiny_run tiny_kernel_rom tiny_task_rom 400 in
  r.1 = Ret 0 ∧ printed (tiny_get (bus r.2)) = "[0] 0[1] 1[2] 2[0] 0[2] 2[1] 1[0] 0"%string.
Proof. vm_compute. split; reflexivity. Qed.

(** The interrupt handler at 0x8010 is never entered: the kernel leaves
    interrupts masked, so that the switch after WAI goes on in the middle of the
    next task's code.  A ROM whose handler stops at once prints the same. *)
Lemma tiny_handler_unused :
  let rom := take 16 tiny_kernel_rom ++ [0xDB; 0xDB; 0xDB] in
  let r := tiny_run rom tiny_task_rom 400 in
  r.1 = Ret 0 ∧ printed (tiny_get (bus r.2)) = "[0] 0[1] 1[2] 2[0] 0[2] 2[1] 1[0] 0"%string ∧
  ctrue (P (regs r.2) &&& P_IRQ_DISABLE) = true ∧ SP (regs r.2) = 0xFF.
Proof. vm_compute. split_and!; reflexivity. Qed.

(** The machine before its first instruction. *)
Definition tiny_start : rk65c02emu :=
  ((ex_init unit unit tiny_devs;; rk65c02_mmu_set (Some 0%nat) 0 None 0 true false) (blank unit unit tt)).2.

Lemma tiny_start_ready : tiny_ready unit tiny_start.
Proof.
  assert (∀ p, tlb_hit tiny_start p = false) as Ht.
  { intros p. unfold tlb_hit, tlb_entry. replace (mmu_tlb tiny_start) with (∅ : gmap Z rk65c02_mmu_tlb_entry)
      by (vm_compute; reflexivity). rewrite lookup_empty. cbn. by rewrite andb_false_r. }
  split; [vm_compute; reflexivity|..].
  - split; [vm_compute; repeat constructor|vm_compute; reflexivity|].
    intros u Hu. do 3 (destruct u as [|u]; [split; [vm_compute; reflexivity|by eexists]|]). lia.
  - by eexists _, _.
  - auto.
  - intros p _ Hp. by rewrite Ht in Hp.
Qed.

Lemma tinyos_isolates_tasks_witness : ∃ e',
  attempt_all unit [(RK65C02_MMU_WRITE, 0x0200, 0x55); (RK65C02_MMU_READ, 0x7FFF, 0);
    (RK65C02_MMU_WRITE, 0xDE00, 0x41); (RK65C02_MMU_WRITE, 0xFF00, 1)] tiny_start = (Ret tt, e') ∧
  dev_at (bus e') 4 = dev_at (bus tiny_start) 4.
Proof.
  destruct (tinyos_isolates_tasks unit tiny_start [(RK65C02_MMU_WRITE, 0x0200, 0x55);
    (RK65C02_MMU_READ, 0x7FFF, 0); (RK65C02_MMU_WRITE, 0xDE00, 0x41); (RK65C02_MMU_WRITE, 0xFF00, 1)])
    as (e'&E&_&_&Ho).
  - exact tiny_start_ready.
  - repeat constructor; cbn; (lia || discriminate).
  - exists e'. split; [exact E|]. apply (Ho 1%nat); [lia|]. vm_compute. discriminate.
Defined.
End Stub.
