(* ===== verification/ExHosts.v ===== *)
(** The host programs of [src/examples] that use the library without an MMU:
    [min3.c], [mul_8bit_to_8bits.c], [stepper.c],
    [breakpoints.c], [host_control.c] and [idle_wait.c]; [jit_bench.c]
    is in [ExBench], those with devices of their own are in [ExDevices].

    The host's data is what the program keeps besides the emulator, with the
    text it has printed on [stdout] where that is the point of the program. *)
From stdpp Require Import base numbers list gmap strings pretty.
From S2P Require Import Prelude Types Isa BusSpec Bus State Interfaces Mmu Instruction Emulation.
From S2P Require Import Disasm Debug Exec Console Api Invariant MmuSpec JitCache JitEmit Jit JitNative.
From S2P Require Import Remap ExHost.

#[local] Existing Instance no_devices.

(** [load_addr] of all of them. *)
Definition load_addr : Z := 0xC000.

(** [%04X], [%02X] and [%#04x]. *)
Definition fmt_04X (v : Z) : string :=
  hex_digit true (v / 4096 mod 16) +:+ hex_digit true (v / 256 mod 16) +:+
  hex_digit true (v / 16 mod 16) +:+ hex_digit true (v mod 16).
Definition fmt_02X (v : Z) : string := hex_digit true (v / 16 mod 16) +:+ hex_digit true (v mod 16).
Definition fmt_alt04x (v : Z) : string :=
  if v =? 0 then "0000" else "0x" +:+ (if v <? 16 then "0" else "") +:+ hex_digits false 4 v.

(** ** Programs without callbacks *)

Section Plain.
Context (J : Type).
#[local] Hint Extern 0 Sys => exact (ex_sys J string) : typeclass_instances.
#[local] Hint Extern 0 SysBus => exact (ex_bus J string) : typeclass_instances.

Definition printf (s : string) : M unit := modify (λ e, set_host (host e +:+ s : sys_host) e).

Definition plain_host : HostOps.
Proof.
  refine {|
    host_on_stop := λ _ _ _, mret tt;
    host_tick := λ _ _, mret tt;
    host_idle_wait := λ _ _, mret tt;
    host_mmu_translate := λ _ _ vaddr _, mret (rwx vaddr false);
    host_mmu_fault := λ _ _ _ _ _, mret tt;
    host_device_read := λ _ _ _, mret tt;
    host_device_write := λ _ _ _ _, mret tt;
    indeterminate := 0
  |}.
  lia.
Defined.
#[local] Existing Instance plain_host.

(** [e = rk65c02_load_rom(path, load_addr, NULL)]. *)
Definition ex_load_rom (file : option (list Z)) : M unit := λ e,
  match rk65c02_load_rom (J := J) (H := string) e file load_addr None with
  | Some e' => (Ret tt, e')
  | None => (AssertFail, e)
  end.

Context {JO : JitOps} (jit_enable : bool → M unit) (run_jit : nat → M unit).

(** [main] of [min3.c], in which the three arguments are 5, 9 and 4. *)
Definition min3_run (a b c : Z) (file : option (list Z)) (fuel : nat) : M Z :=
  ex_load_rom file;;
  jit_enable true;;
  put_SP 0xFF;;
  put_PC load_addr;;
  stack_push a;;
  stack_push b;;
  stack_push c;;
  rk65c02_start run_jit fuel;;
  stack_pop.
Definition min3_main (file : option (list Z)) (fuel : nat) : M Z :=
  min ← min3_run 5 9 4 file fuel;
  printf ("Min is: " +:+ pretty min +:+ NL);;
  if negb (min =? 4) then mret 1
  else printf ("PASS: min(5, 9, 4) = 4." +:+ NL);; mret 0.

(** [main] of [mul_8bit_to_8bits.c], in which the factors are 4 and 8. *)
Definition mul_run (num1 num2 : Z) (file : option (list Z)) (fuel : nat) : M Z :=
  ex_load_rom file;;
  put_SP 0xFF;;
  put_PC load_addr;;
  stack_push num1;;
  stack_push num2;;
  rk65c02_start run_jit fuel;;
  stack_pop.
Definition mul_main (file : option (list Z)) (fuel : nat) : M Z :=
  res ← mul_run 4 8 file fuel;
  printf ("Result of multiplication: " +:+ pretty res +:+ NL);;
  if negb (res =? 32) then mret 1
  else printf ("PASS: 4 * 8 = 32." +:+ NL);; mret 0.

(** [main] of [stepper.c]. *)
Definition MAX_STEPS : nat := 25.
Definition stepper_line (steps : Z) : M unit :=
  e ← get;
  let r := regs e in
  printf ("  step " +:+ pretty (steps + 1) +:+ "  PC=$" +:+ fmt_04X (PC r) +:+ "  A=$" +:+ fmt_02X (A r)
    +:+ " X=$" +:+ fmt_02X (X r) +:+ " Y=$" +:+ fmt_02X (Y r) +:+ " SP=$" +:+ fmt_02X (SP r) +:+ "  ");;
  text ← core_disassemble (PC r);
  printf text.
Fixpoint stepper_loop (n : nat) (steps : Z) : M unit :=
  match n with
  | O => mret tt
  | S n' =>
      rk65c02_step 1;;
      stepper_line steps;;
      e ← get;
      if negb (bool_decide (stopreason e = STEPPED)) then mret tt else stepper_loop n' (u16 (steps + 1))
  end.
Definition stepper_main (file : option (list Z)) : M Z :=
  ex_load_rom file;;
  put_SP 0xFF;;
  put_PC load_addr;;
  printf ("Stepping (max 25 steps):" +:+ NL);;
  stepper_loop MAX_STEPS 0;;
  e ← get;
  printf ("Stop reason: " +:+ rk65c02_stop_reason_string (stopreason e) +:+ NL);;
  if negb (bool_decide (stopreason e = STP)) then mret 1
  else printf ("PASS: stepped to STP." +:+ NL);; mret 0.

(** [main] of [breakpoints.c]. *)
Definition BP_ADDR : Z := 0xC004.
Definition breakpoints_main (file : option (list Z)) (fuel : nat) : M Z :=
  ex_load_rom file;;
  put_SP 0xFF;;
  put_PC load_addr;;
  stack_push 5;;
  stack_push 9;;
  stack_push 4;;
  ok ← debug_breakpoint_add BP_ADDR;
  if negb ok then mret 1
  else
    rk65c02_start run_jit fuel;;
    e ← get;
    if negb (bool_decide (stopreason e = BREAKPOINT)) then mret 1
    else
      let r := regs e in
      printf ("Breakpoint hit at $" +:+ fmt_04X (PC r) +:+ NL);;
      printf ("  A=$" +:+ fmt_02X (A r) +:+ " X=$" +:+ fmt_02X (X r) +:+ " Y=$" +:+ fmt_02X (Y r)
        +:+ " SP=$" +:+ fmt_02X (SP r) +:+ NL);;
      printf "  ";;
      text ← core_disassemble (PC r);
      printf text;;
      _ ← debug_breakpoint_remove BP_ADDR;
      rk65c02_start run_jit fuel;;
      e ← get;
      if negb (bool_decide (stopreason e = STP)) then mret 1
      else printf ("PASS: breakpoint hit, state inspected, continued to STP." +:+ NL);; mret 0.

End Plain.

(** ** [host_control.c] *)

Record host_state := mkHostState {
  ticks_seen : Z; tick_budget : Z; stop_notified : bool; control_out : string }.

Section Control.
Context (J : Type).
#[local] Hint Extern 0 Sys => exact (ex_sys J host_state) : typeclass_instances.
#[local] Hint Extern 0 SysBus => exact (ex_bus J host_state) : typeclass_instances.

Definition control_printf (s : string) (h : host_state) : host_state :=
  mkHostState (ticks_seen h) (tick_budget h) (stop_notified h) (control_out h +:+ s).

Definition control_on_stop (reason : emu_stop_reason_t) : M unit :=
  e ← get;
  modify (set_host (mkHostState (ticks_seen (host e)) (tick_budget (host e)) true (control_out (host e)) : sys_host));;
  modify (λ e, set_host (control_printf ("Emulation stopped: " +:+ rk65c02_stop_reason_string reason +:+
    " (PC=" +:+ fmt_alt04x (PC (regs e)) +:+ ")" +:+ NL) (host e) : sys_host) e).

Definition control_on_tick : M unit :=
  e ← get;
  let h := host e in
  let n := u32 (ticks_seen h + 1) in
  modify (set_host (mkHostState n (tick_budget h) (stop_notified h) (control_out h) : sys_host));;
  if n >=? tick_budget h then rk65c02_request_stop else mret tt.

Definition control_host : HostOps.
Proof.
  refine {|
    host_on_stop := λ _ _ reason, control_on_stop reason;
    host_tick := λ _ _, control_on_tick;
    host_idle_wait := λ _ _, mret tt;
    host_mmu_translate := λ _ _ vaddr _, mret (rwx vaddr false);
    host_mmu_fault := λ _ _ _ _ _, mret tt;
    host_device_read := λ _ _ _, mret tt;
    host_device_write := λ _ _ _ _, mret tt;
    indeterminate := 0
  |}.
  lia.
Defined.
#[local] Existing Instance control_host.

Context {JO : JitOps} (jit_enable : bool → M unit) (run_jit : nat → M unit).

Definition counter_addr : Z := 0x0200.

(** [main] of [host_control.c], in which [budget] is 20000 and [interval] 100. *)
Definition control_main (budget interval : Z) (file : option (list Z)) (fuel : nat) : M Z :=
  modify (set_host (mkHostState 0 budget false "" : sys_host));;
  (λ e, match rk65c02_load_rom (J := J) (H := host_state) e file load_addr None with
        | Some e' => (Ret tt, e')
        | None => (AssertFail, e)
        end);;
  put_SP 0xFF;;
  put_PC load_addr;;
  rk65c02_on_stop_set (Some 0%nat) 0;;
  rk65c02_tick_set (Some 0%nat) interval 0;;
  jit_enable true;;
  counter_before ← host_bus_read_1 J host_state counter_addr;
  rk65c02_start run_jit fuel;;
  counter_after ← host_bus_read_1 J host_state counter_addr;
  let out s := modify (λ e, set_host (control_printf s (host e) : sys_host) e) in
  e ← get;
  out ("Tick callbacks: " +:+ pretty (ticks_seen (host e)) +:+ NL);;
  out ("Counter at $0200 before=" +:+ pretty counter_before +:+ " after=" +:+ pretty counter_after +:+ NL);;
  e ← get;
  out ("on_stop callback invoked: " +:+ (if stop_notified (host e) then "yes" else "no") +:+ NL);;
  rk65c02_tick_clear;;
  modify (λ e, set_host (mkHostState (ticks_seen (host e)) (tick_budget (host e)) false
    (control_out (host e)) : sys_host) e);;
  rk65c02_step 5;;
  e ← get;
  out ("After 5-step run, stop reason is " +:+ rk65c02_stop_reason_string (stopreason e) +:+ NL);;
  out ("PASS: host control (on_stop, tick, request_stop, step) demonstrated." +:+ NL);;
  mret 0.

(** The budget is exact: while fewer ticks than it have been seen the run goes
    on, and the tick that completes it asks for the stop. *)
Lemma control_tick_budget e : 0 ≤ ticks_seen (host e) < 4294967295 →
  ∃ e', control_on_tick e = (Ret tt, e') ∧ ticks_seen (host e') = ticks_seen (host e) + 1 ∧
    stop_requested e' = stop_requested e || (tick_budget (host e) <=? ticks_seen (host e) + 1).
Proof.
  intros Ht. unfold control_on_tick. erewrite bind_Ret by reflexivity. cbv zeta.
  rewrite u32_small by lia. erewrite bind_Ret by reflexivity. rewrite Z.geb_leb.
  destruct (_ <=? _); eexists; (split; [reflexivity|]); cbn; by rewrite ?orb_true_r, ?orb_false_r.
Qed.

End Control.

(** ** [idle_wait.c] *)

(** [clock_reads] counts the readings of the clock. *)
Record idle_wait_host_state := mkIdleHost { wait_calls : Z; total_wait_ns : Z; clock_reads : nat }.

Section Idle.
Context (J : Type).
#[local] Hint Extern 0 Sys => exact (ex_sys J idle_wait_host_state) : typeclass_instances.
#[local] Hint Extern 0 SysBus => exact (ex_bus J idle_wait_host_state) : typeclass_instances.

(** The seconds and nanoseconds of each reading of CLOCK_MONOTONIC. *)
Context (clock : nat → Z * Z).

Definition mono_ns_now : M Z :=
  e ← get;
  let h := host e in
  let '(sec, nsec) := clock (clock_reads h) in
  modify (set_host (mkIdleHost (wait_calls h) (total_wait_ns h) (S (clock_reads h)) : sys_host));;
  mret (u64 (u64 sec * 1000000000 + u64 nsec)).

Definition idle_on_idle_wait : M unit :=
  t0 ← mono_ns_now;
  rk65c02_assert_irq;;
  t1 ← mono_ns_now;
  modify (λ e, set_host (mkIdleHost (u32 (wait_calls (host e) + 1))
    (u64 (total_wait_ns (host e) + u64 (t1 - t0))) (clock_reads (host e)) : sys_host) e).

Definition idle_host : HostOps.
Proof.
  refine {|
    host_on_stop := λ _ _ _, mret tt;
    host_tick := λ _ _, mret tt;
    host_idle_wait := λ _ _, idle_on_idle_wait;
    host_mmu_translate := λ _ _ vaddr _, mret (rwx vaddr false);
    host_mmu_fault := λ _ _ _ _ _, mret tt;
    host_device_read := λ _ _ _, mret tt;
    host_device_write := λ _ _ _ _, mret tt;
    indeterminate := 0
  |}.
  lia.
Defined.
#[local] Existing Instance idle_host.

Context {JO : JitOps} (jit_enable : bool → M unit) (run_jit : nat → M unit).

(** [main] of [idle_wait.c], without what it prints. *)
Definition idle_main (file : option (list Z)) (fuel : nat) : M Z :=
  modify (λ e, set_host (mkIdleHost 0 0 (clock_reads (host e)) : sys_host) e);;
  (λ e, match rk65c02_load_rom (J := J) (H := idle_wait_host_state) e file load_addr None with
        | Some e' => (Ret tt, e')
        | None => (AssertFail, e)
        end);;
  put_SP 0xFF;;
  put_PC load_addr;;
  jit_enable true;;
  rk65c02_idle_wait_set (Some 0%nat) 0;;
  rk65c02_start run_jit fuel;;
  e ← get;
  if negb (bool_decide (stopreason e = STP)) then mret 1
  else if wait_calls (host e) =? 0 then mret 1
  else mret 0.

End Idle.

(** ** The programs *)

(** [min3.s], [mul_8bit_to_8bits.s], [stepper.s], [host_control.s] and
    [idle_wait.s]. *)
Definition min3_rom : list Z :=
  [0x20; 0x04; 0xC0; 0xDB; 0x68; 0x85; 0x10; 0x68; 0x85; 0x11; 0x68; 0x85; 0x12; 0x68; 0xC5; 0x12; 0x10;
   0x02; 0x85; 0x12; 0x68; 0xC5; 0x12; 0x10; 0x02; 0x85; 0x12; 0xA5; 0x12; 0x48; 0xA5; 0x11; 0x48; 0xA5;
   0x10; 0x48; 0x60].
Definition mul_rom : list Z :=
  [0x20; 0x04; 0xC0; 0xDB; 0x68; 0x85; 0x12; 0x68; 0x85; 0x13; 0x68; 0x85; 0x10; 0x68; 0x85; 0x11; 0xA9;
   0x00; 0xF0; 0x05; 0x18; 0x65; 0x10; 0x06; 0x10; 0x46; 0x11; 0xB0; 0xF7; 0xD0; 0xF8; 0x48; 0xA5; 0x13;
   0x48; 0xA5; 0x12; 0x48; 0x60].
Definition stepper_rom : list Z := [0xA9; 0x01; 0x8D; 0x00; 0x02; 0xA9; 0x02; 0x8D; 0x01; 0x02; 0xDB].
Definition control_rom : list Z := [0xEE; 0x00; 0x02; 0x80; 0xFB].
Definition idle_rom : list Z :=
  [0xA9; 0x00; 0x8D; 0x00; 0x02; 0xCB; 0xEE; 0x00; 0x02; 0xAD; 0x00; 0x02; 0xC9; 0x05; 0xD0; 0xF5; 0xDB].

Section Stub.
#[local] Hint Extern 0 Sys => exact (ex_sys unit string) : typeclass_instances.
#[local] Hint Extern 0 SysBus => exact (ex_bus unit string) : typeclass_instances.
#[local] Hint Extern 0 HostOps => exact (plain_host unit) : typeclass_instances.
#[local] Hint Extern 0 JitOps => exact jit_stub : typeclass_instances.
Definition on_plain (m : M Z) : outcome Z * string := let r := m (blank unit string "") in (r.1, host r.2).
Definition min3_stub (a b c : Z) : M Z := min3_run unit stub_jit_enable stub_run_jit a b c (Some min3_rom) 40.
Definition mul_stub (a b : Z) : M Z := mul_run unit stub_run_jit a b (Some mul_rom) 100.

(** The programs of the examples pass, and say so. *)
Lemma min3_main_passes : on_plain (min3_main unit stub_jit_enable stub_run_jit (Some min3_rom) 40) =
  (Ret 0, "Min is: 4" +:+ NL +:+ "PASS: min(5, 9, 4) = 4." +:+ NL).
Proof. vm_compute. reflexivity. Qed.
Lemma mul_main_passes : on_plain (mul_main unit stub_run_jit (Some mul_rom) 100) =
  (Ret 0, "Result of multiplication: 32" +:+ NL +:+ "PASS: 4 * 8 = 32." +:+ NL).
Proof. vm_compute. reflexivity. Qed.

(** Single steps and breakpoints as a program uses them.  [stepper.c] and
    [breakpoints.c] exit with status 0, having printed the registers after each
    step and at the breakpoint, and the instruction that comes next. *)
Theorem stepping_programs_pass :
  on_plain (stepper_main unit (Some stepper_rom)) = (Ret 0,
    "Stepping (max 25 steps):" +:+ NL +:+
    "  step 1  PC=$C002  A=$01 X=$00 Y=$00 SP=$FF  C002:" +:+ TAB +:+ "sta 0x200" +:+ TAB +:+ TAB +:+ "// 8D 0 2" +:+ NL +:+
    "  step 2  PC=$C005  A=$01 X=$00 Y=$00 SP=$FF  C005:" +:+ TAB +:+ "lda #0x2" +:+ TAB +:+ TAB +:+ "// A9 2" +:+ NL +:+
    "  step 3  PC=$C007  A=$02 X=$00 Y=$00 SP=$FF  C007:" +:+ TAB +:+ "sta 0x201" +:+ TAB +:+ TAB +:+ "// 8D 1 2" +:+ NL +:+
    "  step 4  PC=$C00A  A=$02 X=$00 Y=$00 SP=$FF  C00A:" +:+ TAB +:+ "stp" +:+ TAB +:+ TAB +:+ "// DB" +:+ NL +:+
    "  step 5  PC=$C00B  A=$02 X=$00 Y=$00 SP=$FF  C00B:" +:+ TAB +:+ "brk" +:+ TAB +:+ TAB +:+ "// 0 0" +:+ NL +:+
    "Stop reason: STP" +:+ NL +:+ "PASS: stepped to STP." +:+ NL) ∧
  on_plain (breakpoints_main unit stub_run_jit (Some min3_rom) 40) = (Ret 0,
    "Breakpoint hit at $C004" +:+ NL +:+ "  A=$00 X=$00 Y=$00 SP=$FA" +:+ NL +:+
    "  C004:" +:+ TAB +:+ "pla" +:+ TAB +:+ TAB +:+ "// 68" +:+ NL +:+
    "PASS: breakpoint hit, state inspected, continued to STP." +:+ NL).
Proof. vm_compute. split; reflexivity. Qed.

(** [min3.s] compares with BPL, the sign of a difference of bytes: for 0, 255 and
    16 it returns 255. *)
Lemma min3_not_the_minimum : (on_plain (min3_stub 0x00 0xFF 0x10)).1 = Ret 0xFF.
Proof. vm_compute. reflexivity. Qed.
End Stub.

Section Lightning.
#[local] Hint Extern 0 Sys => exact (ex_sys rk65c02_jit string) : typeclass_instances.
#[local] Hint Extern 0 SysBus => exact (ex_bus rk65c02_jit string) : typeclass_instances.
#[local] Hint Extern 0 HostOps => exact (plain_host rk65c02_jit) : typeclass_instances.
#[local] Hint Extern 0 JitOps => exact (lightning_jit bus_t string) : typeclass_instances.
#[local] Existing Instance ex_code.
Lemma min3_jit_passes : (min3_main rk65c02_jit (rk65c02_jit_enable bus_t string) (rk65c02_run_jit bus_t string)
  (Some min3_rom) 40 (blank rk65c02_jit string "")).1 = Ret 0.
Proof. vm_compute. reflexivity. Qed.
End Lightning.

Section StubControl.
#[local] Hint Extern 0 Sys => exact (ex_sys unit host_state) : typeclass_instances.
#[local] Hint Extern 0 SysBus => exact (ex_bus unit host_state) : typeclass_instances.
#[local] Hint Extern 0 HostOps => exact (control_host unit) : typeclass_instances.
#[local] Hint Extern 0 JitOps => exact jit_stub : typeclass_instances.
(** With a budget of five ticks, one every ten polls. *)
Lemma control_main_passes :
  let r := control_main unit stub_jit_enable stub_run_jit 5 10 (Some control_rom) 60
    (blank unit host_state (mkHostState 0 0 false "")) in
  r.1 = Ret 0 ∧ control_out (host r.2) =
    "Emulation stopped: HOST (PC=0xc003)" +:+ NL +:+ "Tick callbacks: 5" +:+ NL +:+
    "Counter at $0200 before=0 after=13" +:+ NL +:+ "on_stop callback invoked: yes" +:+ NL +:+
    "Emulation stopped: STEPPED (PC=0xc000)" +:+ NL +:+ "After 5-step run, stop reason is STEPPED" +:+ NL +:+
    "PASS: host control (on_stop, tick, request_stop, step) demonstrated." +:+ NL.
Proof. vm_compute. split; reflexivity. Qed.
End StubControl.

Section StubIdle.
#[local] Hint Extern 0 Sys => exact (ex_sys unit idle_wait_host_state) : typeclass_instances.
#[local] Hint Extern 0 SysBus => exact (ex_bus unit idle_wait_host_state) : typeclass_instances.
#[local] Hint Extern 0 JitOps => exact jit_stub : typeclass_instances.
(** With a clock that is read once a second. *)
Definition slow_clock (n : nat) : Z * Z := (Z.of_nat n, 0).
#[local] Hint Extern 0 HostOps => exact (idle_host unit slow_clock) : typeclass_instances.
Lemma idle_main_passes :
  let r := idle_main unit slow_clock stub_jit_enable stub_run_jit (Some idle_rom) 60
    (blank unit idle_wait_host_state (mkIdleHost 0 0 0)) in
  r.1 = Ret 0 ∧ wait_calls (host r.2) = 5 ∧ total_wait_ns (host r.2) = 5000000000.
Proof. vm_compute. split_and!; reflexivity. Qed.
End StubIdle.
