(* ===== verification/ExBench.v ===== *)
(** The host program [src/examples/jit_bench.c]: the same ROM run with and
    without the JIT, and the report of the time it took.

    A [double] is an IEEE number with 53 bits of precision and exponents below
    1024, and its operations are those of [SpecFloat], which round to nearest.
    The four readings of CLOCK_MONOTONIC are an argument. *)
From Stdlib Require Import SpecFloat.
From stdpp Require Import base numbers list gmap strings pretty.
From S2P Require Import Prelude Types Isa BusSpec Bus State Interfaces Mmu Instruction Emulation.
From S2P Require Import Disasm Debug Exec Console Api Invariant MmuSpec JitCache JitEmit Jit JitNative.
From S2P Require Import Remap ExHost ExHosts.

#[local] Existing Instance no_devices.

(** ** Doubles *)

Definition double : Type := spec_float.
Definition double_of (n : Z) : double := binary_normalize 53 1024 n 0 false.
Definition dadd (x y : double) : double := SFadd 53 1024 x y.
Definition dmul (x y : double) : double := SFmul 53 1024 x y.
Definition ddiv (x y : double) : double := SFdiv 53 1024 x y.

(** [n / d] rounded to the nearest integer, a tie to the even one. *)
Definition round_half_even (n d : Z) : Z :=
  let q := n / d in
  let r := n mod d in
  if 2 * r <? d then q else if 2 * r >? d then q + 1 else if Z.even q then q else q + 1.

Lemma round_half_even_nearest n d : 0 < d → 2 * Z.abs (n - round_half_even n d * d) ≤ d.
Proof.
  intros Hd. unfold round_half_even. pose proof (Z.div_mod n d ltac:(lia)). pose proof (Z.mod_pos_bound n d Hd).
  repeat case_match; lia.
Qed.

(** [%.<digits>f] *)
Definition fmt_fixed (digits n : Z) : string :=
  let p := 10 ^ digits in
  pretty (n / p) +:+
  (if digits =? 0 then ""
   else let frac := pretty (n mod p) in
        "." +:+ String.concat "" (replicate (Z.to_nat digits - String.length frac) "0") +:+ frac).
Definition fmt_f (digits : Z) (x : double) : string :=
  match x with
  | S754_zero s => (if s then "-" else "") +:+ fmt_fixed digits 0
  | S754_infinity s => (if s then "-" else "") +:+ "inf"
  | S754_nan => "nan"
  | S754_finite s m e =>
      let p := 10 ^ digits in
      let n := if e <? 0 then round_half_even (Z.pos m * p) (2 ^ (- e)) else Z.pos m * 2 ^ e * p in
      (if s then "-" else "") +:+ fmt_fixed digits n
  end.

(** ** The program *)

Definition ITERATIONS : Z := 500.

(** Seconds and nanoseconds of the two readings. *)
Definition elapsed_us (t0 t1 : Z * Z) : double :=
  dadd (dmul (double_of (t1.1 - t0.1)) (double_of 1000000))
       (ddiv (double_of (t1.2 - t0.2)) (double_of 1000)).

Section Bench.
Context (J : Type).
#[local] Hint Extern 0 Sys => exact (ex_sys J string) : typeclass_instances.
#[local] Hint Extern 0 SysBus => exact (ex_bus J string) : typeclass_instances.
#[local] Hint Extern 0 HostOps => exact (plain_host J) : typeclass_instances.
Context {JO : JitOps} (jit_enable : bool → M unit) (run_jit : nat → M unit).

Definition bench_round (fuel : nat) : M unit :=
  put_SP 0xFF;;
  put_PC load_addr;;
  stack_push 5;;
  stack_push 9;;
  stack_push 4;;
  rk65c02_start run_jit fuel.

(** A line of the report. *)
Definition bench_line (label : string) (us : double) : string :=
  label +:+ fmt_f 0 us +:+ " us (" +:+ fmt_f 1 (ddiv us (double_of ITERATIONS)) +:+ " us/run)" +:+ NL.

Definition bench_main (clock : nat → Z * Z) (file : option (list Z)) (fuel : nat) : M Z :=
  ex_load_rom J file;;
  put_SP 0xFF;;
  put_PC load_addr;;
  jit_enable false;;
  mfor (seqZ 0 ITERATIONS) (λ _, bench_round fuel);;
  let us_interp := elapsed_us (clock 0%nat) (clock 1%nat) in
  jit_enable true;;
  mfor (seqZ 0 ITERATIONS) (λ _, bench_round fuel);;
  let us_jit := elapsed_us (clock 2%nat) (clock 3%nat) in
  printf J ("min3.rom x " +:+ pretty ITERATIONS +:+ " iterations:" +:+ NL);;
  printf J (bench_line "  interpreter: " us_interp);;
  printf J (bench_line "  JIT:         " us_jit);;
  printf J ("PASS: JIT benchmark done." +:+ NL);;
  mret 0.
End Bench.

(** ** What it reports *)

(** Readings 1.5 ms apart, across a full second, and 250 ns apart. *)
Definition sample_clock (k : nat) : Z * Z :=
  match k with
  | O => (10, 999000000) | 1%nat => (11, 500000)
  | 2%nat => (11, 600000) | _ => (11, 600250)
  end.

(** The digits are those of the exact value, ties go to the even digit. *)
Lemma fmt_f_examples :
  fmt_f 1 (ddiv (double_of 1) (double_of 4)) = "0.2"%string ∧
  fmt_f 1 (ddiv (double_of 3) (double_of 4)) = "0.8"%string ∧
  fmt_f 0 (double_of 1500) = "1500"%string ∧
  fmt_f 1 (dmul (double_of (-1)) (ddiv (double_of 7) (double_of 100))) = "-0.1"%string ∧
  fmt_f 0 (ddiv (double_of 1) (double_of 0)) = "inf"%string.
Proof. vm_compute. split_and!; reflexivity. Qed.

Section Stub.
#[local] Hint Extern 0 Sys => exact (ex_sys unit string) : typeclass_instances.
#[local] Hint Extern 0 SysBus => exact (ex_bus unit string) : typeclass_instances.
#[local] Hint Extern 0 HostOps => exact (plain_host unit) : typeclass_instances.
#[local] Hint Extern 0 JitOps => exact jit_stub : typeclass_instances.
Lemma bench_main_passes :
  on_plain (bench_main unit stub_jit_enable stub_run_jit sample_clock (Some min3_rom) 40) =
  (Ret 0, "min3.rom x 500 iterations:" +:+ NL +:+ "  interpreter: 1500 us (3.0 us/run)" +:+ NL +:+
     "  JIT:         0 us (0.0 us/run)" +:+ NL +:+ "PASS: JIT benchmark done." +:+ NL).
Proof. vm_compute. reflexivity. Qed.
End Stub.
