(* ===== verification/ExDevices.v ===== *)
(** The host programs of [src/examples] with a device of their own and no MMU:
    [hello_serial.c], whose device prints what the guest writes, and
    [interrupts.c], whose device holds the processor's vectors. *)
From stdpp Require Import base numbers list gmap strings.
From S2P Require Import Prelude Types Isa BusSpec Bus State Interfaces Mmu Instruction Emulation.
From S2P Require Import Disasm Debug Exec Api Invariant MmuSpec JitCache Jit Remap ExHost.

(** ** [hello_serial.c] *)

Module HelloSerial.

Definition serial_load_addr : Z := 0xC000.
Definition SERIAL_BASE : Z := 0xDE00.
Definition SERIAL_SIZE : Z := 16.

(** The device's data is the text it has put on [stdout]. *)
Definition serial_read_1 (doff : Z) : Z := 0.
Definition serial_write_1 (out : string) (doff val : Z) : string :=
  out +:+ String (Ascii.ascii_of_nat (Z.to_nat val)) "".

Program Definition serial_devices : DeviceHost := {|
  dev_priv := string;
  host_read_1 := λ _ out doff, (serial_read_1 doff, out);
  host_write_1 := λ _ out doff val, serial_write_1 out doff val;
  host_finish := λ _ _, None
|}.
Next Obligation. intros. cbn. unfold serial_read_1. lia. Qed.
#[local] Existing Instance serial_devices.

Definition serial_device : device_t := mkDevice "serial" SERIAL_SIZE (HostBody 0 "").

(** The bus of [main]; the device is its second and covers RAM. *)
Definition serial_bus : bus_t :=
  let '(d, b) := dev_alloc bus_init_with_default_devs serial_device in
  bus_device_add b d SERIAL_BASE.
Definition serial_out (b : bus_t) : string :=
  match dev_aux (dev_at b 1) with HostBody _ out => out | RamBody _ => "" end.

(** What the guest stores at the device's addresses is printed, in order and
    nothing else, and the RAM behind the device is not written. *)
Definition string_of (l : list Z) : string :=
  foldr (λ v s, String (Ascii.ascii_of_nat (Z.to_nat v)) s) "" l.

(** A bus on which the device is at its address. *)
Record serial_wired (b : bus_t) : Prop := {
  sw_access : ∀ k, 0 ≤ k < SERIAL_SIZE → bus_access_device b (SERIAL_BASE + k) = Some (1%nat, k);
  sw_device : ∃ id out, dev_aux (dev_at b 1) = HostBody id out;
  sw_valid : (1 < length (devs b))%nat
}.

Lemma serial_write_prints b k v : serial_wired b → 0 ≤ k < SERIAL_SIZE →
  let b' := bus_write_1 b (SERIAL_BASE + k) v in
  serial_wired b' ∧ serial_out b' = serial_out b +:+ string_of [v] ∧ dev_at b' 0 = dev_at b 0.
Proof.
  intros [Ha (id&out&Hd) Hv] Hk. cbv zeta. unfold bus_write_1. rewrite (Ha k Hk). unfold call_write_1.
  rewrite Hd. cbn [host_write_1 serial_devices]. split; [split|split].
  - intros x Hx. rewrite access_dev_put. by apply Ha.
  - rewrite dev_put_at. case_decide; cbn; eauto.
  - by rewrite dev_put_length.
  - unfold serial_out. rewrite dev_put_at, decide_True, Hd by done. done.
  - rewrite dev_put_at. by rewrite decide_False by naive_solver.
Qed.

(** A device a host defines.  Whatever bytes the guest stores at the sixteen
    addresses of the serial device of [hello_serial.c], they appear on [stdout]
    in the order of the stores, and the RAM the device covers stays as it is. *)
Theorem serial_prints_stores b l : serial_wired b → Forall (λ q, 0 ≤ q.1 < SERIAL_SIZE) l →
  let b' := foldl (λ b q, bus_write_1 b (SERIAL_BASE + q.1) q.2) b l in
  serial_out b' = serial_out b +:+ string_of (snd <$> l) ∧ dev_at b' 0 = dev_at b 0.
Proof.
  intros Hw Hl. cbv zeta. revert b Hw. induction Hl as [|[k v] l Hk _ IH]; intros b Hw.
  - split; [|done]. cbn [foldl fmap list_fmap string_of foldr].
    symmetry. apply string_app_nil.
  - cbn [foldl fst snd]. destruct (serial_write_prints b k v Hw Hk) as (Hw'&Ho&Hr).
    destruct (IH _ Hw') as [E1 E2]. rewrite E1, E2, Ho, Hr. split; [|done].
    by rewrite string_app_assoc.
Qed.

Section Serial.
Context (J : Type).
#[local] Hint Extern 0 Sys => exact (ex_sys J unit) : typeclass_instances.
#[local] Hint Extern 0 SysBus => exact (ex_bus J unit) : typeclass_instances.

Definition serial_host : HostOps.
Proof.
  refine {|
    host_on_stop := λ _ _ _, mret tt;
    host_tick := λ _ _, mret tt;
    host_idle_wait := λ _ _, mret tt;
    host_mmu_translate := λ _ _ vaddr _, mret (rwx vaddr false);
    host_mmu_fault := λ _ _ _ _ _, mret tt;
    host_device_read := λ _ _ _, mret tt;
    host_device_write := λ _ _ _ _, mret tt;
    indeterminate := 0
  |}.
  lia.
Defined.
#[local] Existing Instance serial_host.
Context {JO : JitOps} (run_jit : nat → M unit).

Definition serial_main (file : option (list Z)) (fuel : nat) : M Z :=
  let '(ok, b) := bus_load_file serial_bus serial_load_addr file in
  if negb ok then mret 1
  else
    ex_init J unit b;;
    put_SP 0xFF;;
    put_PC serial_load_addr;;
    rk65c02_start run_jit fuel;;
    ex_finish J unit;;
    e ← get;
    if negb (bool_decide (stopreason e = STP)) then mret 1 else mret 0.

End Serial.

(** The program of [hello_serial.s]. *)
Definition serial_rom : list Z :=
  [0xA2; 0x00; 0xBD; 0x0E; 0xC0; 0xF0; 0x06; 0x8D; 0x00; 0xDE; 0xE8; 0xD0; 0xF5; 0xDB; 0x48; 0x69; 0x21; 0x00].

Section Stub.
#[local] Hint Extern 0 Sys => exact (ex_sys unit unit) : typeclass_instances.
#[local] Hint Extern 0 SysBus => exact (ex_bus unit unit) : typeclass_instances.
#[local] Hint Extern 0 HostOps => exact (serial_host unit) : typeclass_instances.
#[local] Hint Extern 0 JitOps => exact jit_stub : typeclass_instances.
Lemma serial_main_passes :
  let r := serial_main unit stub_run_jit (Some serial_rom) 40 (blank unit unit tt) in
  r.1 = Ret 0 ∧ serial_out (bus r.2) = "Hi!"%string.
Proof. vm_compute. split; reflexivity. Qed.

Lemma serial_bus_wired : serial_wired serial_bus.
Proof.
  split; [|by eexists _, _|vm_compute; lia]. intros k Hk. unfold SERIAL_SIZE in Hk.
  assert (k ∈ seqZ 0 16) as Hin by (apply elem_of_seqZ; lia).
  vm_compute in Hin. repeat (apply elem_of_cons in Hin as [->|Hin]; [vm_compute; reflexivity|]).
  by apply elem_of_nil in Hin.
Qed.
Lemma serial_prints_stores_witness :
  serial_out (foldl (λ b q, bus_write_1 b (SERIAL_BASE + q.1) q.2) serial_bus [(0, 0x4F); (3, 0x4B)]) = "OK"%string.
Proof.
  destruct (serial_prints_stores serial_bus [(0, 0x4F); (3, 0x4B)]) as [E _].
  - exact serial_bus_wired.
  - apply Forall_cons_2; [cbn; unfold SERIAL_SIZE; lia|].
    apply Forall_cons_2; [cbn; unfold SERIAL_SIZE; lia|]. apply Forall_nil_2.
  - exact E.
Defined.
End Stub.
End HelloSerial.

(** ** [interrupts.c] *)

Module Interrupts.

Definition irq_load_addr : Z := 0xC000.
Definition addr_irq_count : Z := 0x0200.
Definition addr_wake_count : Z := 0x0201.
Definition VECTOR_BASE : Z := 0xFFFC.
Definition ADDR_START : Z := 0xC000.
Definition ADDR_IRQ_HANDLER : Z := 0xC003.

(** [vector_ram], four bytes; the device's size keeps offsets below four. *)
Definition vector_read_1 (ram : list Z) (doff : Z) : Z := u8 (nth (Z.to_nat doff) ram 0).
Definition vector_write_1 (ram : list Z) (doff val : Z) : list Z := <[Z.to_nat doff := val]> ram.

Program Definition vector_devices : DeviceHost := {|
  dev_priv := list Z;
  host_read_1 := λ _ ram doff, (vector_read_1 ram doff, ram);
  host_write_1 := λ _ ram doff val, vector_write_1 ram doff val;
  host_finish := λ _ _, None
|}.
Next Obligation. intros. cbn. apply u8_byte. Qed.
#[local] Existing Instance vector_devices.

Definition vector_device : device_t := mkDevice "vector" 4 (HostBody 0 [0; 0; 0; 0]).

Section Interrupts.
Context (J : Type).
(** The host's data is the number of calls of the idle callback. *)
#[local] Hint Extern 0 Sys => exact (ex_sys J Z) : typeclass_instances.
#[local] Hint Extern 0 SysBus => exact (ex_bus J Z) : typeclass_instances.

Definition on_idle_wait : M unit :=
  rk65c02_assert_irq;;
  modify (λ e, set_host (u32 (host e + 1) : sys_host) e).

Definition irq_host : HostOps.
Proof.
  refine {|
    host_on_stop := λ _ _ _, mret tt;
    host_tick := λ _ _, mret tt;
    host_idle_wait := λ _ _, on_idle_wait;
    host_mmu_translate := λ _ _ vaddr _, mret (rwx vaddr false);
    host_mmu_fault := λ _ _ _ _ _, mret tt;
    host_device_read := λ _ _ _, mret tt;
    host_device_write := λ _ _ _ _, mret tt;
    indeterminate := 0
  |}.
  lia.
Defined.
#[local] Existing Instance irq_host.
Context {JO : JitOps} (run_jit : nat → M unit).

Definition irq_main (file : option (list Z)) (fuel : nat) : M Z :=
  let '(d, b) := dev_alloc bus_init_with_default_devs vector_device in
  let b := bus_device_add b d VECTOR_BASE in
  let '(ok, b) := bus_load_file b irq_load_addr file in
  if negb ok then mret 1
  else
    let b := dev_put b d (HostBody 0 [u8 (ADDR_START &&& 0xFF); u8 (ADDR_START ≫ 8);
      u8 (ADDR_IRQ_HANDLER &&& 0xFF); u8 (ADDR_IRQ_HANDLER ≫ 8)]) in
    ex_init J Z b;;
    put_SP 0xFF;;
    put_PC ADDR_START;;
    modify (set_host (0 : sys_host));;
    rk65c02_idle_wait_set (Some 0%nat) 0;;
    rk65c02_start run_jit fuel;;
    irq_count ← host_bus_read_1 J Z addr_irq_count;
    wake_count ← host_bus_read_1 J Z addr_wake_count;
    ex_finish J Z;;
    e ← get;
    if negb (bool_decide (stopreason e = STP)) then mret 1
    else if negb (irq_count =? 3) || negb (wake_count =? 3) then mret 1
    else mret 0.
End Interrupts.

(** The program of [interrupts.s]. *)
Definition irq_rom : list Z :=
  [0x4C; 0x07; 0xC0; 0xEE; 0x00; 0x02; 0x40; 0x58; 0xCB; 0xEE; 0x01; 0x02; 0xAD; 0x01; 0x02; 0xC9; 0x03;
   0xD0; 0xF5; 0xDB].

Section Stub.
#[local] Hint Extern 0 Sys => exact (ex_sys unit Z) : typeclass_instances.
#[local] Hint Extern 0 SysBus => exact (ex_bus unit Z) : typeclass_instances.
#[local] Hint Extern 0 HostOps => exact (irq_host unit) : typeclass_instances.
#[local] Hint Extern 0 JitOps => exact jit_stub : typeclass_instances.
(** Interrupts as a program uses them.  [interrupts.c] exits with status 0:
    each of the three waits calls the idle callback once, the interrupt it
    raises enters the handler through the vector the host's device holds, and
    the guest goes on after the wait. *)
Theorem irq_main_passes :
  let r := irq_main unit stub_run_jit (Some irq_rom) 200 (blank unit Z 0) in
  r.1 = Ret 0 ∧ host r.2 = 3 ∧ (bus_read_1 (bus r.2) addr_irq_count).1 = 3 ∧ SP (regs r.2) = 0xFF.
Proof. vm_compute. split_and!; reflexivity. Qed.
End Stub.
End Interrupts.
