(* ===== verification/ExBasic.v ===== *)
(** The host of [src/examples/msbasic/msbasic_host.c], which runs Microsoft BASIC:
    the terminal device, the break request and the reader of the label file.

    [break_requested], the terminal and the device's buffer are kept in the
    device, which all of them are reached from.  The signal handler is
    [sigint_handler]; when the signal comes is up to the environment. *)
From Stdlib Require Import Ascii.
From stdpp Require Import base numbers list gmap strings.
From S2P Require Import Prelude Types Isa BusSpec Bus State Interfaces Mmu Instruction Emulation.
From S2P Require Import Disasm TextSpec Debug Exec Api Invariant MmuSpec JitCache Jit Remap ExHost.

Definition BASROM_START : Z := 0xB000.
Definition IOSTUB_START : Z := 0xF002.
Definition IO_BASE : Z := 0xF000.
Definition IO_SIZE : Z := 16.
Definition LBL_COLD_START : string := ".COLD_START".
Definition CR : Z := 0x0D.
Definition LF : Z := 0x0A.

(** ** The terminal *)

Record io_state := mkIo {
  stub : list Z;                 (* [io_config.stub] *)
  break_requested : bool;
  input : list Z;                (* what [getchar] has still to return *)
  output : list Z                (* what [putchar] was given *)
}.

Definition sigint_handler (s : io_state) : io_state := mkIo (stub s) true (input s) (output s).

Definition io_read_1 (s : io_state) (doff : Z) : Z * io_state :=
  if doff =? 0 then
    match input s with
    | [] => (CR, mkIo (stub s) true [] (output s))
    | c :: rest =>
        let c := c &&& 0xFF in
        let c := if c =? LF then CR else c in
        (u8 c, mkIo (stub s) (break_requested s) rest (output s))
    end
  else if doff =? 1 then (if break_requested s then 1 else 0, s)
  else (u8 (nth (Z.to_nat doff) (stub s) 0), s).

Definition io_write_1 (s : io_state) (doff val : Z) : io_state :=
  if doff =? 0 then mkIo (stub s) (break_requested s) (input s) (output s ++ [val])
  else mkIo (<[Z.to_nat doff := val]> (stub s)) (break_requested s) (input s) (output s).

Program Definition io_devices : DeviceHost := {|
  dev_priv := io_state;
  host_read_1 := λ _ s doff, io_read_1 s doff;
  host_write_1 := λ _ s doff val, io_write_1 s doff val;
  host_finish := λ _ _, None
|}.
Next Obligation.
  intros id s doff. unfold io_read_1. repeat case_match; cbn; try apply u8_byte; unfold CR; lia.
Qed.
#[local] Existing Instance io_devices.

Definition io_device (input : list Z) : device_t :=
  mkDevice "msbasic_io" IO_SIZE (HostBody 0 (mkIo (replicate 16 0) false input [])).

(** ** The label file *)

(** [fgets] with room for [n] characters: the line and the rest. *)
Fixpoint fgets (n : nat) (s : string) : string * string :=
  match n, s with
  | O, _ => ("", s)
  | _, EmptyString => ("", "")
  | S n', String c s' =>
      if Ascii.eqb c "010"%char then (String c "", s')
      else let '(l, r) := fgets n' s' in (String c l, r)
  end%string.

(** [strstr(s, sub) != NULL]. *)
Fixpoint contains (sub s : string) : bool :=
  String.prefix sub s || match s with EmptyString => false | String _ s' => contains sub s' end.

(** [isspace], and the digits of [%x]. *)
Definition isspace (c : Ascii.ascii) : bool :=
  let n := Z.of_nat (Ascii.nat_of_ascii c) in (n =? 32) || ((9 <=? n) && (n <=? 13)).
Definition xdigit (c : Ascii.ascii) : option Z :=
  let n := Z.of_nat (Ascii.nat_of_ascii c) in
  if (48 <=? n) && (n <=? 57) then Some (n - 48)
  else if (65 <=? n) && (n <=? 70) then Some (n - 55)
  else if (97 <=? n) && (n <=? 102) then Some (n - 87)
  else None.
Fixpoint skip_space (s : string) : string :=
  match s with String c s' => if isspace c then skip_space s' else s | EmptyString => "" end.

(** The digits at the head of [s], at most [n]; [acc] is what they are added
    to, [None] while there is none. *)
Fixpoint xdigits (n : nat) (acc : option Z) (s : string) : option Z :=
  match n, s with
  | S n', String c s' =>
      match xdigit c with
      | Some d => xdigits n' (Some (16 * default 0 acc + d)) s'
      | None => acc
      end
  | _, _ => acc
  end.

(** [sscanf(s, "%06x", &addr)]: white space, then an item of at most six
    characters with an optional sign and an optional prefix 0x.  The value is
    an [unsigned int]. *)
Definition scan_prefixed (n : nat) (s : string) : option Z :=
  match n, s with
  | S (S n'), String c (String x s') =>
      if Ascii.eqb c "0" && (Ascii.eqb x "x" || Ascii.eqb x "X") then xdigits n' None s'
      else xdigits n None s
  | _, _ => xdigits n None s
  end%char.
Definition sscanf_06x (s : string) : option Z :=
  match skip_space s with
  | EmptyString => None
  | String c s' =>
      if Ascii.eqb c "-" then (λ v, u32 (- v)) <$> scan_prefixed 5 s'
      else if Ascii.eqb c "+" then u32 <$> scan_prefixed 5 s'
      else u32 <$> scan_prefixed 6 (String c s')
  end%char.

Definition drop3 (s : string) : string := String.substring 3 (String.length s - 3) s.

(** The [while] over the lines; [fuel] bounds them. *)
Fixpoint parse_lines (fuel : nat) (symbol file : string) : option Z :=
  match fuel with
  | O => None
  | S fuel' =>
      if String.eqb file "" then None
      else
        let '(line, file) := fgets 255 file in
        if negb (String.prefix "al " line) then parse_lines fuel' symbol file
        else if negb (contains symbol (drop3 line)) then parse_lines fuel' symbol file
        else match sscanf_06x (drop3 line) with
             | None => parse_lines fuel' symbol file
             | Some addr => Some (u16 addr)
             end
  end.

(** [*out_addr], or [None] for the result [false].  Each round reads at least a
    character. *)
Definition parse_lbl_address (lbl : option string) (symbol : string) : option Z :=
  match lbl with
  | None => None
  | Some file => parse_lines (S (String.length file)) symbol file
  end.

(** ** The program *)

(** [break_requested] and the terminal, from the bus the device is on. *)
Definition io_get (b : bus_t) : io_state :=
  match dev_aux (dev_at b 2) with HostBody _ s => s | RamBody _ => mkIo [] false [] [] end.

(** The bus of [main] before the files are loaded: the device is its third. *)
Definition basic_bus (typed : list Z) : bus_t :=
  let '(d, b) := dev_alloc bus_init (device_ram_init 0x8000) in
  let b := bus_device_add b d 0 in
  let '(d, b) := dev_alloc b (device_ram_init 0x3000) in
  let b := bus_device_add b d 0xB000 in
  let '(d, b) := dev_alloc b (io_device typed) in
  bus_device_add b d IO_BASE.

Section Basic.
Context (J : Type).
#[local] Hint Extern 0 Sys => exact (ex_sys J unit) : typeclass_instances.
#[local] Hint Extern 0 SysBus => exact (ex_bus J unit) : typeclass_instances.

Definition tick_break : M unit :=
  e ← get;
  if break_requested (io_get (bus e)) then rk65c02_request_stop else mret tt.

Definition basic_host : HostOps.
Proof.
  refine {|
    host_on_stop := λ _ _ _, mret tt;
    host_tick := λ _ _, tick_break;
    host_idle_wait := λ _ _, mret tt;
    host_mmu_translate := λ _ _ vaddr _, mret (rwx vaddr false);
    host_mmu_fault := λ _ _ _ _ _, mret tt;
    host_device_read := λ _ _ _, mret tt;
    host_device_write := λ _ _ _ _, mret tt;
    indeterminate := 0
  |}.
  lia.
Defined.
#[local] Existing Instance basic_host.
Context {JO : JitOps} (jit_enable : bool → M unit) (run_jit : nat → M unit).

(** [env] is what [getenv("RK65C02_JIT")] returns. *)
Definition jit_wanted (env : option string) : bool :=
  negb (match env with Some (String c _) => Ascii.eqb c "0"%char | _ => false end).

Definition basic_main (lbl : option string) (basic iostub : option (list Z)) (env : option string)
    (typed : list Z) (fuel : nat) : M Z :=
  match parse_lbl_address lbl LBL_COLD_START with
  | None => mret 1
  | Some cold_start =>
      let '(ok, b) := bus_load_file (basic_bus typed) BASROM_START basic in
      if negb ok then mret 1
      else
        let '(ok, b) := bus_load_file b IOSTUB_START iostub in
        if negb ok then mret 1
        else
          ex_init J unit b;;
          put_SP 0xFF;;
          put_PC cold_start;;
          rk65c02_tick_set (Some 0%nat) 1024 0;;
          jit_enable (jit_wanted env);;
          rk65c02_start run_jit fuel;;
          e ← get;
          ex_finish J unit;;
          if bool_decide (stopreason e = STP) then mret 0
          else if break_requested (io_get (bus e)) then mret 130
          else mret 1
  end.

(** Ctrl-C stops the machine: once the handler has run, the next tick asks for
    the stop, and a tick without it asks for nothing. *)
Lemma tick_break_spec e :
  tick_break e = (Ret tt, if break_requested (io_get (bus e)) then set_stop_requested true e else e).
Proof. unfold tick_break. erewrite bind_Ret by reflexivity. by case_match. Qed.
End Basic.

(** ** The label file, written and read *)

Definition fmt_06X (v : Z) : string :=
  hex_digit true (v / 16 ^ 5 mod 16) +:+ hex_digit true (v / 16 ^ 4 mod 16) +:+
  hex_digit true (v / 16 ^ 3 mod 16) +:+ hex_digit true (v / 16 ^ 2 mod 16) +:+
  hex_digit true (v / 16 mod 16) +:+ hex_digit true (v mod 16).

(** A line of the linker's label file, and a line of any kind. *)
Definition label (addr : Z) (name : string) : string := "al " +:+ fmt_06X addr +:+ " " +:+ name.
Definition file_of (ls : list string) : string := foldr (λ l s, l +:+ NL +:+ s) "" ls.
Fixpoint one_line (s : string) : bool :=
  match s with EmptyString => true | String c s' => negb (Ascii.eqb c "010"%char) && one_line s' end.

(** Lines the reader passes over. *)
Definition passed_over (symbol l : string) : Prop :=
  one_line l = true ∧ (String.length l < 255)%nat ∧
  (String.prefix "al " (l +:+ NL) = false ∨ contains symbol (drop3 (l +:+ NL)) = false).

Lemma fgets_line l n r : one_line l = true → (String.length l < n)%nat →
  fgets n (l +:+ NL +:+ r) = (l +:+ NL, r).
Proof.
  revert n. induction l as [|c l IH]; intros [|n] Hl Hn; cbn in Hn; try lia; [done|].
  cbn in Hl. apply andb_prop in Hl as [Hc Hl].
  change (fgets (S n) (String c (l +:+ NL +:+ r)) = (String c (l +:+ NL), r)). cbn [fgets].
  destruct (Ascii.eqb c "010"%char); [done|]. by rewrite IH by (done || lia).
Qed.

Lemma prefix_app_r sub s t : String.prefix sub s = true → String.prefix sub (s +:+ t) = true.
Proof.
  revert s. induction sub as [|c sub IH]; intros [|c' s] H; try done; [by destruct t|].
  change (String.prefix (String c sub) (String c' (s +:+ t)) = true). cbn in H |- *. case_match; [auto|done].
Qed.
Lemma contains_app_l sub s t : contains sub s = true → contains sub (s +:+ t) = true.
Proof.
  induction s as [|c s IH]; intros H.
  - cbn in H. rewrite orb_false_r in H. destruct sub; [by destruct t|done].
  - change (contains sub (String c (s +:+ t)) = true). cbn [contains] in H |- *.
    apply orb_prop in H as [H|H]; [|by rewrite (IH H), orb_true_r].
    apply (prefix_app_r _ _ t) in H. change (String c s +:+ t) with (String c (s +:+ t)) in H. by rewrite H.
Qed.
Lemma contains_app_r sub s t : contains sub t = true → contains sub (s +:+ t) = true.
Proof.
  intros H. induction s as [|c s IH]; [done|]. change (contains sub (String c (s +:+ t)) = true).
  cbn [contains]. by rewrite IH, orb_true_r.
Qed.

(** The digit as the reader sees it. *)
Lemma digit_char d : 0 ≤ d < 16 → ∃ c, hex_digit true d = String c "" ∧ xdigit c = Some d ∧
  isspace c = false ∧ Ascii.eqb c "-" = false ∧ Ascii.eqb c "+" = false ∧ Ascii.eqb c "x" = false ∧
  Ascii.eqb c "X" = false ∧ Ascii.eqb c "010" = false.
Proof.
  intros Hd. assert (d ∈ seqZ 0 16) as Hin by (apply elem_of_seqZ; lia). clear Hd. vm_compute in Hin.
  repeat (apply elem_of_cons in Hin as [->|Hin]; [eexists; split; [reflexivity|vm_compute; split_and!; reflexivity]|]).
  by apply elem_of_nil in Hin.
Qed.

Lemma six_digits a : 0 ≤ a < 2 ^ 24 →
  16 * (16 * (16 * (16 * (16 * (a / 16 ^ 5 mod 16) + a / 16 ^ 4 mod 16) + a / 16 ^ 3 mod 16) +
    a / 16 ^ 2 mod 16) + a / 16 mod 16) + a mod 16 = a.
Proof.
  intros Ha. change (16 ^ 5) with 1048576. change (16 ^ 4) with 65536. change (16 ^ 3) with 4096.
  change (16 ^ 2) with 256. change (2 ^ 24) with 16777216 in Ha.
  pose proof (Z.div_mod a 16 ltac:(lia)).
  rewrite (Z.mod_small (a / 1048576)) by (split; [apply Z.div_pos; lia|apply Z.div_lt_upper_bound; lia]).
  Z.div_mod_to_equations; lia.
Qed.

Lemma label_read a name : 0 ≤ a < 2 ^ 24 → sscanf_06x (fmt_06X a +:+ " " +:+ name) = Some a.
Proof.
  intros Ha. unfold fmt_06X, sscanf_06x.
  destruct (digit_char (a / 16 ^ 5 mod 16)) as (c5&E5&X5&S5&M5&P5&_); [apply Z.mod_pos_bound; lia|].
  destruct (digit_char (a / 16 ^ 4 mod 16)) as (c4&E4&X4&_&_&_&L4&U4&_); [apply Z.mod_pos_bound; lia|].
  destruct (digit_char (a / 16 ^ 3 mod 16)) as (c3&E3&X3&_); [apply Z.mod_pos_bound; lia|].
  destruct (digit_char (a / 16 ^ 2 mod 16)) as (c2&E2&X2&_); [apply Z.mod_pos_bound; lia|].
  destruct (digit_char (a / 16 mod 16)) as (c1&E1&X1&_); [apply Z.mod_pos_bound; lia|].
  destruct (digit_char (a mod 16)) as (c0&E0&X0&_); [apply Z.mod_pos_bound; lia|].
  rewrite E5, E4, E3, E2, E1, E0.
  repeat rewrite ?string_cons_app, ?string_nil_app. cbn [skip_space]. rewrite S5, M5, P5. unfold scan_prefixed. rewrite L4, U4, andb_false_r.
  cbn [xdigits]. rewrite X5, X4, X3, X2, X1, X0. cbn [from_option]. unfold id.
  rewrite Z.mul_0_r, Z.add_0_l, six_digits by done. cbn. f_equal. apply Z.mod_small. lia.
Qed.

Lemma fmt_06X_shape a : one_line (fmt_06X a) = true ∧ String.length (fmt_06X a) = 6%nat.
Proof.
  unfold fmt_06X.
  destruct (digit_char (a / 16 ^ 5 mod 16)) as (c5&->&_&_&_&_&_&_&N5); [apply Z.mod_pos_bound; lia|].
  destruct (digit_char (a / 16 ^ 4 mod 16)) as (c4&->&_&_&_&_&_&_&N4); [apply Z.mod_pos_bound; lia|].
  destruct (digit_char (a / 16 ^ 3 mod 16)) as (c3&->&_&_&_&_&_&_&N3); [apply Z.mod_pos_bound; lia|].
  destruct (digit_char (a / 16 ^ 2 mod 16)) as (c2&->&_&_&_&_&_&_&N2); [apply Z.mod_pos_bound; lia|].
  destruct (digit_char (a / 16 mod 16)) as (c1&->&_&_&_&_&_&_&N1); [apply Z.mod_pos_bound; lia|].
  destruct (digit_char (a mod 16)) as (c0&->&_&_&_&_&_&_&N0); [apply Z.mod_pos_bound; lia|].
  repeat rewrite ?string_cons_app, ?string_nil_app. cbn [one_line]. by rewrite N5, N4, N3, N2, N1, N0.
Qed.

Lemma one_line_app s t : one_line (s +:+ t) = one_line s && one_line t.
Proof.
  induction s as [|c s IH]; [done|]. change (String c s +:+ t) with (String c (s +:+ t)). cbn.
  by rewrite IH, andb_assoc.
Qed.
Lemma drop3_al s : drop3 ("al " +:+ s) = s.
Proof.
  unfold drop3. rewrite length_string_app. cbn [String.length].
  replace (3 + String.length s - 3)%nat with (String.length s) by lia. exact (substring_all _ s (le_n _)).
Qed.

Lemma file_of_length ls : (length ls ≤ String.length (file_of ls))%nat.
Proof.
  induction ls as [|l ls IH]; [done|]. change (file_of (l :: ls)) with (l +:+ NL +:+ file_of ls).
  rewrite !length_string_app. change (String.length NL) with 1%nat. cbn [length]. lia.
Qed.

(** One round of the reader on a line it passes over, and on the label. *)
Lemma parse_pass fuel symbol l r : passed_over symbol l →
  parse_lines (S fuel) symbol (l +:+ NL +:+ r) = parse_lines fuel symbol r.
Proof.
  intros (Hl&Hn&H). cbn [parse_lines].
  replace (String.eqb (l +:+ NL +:+ r) "") with false by by destruct l.
  rewrite fgets_line by done. destruct H as [-> | ->]; [done|]. cbn [negb]. by case_match.
Qed.
Lemma parse_hit fuel symbol a name r : one_line name = true → (String.length name ≤ 240)%nat →
  0 ≤ a < 2 ^ 24 → contains symbol name = true →
  parse_lines (S fuel) symbol (label a name +:+ NL +:+ r) = Some (u16 a).
Proof.
  intros Hl Hn Ha Hc. destruct (fmt_06X_shape a) as [F1 F2]. cbn [parse_lines].
  replace (String.eqb (label a name +:+ NL +:+ r) "") with false by done.
  rewrite fgets_line.
  - unfold label. rewrite !string_app_assoc, drop3_al.
    replace (String.prefix "al " _) with true by by destruct (fmt_06X a). cbn [negb].
    rewrite contains_app_r by by apply contains_app_r, contains_app_l. cbn [negb].
    by rewrite label_read.
  - unfold label. by rewrite !one_line_app, F1, Hl.
  - unfold label. rewrite !length_string_app, F2. cbn. lia.
Qed.

(** C30: what the linker writes the host reads back.  In a label file whose
    earlier lines are passed over, the line of a symbol gives that symbol's
    address, truncated to 16 bits, whatever follows it. *)
Theorem parse_lbl_address_roundtrip symbol before a name after :
  Forall (passed_over symbol) before → one_line name = true → (String.length name ≤ 240)%nat →
  0 ≤ a < 2 ^ 24 → contains symbol name = true →
  parse_lbl_address (Some (file_of before +:+ label a name +:+ NL +:+ after)) symbol = Some (u16 a).
Proof.
  intros Hb Hl Hn Ha Hc. unfold parse_lbl_address.
  set (file := file_of before +:+ label a name +:+ NL +:+ after).
  assert (length before < S (String.length file))%nat as Hf.
  { subst file. rewrite length_string_app. pose proof (file_of_length before). lia. }
  revert Hf. generalize (S (String.length file)). subst file.
  induction Hb as [|l ls Hp _ IH]; intros [|n] Hf; cbn in Hf; try lia.
  - by apply parse_hit.
  - cbn [file_of foldr]. rewrite !string_app_assoc, parse_pass by done. apply IH. lia.
Qed.
Lemma parse_lbl_address_roundtrip_witness :
  parse_lbl_address (Some (file_of ["al 0000FF .BREAK"; "# COLD_START"] +:+ label 0xCEBC ".COLD_START" +:+ NL +:+ ""))
    LBL_COLD_START = Some 0xCEBC.
Proof.
  refine (parse_lbl_address_roundtrip LBL_COLD_START ["al 0000FF .BREAK"; "# COLD_START"] 0xCEBC ".COLD_START" "" _ _ _ _ _).
  - apply Forall_cons_2; [|apply Forall_cons_2; [|apply Forall_nil_2]].
    + split_and!; [reflexivity|cbn; lia|right; reflexivity].
    + split_and!; [reflexivity|cbn; lia|left; reflexivity].
  - reflexivity.
  - cbn. lia.
  - lia.
  - reflexivity.
Defined.

(** The search is for a substring: a symbol whose name only begins with the
    one asked for, on an earlier line, is taken for it. *)
Lemma parse_lbl_address_prefix :
  parse_lbl_address (Some (file_of [label 0xC000 ".COLD_START_TABLE"; label 0xCEBC ".COLD_START"])) LBL_COLD_START
  = Some 0xC000.
Proof. vm_compute. reflexivity. Qed.

(** The bound on the rounds is never reached. *)
Lemma fgets_reads n s : s ≠ ""%string → (String.length (fgets (S n) s).2 < String.length s)%nat.
Proof.
  revert s. induction n as [|n IH]; intros [|c s] Hs; try done; cbn; case_match; cbn; try lia.
  destruct s as [|c' s]; [cbn; lia|]. pose proof (IH (String c' s) ltac:(done)) as H'.
  revert H'. change (String.length (fgets (S n) (String c' s)).2 < String.length (String c' s) →
    String.length (let '(l, r) := fgets (S n) (String c' s) in (String c l, r)).2 <
    S (String.length (String c' s)))%nat. destruct (fgets (S n) (String c' s)). cbn. lia.
Qed.
Lemma parse_lines_enough symbol k k' file : (String.length file < k)%nat → (String.length file < k')%nat →
  parse_lines k symbol file = parse_lines k' symbol file.
Proof.
  revert k' file. induction k as [|k IH]; intros [|k'] file Hk Hk'; try lia. cbn [parse_lines].
  destruct (String.eqb_spec file ""); [done|]. pose proof (fgets_reads 254 file ltac:(done)) as Hr.
  destruct (fgets 255 file) as [line rest]. cbn [snd] in Hr.
  rewrite !(IH k' rest) by lia. done.
Qed.

(** ** What the guest reads from the terminal *)

Definition typed_as (c : Z) : Z := if u8 c =? LF then CR else u8 c.
Fixpoint io_reads (n : nat) (s : io_state) : list Z * io_state :=
  match n with
  | O => ([], s)
  | S n' => let '(c, s1) := io_read_1 s 0 in let '(l, s2) := io_reads n' s1 in (c :: l, s2)
  end.

Lemma io_read_typed s c rest : input s = c :: rest →
  io_read_1 s 0 = (typed_as c, mkIo (stub s) (break_requested s) rest (output s)).
Proof.
  intros E. unfold io_read_1, typed_as. rewrite Z.eqb_refl, E.
  change 0xFF with (Z.ones 8). rewrite Z.land_ones by lia. change (c mod 2 ^ 8) with (u8 c).
  case_match; [done|]. f_equal. unfold u8. apply Z.mod_mod. lia.
Qed.

(** Whatever is typed, the guest gets every character of it once and in order,
    line feeds as carriage returns; after the end of the input it gets
    carriage returns, and the first of these requests the break. *)
Lemma terminal_delivers l s k : input s = l →
  io_reads (length l + k) s =
    ((typed_as <$> l) ++ replicate k CR,
     mkIo (stub s) (break_requested s || (0 <? Z.of_nat k)) [] (output s)).
Proof.
  revert s. induction l as [|c l IH]; intros s E.
  - cbn [length Nat.add fmap list_fmap app]. revert s E. induction k as [|k IHk]; intros s E.
    + cbn. rewrite orb_false_r, <- E. by destruct s.
    + cbn [io_reads replicate]. unfold io_read_1. rewrite Z.eqb_refl, E. rewrite IHk by done. cbn.
      by rewrite orb_true_r.
  - cbn [length Nat.add io_reads]. rewrite (io_read_typed s c l E). by rewrite IH.
Qed.

(** The offsets the bus gives the device stay in its sixteen bytes. *)
Lemma io_write_length s doff val : length (stub (io_write_1 s doff val)) = length (stub s).
Proof. unfold io_write_1. case_match; cbn; [done|apply length_insert]. Qed.

Section Stub.
#[local] Hint Extern 0 Sys => exact (ex_sys unit unit) : typeclass_instances.
#[local] Hint Extern 0 SysBus => exact (ex_bus unit unit) : typeclass_instances.
#[local] Hint Extern 0 HostOps => exact (basic_host unit) : typeclass_instances.
#[local] Hint Extern 0 JitOps => exact jit_stub : typeclass_instances.

(** A guest in place of the interpreter, which the repository does not hold: it
    prints what it reads.  The end of the input ends the run with the status of
    a break at the first tick; a guest that stops itself ends it with 0. *)
Definition echo : list Z := [0xAD; 0x00; 0xF0; 0x8D; 0x00; 0xF0; 0x4C; 0x00; 0xB0].
Definition run_basic (lbl : option string) (rom : list Z) (typed : list Z) (fuel : nat) :=
  basic_main unit stub_jit_enable stub_run_jit lbl (Some rom) (Some [0xDB]) None typed fuel (blank unit unit tt).
Definition labels : option string := Some (file_of [label 0xB000 ".COLD_START"]).

Lemma basic_main_breaks :
  let r := run_basic labels echo [0x48; 0x49; 0x0A] 1100 in
  r.1 = Ret 130 ∧ take 4 (output (io_get (bus r.2))) = [0x48; 0x49; 0x0D; 0x0D].
Proof. vm_compute. split; reflexivity. Qed.
Lemma basic_main_stops : (run_basic labels [0x4C; 0x02; 0xF0] [] 20).1 = Ret 0.
Proof. vm_compute. reflexivity. Qed.
Lemma basic_main_no_label : (run_basic (Some (file_of [label 0xB000 ".BREAK"])) echo [] 20).1 = Ret 1.
Proof. vm_compute. reflexivity. Qed.
End Stub.
